(* ===== verification/_CoqProject ===== *)
-Q . S2P
Prelude.v
Floats.v
Model.v
Selection.v
GoStrings.v
NetAddr.v
Alloc.v
Reconcile.v
Wireguard.v
Crypto.v
Json.v
JsonFacts.v
JsonFloats.v
Base64.v
GoTime.v
Strconv.v
Config.v
Sysload.v
Jwt.v
Ratelimit.v
Http.v
Agent.v
Db.v
Session.v
Migrate.v
Password.v
StoreGateways.v
StoreIdentity.v
StoreConnections.v
Schema.v
Facts.v
Steps.v
System.v
Demo.v
Seed.v
Executions.v
Connections.v
Identity.v
Registry.v
Lifecycle.v
Interleave.v
Overlap.v
Others.v
Stages.v
Contention.v
Progress.v
Races.v
Api.v
ApiDemo.v
ApiRules.v
ApiSafety.v
ApiReplies.v
ApiFlows.v
AgentCodec.v
AgentFlows.v
AgentRegister.v
AgentRestart.v
AgentDemo.v
Revocation.v
Probe.v
Tunnel.v
Control.v
