(* ===== verification/Prelude.v ===== *)
(** * Aevora: the Go control plane and the gateway agent

    Aevora is a VPN service. The control plane ([src/control-plane]) is an HTTP API over
    PostgreSQL: users enrol with invites and get devices and tokens, gateways register and
    report their load, and a client that asks for a connection is given a gateway and an
    address in its tunnel. The agent ([src/agent]) runs on each gateway: it reports load and
    makes the peers of the WireGuard interface those the control plane wants. This library
    models both programs from their sources, function by function, proves what each part
    promises, and composes them.

    ** The parts and the files

    Foundations: [Prelude] (tactics, hints, lists, finite maps, the outcome of fallible
    code), [Floats] (Go's float64 as executable binary64), [GoStrings], [Strconv], [GoTime],
    [NetAddr] (net, netip), [Crypto] (SHA-256, HMAC, hex, base64 text), [Base64], [Json],
    [JsonFacts], [JsonFloats] (encoding/json and its round trips).

    Control plane:
    - [Model]: internal/model/model.go; [Selection]: internal/selection/selection.go;
      [Config]: internal/config/config.go; [Jwt], [Password]: internal/auth/jwt.go and
      password.go; [Ratelimit]: internal/ratelimit/ratelimit.go.
    - [Db]: the rows and tables of internal/store/migrations; [Session]: the monad of the
      store's operations, statement by statement, auth/token.go, and Hoare triples;
      [Alloc]: allocateHost of store/connections.go; [StoreConnections], [StoreIdentity],
      [StoreGateways]: store/connections.go, identity.go, gateways.go with locations.go and
      observability.go; [Migrate]: Store.Migrate of store/store.go; [Seed]: its SeedDev and
      store/seed_dev.sql.
    - [Schema]: the invariant of the tables; [Facts]: what each compound operation does when
      it succeeds; [Steps], [System], [Executions]: the store as a transition system, its
      executions and one pass of the reaper; [Connections], [Identity], [Registry]: the
      contracts of the operations; [Lifecycle]: how a connection ends.
    - [Interleave]: transactions as programs of statements that run side by side, READ
      COMMITTED with row locks; [Overlap]: the store's four transactions (CreateConnection,
      Enroll, CreateDevice, RegisterGateway) as such programs, which run alone are what the
      other files take them for; [Others]: every other operation as what happens outside them; [Stages]: where a running transaction can be and what it holds
      there; [Contention]: what overlapping keeps; [Progress]: that it ends; [Races]: what it
      does not keep.
    - [Http], [Api]: internal/api/*.go, every handler, the middleware and the routing table,
      over the class [Store] of the operations they call ([pg_store] is the implementation);
      [ApiRules]: rules for reasoning about handlers; [ApiSafety], [ApiReplies], [ApiFlows]:
      what requests may do, what they are answered, what sequences of them achieve.
    - [Control]: run and main of cmd/aevora-controld/main.go, from the start to the shutdown,
      and the gauges of internal/metrics.

    Agent:
    - [Reconcile]: internal/reconcile/reconcile.go; [Wireguard]: internal/wg/wg.go;
      [Sysload]: internal/sysload/sysload.go; [Agent]: internal/cp/client.go, InsideIP of
      internal/probe/probe.go and cmd/aevora-agent/main.go; [Probe]: Serve of probe.go.
    - [AgentCodec]: the messages of the agent read by the API's decoders and the other way;
      [AgentFlows]: agent, interface and control plane as one system; [AgentRegister]: the
      first start of an agent; [AgentRestart]: after a clean shutdown; [Revocation]: from the
      revocation of a device to the interface; [Tunnel]: the addresses inside the tunnel on
      both sides.

    [Demo], [ApiDemo], [AgentDemo] are a concrete deployment, requests to it and an agent in
    front of it, on which the properties with hypotheses are witnessed.

    ** How the model corresponds to the code

    An operation of the store is a function of a clock reading ([Clock]: the server's and the
    process's) and a [session]: the tables, the outcome of each coming round trip to the
    server ([Fine]; [Lost], before it takes effect; [Late], after it), the ids the server
    will draw and the bytes crypto/rand will. An SQL statement is a function on the tables
    that checks the constraints the migrations declare. A transaction that does not commit
    leaves the tables as they were. Results are Go's: a value, an error of the sources'
    error values, or a panic ([Ok], [Err], [Panic]). Handlers are in the same monad; they
    return the status, the body and the counters they increment. The client of the agent
    sends through a parameter; [AgentFlows] instantiates it with [ServeHTTP] and a list of
    fates of the requests. The wg tool is a function of its arguments and the state of the
    interface.

    Operations of a [session] follow one another: each is one step of [System] and [Control],
    where the server runs them side by side. So the theorems about executions are about calls
    that do not overlap. [Interleave] is the finer model, for those that do. A system is the committed tables and the transactions
    that are running; a statement of one of them sees the committed rows and its own changes,
    first waits for the rows and the index entries it will write or lock, then reads them
    again; a commit copies the rows it wrote and frees its locks; deadlock, a lost connection and a rollback are one
    action, which forgets the transaction. Whatever else the store does, in statements that
    commit by themselves, are steps outside that touch no locked row.

    Integers are unbounded where the code cannot leave the width and are reduced where it
    can ([i64], [u64], [u32]; the sums of traffic counters, host numbers, jiffies). Strings
    are bytes. Instants and durations are nanoseconds; [Sub]
    saturates as Go's does.

    ** What the theorems show

    - The tables: every execution whose calls follow one another keeps the constraints, those
      the migrations declare and those only the code maintains ([Executions.reachable_wf]);
      so does the process as a whole, with whatever requests, reaper passes and failures one
      after the other, until it is shut down ([Control.control_plane_keeps_tables]); an invite
      is redeemed once, a revoked device stays revoked, an ended lease stays ended.
    - Connections: what a grant means, when it succeeds, what each error means; a connection
      goes on until its owner or the reaper ends it, whatever else is called and fails
      ([Lifecycle.connection_ends_for_a_reason]); the lowest
      free host is allocated; the best gateway is the first of maximal score, and the score
      lies in [0,1].
    - Overlapping transactions: the programs of statements are the transactions they stand
      for ([Overlap.program_alone]); in every interleaving no address is given out twice
      ([Contention.allocation_is_race_free]), no invite is redeemed twice and no name becomes
      two gateways' ([Contention.overlapping_requests_repeat_nothing]); they do not deadlock
      and each ends
      within fifteen steps ([Progress.overlapping_transactions_end]); but a device can end with two active
      connections, a gateway above its capacity, a revoked device with a connection, and a
      client with a key its gateway has given up ([Races.overlaps_break]).
    - Identity and registry: enrolment, refresh, revocation, also when interrupted; once a
      revocation is answered the device is out of the API for the requests that follow, and
      out of the gateway's interface at its agent's next sync
      ([Revocation.revoked_device_is_cut_off]);
      registration, rotation of node tokens, heartbeats.
    - The API: no request does more than its credentials allow, and none learns more, as its
      reply does not depend on the calls they do not allow ([ApiSafety.request_authorised]); a
      granted connection is served to its gateway ([ApiFlows.granted_connection_is_served]);
      every reply is well formed; tokens and passwords
      round-trip; the limiter refines one token bucket per client.
    - The agent: the plan is empty exactly when the tables agree; applying it brings the
      interface to the desired table; one tick in front of the control plane leaves the
      interface with exactly the granted peers, when no two of them share a route
      ([AgentFlows.tick_converges]); its first start
      registers the gateway and saves a live token ([AgentRegister.first_start_registers]),
      and a clean shutdown is for good ([AgentRestart.shutdown_is_final]); the dump parser
      reads what wg prints; the load reported is a percentage; the latency probe listens where
      clients are told to look, until the agent stops.
    - Start-up: migrations resume after interruptions; the development data is added once
      ([Seed.SeedDev_idempotent]); the environment is read back.

    ** Bounds and fuel

    Loops that are not structural take fuel, and each has enough: the search for a free host
    gets one more unit than there are used addresses ([Alloc.alloc_loop_fuel], so
    it never runs out); scanners of texts (JSON, durations,
    fields, base64, trimming) get the length of the text, of which every round consumes a
    byte; SHA-256 gets the number of words for blocks of 16.

    ** What is relied on

    Of PostgreSQL: transactions are atomic, unique constraints hold, and the class
    [Postgres] of what the server computes: input and output of uuid, cidr and inet values,
    the keys of citext, the collation, intervals, the order of unordered rows. [PostgresOrder]
    says that order is a permutation, [PostgresInet] that IPv4 addresses go through inet
    unchanged; nothing else about them is used. Of the wg tool: [WgDevice] (set, remove) and
    [WgShow] (dump); the tool would normalise a prefix with host bits, which the control plane
    never sends. Of golang.org/x/time/rate: [RateLaws]. Of golang.org/x/crypto/argon2:
    [Argon2Keys], a key has the length asked for and legal parameters do not panic. Of promhttp:
    nothing, its page is a parameter. Each class has an instance that satisfies it, used by
    the witnesses.

    ** Not modelled

    - Between two statements of an operation without a transaction (RevokeDevice,
      RefreshAccess) nothing else happens in [System] and [Control]; beside transactions such
      an operation is one step outside. The rows of one statement are taken together. An
      operation reads each clock once, and so does the limiter, where the code reads it
      twice. The shared locks of foreign keys have no part: the one statement they conflict
      with, the lock of the gateway's row in CreateConnection, belongs to the transaction
      that takes them.
    - Prometheus registration, log lines, the listening socket of the API; store.New
      and Close, which only call the driver; the two bounded contexts of start-up and shutdown
      (an expiry is a failed round trip).
    - Values the server rejects beyond the declared constraints are round trips that fail.
    - The path of a request arrives clean at the mux, as net/http redirects the others; a
      request that cannot be built and one that fails on the wire are one outcome.
    - A JSON array member given several times reuses the capacity of the slice decoded
      before in Go; in the model elements beyond the last length start from zero.
    - The applications and desktop services in Swift, Kotlin, Rust and C#. *)
From stdpp Require Export base gmap strings list sorting pretty.
From Stdlib Require Export ZArith Lia Ascii.

Declare Scope go_scope.
Delimit Scope go_scope with go.
Open Scope Z_scope.

(** ** Tactics of the development *)

(** [lia] also decides division and remainder by constants. *)
Ltac Zify.zify_post_hook ::= Z.to_euclidean_division_equations.

(** Split the conjunctions of the goal and close what is immediate. *)
Ltac splits := repeat match goal with |- _ ∧ _ => split end.

(** A [Forall] over an explicit list, element by element. *)
Ltac forall_list := repeat first [apply Forall_nil_2 | apply Forall_cons_2].

(** Case split on the scrutinee of the first [match]/[if] of a hypothesis. *)
Ltac break_match_in H :=
  match type of H with
  | context [match ?x with _ => _ end] =>
      lazymatch x with
      | context [match _ with _ => _ end] => fail
      | _ => let E := fresh "E" in destruct x eqn:E; simplify_eq/=
      end
  end.

(** Boolean tests of the code into propositions. *)
Ltac to_prop :=
  repeat match goal with
  | H : bool_decide _ = true |- _ => apply bool_decide_eq_true_1 in H
  | H : bool_decide _ = false |- _ => apply bool_decide_eq_false_1 in H
  | H : (_ && _)%bool = true |- _ => apply andb_true_iff in H as [? ?]
  | H : (_ || _)%bool = false |- _ => apply orb_false_iff in H as [? ?]
  | H : negb _ = true |- _ => apply negb_true_iff in H
  | H : negb _ = false |- _ => apply negb_false_iff in H
  | H : (_ <? _) = true |- _ => apply Z.ltb_lt in H
  | H : (_ <? _) = false |- _ => apply Z.ltb_ge in H
  | H : (_ <=? _) = true |- _ => apply Z.leb_le in H
  | H : (_ <=? _) = false |- _ => apply Z.leb_gt in H
  | H : (_ =? _) = true |- _ => apply Z.eqb_eq in H
  | H : (_ =? _) = false |- _ => apply Z.eqb_neq in H
  end.

(** ** Results of Go calls: a value, an error, or a run-time panic *)

Inductive result (E A : Type) : Type :=
| Ok (a : A)
| Err (e : E)
| Panic.
Arguments Ok {E A} a.
Arguments Err {E A} e.
Arguments Panic {E A}.

Definition is_ok {E A} (r : result E A) : bool := match r with Ok _ => true | _ => false end.

(** ** Machine integers: Go's [uint32], [uint64] and [int64] ([int] on the
    64-bit targets), as [Z] with the wrap-around written out. *)

Definition u32 (z : Z) : Z := z mod 2 ^ 32.
Definition u64 (z : Z) : Z := z mod 2 ^ 64.
Definition i64 (z : Z) : Z := (z + 2 ^ 63) mod 2 ^ 64 - 2 ^ 63.

Lemma u32_range z : 0 <= u32 z < 2 ^ 32.
Proof. apply Z.mod_pos_bound. lia. Qed.

Lemma u32_small z : 0 <= z < 2 ^ 32 -> u32 z = z.
Proof. unfold u32. intros. apply Z.mod_small. lia. Qed.

Lemma i64_small z : - 2 ^ 63 <= z < 2 ^ 63 -> i64 z = z.
Proof. unfold i64. intros. rewrite Z.mod_small; lia. Qed.

Lemma i64_range z : - 2 ^ 63 <= i64 z < 2 ^ 63.
Proof. unfold i64. pose proof (Z.mod_pos_bound (z + 2 ^ 63) (2 ^ 64)). lia. Qed.

(** ** Rows of a table updated by an SQL [UPDATE ... WHERE] *)

Section update_where.
Context {A : Type}.
Implicit Types (p : A -> bool) (f : A -> A) (m : gmap string A).

(** The rows that satisfy [p] are replaced by [f] of them. *)
Definition update_where p f m : gmap string A := (fun r => if p r then f r else r) <$> m.

(** The command tag's [RowsAffected]. *)
Definition rows_affected p m : Z := Z.of_nat (length (List.filter (fun kv => p kv.2) (map_to_list m))).

Lemma lookup_update_where p f m k :
  update_where p f m !! k = (fun r => if p r then f r else r) <$> (m !! k).
Proof. apply lookup_fmap. Qed.

Lemma rows_affected_zero p m :
  rows_affected p m = 0 <-> forall k r, m !! k = Some r -> p r = false.
Proof.
  unfold rows_affected. split.
  - intros H k r Hk.
    destruct (List.filter _ _) as [|x l] eqn:E; [|simpl in H; lia].
    destruct (p r) eqn:Hp; [|done]. exfalso.
    assert (Hin : In (k, r) (List.filter (fun kv : string * A => p kv.2) (map_to_list m))).
    { apply filter_In. split; [|done]. apply list_elem_of_In. by apply elem_of_map_to_list. }
    rewrite E in Hin. destruct Hin.
  - intros H. destruct (List.filter _ _) as [|[k r] l] eqn:E; [done|]. exfalso.
    assert (Hin : In (k, r) (List.filter (fun kv : string * A => p kv.2) (map_to_list m))).
    { rewrite E. by left. }
    apply filter_In in Hin as [Hin Hp]. apply list_elem_of_In, elem_of_map_to_list in Hin.
    simpl in Hp. rewrite (H _ _ Hin) in Hp. done.
Qed.

Lemma dom_update_where p f m : dom (update_where p f m) = dom m.
Proof. unfold update_where. apply dom_fmap_L. Qed.

Lemma update_where_none p f m :
  (forall k r, m !! k = Some r -> p r = false) -> update_where p f m = m.
Proof.
  intros H. apply map_eq. intros k. rewrite lookup_update_where.
  destruct (m !! k) as [r|] eqn:E; [|done]. simpl. by rewrite (H _ _ E).
Qed.

End update_where.

Create HintDb aevora.
Create Rewrite HintDb aevora.
#[export] Hint Rewrite @lookup_update_where @dom_update_where : aevora.
#[export] Hint Resolve u32_range i64_range : aevora.

(** ** Lists *)

Lemma filter_Permutation_bool {A} (f : A -> bool) (l1 l2 : list A) :
  l1 ≡ₚ l2 -> List.filter f l1 ≡ₚ List.filter f l2.
Proof.
  induction 1 as [|x l1 l2 H IH|x y l|l1 l2 l3 H1 IH1 H2 IH2]; simpl.
  - done.
  - destruct (f x); [by constructor|done].
  - destruct (f x), (f y); try done. constructor.
  - by rewrite IH1.
Qed.

(** A function that separates the keys of a list separates its elements. *)
Lemma NoDup_fmap_key {A B C} (key : A -> C) (f : A -> B) (l : list A) :
  NoDup (key <$> l) -> (forall x y, x ∈ l -> y ∈ l -> f x = f y -> key x = key y) -> NoDup (f <$> l).
Proof.
  induction l as [|x l IH]; intros Hnd Hf; [constructor|]. simpl in *.
  apply NoDup_cons in Hnd as [Hx Hnd]. apply NoDup_cons. split.
  - intros Hin. apply list_elem_of_fmap in Hin as (y & E & Hy). apply Hx. apply list_elem_of_fmap.
    exists y. split; [|done]. apply Hf; [by left|by right|done].
  - apply IH; [done|]. intros y z Hy Hz. apply Hf; by right.
Qed.

(** ** Searching a table *)

Section find_row.
Context {A : Type}.
Implicit Types (p : A -> bool) (m : gmap string A).

(** A row that satisfies [p], with its key. *)
Definition find_row p m : option (string * A) := List.find (fun kv => p kv.2) (map_to_list m).

Lemma find_row_Some p m k r : find_row p m = Some (k, r) -> m !! k = Some r /\ p r = true.
Proof.
  intros H. apply List.find_some in H as [Hin Hp]. split; [|done].
  by apply elem_of_map_to_list, list_elem_of_In.
Qed.

Lemma find_row_None p m : find_row p m = None <-> forall k r, m !! k = Some r -> p r = false.
Proof.
  split.
  - intros H k r Hk. apply (List.find_none _ _ H (k, r)).
    by apply list_elem_of_In, elem_of_map_to_list.
  - intros H. unfold find_row. destruct (List.find _ _) as [[k r]|] eqn:E; [|done].
    apply find_row_Some in E as [Hk Hp]. by rewrite (H k r Hk) in Hp.
Qed.

(** The rows that satisfy [p], in an arbitrary but fixed order. *)
Definition select_rows p m : list (string * A) := List.filter (fun kv => p kv.2) (map_to_list m).

Lemma elem_of_select_rows p m k r : (k, r) ∈ select_rows p m <-> m !! k = Some r /\ p r = true.
Proof.
  unfold select_rows. rewrite list_elem_of_In, filter_In, <- list_elem_of_In, elem_of_map_to_list. done.
Qed.

Lemma NoDup_select_rows p m : NoDup (fst <$> select_rows p m).
Proof.
  unfold select_rows. pose proof (NoDup_fst_map_to_list m) as H.
  induction (map_to_list m) as [|[k r] l IH]; simpl in *; [done|].
  apply NoDup_cons in H as [Hk Hl]. destruct (p r); [|auto]. simpl. apply NoDup_cons.
  split; [|auto]. intros Hin. apply Hk. apply list_elem_of_fmap in Hin as ([k' r'] & -> & Hin).
  apply list_elem_of_fmap. exists (k', r'). split; [done|].
  apply list_elem_of_In, filter_In in Hin as [Hin _]. by apply list_elem_of_In.
Qed.

End find_row.

(** ** Counting rows *)

Section counting.
Context {A : Type}.
Implicit Types (p : A -> bool) (m : gmap string A).

Lemma rows_affected_insert p m k r :
  m !! k = None -> rows_affected p (<[k := r]> m) = rows_affected p m + (if p r then 1 else 0).
Proof.
  intros Hk. unfold rows_affected.
  rewrite (filter_Permutation_bool _ _ _ (map_to_list_insert m k r Hk)). simpl.
  destruct (p r); simpl; lia.
Qed.

Lemma rows_affected_nonneg p m : 0 <= rows_affected p m.
Proof. unfold rows_affected. lia. Qed.

Lemma rows_affected_size p m : rows_affected p m <= Z.of_nat (size m).
Proof.
  unfold rows_affected. rewrite <- length_map_to_list. apply inj_le.
  induction (map_to_list m) as [|x l IH]; simpl; [done|]. destruct (p x.2); simpl; lia.
Qed.

Lemma rows_affected_select p m : rows_affected p m = Z.of_nat (length (select_rows p m)).
Proof. done. Qed.

Lemma rows_affected_pos p m : 0 < rows_affected p m <-> exists k r, m !! k = Some r /\ p r = true.
Proof.
  split.
  - intros Hpos. rewrite rows_affected_select in Hpos.
    destruct (select_rows p m) as [|[k r] rest] eqn:E; [simpl in Hpos; lia|].
    exists k, r. apply elem_of_select_rows. rewrite E. by left.
  - intros (k & r & Hk & Hp). pose proof (rows_affected_nonneg p m).
    destruct (Z.eq_dec (rows_affected p m) 0) as [Hz|]; [|lia].
    by rewrite (proj1 (rows_affected_zero p m) Hz k r Hk) in Hp.
Qed.

Lemma rows_affected_mono p q m :
  (forall k r, m !! k = Some r -> p r = true -> q r = true) -> rows_affected p m <= rows_affected q m.
Proof.
  intros Hpq. unfold rows_affected. apply inj_le.
  assert (Hl : forall kv, kv ∈ map_to_list m -> p kv.2 = true -> q kv.2 = true).
  { intros [k r] Hin. apply (Hpq k). by apply elem_of_map_to_list. }
  induction (map_to_list m) as [|x l IH]; simpl; [done|].
  assert (Hx := Hl x ltac:(left)). assert (IHl := IH (fun kv H => Hl kv (list_elem_of_further _ _ _ H))).
  destruct (p x.2); [rewrite Hx by done; simpl; lia|]. destruct (q x.2); simpl; lia.
Qed.

End counting.

Lemma size_list_to_set_le {A} `{Countable A} (l : list A) : (size (list_to_set l : gset A) <= length l)%nat.
Proof.
  induction l as [|x l IH]; [by rewrite list_to_set_nil, size_empty|]. rewrite list_to_set_cons. simpl length.
  rewrite size_union_alt. pose proof (subseteq_size (list_to_set l ∖ {[x]} : gset A) (list_to_set l)) as Hs.
  rewrite size_singleton. specialize (Hs ltac:(intros a; rewrite elem_of_difference; by intros [? _])). lia.
Qed.

(** ** Constraints between and within tables *)

Section constraints.
Context {R : Type}.
Implicit Types (m : gmap string R).

(** [m'] has no rows but those of [m], each changed at most along [rel]. *)
Definition narrows (rel : R -> R -> Prop) (m m' : gmap string R) : Prop :=
  forall k r', m' !! k = Some r' -> exists r, m !! k = Some r /\ rel r r'.

(** No two rows with the same key ([None]: the row is outside the index). *)
Definition unique {K} (key : R -> option K) m : Prop :=
  forall k1 k2 r1 r2 x, m !! k1 = Some r1 -> m !! k2 = Some r2 ->
    key r1 = Some x -> key r2 = Some x -> k1 = k2.

(** Every reference of a row is the primary key of a row of [parent]. *)
Definition refs {S} (fk : R -> option string) m (parent : gmap string S) : Prop :=
  forall k r x, m !! k = Some r -> fk r = Some x -> is_Some (parent !! x).

Definition all_rows (P : R -> Prop) m : Prop := forall k r, m !! k = Some r -> P r.

Lemma narrows_refl (rel : R -> R -> Prop) m : (forall r, rel r r) -> narrows rel m m.
Proof. intros H k r. eauto. Qed.

Lemma narrows_update_where (rel : R -> R -> Prop) p f m :
  (forall r, rel r r) -> (forall r, p r = true -> rel r (f r)) -> narrows rel m (update_where p f m).
Proof.
  intros Hrefl Hf k r'. rewrite lookup_update_where. destruct (m !! k) as [r|] eqn:E; [|done].
  simpl. intros [= <-]. exists r. split; [done|]. destruct (p r) eqn:Hp; auto.
Qed.

Lemma narrows_insert (rel : R -> R -> Prop) m k r r' :
  (forall r, rel r r) -> m !! k = Some r -> rel r r' -> narrows rel m (<[k := r']> m).
Proof.
  intros Hrefl Hk Hr k' r''. destruct (decide (k' = k)) as [->|Hne].
  - rewrite lookup_insert_eq. intros [= <-]. eauto.
  - rewrite lookup_insert_ne by done. eauto.
Qed.

Lemma narrows_impl (rel rel' : R -> R -> Prop) m m' :
  (forall r r', rel r r' -> rel' r r') -> narrows rel m m' -> narrows rel' m m'.
Proof. intros H Hn k r' Hk. destruct (Hn k r' Hk) as (r & ? & ?). eauto. Qed.

Lemma unique_narrows {K} (key : R -> option K) (rel : R -> R -> Prop) m m' :
  (forall r r' x, rel r r' -> key r' = Some x -> key r = Some x) ->
  narrows rel m m' -> unique key m -> unique key m'.
Proof.
  intros Hrel Hn Hu k1 k2 r1 r2 x H1 H2 E1 E2.
  destruct (Hn _ _ H1) as (s1 & S1 & T1). destruct (Hn _ _ H2) as (s2 & S2 & T2). eauto.
Qed.

Lemma unique_insert {K} (key : R -> option K) m k r :
  (forall k' r' x, m !! k' = Some r' -> key r' = Some x -> key r = Some x -> k' = k) ->
  unique key m -> unique key (<[k := r]> m).
Proof.
  intros Hk Hu k1 k2 r1 r2 x.
  destruct (decide (k1 = k)) as [->|H1], (decide (k2 = k)) as [->|H2];
    rewrite ?lookup_insert_eq, ?lookup_insert_ne by done; [done| | |].
  - intros [= <-] Hm E1 E2. symmetry. eauto.
  - intros Hm [= <-] E1 E2. eauto.
  - eauto.
Qed.

Lemma refs_narrows {S} (fk : R -> option string) (rel : R -> R -> Prop) m m' (parent : gmap string S) :
  (forall r r' x, rel r r' -> fk r' = Some x -> fk r = Some x) ->
  narrows rel m m' -> refs fk m parent -> refs fk m' parent.
Proof. intros Hrel Hn Hr k r' x Hk Hx. destruct (Hn _ _ Hk) as (r & ? & ?). eauto. Qed.

Lemma refs_insert {S} (fk : R -> option string) m k r (parent : gmap string S) :
  (forall x, fk r = Some x -> is_Some (parent !! x)) -> refs fk m parent -> refs fk (<[k := r]> m) parent.
Proof.
  intros Hx Hr k' r' x. destruct (decide (k' = k)) as [->|].
  - rewrite lookup_insert_eq. intros [= <-]. auto.
  - rewrite lookup_insert_ne by done. eauto.
Qed.

Lemma refs_parent {S} (fk : R -> option string) m (parent parent' : gmap string S) :
  (forall x, is_Some (parent !! x) -> is_Some (parent' !! x)) -> refs fk m parent -> refs fk m parent'.
Proof. intros H Hr k r x Hk Hx. eauto. Qed.

Lemma all_rows_narrows (P : R -> Prop) (rel : R -> R -> Prop) m m' :
  (forall r r', rel r r' -> P r -> P r') -> narrows rel m m' -> all_rows P m -> all_rows P m'.
Proof. intros Hrel Hn HP k r' Hk. destruct (Hn _ _ Hk) as (r & ? & ?). eauto. Qed.

Lemma all_rows_insert (P : R -> Prop) m k r : P r -> all_rows P m -> all_rows P (<[k := r]> m).
Proof.
  intros Hr HP k' r'. destruct (decide (k' = k)) as [->|].
  - rewrite lookup_insert_eq. by intros [= <-].
  - rewrite lookup_insert_ne by done. apply HP.
Qed.

Lemma is_Some_insert m k r x : is_Some (m !! x) -> is_Some (<[k := r]> m !! x).
Proof.
  intros Hx. destruct (decide (x = k)) as [->|].
  - rewrite lookup_insert_eq. eauto.
  - by rewrite lookup_insert_ne.
Qed.

Lemma is_Some_update_where p f m x : is_Some (m !! x) -> is_Some (update_where p f m !! x).
Proof. rewrite lookup_update_where. intros [r ->]. eauto. Qed.

End constraints.

#[export] Hint Resolve is_Some_insert is_Some_update_where : aevora.
