(* ===== verification/Floats.v ===== *)
(** IEEE 754 binary64 as the Go [float64] of the sources: the executable
    specification floats of the Standard Library at precision 53 and maximal
    exponent 1024, the conversions and comparisons the code uses, and the sign
    and NaN facts the scoring proofs need. *)
From S2P Require Import Prelude.
From Stdlib Require Export SpecFloat.

Abbreviation float64 := spec_float.

Definition Fadd : float64 -> float64 -> float64 := SFadd 53 1024.
Definition Fsub : float64 -> float64 -> float64 := SFsub 53 1024.
Definition Fmul : float64 -> float64 -> float64 := SFmul 53 1024.
Definition Fdiv : float64 -> float64 -> float64 := SFdiv 53 1024.
Definition Flt : float64 -> float64 -> bool := SFltb.

(** [float64(n)] for an integer [n]: round to nearest, ties to even. *)
Definition Fof_Z (n : Z) : float64 := binary_normalize 53 1024 n 0 false.

Definition Fzero : float64 := S754_zero false.
Definition Fone : float64 := S754_finite false 4503599627370496 (-52).
Definition Fminus_one : float64 := S754_finite true 4503599627370496 (-52).

#[export] Instance float64_eq_dec : EqDecision float64.
Proof. solve_decision. Defined.

Definition is_nan (f : float64) : bool := match f with S754_nan => true | _ => false end.

(** A number that is not below zero (a NaN is not one). *)
Definition nonneg (f : float64) : bool :=
  match f with
  | S754_zero _ => true
  | S754_infinity s | S754_finite s _ _ => negb s
  | S754_nan => false
  end.

(** A finite number that is not below zero. *)
Definition fin_nonneg (f : float64) : bool :=
  match f with
  | S754_zero _ => true
  | S754_finite s _ _ => negb s
  | _ => false
  end.

(** ** Comparison *)

Lemma Flt_trans a b c : Flt a b = true -> Flt b c = true -> Flt a c = true.
Proof.
  unfold Flt, SFltb. intros H1 H2.
  destruct a as [sa|sa| |sa ma ea], b as [sb|sb| |sb mb eb], c as [sc|sc| |sc mc ec];
    try done; destruct sa, sb, sc; try done; simpl in *.
  all: change (Pos.compare_cont Eq ma mb) with (Pos.compare ma mb) in *;
    try change (Pos.compare_cont Eq mb mc) with (Pos.compare mb mc) in *;
    change (Pos.compare_cont Eq ma mc) with (Pos.compare ma mc) in *.
  all: destruct (Z.compare_spec ea eb), (Z.compare_spec eb ec), (Z.compare_spec ea ec);
    try done; try lia.
  all: destruct (Pos.compare_spec ma mb), (Pos.compare_spec mb mc), (Pos.compare_spec ma mc);
    try done; try lia.
Qed.

(** Numbers are weakly ordered: what is not above [a] is below what is above [a]. *)
Lemma Flt_weak a b c :
  is_nan c = false -> Flt a b = true -> Flt a c = false -> Flt c b = true.
Proof.
  unfold Flt, SFltb. intros Hc H1 H2.
  destruct a as [sa|sa| |sa ma ea], b as [sb|sb| |sb mb eb], c as [sc|sc| |sc mc ec];
    try done; destruct sa, sb, sc; try done; simpl in *.
  all: change (Pos.compare_cont Eq ma mb) with (Pos.compare ma mb) in *;
    change (Pos.compare_cont Eq mc mb) with (Pos.compare mc mb);
    change (Pos.compare_cont Eq ma mc) with (Pos.compare ma mc) in *.
  all: destruct (Z.compare_spec ea eb), (Z.compare_spec ec eb), (Z.compare_spec ea ec);
    try done; try lia.
  all: destruct (Pos.compare_spec ma mb), (Pos.compare_spec mc mb), (Pos.compare_spec ma mc);
    try done; try lia.
Qed.

Lemma Flt_irrefl a : Flt a a = false.
Proof.
  destruct a as [[]|[]| |[] m e]; try done;
  unfold Flt, SFltb; simpl; change (Pos.compare_cont Eq m m) with (Pos.compare m m);
  by rewrite Z.compare_refl, Pos.compare_refl.
Qed.

Lemma Flt_minus_one_nonneg f : nonneg f = true -> Flt Fminus_one f = true.
Proof. by destruct f as [[]|[]| |[] m e]. Qed.

(** ** Rounding never produces a NaN and keeps the sign it is given *)

Lemma shr_1_nonneg r : 0 <= shr_m r -> 0 <= shr_m (shr_1 r).
Proof. destruct r as [m b s]. simpl. destruct m as [|p|p]; [done| |lia]. by destruct p. Qed.

Lemma iter_shr_nonneg p r : 0 <= shr_m r -> 0 <= shr_m (iter_pos shr_1 p r).
Proof. revert r. induction p; intros r H; simpl; auto using shr_1_nonneg. Qed.

Lemma shr_fexp_nonneg m e l :
  0 <= m -> 0 <= shr_m (shr_fexp 53 1024 m e l).1.
Proof.
  intros Hm. unfold shr_fexp, shr.
  assert (0 <= shr_m (shr_record_of_loc m l)) by (by destruct l as [|[]]).
  case_match; simpl; [done| |done]. by apply iter_shr_nonneg.
Qed.

Lemma round_nearest_even_nonneg m l : 0 <= m -> 0 <= round_nearest_even m l.
Proof. intros. destruct l as [|[]]; simpl; try case_match; lia. Qed.

(** The shape of a rounded number: signed as given, never a NaN. *)
Definition signed_as (s : bool) (f : float64) : Prop :=
  match f with
  | S754_zero s' | S754_infinity s' | S754_finite s' _ _ => s' = s
  | S754_nan => False
  end.

Lemma binary_round_aux_signed s m e l :
  0 <= m -> signed_as s (binary_round_aux 53 1024 s m e l).
Proof.
  intros Hm. unfold binary_round_aux.
  destruct (shr_fexp 53 1024 m e l) as [r1 e1] eqn:E1.
  assert (H1 : 0 <= shr_m r1) by (pose proof (shr_fexp_nonneg m e l Hm) as H; by rewrite E1 in H).
  destruct (shr_fexp 53 1024 (round_nearest_even (shr_m r1) (loc_of_shr_record r1)) e1 loc_Exact)
    as [r2 e2] eqn:E2.
  assert (H2 : 0 <= shr_m r2).
  { pose proof (shr_fexp_nonneg (round_nearest_even (shr_m r1) (loc_of_shr_record r1)) e1 loc_Exact) as H.
    rewrite E2 in H. apply H. by apply round_nearest_even_nonneg. }
  destruct (shr_m r2) as [|p|p]; [done| |lia]. by case_match.
Qed.

Lemma signed_false_nonneg f : signed_as false f -> nonneg f = true.
Proof. by destruct f; simpl; intros; subst. Qed.

Lemma binary_round_signed s m e : signed_as s (binary_round 53 1024 s m e).
Proof. unfold binary_round. case_match. apply binary_round_aux_signed. lia. Qed.

Lemma binary_normalize_not_nan m e s : is_nan (binary_normalize 53 1024 m e s) = false.
Proof.
  destruct m as [|p|p]; [done| |]; simpl.
  - pose proof (binary_round_signed false p e) as H. by destruct (binary_round _ _ _ _ _).
  - pose proof (binary_round_signed true p e) as H. by destruct (binary_round _ _ _ _ _).
Qed.

Lemma Fof_Z_nonneg n : 0 <= n -> nonneg (Fof_Z n) = true.
Proof.
  intros. unfold Fof_Z. destruct n as [|p|p]; [done| |lia].
  apply signed_false_nonneg, binary_round_signed.
Qed.

Lemma Fof_Z_not_nan n : is_nan (Fof_Z n) = false.
Proof. apply binary_normalize_not_nan. Qed.

Lemma Fmul_fin_nonneg a b : fin_nonneg a = true -> fin_nonneg b = true -> nonneg (Fmul a b) = true.
Proof.
  intros Ha Hb. destruct a as [sa|sa| |[] ma ea], b as [sb|sb| |[] mb eb]; try done.
  apply signed_false_nonneg. apply (binary_round_aux_signed false). lia.
Qed.

Lemma Fadd_nonneg a b : nonneg a = true -> nonneg b = true -> nonneg (Fadd a b) = true.
Proof.
  intros Ha Hb.
  destruct a as [[]|[]| |[] ma ea], b as [[]|[]| |[] mb eb]; try done.
  unfold Fadd, SFadd, cond_Zopp. set (x := Z.add _ _).
  assert (0 < x) by (unfold x; lia). destruct x; [lia| |lia].
  apply signed_false_nonneg, binary_round_signed.
Qed.

(** ** Size of a mantissa and the right shift of the rounding *)

Lemma digits2_pos_size p : digits2_pos p = Pos.size p.
Proof. induction p; simpl; congruence. Qed.

Lemma digits2_pos_bounds p :
  2 ^ (Z.pos (digits2_pos p) - 1) <= Z.pos p < 2 ^ Z.pos (digits2_pos p).
Proof.
  rewrite digits2_pos_size. split.
  - pose proof (Pos.size_le p) as H.
    apply Pos2Z.pos_le_pos in H. rewrite Pos2Z.inj_pow in H.
    replace (Z.pos (Pos.size p)) with (Z.succ (Z.pos (Pos.size p) - 1)) in H by lia.
    rewrite Z.pow_succ_r in H by lia. lia.
  - pose proof (Pos.size_gt p) as H. apply Pos2Z.pos_lt_pos in H. by rewrite Pos2Z.inj_pow in H.
Qed.

Lemma digits2_pos_unique p d :
  0 < d -> 2 ^ (d - 1) <= Z.pos p < 2 ^ d -> Z.pos (digits2_pos p) = d.
Proof.
  intros Hd [H1 H2]. pose proof (digits2_pos_bounds p) as [H3 H4].
  assert (d - 1 < Z.pos (digits2_pos p)) by (apply (Z.pow_lt_mono_r_iff 2); lia).
  assert (Z.pos (digits2_pos p) - 1 < d) by (apply (Z.pow_lt_mono_r_iff 2); lia).
  lia.
Qed.

Lemma shr_1_m r : 0 <= shr_m r -> shr_m (shr_1 r) = shr_m r / 2.
Proof.
  destruct r as [m b s]. simpl. intros. destruct m as [|p|p]; [done| |lia].
  destruct p; simpl; lia.
Qed.

Lemma iter_shr_m p r : 0 <= shr_m r -> shr_m (iter_pos shr_1 p r) = shr_m r / 2 ^ Z.pos p.
Proof.
  revert r. induction p as [p IH|p IH|]; intros r H; simpl.
  - rewrite !IH, shr_1_m by auto using shr_1_nonneg, iter_shr_nonneg.
    rewrite !Z.div_div by lia. f_equal.
    rewrite (Pos2Z.inj_xI p), !Z.pow_add_r, Z.pow_twice_r by lia. lia.
  - rewrite !IH by auto using iter_shr_nonneg. rewrite Z.div_div by lia. f_equal.
    by rewrite (Pos2Z.inj_xO p), Z.pow_twice_r.
  - by rewrite shr_1_m.
Qed.

Lemma shr_fexp_m m e l n :
  0 <= m -> n = Z.max 0 (fexp 53 1024 (Zdigits2 m + e) - e) ->
  shr_m (shr_fexp 53 1024 m e l).1 = m / 2 ^ n /\ (shr_fexp 53 1024 m e l).2 = e + n.
Proof.
  intros Hm ->. unfold shr_fexp, shr.
  assert (Hr : shr_m (shr_record_of_loc m l) = m) by (by destruct l as [|[]]).
  set (k := fexp 53 1024 (Zdigits2 m + e) - e).
  destruct k as [|p|p]; simpl.
  - rewrite Hr, Z.div_1_r. lia.
  - rewrite iter_shr_m by lia. by rewrite Hr.
  - rewrite Hr, Z.div_1_r. lia.
Qed.

(** An exact record stays exact when only zero bits are shifted out. *)
Lemma shr_1_exact r :
  0 <= shr_m r -> shr_m r mod 2 = 0 -> loc_of_shr_record r = loc_Exact ->
  loc_of_shr_record (shr_1 r) = loc_Exact.
Proof.
  destruct r as [m b s]. simpl. intros Hm H2 Hl.
  destruct b, s; try done. destruct m as [|[p|p|]|p]; try done; lia.
Qed.

Lemma mod_pow_split m a b :
  0 <= a -> 0 <= b -> m mod 2 ^ (a + b) = 0 -> m mod 2 ^ a = 0 /\ (m / 2 ^ a) mod 2 ^ b = 0.
Proof.
  intros Ha Hb H. rewrite Z.pow_add_r in H by lia.
  apply Z.mod_divide in H as [k ->]; [|nia].
  assert (0 < 2 ^ a) by lia. assert (0 < 2 ^ b) by lia. split.
  - rewrite (Z.mul_comm (2 ^ a)), Z.mul_assoc. apply Z.mod_mul. lia.
  - rewrite (Z.mul_comm (2 ^ a)), Z.mul_assoc, Z.div_mul by lia. apply Z.mod_mul. lia.
Qed.

Lemma iter_shr_exact p r :
  0 <= shr_m r -> shr_m r mod 2 ^ Z.pos p = 0 -> loc_of_shr_record r = loc_Exact ->
  loc_of_shr_record (iter_pos shr_1 p r) = loc_Exact.
Proof.
  revert r. induction p as [p IH|p IH|]; intros r Hm H Hl; simpl.
  - replace (Z.pos p~1) with (1 + (Z.pos p + Z.pos p)) in H by lia.
    apply mod_pow_split in H as [H1 H2]; [|lia..].
    apply mod_pow_split in H2 as [H2 H3]; [|lia..]. change (2 ^ 1) with 2 in *.
    rewrite <- shr_1_m in H2, H3 by done.
    assert (0 <= shr_m (shr_1 r)) by auto using shr_1_nonneg.
    apply IH; [auto using iter_shr_nonneg|by rewrite iter_shr_m|].
    apply IH; auto using shr_1_exact.
  - replace (Z.pos p~0) with (Z.pos p + Z.pos p) in H by lia.
    apply mod_pow_split in H as [H1 H2]; [|lia..].
    apply IH; [auto using iter_shr_nonneg|by rewrite iter_shr_m|]. by apply IH.
  - by apply shr_1_exact.
Qed.

Lemma shr_fexp_exact m e n :
  0 <= m -> n = Z.max 0 (fexp 53 1024 (Zdigits2 m + e) - e) -> m mod 2 ^ n = 0 ->
  loc_of_shr_record (shr_fexp 53 1024 m e loc_Exact).1 = loc_Exact.
Proof.
  intros Hm -> H. unfold shr_fexp, shr.
  set (k := fexp 53 1024 (Zdigits2 m + e) - e) in *.
  destruct k as [|p|p]; simpl; [done| |done]. by apply iter_shr_exact.
Qed.

Lemma Zdigits2_le m k : 0 <= m -> 0 <= k -> m < 2 ^ k -> Zdigits2 m <= k.
Proof.
  intros Hm Hk H. destruct m as [|p|p]; simpl; [lia| |lia].
  pose proof (digits2_pos_bounds p) as [H1 _].
  assert (Z.pos (digits2_pos p) - 1 < k) by (apply (Z.pow_lt_mono_r_iff 2); lia). lia.
Qed.

Lemma lt_pow_Zdigits2 m : 0 <= m -> m < 2 ^ Zdigits2 m.
Proof.
  destruct m as [|p|p]; simpl; [lia| |lia]. intros _. apply digits2_pos_bounds.
Qed.

(** What rounding does: with [n] bits shifted out, the mantissa [R] is the
    quotient or the quotient plus one (the quotient when the input is exact),
    and the result is [R] at exponent [e + n], renormalised when [R] is [2^53]. *)
Definition rounded (s : bool) (R e : Z) : float64 :=
  match R with
  | Z.pos p =>
      if R <? 2 ^ 53 then if e <=? 971 then S754_finite s p e else S754_infinity s
      else if e + 1 <=? 971 then S754_finite s 4503599627370496 (e + 1) else S754_infinity s
  | _ => S754_zero s
  end.

Lemma shift_quotient_small m e n :
  0 <= m -> n = Z.max 0 (fexp 53 1024 (Zdigits2 m + e) - e) ->
  0 <= m / 2 ^ n < 2 ^ 53 /\ -1074 <= e + n.
Proof.
  intros Hm Hn. unfold fexp, emin in Hn.
  assert (Hd : Zdigits2 m - 53 <= n) by lia. split; [|lia].
  assert (Hn0 : 0 <= n) by lia.
  split; [apply Z.div_pos; lia|]. apply Z.div_lt_upper_bound; [lia|].
  pose proof (lt_pow_Zdigits2 m Hm) as H.
  rewrite <- Z.pow_add_r by lia.
  eapply Z.lt_le_trans; [exact H|]. apply Z.pow_le_mono_r; lia.
Qed.

(** The second shift of the rounding only renormalises [2^53]. *)
Lemma second_shift R e :
  0 <= R <= 2 ^ 53 -> -1074 <= e ->
  let r := shr_fexp 53 1024 R e loc_Exact in
  shr_m r.1 = (if R <? 2 ^ 53 then R else 2 ^ 52) /\ r.2 = (if R <? 2 ^ 53 then e else e + 1).
Proof.
  intros HR He r. destruct (shr_fexp_m R e loc_Exact _ ltac:(lia) eq_refl) as [H1 H2].
  subst r. rewrite H1, H2. clear H1 H2.
  destruct (Z.ltb_spec R (2 ^ 53)) as [Hlt|Hge].
  - pose proof (Zdigits2_le R 53 ltac:(lia) ltac:(lia) Hlt).
    rewrite Z.max_l by (unfold fexp, emin; lia). rewrite Z.div_1_r. lia.
  - assert (R = 2 ^ 53) as -> by lia. change (Zdigits2 (2 ^ 53)) with 54.
    rewrite Z.max_r by (unfold fexp, emin; lia).
    replace (fexp 53 1024 (54 + e) - e) with 1 by (unfold fexp, emin; lia). done.
Qed.

Lemma round_shape s m e l n :
  0 <= m -> n = Z.max 0 (fexp 53 1024 (Zdigits2 m + e) - e) ->
  exists R, m / 2 ^ n <= R <= m / 2 ^ n + 1 /\ R <= 2 ^ 53 /\ -1074 <= e + n /\
    (l = loc_Exact -> m mod 2 ^ n = 0 -> R = m / 2 ^ n) /\
    binary_round_aux 53 1024 s m e l = rounded s R (e + n).
Proof.
  intros Hm Hn.
  destruct (shift_quotient_small m e n Hm Hn) as [Hq He].
  destruct (shr_fexp_m m e l n Hm Hn) as [Hsm Hse].
  pose proof (shr_fexp_exact m e n Hm Hn) as Hex.
  unfold binary_round_aux.
  destruct (shr_fexp 53 1024 m e l) as [r1 e1] eqn:E1. simpl in Hsm, Hse. subst e1.
  set (R := round_nearest_even (shr_m r1) (loc_of_shr_record r1)).
  assert (HR : m / 2 ^ n <= R <= m / 2 ^ n + 1).
  { subst R. rewrite Hsm. destruct (loc_of_shr_record r1) as [|[]]; simpl; try case_match; lia. }
  exists R. splits; try lia.
  - intros -> Hdiv. specialize (Hex Hdiv). rewrite E1 in Hex. simpl in Hex.
    subst R. by rewrite Hex.
  - destruct (second_shift R (e + n)) as [H1 H2]; [lia|lia|].
    destruct (shr_fexp 53 1024 R (e + n) loc_Exact) as [r2 e2]. simpl in H1, H2. subst e2.
    rewrite H1. unfold rounded. destruct R as [|p|p]; [done| |lia].
    destruct (Z.pos p <? 2 ^ 53); [done|]. done.
Qed.

(** ** Upper bounds survive rounding *)

(** [f] is a finite number in [0, mb * 2 ^ eb], with a binary64 mantissa. *)
Definition upto (mb eb : Z) (f : float64) : Prop :=
  match f with
  | S754_zero s => True
  | S754_finite false m e => e <= eb /\ Z.pos m <= mb * 2 ^ (eb - e) /\ Z.pos m < 2 ^ 53
  | _ => False
  end.

Lemma upto_fin_nonneg mb eb f : upto mb eb f -> fin_nonneg f = true.
Proof. by destruct f as [|[]| |[] m e]. Qed.

Lemma upto_le_bound (m e mb eb : Z) (l : location) :
  0 <= m -> 2 ^ 52 <= mb < 2 ^ 53 -> -1074 <= eb <= 971 -> e <= eb ->
  m <= mb * 2 ^ (eb - e) -> (l <> loc_Exact -> m < mb * 2 ^ (eb - e)) ->
  upto mb eb (binary_round_aux 53 1024 false m e l).
Proof.
  intros Hm Hmb Heb He Hle Hlt.
  set (n := Z.max 0 (fexp 53 1024 (Zdigits2 m + e) - e)).
  destruct (round_shape false m e l n Hm eq_refl) as (R & HR & HR53 & He1 & Hexact & ->).
  (* the rounding exponent does not exceed the bound's *)
  assert (He1b : e + n <= eb).
  { destruct (Z.eq_dec m 0) as [->|Hm0]; [subst n; unfold fexp, emin; simpl; lia|].
    assert (Hd : Zdigits2 m <= 53 + (eb - e)).
    { apply Zdigits2_le; [lia|lia|]. rewrite Z.pow_add_r by lia. nia. }
    subst n. unfold fexp, emin. lia. }
  assert (Hn : 0 <= n) by (subst n; lia).
  set (Q := mb * 2 ^ (eb - (e + n))).
  assert (HQ : mb * 2 ^ (eb - e) = Q * 2 ^ n).
  { subst Q. rewrite <- Z.mul_assoc, <- Z.pow_add_r by lia. do 2 f_equal. lia. }
  assert (HRQ : R <= Q).
  { rewrite HQ in Hle, Hlt.
    destruct (Z.eq_dec (m mod 2 ^ n) 0) as [Hz|Hz]; [destruct l as [|c]|].
    - rewrite (Hexact eq_refl Hz). apply Z.div_le_upper_bound; lia.
    - assert (m / 2 ^ n < Q) by (apply Z.div_lt_upper_bound; [lia|]; specialize (Hlt ltac:(done)); lia).
      lia.
    - assert (m < Q * 2 ^ n).
      { destruct (Z.eq_dec m (Q * 2 ^ n)) as [E|]; [|lia]. rewrite E, Z.mod_mul in Hz; lia. }
      assert (m / 2 ^ n < Q) by (apply Z.div_lt_upper_bound; lia). lia. }
  assert (HR0 : 0 <= R) by (pose proof (Z.div_pos m (2 ^ n)); lia).
  unfold rounded. clear Hexact HR HR53.
  destruct R as [|p|p]; [done| |lia].
  destruct (Z.ltb_spec (Z.pos p) (2 ^ 53)) as [Hp|Hp].
  - destruct (Z.leb_spec (e + n) 971); [|lia]. simpl. subst Q. lia.
  - assert (e + n < eb).
    { destruct (Z.eq_dec (e + n) eb) as [Heq|]; [|lia]. subst Q. rewrite Heq, Z.sub_diag in HRQ. lia. }
    destruct (Z.leb_spec (e + n + 1) 971); [|lia]. simpl. splits; [lia| |lia].
    assert (1 <= 2 ^ (eb - (e + n + 1))) by (pose proof (Z.pow_pos_nonneg 2 (eb - (e + n + 1))); lia).
    nia.
Qed.

Lemma iter_xO p d : Z.pos (Pos.iter xO p d) = Z.pos p * 2 ^ Z.pos d.
Proof.
  induction d using Pos.peano_ind; [simpl; lia|]. rewrite Pos.iter_succ, Pos2Z.inj_succ, Z.pow_succ_r by lia. lia.
Qed.

Lemma upto_round (p : positive) (e mb eb : Z) :
  2 ^ 52 <= mb < 2 ^ 53 -> -1074 <= eb <= 971 -> e <= eb ->
  Z.pos p <= mb * 2 ^ (eb - e) -> upto mb eb (binary_round 53 1024 false p e).
Proof.
  intros. unfold binary_round.
  destruct (shl_align p e (fexp 53 1024 (Z.pos (digits2_pos p) + e))) as [mz ez] eqn:E.
  unfold shl_align in E.
  destruct (Z.sub (fexp 53 1024 (Z.pos (digits2_pos p) + e)) e) as [|d|d] eqn:Ed; simplify_eq.
  1,2: by apply upto_le_bound; try lia.
  set (f := fexp _ _ _) in *.
  apply upto_le_bound; try lia; try done. rewrite iter_xO.
  replace (eb - f) with (eb - e + Z.pos d) by lia. rewrite Z.pow_add_r by lia. nia.
Qed.

Abbreviation upto_one := (upto 4503599627370496 (-52)).

Lemma Flt_finite_pos m1 e1 m2 e2 :
  Flt (S754_finite false m1 e1) (S754_finite false m2 e2) =
  match e1 ?= e2 with Lt => true | Gt => false | Eq => (m1 <? m2)%positive end.
Proof.
  unfold Flt, SFltb, SFcompare, Pos.ltb.
  change (Pos.compare_cont Eq m1 m2) with (Pos.compare m1 m2).
  by destruct (Z.compare e1 e2), (Pos.compare m1 m2).
Qed.

Lemma upto_le c ec f : upto (Z.pos c) ec f -> Flt (S754_finite false c ec) f = false.
Proof.
  destruct f as [|[]| |[] m e]; try done. intros (He & Hm & _).
  rewrite Flt_finite_pos.
  destruct (Z.compare_spec ec e) as [<-|Hlt|Hlt]; [|lia|done].
  rewrite Z.sub_diag in Hm. apply Pos.ltb_ge. lia.
Qed.

Lemma le_upto c ec f :
  nonneg f = true -> Flt (S754_finite false c ec) f = false -> 2 ^ 52 <= Z.pos c ->
  (forall s m e, f = S754_finite s m e -> Z.pos m < 2 ^ 53) -> upto (Z.pos c) ec f.
Proof.
  intros Hn Hle Hc Hv. destruct f as [|[]| |[] m e]; try done. specialize (Hv _ _ _ eq_refl).
  rewrite Flt_finite_pos in Hle.
  destruct (Z.compare_spec ec e) as [<-|Hlt|Hlt]; [|done|].
  - apply Pos.ltb_ge in Hle. cbn [upto]. splits; [lia| |done]. rewrite Z.sub_diag. lia.
  - cbn [upto]. splits; [lia| |done].
    pose proof (Z.pow_le_mono_r 2 1 (ec - e) eq_refl ltac:(lia)) as Hk.
    set (k := 2 ^ (ec - e)) in *. clearbody k. nia.
Qed.

(** A factor in [0, 1] does not push a product above the other factor. *)
Lemma Fmul_upto (mw : positive) (ew : Z) f :
  2 ^ 52 <= Z.pos mw < 2 ^ 53 -> -1074 <= ew <= 971 -> upto_one f ->
  upto (Z.pos mw) ew (Fmul (S754_finite false mw ew) f).
Proof.
  intros Hmw Hew Hf. destruct f as [|[]| |[] m e]; try done. destruct Hf as (He & Hm & _).
  unfold Fmul. simpl. apply upto_le_bound; try lia.
  - rewrite Pos2Z.inj_mul. replace (ew - (ew + e)) with ((-52 - e) + 52) by lia.
    rewrite Z.pow_add_r by lia. nia.
  - done.
Qed.

Lemma upto_weaken (m e m' e' : Z) f :
  e <= e' -> 0 <= m -> 0 <= m' -> m <= m' * 2 ^ (e' - e) -> upto m e f -> upto m' e' f.
Proof.
  intros He Hm0 Hm'0 Hm. destruct f as [|[]| |[] mf ef]; try done. simpl. intros (H1 & H2 & H3).
  splits; [lia| |done]. replace (e' - ef) with ((e' - e) + (e - ef)) by lia.
  rewrite Z.pow_add_r by lia. assert (0 < 2 ^ (e - ef)) by lia. nia.
Qed.

(** Two numbers bounded by [ma * 2^-53] and [mb * 2^-54] have a sum in [0, 1]
    when the exact sum of the bounds is at most 1. *)
Lemma Fadd_upto_one ma mb a b :
  upto ma (-53) a -> upto mb (-54) b -> 0 <= ma -> 0 <= mb -> 2 * ma + mb <= 2 ^ 54 ->
  upto_one (Fadd a b).
Proof.
  intros Ha Hb Hma Hmb Hsum.
  assert (Ha1 : upto_one a) by (eapply upto_weaken, Ha; lia).
  assert (Hb1 : upto_one b) by (eapply upto_weaken, Hb; lia).
  destruct a as [[]|[]| |[] pa ea], b as [[]|[]| |[] pb eb]; try done.
  destruct Ha as (Hea & Hpa & _), Hb as (Heb & Hpb & _).
  unfold Fadd, SFadd, cond_Zopp. set (z := Z.min ea eb).
  assert (Hal : forall p e, z <= e -> Z.pos (fst (shl_align p e z)) = Z.pos p * 2 ^ (e - z)).
  { clear. intros p e Hz. unfold shl_align. destruct (Z.sub z e) as [|d|d] eqn:Ed; [|lia|]; simpl.
    - replace (e - z) with 0 by lia. lia.
    - replace (e - z) with (Z.pos d) by lia. apply iter_xO. }
  rewrite !Hal by lia.
  assert (HA : Z.pos pa * 2 ^ (ea - z) <= 2 * ma * 2 ^ (-54 - z)).
  { replace (2 * ma * 2 ^ (-54 - z)) with (ma * 2 ^ (-53 - z)).
    - replace (-53 - z) with ((-53 - ea) + (ea - z)) by lia. rewrite Z.pow_add_r by lia.
      assert (0 < 2 ^ (ea - z)) by lia. nia.
    - replace (-53 - z) with (1 + (-54 - z)) by lia. rewrite Z.pow_add_r by lia. lia. }
  assert (HB : Z.pos pb * 2 ^ (eb - z) <= mb * 2 ^ (-54 - z)).
  { replace (-54 - z) with ((-54 - eb) + (eb - z)) by lia. rewrite Z.pow_add_r by lia.
    assert (0 < 2 ^ (eb - z)) by lia. nia. }
  assert (0 < 2 ^ (ea - z) /\ 0 < 2 ^ (eb - z)) as [] by lia.
  set (x := Z.pos pa * 2 ^ (ea - z) + Z.pos pb * 2 ^ (eb - z)) in *.
  assert (Hx : 0 < x) by nia.
  assert (Hx1 : x <= 4503599627370496 * 2 ^ (-52 - z)).
  { replace (-52 - z) with (2 + (-54 - z)) by lia. rewrite Z.pow_add_r by lia.
    assert (0 < 2 ^ (-54 - z)) by lia. change (2 ^ 2) with 4. nia. }
  destruct x as [|p|p]; [lia| |lia]. apply upto_round; lia.
Qed.

(** A quotient of a number by one at least as large stays in [0, 1]. *)
Lemma Fdiv_upto (m2 : positive) (e2 : Z) f :
  2 ^ 52 <= Z.pos m2 < 2 ^ 53 -> upto (Z.pos m2) e2 f -> upto_one (Fdiv f (S754_finite false m2 e2)).
Proof.
  intros Hm2. destruct f as [[]|[]| |[] m e]; try done. intros (He & Hm & Hm53).
  unfold Fdiv, SFdiv, SFdiv_core_binary.
  assert (Hd2 : Zdigits2 (Z.pos m2) = 53) by (apply digits2_pos_unique; lia). rewrite Hd2.
  set (e' := Z.min _ (e - e2)).
  assert (Hd : Zdigits2 (Z.pos m) <= 53 + (e2 - e)).
  { apply Zdigits2_le; [lia|lia|]. rewrite Z.pow_add_r by lia. eapply Z.le_lt_trans; [exact Hm|].
    apply Z.mul_lt_mono_pos_r; lia. }
  assert (He' : e' <= -52) by (subst e'; unfold fexp, emin; lia).
  assert (Hs : 0 <= e - e2 - e') by (subst e'; lia).
  replace (match e - e2 - e' with 0 => _ | Z.pos _ => _ | Z.neg _ => _ end)
    with (Z.pos m * 2 ^ (e - e2 - e')).
  2: { destruct (e - e2 - e'); [lia| |lia]. symmetry. by apply Z.shiftl_mul_pow2. }
  clearbody e'. set (s := e - e2 - e') in *.
  pose proof (Z_div_mod (Z.pos m * 2 ^ s) (Z.pos m2) ltac:(lia)) as Hdm.
  destruct (Z.div_eucl (Z.pos m * 2 ^ s) (Z.pos m2)) as [q r].
  destruct Hdm as [Hq Hr].
  assert (HB : Z.pos m * 2 ^ s <= Z.pos m2 * (4503599627370496 * 2 ^ (-52 - e'))).
  { change 4503599627370496 with (2 ^ 52). rewrite <- !Z.pow_add_r by lia.
    replace (52 + (-52 - e')) with ((e2 - e) + s) by lia. rewrite Z.pow_add_r by lia.
    assert (0 < 2 ^ s) by lia. nia. }
  set (K := 4503599627370496 * 2 ^ (-52 - e')) in *.
  assert (0 <= q) by (assert (0 < 2 ^ s) by lia; nia).
  apply upto_le_bound; try lia; [apply (Z.mul_le_mono_pos_l _ _ (Z.pos m2)); fold K; lia|].
  intros Hl. fold K. destruct (Z.eq_dec r 0) as [->|]; [|apply (Z.mul_lt_mono_pos_l (Z.pos m2)); lia].
  destruct Hl. unfold new_location. by destruct (Z.even _).
Qed.

(** Division by 1 keeps a number in [0, 1]. *)
Lemma Fdiv_one_upto f : upto_one f -> upto_one (Fdiv f Fone).
Proof. by apply Fdiv_upto. Qed.

(** A rounded number has a 53-bit mantissa. *)
Lemma binary_round_mantissa s p e s' m' e' :
  binary_round 53 1024 s p e = S754_finite s' m' e' -> Z.pos m' < 2 ^ 53.
Proof.
  unfold binary_round. case_match. intros H'.
  edestruct (round_shape s (Z.pos p0) z loc_Exact) as (R & HR & HR53 & _ & _ & E); [lia|done|].
  rewrite E in H'. unfold rounded in H'. destruct R as [|r|r]; [done| |done].
  destruct (Z.ltb_spec (Z.pos r) (2 ^ 53)); repeat case_match; simplify_eq; lia.
Qed.

Lemma binary_normalize_mantissa n e b s' m' e' :
  binary_normalize 53 1024 n e b = S754_finite s' m' e' -> Z.pos m' < 2 ^ 53.
Proof. destruct n; simpl; [done|apply binary_round_mantissa..]. Qed.

(** ** 64-bit integers as floats *)

Lemma rounded_finite s R e :
  0 < R -> e + 1 <= 971 -> exists m e', rounded s R e = S754_finite s m e' /\ e <= e'.
Proof.
  intros HR He. unfold rounded. destruct R as [|p|p]; [lia| |lia].
  destruct (Z.leb_spec e 971); [|lia]. destruct (Z.leb_spec (e + 1) 971); [|lia].
  case_match; eexists _, _; (split; [done|lia]).
Qed.

(** A nonzero 64-bit integer converts to a finite float of its sign. *)
Lemma binary_round_int_finite s p :
  Z.pos p < 2 ^ 64 -> exists m e, binary_round 53 1024 s p 0 = S754_finite s m e /\ -52 <= e.
Proof.
  intros Hp. unfold binary_round.
  pose proof (digits2_pos_bounds p) as [Hp1 Hp2].
  pose proof (Zdigits2_le (Z.pos p) 64 ltac:(lia) ltac:(lia) Hp) as Hd. cbn [Zdigits2] in Hd.
  set (d := Z.pos (digits2_pos p)) in *.
  replace (fexp 53 1024 (d + 0)) with (d - 53) by (unfold fexp, emin; lia).
  unfold shl_align. destruct (Z.sub (d - 53) 0) as [|k|k] eqn:Ek.
  1,2: edestruct (round_shape s (Z.pos p) 0 loc_Exact) as (R & HR & _ & _ & _ & ->); [lia|done|];
    cbn [Zdigits2] in *; fold d in HR |- *;
    replace (Z.max 0 (fexp 53 1024 (d + 0) - 0)) with (d - 53) in * by (unfold fexp, emin; lia);
    (edestruct rounded_finite as (m & e' & -> & ?); [| |eexists m, e'; split; [done|lia]]; [|lia]);
    (enough (1 <= Z.pos p / 2 ^ (d - 53)) by lia);
    (apply Z.div_le_lower_bound; [lia|]);
    rewrite Z.mul_1_r; (etransitivity; [|exact Hp1]); apply Z.pow_le_mono_r; lia.
  assert (Hdm : Zdigits2 (Z.pos p * 2 ^ Z.pos k) <= 53).
  { apply Zdigits2_le; [lia|lia|]. replace 53 with (d + Z.pos k) by lia.
    rewrite Z.pow_add_r by lia. nia. }
  edestruct (round_shape s (Z.pos (Pos.iter xO p k)) (d - 53) loc_Exact)
    as (R & HR & _ & _ & _ & ->); [lia|done|].
  rewrite iter_xO in *. rewrite Z.max_l in * by (unfold fexp, emin; lia).
  rewrite Z.div_1_r in HR.
  edestruct rounded_finite as (m & e' & -> & ?); [| |eexists m, e'; split; [done|lia]]; [nia|lia].
Qed.

Lemma Fof_Z_pos_finite n :
  0 < n < 2 ^ 64 -> exists m e, Fof_Z n = S754_finite false m e /\ -52 <= e.
Proof.
  intros [H1 H2]. destruct n as [|p|p]; [lia| |lia]. by apply binary_round_int_finite.
Qed.

Definition is_finite (f : float64) : bool :=
  match f with S754_zero _ | S754_finite _ _ _ => true | _ => false end.

(** A divisor that is neither zero nor NaN. *)
Definition divisor (f : float64) : bool :=
  match f with S754_infinity _ | S754_finite _ _ _ => true | _ => false end.

Lemma Fof_Z_finite n : - 2 ^ 64 < n < 2 ^ 64 -> is_finite (Fof_Z n) = true.
Proof.
  intros H. destruct n as [|p|p]; [done| |]; unfold Fof_Z; cbn [binary_normalize];
    destruct (binary_round_int_finite false p) as (m & e & E & _); try lia;
    destruct (binary_round_int_finite true p) as (m' & e' & E' & _); try lia.
  - by rewrite E.
  - by rewrite E'.
Qed.

(** A product of floats of at least [2^-52] does not vanish. *)
Lemma Fmul_divisor m1 e1 m2 e2 :
  -52 <= e1 -> -52 <= e2 ->
  divisor (Fmul (S754_finite false m1 e1) (S754_finite false m2 e2)) = true.
Proof.
  intros H1 H2. unfold Fmul, SFmul. cbn [xorb].
  edestruct (round_shape false (Z.pos (m1 * m2)) (e1 + e2) loc_Exact)
    as (R & HR & _ & _ & _ & ->); [lia|done|].
  set (d := Zdigits2 (Z.pos (m1 * m2))) in *.
  assert (Hd : 2 ^ (d - 1) <= Z.pos (m1 * m2)) by apply digits2_pos_bounds.
  set (n := Z.max 0 _) in *.
  assert (1 <= Z.pos (m1 * m2) / 2 ^ n).
  { assert (Hn : n = Z.max 0 (d - 53)) by (subst n; unfold fexp, emin; subst d; simpl; lia).
    apply Z.div_le_lower_bound; [lia|]. rewrite Z.mul_1_r.
    etransitivity; [|exact Hd]. apply Z.pow_le_mono_r; [lia|].
    subst d. simpl in *. lia. }
  unfold rounded. destruct R as [|p|p]; [lia| |lia]. by repeat case_match.
Qed.

(** ** NaN freedom of the operations the scoring uses *)

Lemma SFdiv_core_nonneg m1 e1 m2 e2 :
  0 <= (SFdiv_core_binary 53 1024 (Z.pos m1) e1 (Z.pos m2) e2).1.1.
Proof.
  unfold SFdiv_core_binary. set (e' := Z.min _ _).
  set (m' := match Z.sub (Z.sub e1 e2) e' with Z0 => _ | Z.pos _ => _ | Z.neg _ => _ end).
  assert (0 <= m').
  { subst m'. case_match; [done| |done]. apply Z.shiftl_nonneg. lia. }
  pose proof (Z_div_mod m' (Z.pos m2) ltac:(lia)) as Hdm.
  destruct (Z.div_eucl m' (Z.pos m2)) as [q r]. destruct Hdm as [Hq Hr]. simpl. nia.
Qed.

Lemma Fdiv_not_nan a s m e : is_nan a = false -> is_nan (Fdiv a (S754_finite s m e)) = false.
Proof.
  destruct a as [sa|sa| |sa ma ea]; try done. intros _. unfold Fdiv, SFdiv.
  pose proof (SFdiv_core_nonneg ma ea m e) as H.
  destruct (SFdiv_core_binary 53 1024 (Z.pos ma) ea (Z.pos m) e) as [[q e'] l].
  pose proof (binary_round_aux_signed (xorb sa s) q e' l H) as Hs.
  by destruct (binary_round_aux _ _ _ _ _ _).
Qed.

Lemma Fdiv_divisor_not_nan a b :
  is_finite a = true -> divisor b = true -> is_nan (Fdiv a b) = false.
Proof.
  intros Ha Hb. destruct b as [sb|sb| |sb m e]; try done.
  - by destruct a.
  - apply Fdiv_not_nan. by destruct a.
Qed.

Lemma Fdiv_nonneg a m e : nonneg a = true -> nonneg (Fdiv a (S754_finite false m e)) = true.
Proof.
  destruct a as [sa|[]| |[] ma ea]; try done. intros _. unfold Fdiv, SFdiv.
  pose proof (SFdiv_core_nonneg ma ea m e) as H.
  destruct (SFdiv_core_binary 53 1024 (Z.pos ma) ea (Z.pos m) e) as [[q e'] l].
  apply signed_false_nonneg. by apply (binary_round_aux_signed false).
Qed.

Lemma Fsub_one_not_nan a : is_nan a = false -> is_nan (Fsub Fone a) = false.
Proof. destruct a as [[]|[]| |sa ma ea]; try done. intros _. apply binary_normalize_not_nan. Qed.

Lemma Fsub_one_mantissa a s m e : Fsub Fone a = S754_finite s m e -> Z.pos m < 2 ^ 53.
Proof.
  destruct a as [[]|[]| |sa ma ea]; try done.
  1,2: intros [= <- <- <-]; lia.
  apply binary_normalize_mantissa.
Qed.

#[export] Hint Resolve Fof_Z_nonneg Fof_Z_not_nan Fof_Z_finite Fdiv_nonneg Fdiv_divisor_not_nan Fmul_fin_nonneg
  Fadd_nonneg Fsub_one_not_nan : aevora.

(** ** Small integers are exact *)

Lemma Fmul_comm a b : Fmul a b = Fmul b a.
Proof.
  destruct a as [sa|sa| |sa ma ea], b as [sb|sb| |sb mb eb]; try done; unfold Fmul, SFmul;
    rewrite (xorb_comm sa sb); [done..|]. by rewrite (Pos.mul_comm ma mb), (Z.add_comm ea eb).
Qed.

(** A positive integer below 2^53, scaled to a 53-bit mantissa. *)
Lemma Fof_Z_exact n :
  0 < n < 2 ^ 53 ->
  exists m e, Fof_Z n = S754_finite false m e /\ 2 ^ 52 <= Z.pos m < 2 ^ 53 /\ e <= 0 /\ Z.pos m = n * 2 ^ (- e).
Proof.
  intros [H1 H2]. destruct n as [|p|p]; [lia| |lia]. unfold Fof_Z. cbn [binary_normalize]. unfold binary_round.
  pose proof (digits2_pos_bounds p) as [Hp1 Hp2].
  pose proof (Zdigits2_le (Z.pos p) 53 ltac:(lia) ltac:(lia) H2) as Hd. cbn [Zdigits2] in Hd.
  set (d := Z.pos (digits2_pos p)) in *.
  assert (Hf : fexp 53 1024 (d + 0) = d - 53) by (unfold fexp, emin; lia). rewrite Hf.
  assert (Hm : exists m, shl_align p 0 (d - 53) = (m, d - 53) /\ Z.pos m = Z.pos p * 2 ^ (53 - d)).
  { unfold shl_align. destruct (Z.sub (d - 53) 0) as [|k|k] eqn:Ek; [|lia|].
    - exists p. replace (d - 53) with 0 by lia. replace (53 - d) with 0 by lia. split; [done|lia].
    - exists (Pos.iter xO p k). split; [done|]. rewrite iter_xO. do 2 f_equal. lia. }
  destruct Hm as (m & -> & Hm).
  assert (Hm53 : 2 ^ 52 <= Z.pos m < 2 ^ 53).
  { rewrite Hm. assert (E1 : 2 ^ 52 = 2 ^ (d - 1) * 2 ^ (53 - d)) by (rewrite <- Z.pow_add_r by lia; f_equal; lia).
    assert (E2 : 2 ^ 53 = 2 ^ d * 2 ^ (53 - d)) by (rewrite <- Z.pow_add_r by lia; f_equal; lia).
    rewrite E1, E2. assert (0 < 2 ^ (53 - d)) by lia.
    split; [apply Z.mul_le_mono_nonneg_r; lia|apply Z.mul_lt_mono_pos_r; lia]. }
  destruct (round_shape false (Z.pos m) (d - 53) loc_Exact 0) as (R & _ & _ & _ & HR & ->); [lia| |].
  { cbn [Zdigits2]. rewrite (digits2_pos_unique m 53) by lia. unfold fexp, emin. lia. }
  rewrite HR by (done || apply Z.mod_1_r). rewrite Z.div_1_r, Z.add_0_r. unfold rounded.
  rewrite (proj2 (Z.ltb_lt _ _)) by lia. rewrite (proj2 (Z.leb_le _ _)) by lia.
  exists m, (d - 53). splits; try lia; [done|]. rewrite Hm. do 2 f_equal. lia.
Qed.

(** Small integers keep their order as floats. *)
Lemma Fof_Z_upto n d m e : 0 <= n <= d -> d < 2 ^ 53 -> Fof_Z d = S754_finite false m e -> upto (Z.pos m) e (Fof_Z n).
Proof.
  intros Hn Hd E. destruct (Z.eq_dec n 0) as [->|Hn0]; [done|].
  destruct (Fof_Z_exact d) as (m1 & e1 & E1 & Hm1 & He1 & Em1); [lia|]. rewrite E1 in E. injection E as <- <-.
  destruct (Fof_Z_exact n) as (m2 & e2 & -> & Hm2 & He2 & Em2); [lia|].
  assert (He : e2 <= e1).
  { destruct (Z.le_gt_cases e2 e1) as [|Hgt]; [done|]. exfalso.
    replace (- e1) with ((- e2) + (e2 - e1)) in Em1 by lia. rewrite Z.pow_add_r in Em1 by lia.
    assert (2 <= 2 ^ (e2 - e1)) by (change 2 with (2 ^ 1) at 1; apply Z.pow_le_mono_r; lia).
    assert (n * 2 ^ (- e2) <= d * 2 ^ (- e2)) by (apply Z.mul_le_mono_nonneg_r; lia). rewrite Z.mul_assoc in Em1. nia. }
  cbn [upto]. splits; [done| |lia]. rewrite Em1, Em2, <- Z.mul_assoc, <- Z.pow_add_r by lia.
  replace (- e1 + (e1 - e2)) with (- e2) by lia. assert (0 < 2 ^ (- e2)) by lia. nia.
Qed.
