(* ===== verification/Model.v ===== *)
(** The domain types of [control-plane/internal/model/model.go] and the
    predicates it defines on them. Instants ([time.Time]) and durations
    ([time.Duration]) are integers of nanoseconds; pointers are options. *)
From S2P Require Import Prelude Floats.

Abbreviation Time := Z.
Abbreviation Duration := Z.

Definition Second : Duration := 1000000000.
Definition Minute : Duration := 60 * Second.
Definition Hour : Duration := 60 * Minute.

(** [t.Sub(u)]: the difference saturates at the ends of [int64]. *)
Definition Sub (t u : Time) : Duration := Z.max (- 2 ^ 63) (Z.min (2 ^ 63 - 1) (t - u)).

Record Location := mkLocation {
  loc_ID : string;
  loc_Code : string;
  loc_CountryName : string;
  loc_Enabled : bool;
  loc_ServerCount : Z;
  loc_HealthyCount : Z
}.

Definition Available (l : Location) : bool := 0 <? loc_HealthyCount l.

Inductive GatewayStatus :=
| GatewayPending
| GatewayHealthy
| GatewayUnhealthy
| GatewayDraining
| GatewayDisabled.

#[export] Instance GatewayStatus_eq_dec : EqDecision GatewayStatus.
Proof. solve_decision. Defined.

(** The text stored in the registry and sent on the wire. *)
Definition status_string (s : GatewayStatus) : string :=
  match s with
  | GatewayPending => "pending"
  | GatewayHealthy => "healthy"
  | GatewayUnhealthy => "unhealthy"
  | GatewayDraining => "draining"
  | GatewayDisabled => "disabled"
  end.

Record Gateway := mkGateway {
  ID : string;
  LocationID : string;
  LocationCode : string;
  CountryName : string;
  Name : string;
  City : string;
  Region : string;
  PublicKey : string;
  EndpointHost : string;
  EndpointPort : Z;
  Capacity : Z;
  BandwidthMbps : Z;
  Latitude : option float64;
  Longitude : option float64;
  Status : GatewayStatus;
  ActivePeers : Z;
  CPUPct : float64;
  RxBps : Z;
  TxBps : Z;
  LastHeartbeatAt : option Time
}.

Definition Online (g : Gateway) (now : Time) (ttl : Duration) : bool :=
  if negb (bool_decide (Status g = GatewayHealthy)) then false
  else match LastHeartbeatAt g with
       | None => false
       | Some t => Sub now t <=? ttl
       end.

Record GatewayRegistration := mkGatewayRegistration {
  reg_Name : string;
  reg_CountryCode : string;
  reg_CountryName : string;
  reg_City : string;
  reg_Region : string;
  reg_EndpointHost : string;
  reg_EndpointPort : Z;
  reg_PublicKey : string;
  reg_WGSubnetV4 : string;
  reg_WGSubnetV6 : string;
  reg_Capacity : Z;
  reg_BandwidthMbps : Z;
  reg_Latitude : option float64;
  reg_Longitude : option float64
}.

Record GatewayMetrics := mkGatewayMetrics {
  m_ActivePeers : Z;
  m_CPUPct : float64;
  m_RxBps : Z;
  m_TxBps : Z
}.

Record User := mkUser {
  usr_ID : string;
  usr_Email : string;
  usr_DisplayName : string;
  usr_Status : string;
  usr_CreatedAt : Time
}.

Record Device := mkDevice {
  dev_ID : string;
  dev_UserID : string;
  dev_Name : string;
  dev_Platform : string;
  dev_PublicKey : string;
  dev_CreatedAt : Time;
  dev_LastSeenAt : option Time;
  dev_RevokedAt : option Time
}.

Definition ValidPlatform (p : string) : bool :=
  if bool_decide (p = "ios") then true
  else if bool_decide (p = "macos") then true
  else if bool_decide (p = "android") then true
  else if bool_decide (p = "windows") then true
  else if bool_decide (p = "linux") then true
  else bool_decide (p = "cli").

Record DeviceRegistration := mkDeviceRegistration {
  dr_Name : string;
  dr_Platform : string;
  dr_PublicKey : string
}.

Record EnrollRequest := mkEnrollRequest {
  er_InviteCode : string;
  er_Email : string;
  er_DisplayName : string;
  er_Device : DeviceRegistration
}.

Record Connection := mkConnection {
  conn_ID : string;
  conn_GatewayName : string;
  conn_Country : string;
  conn_City : string;
  conn_Endpoint : string;
  conn_GatewayPublicKey : string;
  conn_AssignedIPv4 : string;
  conn_AssignedIPv6 : option string;
  conn_ExpiresAt : Time
}.

Record Peer := mkPeer {
  peer_PublicKey : string;
  peer_AllowedIPs : list string
}.

#[export] Instance Gateway_eq_dec : EqDecision Gateway.
Proof. solve_decision. Defined.
#[export] Instance Peer_eq_dec : EqDecision Peer.
Proof. solve_decision. Defined.

(** ** What the predicates say *)

Lemma Online_spec g now ttl :
  Online g now ttl = true <->
  Status g = GatewayHealthy /\ exists t, LastHeartbeatAt g = Some t /\ Sub now t <= ttl.
Proof.
  unfold Online. case_bool_decide as Hs; simpl; [|split; [done|by intros [? _]]].
  destruct (LastHeartbeatAt g) as [t|]; [rewrite Z.leb_le|].
  - split; [eauto|]. by intros (_ & t' & [= <-] & ?).
  - split; [done|]. by intros (_ & t & ? & _).
Qed.

Lemma status_string_inj s1 s2 : status_string s1 = status_string s2 -> s1 = s2.
Proof. by destruct s1, s2. Qed.
