(* ===== verification/Selection.v ===== *)
(** [control-plane/internal/selection/selection.go]: the score of a gateway
    and the choice of the best one, over IEEE doubles as in the code. *)
From S2P Require Import Prelude Floats Model.

Record Weights := mkWeights { Load : float64; Bandwidth : float64 }.

(** The doubles nearest to 0.7 and 0.3. *)
Definition DefaultWeights : Weights :=
  mkWeights (S754_finite false 6305039478318694 (-53)) (S754_finite false 5404319552844595 (-54)).

Definition clamp01 (v : float64) : float64 :=
  if Flt v Fzero then Fzero
  else if Flt Fone v then Fone
  else v.

(** [float64(g.RxBps + g.TxBps)] adds two [int64] values before converting. *)
Definition FitnessWithWeights (g : Gateway) (w : Weights) : float64 :=
  if Capacity g <=? 0 then Fzero
  else
    let loadHeadroom := clamp01 (Fsub Fone (Fdiv (Fof_Z (ActivePeers g)) (Fof_Z (Capacity g)))) in
    if (0 <? BandwidthMbps g) && Flt Fzero (Bandwidth w) then
      let usedBps := Fof_Z (i64 (RxBps g + TxBps g)) in
      let capBps := Fmul (Fof_Z (BandwidthMbps g)) (Fof_Z 1000000) in
      let bwHeadroom := clamp01 (Fsub Fone (Fdiv usedBps capBps)) in
      let total := Fadd (Load w) (Bandwidth w) in
      if negb (Flt Fzero total) then loadHeadroom
      else Fdiv (Fadd (Fmul (Load w) loadHeadroom) (Fmul (Bandwidth w) bwHeadroom)) total
    else loadHeadroom.

Definition Fitness (g : Gateway) : float64 := FitnessWithWeights g DefaultWeights.

(** The filter of the loop body: its two [continue]s. *)
Definition selectable (g : Gateway) : bool :=
  if negb (bool_decide (Status g = GatewayHealthy)) then false
  else if (0 <? Capacity g) && (Capacity g <=? ActivePeers g) then false
  else true.

(** One iteration: the running [bestScore] with [best] and [ok]. *)
Definition Best_step (acc : float64 * option Gateway) (g : Gateway) : float64 * option Gateway :=
  if selectable g then
    let s := Fitness g in
    if Flt acc.1 s then (s, Some g) else acc
  else acc.

(** [None] is [ok = false]. *)
Definition Best (candidates : list Gateway) : option Gateway :=
  (foldl Best_step (Fminus_one, None) candidates).2.

(** ** The score lies in [0, 1] *)

(** The integers of a gateway as Go holds them on a 64-bit target. *)
Definition int64_fields (g : Gateway) : Prop :=
  (- 2 ^ 63 <= ActivePeers g < 2 ^ 63) /\ (- 2 ^ 63 <= Capacity g < 2 ^ 63) /\
  (- 2 ^ 63 <= BandwidthMbps g < 2 ^ 63).

Lemma clamp01_upto v :
  is_nan v = false -> (forall s m e, v = S754_finite s m e -> Z.pos m < 2 ^ 53) ->
  upto_one (clamp01 v).
Proof.
  intros Hn Hm. unfold clamp01. destruct (Flt v Fzero) eqn:E0; [done|].
  destruct (Flt Fone v) eqn:E1; [simpl; lia|].
  apply le_upto; [|exact E1|lia|exact Hm].
  by destruct v as [[]|[]| |[] m e].
Qed.

Lemma headroom_upto a b :
  is_finite a = true -> divisor b = true -> upto_one (clamp01 (Fsub Fone (Fdiv a b))).
Proof.
  intros. apply clamp01_upto; [auto with aevora|]. intros s m e. apply Fsub_one_mantissa.
Qed.

Lemma Fof_Z_divisor n : 0 < n < 2 ^ 63 -> divisor (Fof_Z n) = true.
Proof. intros. destruct (Fof_Z_pos_finite n) as (m & e & -> & _); [lia|done]. Qed.

Lemma capBps_divisor n : 0 < n < 2 ^ 63 -> divisor (Fmul (Fof_Z n) (Fof_Z 1000000)) = true.
Proof.
  intros. destruct (Fof_Z_pos_finite n) as (m & e & -> & ?); [lia|].
  destruct (Fof_Z_pos_finite 1000000) as (m' & e' & -> & ?); [lia|].
  by apply Fmul_divisor.
Qed.

Lemma weighted_upto l b :
  upto_one l -> upto_one b ->
  upto_one (Fdiv (Fadd (Fmul (Load DefaultWeights) l) (Fmul (Bandwidth DefaultWeights) b))
                 (Fadd (Load DefaultWeights) (Bandwidth DefaultWeights))).
Proof.
  intros Hl Hb.
  replace (Fadd (Load DefaultWeights) (Bandwidth DefaultWeights)) with Fone by (vm_compute; done).
  apply Fdiv_one_upto. eapply Fadd_upto_one; [by apply Fmul_upto|by apply Fmul_upto|lia..].
Qed.

Lemma Fitness_upto g : int64_fields g -> upto_one (Fitness g).
Proof.
  intros (Ha & Hc & Hb). unfold Fitness, FitnessWithWeights.
  destruct (Z.leb_spec (Capacity g) 0); [done|].
  assert (Hl : upto_one (clamp01 (Fsub Fone (Fdiv (Fof_Z (ActivePeers g)) (Fof_Z (Capacity g)))))).
  { apply headroom_upto; [apply Fof_Z_finite; lia|apply Fof_Z_divisor; lia]. }
  destruct ((0 <? BandwidthMbps g) && _) eqn:E; [|done].
  to_prop. case_match; [done|]. apply weighted_upto; [done|].
  pose proof (i64_range (RxBps g + TxBps g)).
  apply headroom_upto; [apply Fof_Z_finite; lia|apply capBps_divisor; lia].
Qed.

Lemma upto_one_spec f :
  upto_one f -> is_nan f = false /\ Flt f Fzero = false /\ Flt Fone f = false.
Proof.
  intros H. splits; [by destruct f| |by apply upto_le].
  by destruct f as [|[]| |[] m e].
Qed.

(** C31: [Fitness] is a score between 0 and 1 and never a NaN, for every gateway
    whose counters are Go [int]s, whatever its load, capacity and traffic. *)
Theorem Fitness_in_unit_interval g :
  int64_fields g ->
  is_nan (Fitness g) = false /\ Flt (Fitness g) Fzero = false /\ Flt Fone (Fitness g) = false.
Proof. intros H. by apply upto_one_spec, Fitness_upto. Qed.

(** ** The choice *)

(** [l] has been scanned with the running pair [acc]. *)
Definition scanned (l : list Gateway) (acc : float64 * option Gateway) : Prop :=
  match acc.2 with
  | None => acc.1 = Fminus_one /\ Forall (fun h => selectable h = false) l
  | Some g =>
      acc.1 = Fitness g /\
      exists l1 l2, l = l1 ++ g :: l2 /\ selectable g = true /\
        (forall h, h ∈ l1 -> selectable h = true -> Flt (Fitness h) (Fitness g) = true) /\
        (forall h, h ∈ l2 -> selectable h = true -> Flt (Fitness g) (Fitness h) = false)
  end.

Lemma scanned_step l acc g :
  Forall int64_fields (l ++ [g]) -> scanned l acc -> scanned (l ++ [g]) (Best_step acc g).
Proof.
  intros Hint Hs. unfold Best_step. rewrite Forall_app, Forall_singleton in Hint.
  destruct Hint as [Hl Hg].
  rewrite Forall_forall in Hl.
  destruct acc as [score [b|]]; unfold scanned in *; simpl in *.
  - destruct Hs as (-> & l1 & l2 & -> & Hb & H1 & H2).
    destruct (selectable g) eqn:Eg; [destruct (Flt (Fitness b) (Fitness g)) eqn:Ef|].
    + split; [done|]. exists (l1 ++ b :: l2), []. splits; try done; [|set_solver].
      intros h Hh Hsel.
      assert (Hnan : is_nan (Fitness h) = false) by (apply upto_one_spec, Fitness_upto; auto).
      apply elem_of_app in Hh as [Hh|[->|Hh]%elem_of_cons]; [|done|].
      * eapply Flt_trans, Ef. auto.
      * by eapply Flt_weak, H2.
    + split; [done|]. exists l1, (l2 ++ [g]). rewrite <- app_assoc. splits; try done.
      intros h [Hh| ->%list_elem_of_singleton]%elem_of_app Hsel; auto.
    + split; [done|]. exists l1, (l2 ++ [g]). rewrite <- app_assoc. splits; try done.
      intros h [Hh| ->%list_elem_of_singleton]%elem_of_app Hsel; [auto|congruence].
  - destruct Hs as [-> Hnone].
    destruct (selectable g) eqn:Eg; [|split; [done|]; apply Forall_app; by rewrite Forall_singleton].
    rewrite Flt_minus_one_nonneg.
    2: { pose proof (Fitness_upto g Hg) as Hu. by destruct (Fitness g) as [|[]| |[] m e]. }
    split; [done|]. exists l, []. splits; try done; [|set_solver].
    intros h Hh Hsel. rewrite Forall_forall in Hnone. by rewrite (Hnone h Hh) in Hsel.
Qed.

Lemma Best_scanned cands :
  Forall int64_fields cands -> scanned cands (foldl Best_step (Fminus_one, None) cands).
Proof.
  induction cands as [|g l IH] using rev_ind; [by split|].
  intros Hint. rewrite foldl_snoc. apply scanned_step; [done|].
  apply IH. by apply Forall_app in Hint as [].
Qed.

Lemma Best_Some_selectable cands g : Best cands = Some g -> g ∈ cands /\ selectable g = true.
Proof.
  unfold Best. revert g. induction cands as [|h l IH] using rev_ind; [done|].
  intros g. rewrite foldl_snoc. unfold Best_step at 1.
  assert (Hin : (foldl Best_step (Fminus_one, None) l).2 = Some g -> g ∈ l ++ [h] /\ selectable g = true).
  { intros [? ?]%IH. split; [|done]. apply elem_of_app. by left. }
  clear IH. destruct (selectable h) eqn:E; [case_match|]; auto.
  intros [= <-]. split; [|done]. apply elem_of_app. right. by apply list_elem_of_singleton.
Qed.

(** C30: [Best] returns a healthy gateway with a free slot whose fitness no
    other such candidate exceeds; among equals it is the first of the list. *)
Theorem Best_is_first_maximum cands g :
  Forall int64_fields cands -> Best cands = Some g ->
  exists l1 l2, cands = l1 ++ g :: l2 /\ selectable g = true /\
    (forall h, h ∈ l1 -> selectable h = true -> Flt (Fitness h) (Fitness g) = true) /\
    (forall h, h ∈ l2 -> selectable h = true -> Flt (Fitness g) (Fitness h) = false).
Proof.
  intros Hint H. pose proof (Best_scanned _ Hint) as Hs.
  unfold Best in H. unfold scanned in Hs. rewrite H in Hs. by destruct Hs as [_ ?].
Qed.

Lemma Best_None_selectable cands :
  Forall int64_fields cands -> Best cands = None -> Forall (fun h => selectable h = false) cands.
Proof.
  intros Hint H. pose proof (Best_scanned _ Hint) as Hs. unfold scanned in Hs.
  unfold Best in H. rewrite H in Hs. by destruct Hs.
Qed.

(** [Best] answers [ok = false] exactly when no candidate is healthy with a
    free slot: a selectable gateway is never missed. *)
Theorem Best_None_iff cands :
  Forall int64_fields cands ->
  Best cands = None <-> Forall (fun h => selectable h = false) cands.
Proof.
  intros Hint. split; [by apply Best_None_selectable|].
  intros Hall. destruct (Best cands) as [g|] eqn:E; [|done].
  apply Best_Some_selectable in E as [Hin Hsel]. rewrite Forall_forall in Hall.
  by rewrite (Hall g Hin) in Hsel.
Qed.

(** ** Concrete inputs *)

Definition sample_gateway (name : string) (st : GatewayStatus) (active cap bw rx tx : Z) : Gateway :=
  mkGateway name "" "de" "Germany" name "" "" "" "" 51820 cap bw None None st active Fzero rx tx None.

Definition sample_fleet : list Gateway :=
  [ sample_gateway "busy" GatewayHealthy 200 250 0 0 0;
    sample_gateway "down" GatewayUnhealthy 0 250 0 0 0;
    sample_gateway "idle" GatewayHealthy 20 250 0 0 0;
    sample_gateway "full" GatewayHealthy 250 250 0 0 0;
    sample_gateway "mid" GatewayHealthy 125 250 0 0 0 ].

Lemma sample_fleet_int64 : Forall int64_fields sample_fleet.
Proof. repeat constructor; simpl; lia. Qed.

Lemma Fitness_in_unit_interval_witness :
  let f := Fitness (sample_gateway "g" GatewayHealthy 100 250 1000 400000000 400000000) in
  f = S754_finite false 8646911284551352 (-54) /\ is_nan f = false /\ Flt f Fzero = false /\ Flt Fone f = false.
Proof.
  split; [vm_compute; reflexivity|].
  apply Fitness_in_unit_interval. repeat split; simpl; lia.
Defined.

Lemma Best_is_first_maximum_witness :
  (exists l1 l2, sample_fleet = l1 ++ sample_gateway "idle" GatewayHealthy 20 250 0 0 0 :: l2 /\
    selectable (sample_gateway "idle" GatewayHealthy 20 250 0 0 0) = true /\
    (forall h, h ∈ l1 -> selectable h = true ->
      Flt (Fitness h) (Fitness (sample_gateway "idle" GatewayHealthy 20 250 0 0 0)) = true) /\
    (forall h, h ∈ l2 -> selectable h = true ->
      Flt (Fitness (sample_gateway "idle" GatewayHealthy 20 250 0 0 0)) (Fitness h) = false)).
Proof. apply Best_is_first_maximum; [exact sample_fleet_int64|vm_compute; reflexivity]. Defined.

Lemma Best_None_iff_witness :
  Best sample_fleet = None <-> Forall (fun h => selectable h = false) sample_fleet.
Proof. apply Best_None_iff. exact sample_fleet_int64. Defined.

(** Two gateways that differ only in traffic: a node reporting 2^63 bit/s in all
    overflows [RxBps + TxBps] and scores as if it carried no traffic. *)
Example fitness_overflow_scores_idle :
  Fitness (sample_gateway "g" GatewayHealthy 100 250 1000 (2 ^ 62) (2 ^ 62)) =
  Fitness (sample_gateway "g" GatewayHealthy 100 250 1000 0 0).
Proof. vm_compute. reflexivity. Qed.
