(* ===== verification/GoStrings.v ===== *)
(** The functions of Go's [strings] and [strconv] packages that the sources
    call, on byte strings. *)
From S2P Require Import Prelude.

Definition char_eqb (a b : ascii) : bool := bool_decide (a = b).

(** [strings.Split(s, sep)] for a separator of one byte: never empty. *)
Fixpoint Split (sep : ascii) (s : string) : list string :=
  match s with
  | EmptyString => [EmptyString]
  | String c s' =>
      if char_eqb c sep then EmptyString :: Split sep s'
      else match Split sep s' with
           | [] => [String c EmptyString]
           | w :: ws => String c w :: ws
           end
  end.

(** [strings.Join(ws, sep)] *)
Fixpoint Join (ws : list string) (sep : string) : string :=
  match ws with
  | [] => EmptyString
  | [w] => w
  | w :: ws' => (w +:+ sep +:+ Join ws' sep)
  end.

(** [strings.IndexByte(s, c) >= 0] *)
Fixpoint has_char (c : ascii) (s : string) : bool :=
  match s with
  | EmptyString => false
  | String a s' => if char_eqb a c then true else has_char c s'
  end.

(** [strings.Cut(s, sep)] for a separator of one byte: the text before and after
    its first occurrence. *)
Fixpoint Cut (sep : ascii) (s : string) : option (string * string) :=
  match s with
  | EmptyString => None
  | String c s' =>
      if char_eqb c sep then Some (EmptyString, s')
      else match Cut sep s' with
           | None => None
           | Some (a, b) => Some (String c a, b)
           end
  end.

(** [strings.CutPrefix] *)
Fixpoint cut_prefix (p s : string) : option string :=
  match p, s with
  | EmptyString, _ => Some s
  | String a p', String b s' => if char_eqb a b then cut_prefix p' s' else None
  | String _ _, EmptyString => None
  end.

Definition byte_str (n : nat) : string := String (ascii_of_nat n) EmptyString.

(** The UTF-8 encodings of the code points [unicode.IsSpace] accepts. *)
Definition white_space : list string :=
  (byte_str <$> [9; 10; 11; 12; 13; 32]%nat) ++
  ((fun n => byte_str 194 +:+ byte_str n) <$> [133; 160]%nat) ++
  [byte_str 225 +:+ byte_str 154 +:+ byte_str 128] ++
  ((fun n => byte_str 226 +:+ byte_str 128 +:+ byte_str n) <$>
     [128; 129; 130; 131; 132; 133; 134; 135; 136; 137; 138; 168; 169; 175]%nat) ++
  [byte_str 226 +:+ byte_str 129 +:+ byte_str 159; byte_str 227 +:+ byte_str 128 +:+ byte_str 128].

Fixpoint first_prefix (ps : list string) (s : string) : option string :=
  match ps with
  | [] => None
  | p :: ps' => match cut_prefix p s with Some r => Some r | None => first_prefix ps' s end
  end.

(** Drops leading occurrences of the words of [ps]; each one is at least a byte,
    so the length of [s] is enough fuel. *)
Fixpoint trim_left (fuel : nat) (ps : list string) (s : string) : string :=
  match fuel with
  | O => s
  | S fuel' => match first_prefix ps s with Some r => trim_left fuel' ps r | None => s end
  end.

(** [strings.TrimSpace(s)]: white space off both ends. *)
Definition TrimSpace (s : string) : string :=
  let l := trim_left (String.length s) white_space s in
  String.rev (trim_left (String.length l) (String.rev <$> white_space) (String.rev l)).

(** [strconv.Itoa] *)
Definition Itoa (n : Z) : string := pretty n.

Definition is_digit (c : ascii) : bool :=
  let n := Z.of_nat (nat_of_ascii c) in (48 <=? n) && (n <=? 57).

Definition digit_val (c : ascii) : Z := Z.of_nat (nat_of_ascii c) - 48.

(** Decimal value of a string of digits, [None] at the first other byte. *)
Fixpoint dec_val (acc : Z) (s : string) : option Z :=
  match s with
  | EmptyString => Some acc
  | String c s' => if is_digit c then dec_val (acc * 10 + digit_val c) s' else None
  end.

(** Value of an hexadecimal digit. *)
Definition hex_val (c : ascii) : option Z :=
  let n := Z.of_nat (nat_of_ascii c) in
  if (48 <=? n) && (n <=? 57) then Some (n - 48)
  else if (97 <=? n) && (n <=? 102) then Some (n - 97 + 10)
  else if (65 <=? n) && (n <=? 70) then Some (n - 65 + 10)
  else None.

(** ** Splitting and joining *)

Lemma char_eqb_eq a b : char_eqb a b = true <-> a = b.
Proof. unfold char_eqb. by rewrite bool_decide_eq_true. Qed.

Lemma char_eqb_refl a : char_eqb a a = true.
Proof. by apply char_eqb_eq. Qed.

Lemma Split_not_nil sep s : Split sep s <> [].
Proof. destruct s as [|c s]; simpl; [done|]. repeat case_match; done. Qed.

Lemma Split_no_sep sep s : has_char sep s = false -> Split sep s = [s].
Proof.
  induction s as [|c s IH]; simpl; [done|].
  destruct (char_eqb c sep) eqn:E; [done|]. intros H. by rewrite (IH H).
Qed.

Lemma string_app_assoc (a b c : string) : a +:+ (b +:+ c) = (a +:+ b) +:+ c.
Proof. induction a as [|x a IH]; [done|]. change (String x (a +:+ (b +:+ c)) = String x ((a +:+ b) +:+ c)). by rewrite IH. Qed.

Lemma string_app_cons c (a b : string) : String c a +:+ b = String c (a +:+ b).
Proof. done. Qed.

Lemma string_app_nil_l (a : string) : EmptyString +:+ a = a.
Proof. done. Qed.

Lemma string_app_nil_r (a : string) : a +:+ EmptyString = a.
Proof. induction a as [|c a IH]; [done|]. by rewrite string_app_cons, IH. Qed.

Lemma Split_app sep w s :
  has_char sep w = false -> Split sep (w +:+ String sep s) = w :: Split sep s.
Proof.
  induction w as [|c w IH].
  - intros _. rewrite string_app_nil_l. simpl. by rewrite char_eqb_refl.
  - rewrite string_app_cons. simpl. destruct (char_eqb c sep) eqn:E; [done|].
    intros H. by rewrite (IH H).
Qed.

(** Splitting what was joined gives the words back. *)
Lemma Split_Join sep ws :
  ws <> [] -> Forall (fun w => has_char sep w = false) ws ->
  Split sep (Join ws (String sep EmptyString)) = ws.
Proof.
  intros Hne H. induction H as [|w ws Hw Hws IH]; [done|].
  destruct ws as [|w' ws]; [by apply Split_no_sep|].
  change (Join (w :: w' :: ws) (String sep EmptyString))
    with (w +:+ String sep (Join (w' :: ws) (String sep EmptyString))).
  rewrite (Split_app sep w _ Hw). f_equal. by apply IH.
Qed.

Lemma Cut_app sep a b : has_char sep a = false -> Cut sep (a +:+ String sep b) = Some (a, b).
Proof.
  induction a as [|c a IH]; intros H.
  - rewrite string_app_nil_l. simpl. by rewrite char_eqb_refl.
  - rewrite string_app_cons. simpl in *. destruct (char_eqb c sep); [done|]. by rewrite (IH H).
Qed.

Lemma has_char_app c a b : has_char c (a +:+ b) = has_char c a || has_char c b.
Proof.
  induction a as [|x a IH]; [done|]. rewrite string_app_cons. simpl. by destruct (char_eqb x c).
Qed.

Example TrimSpace_example : TrimSpace (byte_str 194 +:+ byte_str 160 +:+ " tok en" +:+ byte_str 10) = "tok en".
Proof. vm_compute. reflexivity. Qed.

#[export] Hint Rewrite string_app_cons string_app_nil_l string_app_nil_r has_char_app : aevora.

(** ** [TrimSpace] on text without white space at its ends *)

Lemma rev_app_app (a b acc : string) :
  String.rev_app (a +:+ b) acc = String.rev_app b (String.rev_app a acc).
Proof. revert acc. induction a as [|c a IH]; intros acc; [done|]. apply IH. Qed.

Lemma rev_app_spec (a acc : string) : String.rev_app a acc = String.rev a +:+ acc.
Proof.
  unfold String.rev. revert acc. induction a as [|c a IH]; intros acc; [done|].
  change (String.rev_app a (String c acc) = String.rev_app a (String c EmptyString) +:+ acc).
  rewrite IH, (IH (String c EmptyString)), <- string_app_assoc. done.
Qed.

Lemma rev_app_distr (a b : string) : String.rev (a +:+ b) = String.rev b +:+ String.rev a.
Proof. unfold String.rev. by rewrite rev_app_app, rev_app_spec. Qed.

Lemma rev_involutive (a : string) : String.rev (String.rev a) = a.
Proof.
  induction a as [|c a IH]; [done|].
  change (String c a) with (String c EmptyString +:+ a) at 1.
  rewrite !rev_app_distr, IH. done.
Qed.

(** A visible ASCII character. *)
Definition graph (c : ascii) : bool :=
  let n := Z.of_nat (nat_of_ascii c) in (33 <=? n) && (n <=? 126).

Fixpoint all_graph (s : string) : bool :=
  match s with EmptyString => true | String c s' => graph c && all_graph s' end.

(** The first character of a text, and its last one, is visible. *)
Definition graph_head (s : string) : bool :=
  match s with EmptyString => false | String c _ => graph c end.

Lemma first_prefix_graph ps s :
  forallb (fun p => match p with String c _ => negb (graph c) | EmptyString => false end) ps = true ->
  graph_head s = true -> first_prefix ps s = None.
Proof.
  intros Hps Hs. destruct s as [|c s]; [done|]. simpl in Hs.
  induction ps as [|p ps IH]; [done|]. simpl in Hps. apply andb_true_iff in Hps as [Hp Hps].
  destruct p as [|x p]; [done|]. simpl. destruct (char_eqb x c) eqn:E; [|by apply IH].
  apply char_eqb_eq in E as ->. by rewrite Hs in Hp.
Qed.

Lemma trim_left_graph fuel s : graph_head s = true -> trim_left fuel white_space s = s.
Proof.
  intros Hs. destruct fuel; [done|]. cbn [trim_left].
  by rewrite first_prefix_graph by (done || by vm_compute).
Qed.

Lemma trim_right_graph fuel s :
  graph_head s = true -> trim_left fuel (String.rev <$> white_space) s = s.
Proof.
  intros Hs. destruct fuel; [done|]. cbn [trim_left].
  by rewrite first_prefix_graph by (done || by vm_compute).
Qed.

Lemma TrimSpace_graph s :
  graph_head s = true -> graph_head (String.rev s) = true -> TrimSpace s = s.
Proof.
  intros H1 H2. unfold TrimSpace. rewrite trim_left_graph, trim_right_graph by done.
  apply rev_involutive.
Qed.

Definition newline : string := byte_str 10.
Definition tab : string := byte_str 9.

Lemma TrimSpace_newline s :
  graph_head s = true -> graph_head (String.rev s) = true -> TrimSpace (s +:+ newline) = s.
Proof.
  intros H1 H2. unfold TrimSpace.
  rewrite trim_left_graph by (by destruct s). rewrite rev_app_distr.
  replace (String.length (s +:+ newline)) with (S (String.length s)).
  2: { clear. induction s as [|c s IH]; [done|]. rewrite string_app_cons. simpl. by rewrite IH. }
  change (String.rev newline +:+ String.rev s) with (String (ascii_of_nat 10) (String.rev s)).
  cbn [trim_left].
  replace (first_prefix (String.rev <$> white_space) (String (ascii_of_nat 10) (String.rev s)))
    with (Some (String.rev s)) by (by vm_compute (String.rev <$> white_space)).
  rewrite trim_right_graph by done. apply rev_involutive.
Qed.

Lemma all_graph_head s : s <> EmptyString -> all_graph s = true -> graph_head s = true.
Proof. destruct s; [done|]. simpl. intros _ H. by to_prop. Qed.

Lemma all_graph_app a b : all_graph (a +:+ b) = all_graph a && all_graph b.
Proof.
  induction a as [|c a IH]; [done|]. rewrite string_app_cons. simpl. by rewrite IH, andb_assoc.
Qed.

Lemma all_graph_rev s : all_graph (String.rev s) = all_graph s.
Proof.
  induction s as [|c s IH]; [done|]. change (String c s) with (String c EmptyString +:+ s).
  rewrite rev_app_distr, !all_graph_app, IH. apply andb_comm.
Qed.

Lemma rev_not_empty s : s <> EmptyString -> String.rev s <> EmptyString.
Proof. intros H E. apply H. rewrite <- (rev_involutive s), E. done. Qed.

Lemma TrimSpace_all_graph s : all_graph s = true -> TrimSpace s = s.
Proof.
  intros H. destruct (decide (s = EmptyString)) as [->|Hne]; [done|].
  apply TrimSpace_graph; apply all_graph_head; rewrite ?all_graph_rev; auto using rev_not_empty.
Qed.

Lemma all_graph_no_char s c : all_graph s = true -> graph c = false -> has_char c s = false.
Proof.
  intros Hs Hc. induction s as [|x s IH]; [done|]. simpl in *. to_prop.
  destruct (char_eqb x c) eqn:E; [|auto]. apply char_eqb_eq in E as ->. congruence.
Qed.

(** ** Joined words *)

(** Text that starts and ends with a visible character. *)
Definition solid (s : string) : Prop := graph_head s = true /\ graph_head (String.rev s) = true.

Lemma graph_head_app a b : graph_head a = true -> graph_head (a +:+ b) = true.
Proof. by destruct a. Qed.

Lemma all_graph_solid s : s <> EmptyString -> all_graph s = true -> solid s.
Proof.
  intros. split; apply all_graph_head; rewrite ?all_graph_rev; auto using rev_not_empty.
Qed.

Lemma Join_cons w w' ws sep : Join (w :: w' :: ws) sep = w +:+ sep +:+ Join (w' :: ws) sep.
Proof. done. Qed.

Lemma Join_solid ws sep : ws <> [] -> Forall solid ws -> solid (Join ws sep).
Proof.
  intros Hne H. induction H as [|w ws [Hw1 Hw2] Hws IH]; [done|].
  destruct ws as [|w' ws]; [by split|].
  specialize (IH ltac:(done)) as [IH1 IH2]. rewrite Join_cons. split.
  - by apply graph_head_app.
  - rewrite !rev_app_distr, <- !string_app_assoc. by apply graph_head_app.
Qed.

Lemma Join_no_char c ws sep :
  has_char c sep = false -> Forall (fun w => has_char c w = false) ws -> has_char c (Join ws sep) = false.
Proof.
  intros Hs H. induction H as [|w ws Hw Hws IH]; [done|].
  destruct ws as [|w' ws]; [done|]. by rewrite Join_cons, !has_char_app, Hw, Hs, IH.
Qed.

Lemma Join_all_graph ws sep :
  all_graph sep = true -> Forall (fun w => all_graph w = true) ws -> all_graph (Join ws sep) = true.
Proof.
  intros Hs H. induction H as [|w ws Hw Hws IH]; [done|].
  destruct ws as [|w' ws]; [done|]. by rewrite Join_cons, !all_graph_app, Hw, Hs, IH.
Qed.

Lemma solid_TrimSpace s : solid s -> TrimSpace s = s.
Proof. intros []. by apply TrimSpace_graph. Qed.

Lemma solid_not_empty s : solid s -> s <> EmptyString.
Proof. by intros [H _] ->. Qed.
