(* ===== verification/NetAddr.v ===== *)
(** The part of Go's [net], [net/netip] and [encoding/binary] packages the
    sources use: addresses and CIDR prefixes as lists of bytes, parsed and
    printed as the standard library does. *)
From S2P Require Import Prelude GoStrings.

(** A [net.IP] is its bytes: 4 or 16 of them, each in [0, 255]. *)
Abbreviation IP := (list Z).

(** [net.IPNet]: the network address, and [Mask.Size()] of its mask. *)
Record IPNet := mkIPNet { net_IP : IP; mask_ones : Z; mask_bits : Z }.

Definition v4InV6Prefix : list Z := [0; 0; 0; 0; 0; 0; 0; 0; 0; 0; 255; 255].

(** ** Dotted decimal *)

(** One octet: decimal digits without a leading zero, at most 255. *)
Definition parse_octet (s : string) : option Z :=
  match s with
  | EmptyString => None
  | String c s' =>
      if char_eqb c "0" && negb (bool_decide (s' = EmptyString)) then None
      else match dec_val 0 s with
           | Some v => if v <=? 255 then Some v else None
           | None => None
           end
  end.

(** [netip.parseIPv4Fields]: exactly four octets. *)
Definition parse_ipv4 (s : string) : option IP :=
  match Split "." s with
  | [a; b; c; d] =>
      a ← parse_octet a; b ← parse_octet b; c ← parse_octet c; d ← parse_octet d;
      Some [a; b; c; d]
  | _ => None
  end.

(** ** Colon-separated hexadecimal *)

(** The leading hexadecimal number of [s], at most four digits: its value, how
    many digits it has, and the rest. [None] on a fifth digit. *)
Fixpoint hex_group (digits : nat) (acc : Z) (s : string) : option (Z * nat * string) :=
  match s with
  | String c s' =>
      match hex_val c with
      | Some v => if (3 <? digits)%nat then None else hex_group (S digits) (acc * 16 + v) s'
      | None => Some (acc, digits, s)
      end
  | EmptyString => Some (acc, digits, s)
  end.

(** The loop of [netip.parseIPv6]: [fuel] counts the 16-bit groups that still
    fit, [ip] the bytes read so far, [ell] the position of the ellipsis. The
    answer is the bytes, the ellipsis and what is left of the text. *)
Fixpoint v6_loop (fuel : nat) (s : string) (ip : list Z) (ell : option nat)
    : option (list Z * option nat * string) :=
  match fuel with
  | O => Some (ip, ell, s)
  | S fuel' =>
      match hex_group 0 0 s with
      | None => None
      | Some (acc, off, rest) =>
          if (off =? 0)%nat then None
          else match rest with
               | String "." _ =>
                   if bool_decide (ell = None) && negb (length ip =? 12)%nat then None
                   else if (16 <? length ip + 4)%nat then None
                   else v4 ← parse_ipv4 s; Some (ip ++ v4, ell, EmptyString)
               | _ =>
                   let ip' := ip ++ [acc / 256; acc mod 256] in
                   match rest with
                   | EmptyString => Some (ip', ell, EmptyString)
                   | String c s1 =>
                       if negb (char_eqb c ":") then None
                       else match s1 with
                            | EmptyString => None
                            | String c1 s2 =>
                                if char_eqb c1 ":" then
                                  match ell with
                                  | Some _ => None
                                  | None =>
                                      match s2 with
                                      | EmptyString => Some (ip', Some (length ip'), EmptyString)
                                      | _ => v6_loop fuel' s2 ip' (Some (length ip'))
                                      end
                                  end
                                else v6_loop fuel' s1 ip' ell
                            end
                   end
               end
      end
  end.

(** Zeros in place of the ellipsis, up to 16 bytes. *)
Definition expand_ellipsis (ip : list Z) (ell : option nat) : option IP :=
  match ell with
  | Some e =>
      if (length ip <? 16)%nat
      then Some (take e ip ++ replicate (16 - length ip) 0 ++ drop e ip)
      else None
  | None => if (length ip <? 16)%nat then None else Some ip
  end.

(** [netip.parseIPv6] of a text without a zone. *)
Definition parse_ipv6 (s : string) : option IP :=
  let start :=
    match cut_prefix "::" s with
    | Some EmptyString => Some (inl (replicate 16 0))
    | Some rest => Some (inr (rest, Some O))
    | None => Some (inr (s, None))
    end in
  match start with
  | Some (inl ip) => Some ip
  | Some (inr (s', ell)) =>
      match v6_loop 8 s' [] ell with
      | Some (ip, ell', EmptyString) => expand_ellipsis ip ell'
      | _ => None
      end
  | None => None
  end.

(** [netip.ParseAddr] without zones: dotted decimal (true) or hexadecimal. The
    first of '.', ':' and '%' decides; a '%' never leads to an address that
    [net] accepts. *)
Fixpoint addr_form (s : string) : option bool :=
  match s with
  | EmptyString => None
  | String c s' =>
      if char_eqb c "." then Some true
      else if char_eqb c ":" then Some false
      else if char_eqb c "%" then None
      else addr_form s'
  end.

Definition parse_addr (s : string) : option (bool * IP) :=
  if has_char "%" s then None
  else match addr_form s with
       | Some true => (fun ip => (true, ip)) <$> parse_ipv4 s
       | Some false => (fun ip => (false, ip)) <$> parse_ipv6 s
       | None => None
       end.

Definition As16 (a : bool * IP) : IP := let '(is4, ip) := a in if is4 : bool then v4InV6Prefix ++ ip else ip.

(** [net.ParseIP]: 16 bytes, or [None] for [nil]. *)
Definition ParseIP (s : string) : option IP := As16 <$> parse_addr s.

(** [ip.To4()] *)
Definition To4 (ip : IP) : option IP :=
  if (length ip =? 4)%nat then Some ip
  else if (length ip =? 16)%nat && bool_decide (take 12 ip = v4InV6Prefix) then Some (drop 12 ip)
  else None.

(** [ip.To16()] *)
Definition To16 (ip : IP) : option IP :=
  if (length ip =? 4)%nat then Some (v4InV6Prefix ++ ip)
  else if (length ip =? 16)%nat then Some ip
  else None.

(** ** Prefixes *)

(** [net.CIDRMask(ones, 8 * n)] as [n] bytes. *)
Fixpoint cidr_mask (n : nat) (ones : Z) : list Z :=
  match n with
  | O => []
  | S n' =>
      (if 8 <=? ones then 255 else if 0 <? ones then 256 - 2 ^ (8 - ones) else 0)
        :: cidr_mask n' (ones - 8)
  end.

Definition mask_bytes (ip mask : list Z) : list Z := zip_with Z.land ip mask.

(** [net.ParseCIDR], its second result: the network. The count of mask bits is a
    run of digits below [0xFFFFFF], at most the width of the address. An IPv4
    prefix has a 4-byte network address. *)
Definition ParseCIDR (s : string) : option IPNet :=
  match Cut "/" s with
  | None => None
  | Some (addr, mask) =>
      match parse_addr addr, (if bool_decide (mask = EmptyString) then None else dec_val 0 mask) with
      | Some (is4, ip), Some n =>
          let width := if is4 : bool then 32 else 128 in
          if width <? n then None
          else Some (mkIPNet (mask_bytes ip (cidr_mask (length ip) n)) n width)
      | _, _ => None
      end
  end.

(** ** Printing *)

Definition ipv4_string (ip : IP) : string := Join (Itoa <$> ip) ".".

Definition hex_digit (v : Z) : string :=
  byte_str (Z.to_nat (if v <? 10 then 48 + v else 97 + v - 10)).

(** A 16-bit group in lower-case hexadecimal without leading zeros. *)
Definition hex_string (v : Z) : string :=
  (if 4096 <=? v then hex_digit (v / 4096) else EmptyString) +:+
  (if 256 <=? v then hex_digit (v / 256 mod 16) else EmptyString) +:+
  (if 16 <=? v then hex_digit (v / 16 mod 16) else EmptyString) +:+
  hex_digit (v mod 16).

Fixpoint groups (ip : IP) : list Z :=
  match ip with
  | hi :: lo :: ip' => hi * 256 + lo :: groups ip'
  | _ => []
  end.

Fixpoint zero_run (gs : list Z) : nat :=
  match gs with
  | g :: gs' => if g =? 0 then S (zero_run gs') else O
  | [] => O
  end.

(** The first longest run of at least two zero groups: start and length. *)
Fixpoint best_run (i : nat) (gs : list Z) (best : nat * nat) : nat * nat :=
  match gs with
  | [] => best
  | _ :: gs' =>
      let l := zero_run gs in
      best_run (S i) gs' (if (2 <=? l)%nat && (best.2 <? l)%nat then (i, l) else best)
  end.

Definition hex_groups (gs : list Z) : string := Join (hex_string <$> gs) ":".

Definition ipv6_string (ip : IP) : string :=
  let gs := groups ip in
  match best_run 0 gs (0%nat, 0%nat) with
  | (_, O) => hex_groups gs
  | (i, l) => hex_groups (take i gs) +:+ "::" +:+ hex_groups (drop (i + l) gs)
  end.

(** [ip.String()] of 4 or 16 bytes. *)
Definition IP_String (ip : IP) : string :=
  match To4 ip with
  | Some ip4 => ipv4_string ip4
  | None => ipv6_string ip
  end.

(** [net.JoinHostPort] *)
Definition JoinHostPort (host port : string) : string :=
  if has_char ":" host then "[" +:+ host +:+ "]:" +:+ port else host +:+ ":" +:+ port.

(** ** [binary.BigEndian] *)

(** [Uint32(b)]: panics ([None]) on fewer than four bytes. *)
Definition Uint32 (b : list Z) : option Z :=
  match b with
  | b0 :: b1 :: b2 :: b3 :: _ => Some (b0 * 2 ^ 24 + b1 * 2 ^ 16 + b2 * 2 ^ 8 + b3)
  | _ => None
  end.

(** The bytes [PutUint32] writes. *)
Definition PutUint32 (v : Z) : list Z :=
  [v / 2 ^ 24 mod 256; v / 2 ^ 16 mod 256; v / 2 ^ 8 mod 256; v mod 256].

(** ** Examples from the repository's tests *)

Example ParseCIDR_v4 : ParseCIDR "10.7.50.0/24" = Some (mkIPNet [10; 7; 50; 0] 24 32).
Proof. vm_compute. reflexivity. Qed.
Example ParseCIDR_host_bits : ParseCIDR "10.7.50.77/20" = Some (mkIPNet [10; 7; 48; 0] 20 32).
Proof. vm_compute. reflexivity. Qed.
Example ParseCIDR_v6 :
  ParseCIDR "fd07:0007:1::/64" = Some (mkIPNet [253; 7; 0; 7; 0; 1; 0; 0; 0; 0; 0; 0; 0; 0; 0; 0] 64 128).
Proof. vm_compute. reflexivity. Qed.
Example ParseCIDR_bad : ParseCIDR "nonsense" = None.
Proof. vm_compute. reflexivity. Qed.
Example ParseIP_mapped : ParseIP "::ffff:10.0.0.1" = ParseIP "10.0.0.1".
Proof. vm_compute. reflexivity. Qed.
Example IP_String_v6 : IP_String <$> ParseIP "fd07:0007:1::2" = Some "fd07:7:1::2".
Proof. vm_compute. reflexivity. Qed.
Example IP_String_runs : IP_String <$> ParseIP "1:0:0:2:0:0:0:3" = Some "1:0:0:2::3".
Proof. vm_compute. reflexivity. Qed.
Example IP_String_unspecified : IP_String <$> ParseIP "::" = Some "::".
Proof. vm_compute. reflexivity. Qed.

(** ** Bytes *)

Definition is_byte (b : Z) : Prop := 0 <= b <= 255.

(** A property of all bytes that can be computed holds of each of them. *)
Lemma byte_forall (P : Z -> bool) :
  forallb P (Z.of_nat <$> seq 0 256) = true -> forall b, is_byte b -> P b = true.
Proof.
  intros H b Hb. rewrite forallb_forall in H. apply H, list_elem_of_In, list_elem_of_fmap.
  exists (Z.to_nat b). unfold is_byte in Hb. split; [lia|]. apply elem_of_seq. lia.
Qed.

Lemma parse_octet_Itoa b : is_byte b -> parse_octet (Itoa b) = Some b.
Proof.
  intros Hb. refine (bool_decide_eq_true_1 (parse_octet (Itoa b) = Some b) _).
  revert b Hb. apply byte_forall. vm_compute. reflexivity.
Qed.

Lemma Itoa_byte_chars b :
  is_byte b -> has_char "." (Itoa b) = false /\ has_char "%" (Itoa b) = false /\
               has_char ":" (Itoa b) = false /\ has_char "/" (Itoa b) = false.
Proof.
  intros Hb.
  assert (H : (negb (has_char "." (Itoa b)) && negb (has_char "%" (Itoa b)) &&
          negb (has_char ":" (Itoa b)) && negb (has_char "/" (Itoa b))) = true).
  { revert b Hb. apply byte_forall. vm_compute. reflexivity. }
  by to_prop.
Qed.

(** A printed IPv4 address reads back as its bytes. *)
Lemma parse_ipv4_string a b c d :
  is_byte a -> is_byte b -> is_byte c -> is_byte d ->
  parse_ipv4 (ipv4_string [a; b; c; d]) = Some [a; b; c; d].
Proof.
  intros. unfold parse_ipv4, ipv4_string. rewrite Split_Join; [|done|].
  2: { rewrite !Forall_fmap. forall_list; by apply Itoa_byte_chars. }
  cbn [fmap list_fmap]. by rewrite !parse_octet_Itoa by done.
Qed.

Lemma addr_form_dotted w s :
  has_char "." w = false -> has_char "%" w = false -> has_char ":" w = false ->
  addr_form (w +:+ String "." s) = Some true.
Proof.
  induction w as [|c w IH]; [done|]. rewrite string_app_cons. simpl.
  repeat (destruct (char_eqb c _); [done|]). done.
Qed.

Lemma ipv4_string_chars ip x :
  Forall is_byte ip -> x = "%"%char \/ x = ":"%char \/ x = "/"%char ->
  has_char x (ipv4_string ip) = false.
Proof.
  intros H Hx. unfold ipv4_string. induction H as [|b ip Hb Hip IH]; [done|].
  destruct (Itoa_byte_chars b Hb) as (_ & ? & ? & ?).
  destruct ip as [|b' ip]; cbn [fmap list_fmap Join] in *.
  - by destruct Hx as [->|[->| ->]].
  - rewrite !has_char_app. fold (fmap Itoa (b' :: ip)).
    change (Join (Itoa b' :: list_fmap _ _ Itoa ip) ".") with (Join (Itoa <$> b' :: ip) ".").
    rewrite IH. destruct Hx as [->|[->| ->]]; simpl; by rewrite orb_false_r.
Qed.

Lemma ParseIP_ipv4_string a b c d :
  is_byte a -> is_byte b -> is_byte c -> is_byte d ->
  ParseIP (ipv4_string [a; b; c; d]) = Some (v4InV6Prefix ++ [a; b; c; d]).
Proof.
  intros Ha Hb Hc Hd. unfold ParseIP, parse_addr.
  rewrite ipv4_string_chars by (forall_list; auto).
  destruct (Itoa_byte_chars a Ha) as (? & ? & ? & _).
  change (ipv4_string [a; b; c; d]) with (Itoa a +:+ String "." (ipv4_string [b; c; d])) at 1.
  rewrite addr_form_dotted by done. by rewrite parse_ipv4_string.
Qed.

Lemma To4_mapped ip : length ip = 4%nat -> To4 (v4InV6Prefix ++ ip) = Some ip.
Proof. intros H. unfold To4. rewrite length_app, H. by destruct ip. Qed.

Lemma Uint32_PutUint32 v : 0 <= v < 2 ^ 32 -> Uint32 (PutUint32 v) = Some v.
Proof. intros Hv. unfold Uint32, PutUint32. f_equal. lia. Qed.

Lemma PutUint32_bytes v : Forall is_byte (PutUint32 v).
Proof. unfold PutUint32, is_byte. forall_list; lia. Qed.

(** The address an IPv4 string of a 32-bit integer parses to. *)
Lemma ParseIP_Uint32 v :
  0 <= v < 2 ^ 32 ->
  exists ip, ParseIP (ipv4_string (PutUint32 v)) = Some ip /\ To4 ip = Some (PutUint32 v).
Proof.
  intros Hv. eexists. split; [|by apply To4_mapped].
  pose proof (PutUint32_bytes v) as H. unfold PutUint32 in *.
  inversion_clear H as [|? ? ? H1]; inversion_clear H1 as [|? ? ? H2];
  inversion_clear H2 as [|? ? ? H3]; inversion_clear H3.
  by apply ParseIP_ipv4_string.
Qed.

Lemma ipv4_string_inj v w :
  0 <= v < 2 ^ 32 -> 0 <= w < 2 ^ 32 ->
  ipv4_string (PutUint32 v) = ipv4_string (PutUint32 w) -> v = w.
Proof.
  intros Hv Hw E.
  destruct (ParseIP_Uint32 v Hv) as (ip & H1 & H2), (ParseIP_Uint32 w Hw) as (ip' & H1' & H2').
  rewrite E in H1. assert (ip = ip') as <- by congruence.
  assert (PutUint32 v = PutUint32 w) as E' by congruence.
  apply (f_equal Uint32) in E'. rewrite !Uint32_PutUint32 in E' by done. congruence.
Qed.

(** ** What the parsers return *)

Lemma parse_octet_byte s v : parse_octet s = Some v -> is_byte v.
Proof.
  assert (Hdv : forall s acc v, 0 <= acc -> dec_val acc s = Some v -> 0 <= v).
  { clear. induction s as [|c s IH]; simpl; intros acc v Ha H; [congruence|].
    destruct (is_digit c) eqn:E; [|done]. apply IH in H; [done|].
    unfold is_digit in E. to_prop. unfold digit_val. lia. }
  unfold parse_octet. destruct s as [|c s]; [done|]. case_match; [done|].
  destruct (dec_val 0 (String c s)) as [w|] eqn:E; [|done].
  apply Hdv in E; [|lia]. destruct (Z.leb_spec w 255); [|done]. intros [= <-].
  unfold is_byte. lia.
Qed.

Lemma parse_ipv4_bytes s ip : parse_ipv4 s = Some ip -> length ip = 4%nat /\ Forall is_byte ip.
Proof.
  unfold parse_ipv4. intros H. repeat case_match; try done.
  repeat (apply bind_Some in H as (? & ? & H)). simplify_eq.
  split; [done|]. forall_list; by eapply parse_octet_byte.
Qed.

Lemma hex_group_bound s d acc acc' d' rest :
  (d <= 4)%nat -> 0 <= acc < 16 ^ Z.of_nat d -> hex_group d acc s = Some (acc', d', rest) ->
  0 <= acc' < 65536.
Proof.
  revert d acc. induction s as [|c s IH]; intros d acc Hd Ha H; cbn [hex_group] in H.
  - simplify_eq. pose proof (Z.pow_le_mono_r 16 (Z.of_nat d') 4). lia.
  - destruct (hex_val c) as [v|] eqn:E.
    + destruct (Nat.ltb_spec 3 d); [done|]. apply IH in H; [done|lia|].
      assert (0 <= v < 16) by (unfold hex_val in E; repeat case_match; simplify_eq; to_prop; lia).
      rewrite Nat2Z.inj_succ, Z.pow_succ_r; lia.
    + simplify_eq. pose proof (Z.pow_le_mono_r 16 (Z.of_nat d') 4). lia.
Qed.

Lemma v6_loop_bytes fuel s ip ell ip' ell' rest :
  Forall is_byte ip -> (length ip + 2 * fuel <= 16)%nat ->
  v6_loop fuel s ip ell = Some (ip', ell', rest) -> Forall is_byte ip' /\ (length ip' <= 16)%nat.
Proof.
  revert s ip ell. induction fuel as [|fuel IH]; intros s ip ell Hip Hlen H.
  { simpl in H. simplify_eq. split; [done|lia]. }
  cbn [v6_loop] in H. destruct (hex_group 0 0 s) as [[[acc off] r]|] eqn:Eg; [|done].
  apply hex_group_bound in Eg; [|lia|simpl; lia]. case_match; [done|].
  assert (Hip' : Forall is_byte (ip ++ [acc / 256; acc mod 256])).
  { apply Forall_app. split; [done|]. unfold is_byte. forall_list; lia. }
  assert (Hlen' : length (ip ++ [acc / 256; acc mod 256]) = (length ip + 2)%nat) by apply length_app.
  set (ip1 := ip ++ [acc / 256; acc mod 256]) in *. clearbody ip1.
  repeat (case_match; try done); simplify_eq;
    try (by split; [done|lia]); try (by apply IH in H; [| |lia]); try (by eapply IH in H; [|done|lia]).
  all: apply bind_Some in H as (v4 & Hv4 & H); simplify_eq;
    apply parse_ipv4_bytes in Hv4 as [Hl4 Hb4]; split; [by apply Forall_app|];
    rewrite length_app; repeat match goal with H : (_ <? _)%nat = false |- _ => apply Nat.ltb_ge in H end; lia.
Qed.

Lemma expand_ellipsis_bytes ip ell ip' :
  Forall is_byte ip -> (length ip <= 16)%nat -> expand_ellipsis ip ell = Some ip' ->
  Forall is_byte ip' /\ length ip' = 16%nat.
Proof.
  unfold expand_ellipsis. intros Hb Hl H.
  destruct ell as [e|], (Nat.ltb_spec (length ip) 16); simplify_eq.
  - split.
    + rewrite !Forall_app. splits; [by apply Forall_take| |by apply Forall_drop].
      apply Forall_replicate. unfold is_byte. lia.
    + rewrite !length_app, length_take, length_replicate, length_drop. lia.
  - split; [done|lia].
Qed.

Lemma parse_addr_bytes s is4 ip :
  parse_addr s = Some (is4, ip) -> Forall is_byte ip /\ length ip = (if is4 : bool then 4 else 16)%nat.
Proof.
  unfold parse_addr. intros H. case_match; [done|]. case_match; [|done].
  case_match; apply fmap_Some in H as (ip' & H & Hp); simplify_eq.
  - by apply parse_ipv4_bytes in H as [].
  - unfold parse_ipv6 in H.
    destruct (cut_prefix "::" s) as [[|c r]|]; simplify_eq.
    + split; [|done]. apply Forall_replicate. unfold is_byte. lia.
    + destruct (v6_loop _ _ _ _) as [[[ip1 ell1] []]|] eqn:E; try done.
      apply v6_loop_bytes in E as [Hb Hl]; [|done|done]. by eapply expand_ellipsis_bytes.
    + destruct (v6_loop _ _ _ _) as [[[ip1 ell1] []]|] eqn:E; try done.
      apply v6_loop_bytes in E as [Hb Hl]; [|done|done]. by eapply expand_ellipsis_bytes.
Qed.

(** ** Network addresses are aligned on their prefix *)

Lemma land_mask_byte b k :
  is_byte b -> 0 <= k <= 8 -> Z.land b (256 - 2 ^ (8 - k)) = b - b mod 2 ^ (8 - k).
Proof.
  intros Hb Hk.
  assert (H : forallb (fun k => Z.land b (256 - 2 ^ (8 - k)) =? b - b mod 2 ^ (8 - k))
                (Z.of_nat <$> seq 0 9) = true).
  { revert b Hb. apply byte_forall. vm_compute. reflexivity. }
  rewrite forallb_forall in H. apply Z.eqb_eq, H, list_elem_of_In, list_elem_of_fmap.
  exists (Z.to_nat k). split; [lia|]. apply elem_of_seq. lia.
Qed.

(** One byte of a masked address. *)
Lemma land_cidr_byte b ones :
  is_byte b ->
  Z.land b (if 8 <=? ones then 255 else if 0 <? ones then 256 - 2 ^ (8 - ones) else 0) =
  b - b mod 2 ^ Z.max 0 (Z.min 8 (8 - ones)).
Proof.
  intros Hb. destruct (Z.leb_spec 8 ones); [|destruct (Z.ltb_spec 0 ones)].
  - rewrite Z.max_l by lia. change 255 with (256 - 2 ^ (8 - 8)).
    rewrite land_mask_byte by (done || lia). done.
  - rewrite Z.max_r by lia. rewrite Z.min_r by lia. apply land_mask_byte; [done|lia].
  - rewrite Z.max_r, Z.min_l by lia. unfold is_byte in Hb. rewrite Z.land_0_r. lia.
Qed.

(** A byte without its [k] low bits. *)
Lemma byte_high_part x k :
  is_byte x -> 0 <= k <= 8 ->
  exists A, x - x mod 2 ^ k = A /\ 0 <= A <= 255 /\ (2 ^ k | A) /\ (k = 8 -> A = 0).
Proof.
  unfold is_byte. intros Hx Hk. exists (x / 2 ^ k * 2 ^ k).
  pose proof (Z.div_mod x (2 ^ k) ltac:(lia)) as H1.
  pose proof (Z.mod_pos_bound x (2 ^ k) ltac:(lia)) as H2.
  pose proof (Z.div_pos x (2 ^ k) ltac:(lia) ltac:(lia)) as H3.
  splits; [lia|nia|nia|apply Z.divide_factor_r|].
  intros ->. rewrite Z.div_small; lia.
Qed.

(** The 32-bit integer of four masked bytes is a multiple of the size of the
    network. *)
Lemma masked4_aligned a b c d n :
  is_byte a -> is_byte b -> is_byte c -> is_byte d -> 0 <= n <= 32 ->
  exists v, Uint32 (mask_bytes [a; b; c; d] (cidr_mask 4 n)) = Some v /\
    0 <= v < 2 ^ 32 /\ v mod 2 ^ (32 - n) = 0.
Proof.
  intros Ha Hb Hc Hd Hn. unfold mask_bytes. cbn [cidr_mask zip_with Uint32].
  eexists. split; [reflexivity|]. rewrite !land_cidr_byte by done.
  destruct (byte_high_part a (Z.max 0 (Z.min 8 (8 - n)))) as (A & -> & BA & DA & ZA); [done|lia|].
  destruct (byte_high_part b (Z.max 0 (Z.min 8 (8 - (n - 8))))) as (B & -> & BB & DB & ZB); [done|lia|].
  destruct (byte_high_part c (Z.max 0 (Z.min 8 (8 - (n - 8 - 8))))) as (C & -> & BC & DC & ZC); [done|lia|].
  destruct (byte_high_part d (Z.max 0 (Z.min 8 (8 - (n - 8 - 8 - 8))))) as (D & -> & BD & DD & ZD); [done|lia|].
  split; [clear -BA BB BC BD; lia|].
  assert (Hdiv : forall X k j, 0 <= k -> 0 <= j -> (2 ^ k | X) -> 32 - n <= k + j \/ X = 0 ->
            (2 ^ (32 - n) | X * 2 ^ j)).
  { clear -Hn. intros X k j Hk Hj [q ->] [Hle| ->]; [|by exists 0].
    rewrite <- Z.mul_assoc, <- Z.pow_add_r by lia. apply Z.divide_mul_r.
    exists (2 ^ (k + j - (32 - n))). rewrite <- Z.pow_add_r by lia. f_equal. lia. }
  apply Z.mod_divide; [lia|].
  replace D with (D * 2 ^ 0) by lia.
  repeat apply Z.divide_add_r.
  - eapply Hdiv; [| |exact DA|]; clear -Hn ZA; lia.
  - eapply Hdiv; [| |exact DB|]; clear -Hn ZB; lia.
  - eapply Hdiv; [| |exact DC|]; clear -Hn ZC; lia.
  - eapply Hdiv; [| |exact DD|]; clear -Hn ZD; lia.
Qed.

Lemma drop_cidr_mask k m n : drop k (cidr_mask (k + m) n) = cidr_mask m (n - 8 * Z.of_nat k).
Proof.
  revert n. induction k as [|k IH]; intros n; cbn [drop cidr_mask Nat.add].
  - by replace (n - 8 * Z.of_nat 0) with n by lia.
  - rewrite IH. by replace (n - 8 * Z.of_nat (S k)) with (n - 8 - 8 * Z.of_nat k) by lia.
Qed.

Lemma length_cidr_mask m n : length (cidr_mask m n) = m.
Proof. revert n. induction m; intros; simpl; auto. Qed.

Lemma four_bytes (ip : IP) :
  length ip = 4%nat -> Forall is_byte ip ->
  exists a b c d, ip = [a; b; c; d] /\ is_byte a /\ is_byte b /\ is_byte c /\ is_byte d.
Proof.
  intros Hl Hb. destruct ip as [|a [|b [|c [|d []]]]]; try done.
  rewrite !Forall_cons in Hb. exists a, b, c, d. tauto.
Qed.

(** A 16-byte address whose masked prefix is still [::ffff] was masked below it. *)
Lemma mapped_prefix_ones ip n :
  length ip = 16%nat -> Forall is_byte ip ->
  take 12 (mask_bytes ip (cidr_mask 16 n)) = v4InV6Prefix -> 96 <= n.
Proof.
  intros Hl Hb H0.
  assert (H : take 1 (drop 11 (mask_bytes ip (cidr_mask 16 n))) = [255]).
  { rewrite take_drop_commute. change (11 + 1)%nat with 12%nat. by rewrite H0. }
  clear H0. unfold mask_bytes in H. rewrite zip_with_drop, (drop_cidr_mask 11 5) in H.
  destruct (drop 11 ip) as [|b l] eqn:E; [done|].
  assert (Hbb : is_byte b).
  { rewrite Forall_forall in Hb. apply Hb. apply (subseteq_drop 11). rewrite E. set_solver. }
  cbn [cidr_mask zip_with take] in H. injection H as H.
  rewrite land_cidr_byte in H by done. unfold is_byte in Hbb.
  set (k := Z.max 0 _) in H.
  destruct (Z.le_gt_cases k 0) as [Hk|Hk]; [subst k; lia|].
  pose proof (Z.mod_pos_bound b (2 ^ k) ltac:(lia)). assert (b = 255) as -> by lia.
  assert (Hm : 255 mod 2 ^ k = 0) by lia.
  apply Z.mod_divide in Hm as [q Hq]; [|lia].
  replace k with (1 + (k - 1)) in Hq by lia. rewrite Z.pow_add_r in Hq by lia. lia.
Qed.

(** The IPv4 network of a prefix: a 32-bit address aligned on the size of the
    network, for a dotted prefix and for an IPv4-mapped one. *)
Lemma network_aligned c n ip :
  ParseCIDR c = Some n -> To4 (net_IP n) = Some ip ->
  exists v, Uint32 ip = Some v /\ 0 <= mask_bits n - mask_ones n <= 32 /\ 0 <= v < 2 ^ 32 /\
    v mod 2 ^ (mask_bits n - mask_ones n) = 0.
Proof.
  unfold ParseCIDR. intros H H4. destruct (Cut "/" c) as [[addr mask]|]; [|done].
  destruct (parse_addr addr) as [[is4 a]|] eqn:Ea; [|done].
  apply parse_addr_bytes in Ea as [Hb Hl].
  destruct (if bool_decide (mask = EmptyString) then None else dec_val 0 mask) as [k|] eqn:Ek; [|done].
  assert (Hk : 0 <= k).
  { clear -Ek. case_bool_decide; [done|]. revert Ek.
    enough (Hg : forall s acc, 0 <= acc -> dec_val acc s = Some k -> 0 <= k) by (apply Hg; lia).
    clear. induction s as [|c s IH]; simpl; intros acc Ha H; [congruence|].
    destruct (is_digit c) eqn:E; [|done]. apply IH in H; [done|].
    unfold is_digit in E. to_prop. unfold digit_val. lia. }
  destruct (Z.ltb_spec (if is4 then 32 else 128) k) as [|Hw]; [done|]. injection H as <-.
  cbn [net_IP mask_ones mask_bits] in *. rewrite Hl in *.
  assert (Hlm : length (mask_bytes a (cidr_mask (if is4 then 4 else 16) k)) = (if is4 then 4 else 16)%nat).
  { unfold mask_bytes. rewrite length_zip_with, length_cidr_mask, Hl. lia. }
  unfold To4 in H4. rewrite Hlm in H4. destruct is4; cbn [Nat.eqb andb] in *.
  - assert (ip = mask_bytes a (cidr_mask 4 k)) as -> by congruence.
    destruct (four_bytes a Hl Hb) as (x & y & z & w & -> & ? & ? & ? & ?).
    destruct (masked4_aligned x y z w k) as (v & -> & ? & ?); [assumption..|lia|].
    exists v. splits; [reflexivity|lia|lia|lia|lia|assumption].
  - case_bool_decide as Hp; [|done].
    assert (ip = drop 12 (mask_bytes a (cidr_mask 16 k))) as -> by congruence. clear H4.
    apply (mapped_prefix_ones a k Hl Hb) in Hp.
    unfold mask_bytes. rewrite zip_with_drop, (drop_cidr_mask 12 4).
    destruct (four_bytes (drop 12 a)) as (x & y & z & w & -> & ? & ? & ? & ?).
    { rewrite length_drop. lia. } { by apply Forall_drop. }
    destruct (masked4_aligned x y z w (k - 96)) as (v & Hv & ? & Hal); [assumption..|lia|].
    change (8 * Z.of_nat 12) with 96. unfold mask_bytes in Hv. rewrite Hv.
    exists v. replace (128 - k) with (32 - (k - 96)) by lia. splits; assumption || lia || reflexivity.
Qed.

(** A masked address is made of bytes. *)
Lemma land_byte b m : is_byte b -> is_byte (Z.land b m).
Proof.
  unfold is_byte. intros Hb. assert (E : Z.land b m = Z.land (Z.land b m) (Z.ones 8)).
  { rewrite <- Z.land_assoc, (Z.land_comm m), Z.land_assoc. f_equal. rewrite Z.land_ones, Z.mod_small; [done| |done].
    change (2 ^ 8) with 256. lia. }
  rewrite E, Z.land_ones by done. change (2 ^ 8) with 256. lia.
Qed.

Lemma network_bytes c n ip : ParseCIDR c = Some n -> To4 (net_IP n) = Some ip -> length ip = 4%nat /\ Forall is_byte ip.
Proof.
  unfold ParseCIDR. intros Hc H4. destruct (Cut "/" c) as [[addr mask]|]; [|done].
  destruct (parse_addr addr) as [[is4 a]|] eqn:Ea; [|done]. apply parse_addr_bytes in Ea as [Hb _].
  destruct (if bool_decide (mask = EmptyString) then None else dec_val 0 mask) as [k|]; [|done].
  destruct (_ <? k); [done|]. injection Hc as <-. cbn [net_IP] in H4.
  assert (Hm : Forall is_byte (mask_bytes a (cidr_mask (length a) k))).
  { unfold mask_bytes. generalize (cidr_mask (length a) k). clear -Hb. induction Hb as [|x a Hx Ha IH]; intros [|m ms]; try done.
    constructor; [by apply land_byte|]. apply IH. }
  unfold To4 in H4. destruct (_ =? 4)%nat eqn:E4; [injection H4 as <-; split; [by apply Nat.eqb_eq|done]|].
  destruct (_ && _) eqn:E16; [|done]. injection H4 as <-. to_prop. split; [|by apply Forall_drop].
  rewrite length_drop. match goal with E : (length _ =? 16)%nat = true |- _ => apply Nat.eqb_eq in E; rewrite E end. done.
Qed.
