(* ===== verification/Alloc.v ===== *)
(** [allocateHost] of [control-plane/internal/store/connections.go]: the lowest
    free host address of a gateway's tunnel network, and the errors of the
    store package that its operations share. *)
From S2P Require Import Prelude GoStrings NetAddr.

(** The named errors of [package store], and the unnamed ones: [ErrParse] from
    [net.ParseCIDR], [ErrDB] from the database driver or the random source. *)
Inductive StoreError :=
| ErrDeviceNotFound
| ErrNoGatewayAvailable
| ErrGatewayFull
| ErrInvalidToken
| ErrInviteInvalid
| ErrDeviceKeyTaken
| ErrNotFound
| ErrParse
| ErrDB.

#[export] Instance StoreError_eq_dec : EqDecision StoreError.
Proof. solve_decision. Defined.

(** How the search loop ends. *)
Inductive alloc_outcome :=
| Free (h : Z)
| Exhausted
| OutOfFuel.

(** [for h := uint32(2); h < limit; h++ { if used[base+h] { continue }; ... }]:
    every iteration that continues meets another used address, so one more unit
    of fuel than there are used addresses is enough ([alloc_loop_fuel]). *)
Fixpoint alloc_loop (fuel : nat) (base limit h : Z) (used : gset Z) : alloc_outcome :=
  match fuel with
  | O => OutOfFuel
  | S fuel' =>
      if h <? limit then
        if bool_decide (u32 (base + h) ∈ used)
        then alloc_loop fuel' base limit (u32 (h + 1)) used
        else Free h
      else Exhausted
  end.

(** The v6 address of host [h]: the last four bytes of the network address plus
    [h], modulo [2^32]. *)
Definition host_v6 (n6 : IPNet) (h : Z) : string :=
  let c6 := default (replicate 16 0) (To16 (net_IP n6)) in
  IP_String (take 12 c6 ++ PutUint32 (u32 (default 0 (Uint32 (drop 12 c6)) + h))).

Definition netV6_of (cidrV6 : option string) : option IPNet :=
  match cidrV6 with
  | Some s => if bool_decide (s = EmptyString) then None else ParseCIDR s
  | None => None
  end.

(** [uint32(1) << uint(bits-ones)] *)
Definition net_size (n : IPNet) : Z := u32 (2 ^ (mask_bits n - mask_ones n)).

Definition allocateHost (cidrV4 : string) (cidrV6 : option string) (used : gset Z)
    : result StoreError (string * option string) :=
  match ParseCIDR cidrV4 with
  | None => Err ErrParse
  | Some netV4 =>
      match (To4 (net_IP netV4) ≫= Uint32) with
      | None => Panic
      | Some base =>
          match alloc_loop (S (size used)) base (u32 (net_size netV4 - 1)) 2 used with
          | Free h =>
              Ok (ipv4_string (PutUint32 (u32 (base + h))), ((fun n6 => host_v6 n6 h) <$> netV6_of cidrV6))
          | Exhausted => Err ErrGatewayFull
          | OutOfFuel => Panic
          end
      end
  end.

(** ** The loop *)

(** The hosts of the network: all but the network address, the gateway and the
    broadcast address. *)
Definition is_host (limit h : Z) : Prop := 2 <= h < limit.

(** [h] is the lowest host whose address is free. *)
Definition lowest_free (base limit : Z) (used : gset Z) (h : Z) : Prop :=
  is_host limit h /\ ((base + h) ∉ used) /\
  forall k, is_host limit k -> k < h -> base + k ∈ used.

Section loop.
Context (base limit : Z) (used : gset Z).
Hypothesis Hlimit : 0 <= limit < 2 ^ 32.
Hypothesis Hbase : 0 <= base /\ base + limit <= 2 ^ 32.

Lemma alloc_loop_outcome fuel h :
  2 <= h -> (forall k, is_host limit k -> k < h -> base + k ∈ used) ->
  match alloc_loop fuel base limit h used with
  | Free h' => lowest_free base limit used h'
  | Exhausted => forall k, is_host limit k -> base + k ∈ used
  | OutOfFuel => True
  end.
Proof.
  revert h. induction fuel as [|fuel IH]; intros h Hh Hseen; cbn [alloc_loop]; [done|].
  destruct (Z.ltb_spec h limit) as [Hlt|Hge].
  - rewrite u32_small by lia. case_bool_decide as Hu.
    + rewrite u32_small by lia. apply IH; [lia|]. intros k Hk Hkh.
      destruct (Z.eq_dec k h) as [->|]; [done|]. apply Hseen; [done|lia].
    + repeat split; [lia|done|done|apply Hseen].
  - intros k Hk. apply Hseen; [done|]. unfold is_host in Hk. lia.
Qed.

(** The used addresses at or above host [h]. *)
Definition used_from (h : Z) : gset Z := filter (fun a => base + h <= a) used.

Lemma alloc_loop_fuel fuel h :
  0 <= h -> (size (used_from h) < fuel)%nat ->
  alloc_loop fuel base limit h used <> OutOfFuel.
Proof.
  revert h. induction fuel as [|fuel IH]; intros h Hh Hfuel; [lia|]. cbn [alloc_loop].
  destruct (Z.ltb_spec h limit) as [Hlt|]; [|done].
  rewrite u32_small by lia. case_bool_decide as Hu; [|done].
  rewrite u32_small by lia. apply IH; [lia|].
  assert (Hss : used_from (h + 1) ⊂ used_from h).
  { split.
    - intros a. unfold used_from. rewrite !elem_of_filter. intros [? ?]. split; [lia|done].
    - intros Hsub. assert (Hin : base + h ∈ used_from (h + 1)).
      { apply Hsub. unfold used_from. rewrite elem_of_filter. split; [lia|done]. }
      unfold used_from in Hin. rewrite elem_of_filter in Hin. lia. }
  apply subset_size in Hss. lia.
Qed.

Lemma used_from_le h : (size (used_from h) <= size used)%nat.
Proof.
  apply subseteq_size. intros a. unfold used_from. rewrite elem_of_filter. by intros [_ ?].
Qed.

(** The loop of [allocateHost] decides between the lowest free host and none. *)
Lemma alloc_loop_total :
  match alloc_loop (S (size used)) base limit 2 used with
  | Free h => lowest_free base limit used h
  | Exhausted => forall k, is_host limit k -> base + k ∈ used
  | OutOfFuel => False
  end.
Proof.
  pose proof (alloc_loop_outcome (S (size used)) 2 ltac:(lia)) as H.
  pose proof (alloc_loop_fuel (S (size used)) 2 ltac:(lia)) as Hf.
  pose proof (used_from_le 2).
  destruct (alloc_loop _ _ _ _ _); [| |by apply Hf; [lia|]];
    apply H; intros k Hk ?; unfold is_host in Hk; lia.
Qed.

End loop.

(** The last usable host plus one: the broadcast address, or nothing in a network
    of one or two addresses. *)
Definition host_limit (n : IPNet) : Z := 2 ^ (mask_bits n - mask_ones n) - 1.

Lemma net_size_limit n :
  0 <= mask_bits n - mask_ones n <= 32 -> u32 (net_size n - 1) = host_limit n.
Proof.
  intros H. unfold net_size, host_limit, u32.
  set (k := mask_bits n - mask_ones n) in *.
  assert (Hk : 2 ^ 0 <= 2 ^ k <= 2 ^ 32) by (split; apply Z.pow_le_mono_r; lia).
  destruct (Z.eq_dec k 32) as [->|]; [done|].
  assert (2 ^ k < 2 ^ 32) by (apply Z.pow_lt_mono_r; lia).
  rewrite (Z.mod_small (2 ^ k)) by lia. apply Z.mod_small. lia.
Qed.

(** A prefix whose network is an IPv4 one, with its address as an integer. *)
Definition network (c : string) (base : Z) (n : IPNet) : Prop :=
  ParseCIDR c = Some n /\ (To4 (net_IP n) ≫= Uint32) = Some base.

Lemma network_bounds c base n :
  network c base n ->
  0 <= host_limit n < 2 ^ 32 /\ 0 <= base /\ base + host_limit n < 2 ^ 32 /\
  0 <= mask_bits n - mask_ones n <= 32.
Proof.
  intros [Hp Hb]. destruct (To4 (net_IP n)) as [ip|] eqn:E; [|done].
  destruct (network_aligned c n ip Hp E) as (v & Hv & Hk & Hr & Hm).
  simpl in Hb. assert (base = v) as -> by congruence.
  unfold host_limit. set (k := mask_bits n - mask_ones n) in *.
  assert (Hpow : 2 ^ 0 <= 2 ^ k <= 2 ^ 32) by (split; apply Z.pow_le_mono_r; lia).
  apply Z.mod_divide in Hm as [q Hq]; [|lia].
  assert (Hsplit : 2 ^ 32 = 2 ^ (32 - k) * 2 ^ k) by (rewrite <- Z.pow_add_r by lia; f_equal; lia).
  assert (q < 2 ^ (32 - k)) by nia. nia.
Qed.

(** What [allocateHost] computes for an IPv4 prefix. *)
Lemma allocateHost_cases c4 c6 used base n :
  network c4 base n ->
  match allocateHost c4 c6 used with
  | Ok (v4, v6) => exists h, lowest_free base (host_limit n) used h /\
      v4 = ipv4_string (PutUint32 (base + h)) /\ v6 = ((fun n6 => host_v6 n6 h) <$> netV6_of c6)
  | Err e => e = ErrGatewayFull /\ forall k, is_host (host_limit n) k -> base + k ∈ used
  | Panic => False
  end.
Proof.
  intros Hn. destruct (network_bounds _ _ _ Hn) as (Hl & Hb & Hbl & Hk).
  destruct Hn as [Hp Hbase]. unfold allocateHost. rewrite Hp, Hbase, net_size_limit by done.
  pose proof (alloc_loop_total base (host_limit n) used Hl ltac:(lia)) as H.
  destruct (alloc_loop _ _ _ _ _) as [h| |]; [|done|done].
  exists h. rewrite u32_small; [done|]. destruct H as [Hh _]. unfold is_host in Hh. lia.
Qed.

(** The addresses of all hosts of a network. *)
Definition host_addrs (base limit : Z) : gset Z :=
  list_to_set ((fun i => base + Z.of_nat i) <$> seq 2 (Z.to_nat (limit - 2))).

Lemma elem_of_host_addrs base limit a :
  a ∈ host_addrs base limit <-> exists h, is_host limit h /\ a = base + h.
Proof.
  unfold host_addrs, is_host. rewrite elem_of_list_to_set, list_elem_of_fmap. split.
  - intros (i & -> & Hi). apply elem_of_seq in Hi. exists (Z.of_nat i). lia.
  - intros (h & Hh & ->). exists (Z.to_nat h). split; [lia|]. apply elem_of_seq. lia.
Qed.

Lemma size_host_addrs base limit : size (host_addrs base limit) = Z.to_nat (limit - 2).
Proof.
  unfold host_addrs. rewrite size_list_to_set.
  - by rewrite length_fmap, length_seq.
  - apply NoDup_fmap; [intros i j ?; lia|]. apply NoDup_seq.
Qed.

(** C28: on an IPv4 network [allocateHost] returns the lowest host address not in
    use, never the network address, the gateway's own .1 or the broadcast
    address; the text it returns denotes that address, and the v6 address
    returned beside it is that of the same host. *)
Theorem allocateHost_lowest_free c4 c6 used base n v4 v6 :
  network c4 base n -> allocateHost c4 c6 used = Ok (v4, v6) ->
  exists h ip, lowest_free base (host_limit n) used h /\
    ParseIP v4 = Some ip /\ To4 ip = Some (PutUint32 (base + h)) /\
    Uint32 (PutUint32 (base + h)) = Some (base + h) /\
    v6 = ((fun n6 => host_v6 n6 h) <$> netV6_of c6).
Proof.
  intros Hn Hr. pose proof (allocateHost_cases c4 c6 used base n Hn) as H. rewrite Hr in H.
  destruct H as (h & Hh & -> & ->).
  destruct (network_bounds _ _ _ Hn) as (? & ? & ? & _).
  destruct Hh as (Hhost & Hrest) eqn:E. clear E. unfold is_host in Hhost.
  destruct (ParseIP_Uint32 (base + h)) as (ip & Hip & H4); [lia|].
  exists h, ip. splits; try done. apply Uint32_PutUint32. lia.
Qed.

(** [allocateHost] answers "gateway full" exactly when every host address of
    the network is in use. *)
Theorem allocateHost_full_iff c4 c6 used base n :
  network c4 base n ->
  allocateHost c4 c6 used = Err ErrGatewayFull <->
  forall h, is_host (host_limit n) h -> base + h ∈ used.
Proof.
  intros Hn. pose proof (allocateHost_cases c4 c6 used base n Hn) as H.
  destruct (allocateHost c4 c6 used) as [[v4 v6]|e|]; [|by destruct H as [-> ?]|done].
  split; [done|]. intros Hall. destruct H as (h & (Hh & Hfree & _) & _). destruct Hfree. by apply Hall.
Qed.

Lemma allocateHost_room c4 c6 used base n :
  network c4 base n -> Z.of_nat (size used) < host_limit n - 2 ->
  exists v4 v6, allocateHost c4 c6 used = Ok (v4, v6).
Proof.
  intros Hn Hroom. pose proof (allocateHost_cases c4 c6 used base n Hn) as H.
  destruct (allocateHost c4 c6 used) as [[v4 v6]|e|]; [eauto| |done].
  destruct H as [_ Hall]. exfalso.
  assert (Hsub : host_addrs base (host_limit n) ⊆ used).
  { intros a Ha. apply elem_of_host_addrs in Ha as (h & Hh & ->). auto. }
  apply subseteq_size in Hsub. rewrite size_host_addrs in Hsub. lia.
Qed.

(** A network with fewer addresses in use than it has hosts always yields an
    address: the search cannot fail, loop forever or panic while there is room. *)
Theorem allocateHost_succeeds_with_room c4 c6 used base n :
  network c4 base n -> Z.of_nat (size used) < host_limit n - 2 ->
  exists v4 v6, allocateHost c4 c6 used = Ok (v4, v6).
Proof. apply allocateHost_room. Qed.

(** C29: on a prefix that parses, [allocateHost] panics exactly when its network is
    not an IPv4 one: [netV4.IP.To4()] is then nil and [Uint32] reads out of range. *)
Theorem allocateHost_panics_iff c4 c6 used n :
  ParseCIDR c4 = Some n ->
  allocateHost c4 c6 used = Panic <-> To4 (net_IP n) = None.
Proof.
  intros Hp. destruct (To4 (net_IP n)) as [ip|] eqn:E.
  - destruct (network_aligned c4 n ip Hp E) as (v & Hv & _).
    assert (Hn : network c4 v n) by (split; [done|]; by rewrite E).
    pose proof (allocateHost_cases c4 c6 used v n Hn) as H.
    split; [|done]. intros Hr. by rewrite Hr in H.
  - unfold allocateHost. rewrite Hp, E. done.
Qed.

(** An address [allocateHost] returns is not among those in use. *)
Lemma allocateHost_unused c4 c6 used v4 v6 :
  allocateHost c4 c6 used = Ok (v4, v6) ->
  exists v, 0 <= v < 2 ^ 32 /\ (v ∉ used) /\ v4 = ipv4_string (PutUint32 v).
Proof.
  intros Ha. assert (Hnet : exists base n, network c4 base n).
  { unfold allocateHost in Ha. destruct (ParseCIDR c4) as [n|] eqn:En; [|done].
    destruct (To4 (net_IP n) ≫= Uint32) as [base|] eqn:Eb; [|done]. by exists base, n. }
  destruct Hnet as (base & n & Hn). pose proof (allocateHost_cases c4 c6 used base n Hn) as Hc. rewrite Ha in Hc.
  destruct (network_bounds _ _ _ Hn) as (_ & ? & ? & _). destruct Hc as (h & (Hh & Hfree & _) & -> & _).
  unfold is_host in Hh. exists (base + h). splits; [lia|lia|done|done].
Qed.

(** ** The repository's own test cases *)

Example allocateHost_first :
  allocateHost "10.7.50.0/24" (Some "fd07:0007:1::/64") ∅ = Ok ("10.7.50.2", Some "fd07:7:1::2").
Proof. vm_compute. reflexivity. Qed.

Definition addr_10_7_50 (h : Z) : Z := 10 * 2 ^ 24 + 7 * 2 ^ 16 + 50 * 2 ^ 8 + h.

Example allocateHost_skips :
  allocateHost "10.7.50.0/24" None {[addr_10_7_50 2; addr_10_7_50 3]} = Ok ("10.7.50.4", None).
Proof. vm_compute. reflexivity. Qed.

Definition test_net : IPNet := mkIPNet [10; 7; 50; 0] 24 32.

Lemma test_network : network "10.7.50.0/24" (addr_10_7_50 0) test_net.
Proof. split; vm_compute; reflexivity. Qed.

Example allocateHost_exhausted :
  allocateHost "10.7.50.0/24" None (host_addrs (addr_10_7_50 0) 255) = Err ErrGatewayFull.
Proof. apply (allocateHost_full_iff _ _ _ _ _ test_network). intros h Hh. apply elem_of_host_addrs. by exists h. Qed.

Lemma allocateHost_lowest_free_witness :
  exists h ip, lowest_free (addr_10_7_50 0) (host_limit test_net) {[addr_10_7_50 2; addr_10_7_50 3]} h /\
    ParseIP "10.7.50.4" = Some ip /\ To4 ip = Some (PutUint32 (addr_10_7_50 0 + h)) /\
    Uint32 (PutUint32 (addr_10_7_50 0 + h)) = Some (addr_10_7_50 0 + h) /\
    @None string = ((fun n6 => host_v6 n6 h) <$> netV6_of None).
Proof.
  apply (allocateHost_lowest_free "10.7.50.0/24" None); [exact test_network|vm_compute; reflexivity].
Defined.

Lemma allocateHost_full_iff_witness :
  allocateHost "10.7.50.0/24" None ∅ = Err ErrGatewayFull <->
  forall h, is_host (host_limit test_net) h -> addr_10_7_50 0 + h ∈ (∅ : gset Z).
Proof. apply allocateHost_full_iff. exact test_network. Defined.

Lemma allocateHost_succeeds_with_room_witness :
  exists v4 v6, allocateHost "10.7.50.0/24" (Some "fd07::/64") {[addr_10_7_50 2]} = Ok (v4, v6).
Proof.
  apply (allocateHost_succeeds_with_room _ _ _ (addr_10_7_50 0) test_net);
    [exact test_network|vm_compute; reflexivity].
Defined.

Lemma allocateHost_panics_iff_witness :
  allocateHost "fd00::/64" None ∅ = Panic <->
  To4 (net_IP (mkIPNet ([253; 0] ++ replicate 14 0) 64 128)) = None.
Proof. apply allocateHost_panics_iff. vm_compute. reflexivity. Defined.
