(* ===== verification/Reconcile.v ===== *)
(** [agent/internal/reconcile/reconcile.go]: the plan that turns the peers a
    gateway has into the peers it should have. Go ranges over maps in an
    unspecified order, so the two loops take the visiting orders as arguments;
    [Diff] uses one order and [Diff_order_irrelevant] covers all of them. *)
From S2P Require Import Prelude.

Record Peer := mkPeer { PublicKey : string; AllowedIPs : list string }.

Record Plan := mkPlan { Add : list Peer; Remove : list string }.

#[export] Instance Peer_eq_dec : EqDecision Peer.
Proof. solve_decision. Defined.

(** The peer table of an interface: allowed IPs by public key. *)
Abbreviation table := (gmap string (list string)).

Definition Empty (p : Plan) : bool :=
  (Z.of_nat (length (Add p)) =? 0) && (Z.of_nat (length (Remove p)) =? 0).

(** A later entry with the same key replaces an earlier one. *)
Definition index (peers : list Peer) : table :=
  foldl (fun m p => <[PublicKey p := AllowedIPs p]> m) ∅ peers.

(** [seen[x]]: zero for an absent key. *)
Definition seen_at (seen : gmap string Z) (x : string) : Z := default 0 (seen !! x).

Definition count_all (a : list string) : gmap string Z :=
  foldl (fun seen x => <[x := seen_at seen x + 1]> seen) ∅ a.

Fixpoint consume (b : list string) (seen : gmap string Z) : bool :=
  match b with
  | [] => true
  | y :: b' =>
      if seen_at seen y =? 0 then false
      else consume b' (<[y := seen_at seen y - 1]> seen)
  end.

Definition sameSet (a b : list string) : bool :=
  if negb (length a =? length b)%nat then false else consume b (count_all a).

(** The body of the first loop: is the desired entry new or changed? *)
Definition changed (cur : table) (kv : string * list string) : bool :=
  match cur !! kv.1 with
  | Some cips => negb (sameSet cips kv.2)
  | None => true
  end.

(** The body of the second loop: is the current key no longer desired? *)
Definition unwanted (des : table) (kv : string * list string) : bool :=
  match des !! kv.1 with Some _ => false | None => true end.

Definition peer_le (p q : Peer) : Prop := String.le (PublicKey p) (PublicKey q).

#[export] Instance peer_le_dec : RelDecision peer_le.
Proof. intros p q. unfold peer_le. apply _. Defined.

(** [Diff] when the ranges visit [des] and [cur] in the given orders. *)
Definition Diff_ordered (cur des : table) (des_order cur_order : list (string * list string)) : Plan :=
  mkPlan
    (merge_sort peer_le ((fun kv => mkPeer kv.1 kv.2) <$> List.filter (changed cur) des_order))
    (merge_sort String.le (fst <$> List.filter (unwanted des) cur_order)).

Definition Diff (current desired : list Peer) : Plan :=
  let cur := index current in
  let des := index desired in
  Diff_ordered cur des (map_to_list des) (map_to_list cur).

(** ** [sameSet] is equality up to reordering *)

(** The counts of [seen] are those of the list [r]. *)
Definition counts (seen : gmap string Z) (r : list string) : Prop :=
  forall x, seen_at seen x = Z.of_nat (count_occ String.eq_dec r x).

Lemma counts_count_all a : counts (count_all a) a.
Proof.
  unfold count_all. induction a as [|x a IH] using rev_ind; intros y.
  { reflexivity. }
  rewrite foldl_snoc, count_occ_app. unfold seen_at at 1. rewrite lookup_insert. simpl.
  case_decide as Hxy; [subst|]; simpl.
  - rewrite IH. destruct (String.eq_dec y y); [lia|done].
  - destruct (String.eq_dec x y); [done|]. rewrite Nat.add_0_r. apply IH.
Qed.

Lemma counts_Permutation seen r r' : counts seen r -> r ≡ₚ r' -> counts seen r'.
Proof. intros H Hp x. rewrite (H x). f_equal. by apply Permutation_count_occ. Qed.

Lemma counts_decr seen y r : counts seen (y :: r) -> counts (<[y := seen_at seen y - 1]> seen) r.
Proof.
  intros H x. unfold seen_at at 1. rewrite lookup_insert. specialize (H x). simpl in H.
  case_decide as Hyx; [subst|]; simpl.
  - destruct (String.eq_dec x x); [lia|done].
  - by destruct (String.eq_dec y x).
Qed.

Lemma consume_spec b seen r : counts seen r -> consume b seen = true <-> b ⊆+ r.
Proof.
  revert seen r. induction b as [|y b IH]; intros seen r Hc; simpl.
  { split; [|done]. intros _. apply submseteq_nil_l. }
  destruct (Z.eqb_spec (seen_at seen y) 0) as [E|E].
  - split; [done|]. intros Hsub. exfalso.
    assert (Hin : y ∈ r) by (apply (elem_of_submseteq _ _ _ (list_elem_of_here _ _) Hsub)).
    rewrite (Hc y) in E. apply list_elem_of_In, (count_occ_In String.eq_dec) in Hin. lia.
  - assert (Hin : y ∈ r).
    { rewrite (Hc y) in E. apply list_elem_of_In, (count_occ_In String.eq_dec). lia. }
    apply elem_of_Permutation in Hin as [r' Hr'].
    pose proof (counts_decr seen y r' (counts_Permutation _ _ _ Hc Hr')) as Hc'.
    rewrite (IH _ _ Hc'), Hr'. split; [apply submseteq_skip|].
    intros Hsub. apply submseteq_cons_l in Hsub as (k & Hk & Hsub).
    by apply Permutation_cons_inv in Hk as ->.
Qed.

Lemma sameSet_Permutation a b : sameSet a b = true <-> a ≡ₚ b.
Proof.
  unfold sameSet. destruct (Nat.eqb_spec (length a) (length b)) as [Hl|Hl]; simpl.
  - rewrite (consume_spec b _ a (counts_count_all a)). split.
    + intros H. symmetry. apply submseteq_length_Permutation; [done|lia].
    + by intros ->.
  - split; [done|]. intros Hp. by apply Permutation_length in Hp.
Qed.

(** ** What the plan contains *)

Lemma NoDup_fst_filter {A} (f : string * A -> bool) (l : list (string * A)) :
  NoDup (fst <$> l) -> NoDup (fst <$> List.filter f l).
Proof.
  induction l as [|[k v] l IH]; simpl; [done|]. rewrite NoDup_cons. intros [Hk Hl].
  destruct (f (k, v)); [|auto]. simpl. apply NoDup_cons. split; [|auto].
  intros Hin. apply Hk. apply list_elem_of_fmap in Hin as ([k' v'] & -> & Hin).
  apply list_elem_of_In, filter_In in Hin as [Hin _].
  apply list_elem_of_fmap. exists (k', v'). split; [done|]. by apply list_elem_of_In.
Qed.

Section plan.
Context (cur des : table) (dl cl : list (string * list string)).
Hypothesis Hdl : dl ≡ₚ map_to_list des.
Hypothesis Hcl : cl ≡ₚ map_to_list cur.

Lemma elem_of_Add k ips :
  mkPeer k ips ∈ Add (Diff_ordered cur des dl cl) <->
  des !! k = Some ips /\ forall cips, cur !! k = Some cips -> ~ (cips ≡ₚ ips).
Proof.
  simpl. rewrite merge_sort_Permutation, list_elem_of_fmap. split.
  - intros ([k' ips'] & [= -> ->] & Hin). apply list_elem_of_In, filter_In in Hin as [Hin Hc].
    split; [by apply elem_of_map_to_list; rewrite <- Hdl; apply list_elem_of_In|].
    intros cips Hcur. unfold changed in Hc. simpl in Hc. rewrite Hcur in Hc. to_prop.
    rewrite <- sameSet_Permutation. by rewrite Hc.
  - intros [Hd Hch]. exists (k, ips). split; [done|]. apply list_elem_of_In, filter_In.
    split; [by apply list_elem_of_In; rewrite Hdl; apply elem_of_map_to_list|].
    unfold changed. simpl. destruct (cur !! k) as [cips|]; [|done].
    specialize (Hch cips eq_refl). rewrite <- sameSet_Permutation in Hch.
    by destruct (sameSet cips ips).
Qed.

Lemma elem_of_Remove k :
  k ∈ Remove (Diff_ordered cur des dl cl) <-> is_Some (cur !! k) /\ des !! k = None.
Proof.
  simpl. rewrite merge_sort_Permutation, list_elem_of_fmap. split.
  - intros ([k' ips] & -> & Hin). apply list_elem_of_In, filter_In in Hin as [Hin Hu]. simpl.
    split; [exists ips; by apply elem_of_map_to_list; rewrite <- Hcl; apply list_elem_of_In|].
    unfold unwanted in Hu. simpl in Hu. by destruct (des !! k').
  - intros [[ips Hc] Hd]. exists (k, ips). split; [done|]. apply list_elem_of_In, filter_In.
    split; [by apply list_elem_of_In; rewrite Hcl; apply elem_of_map_to_list|].
    unfold unwanted. simpl. by rewrite Hd.
Qed.

Lemma NoDup_Add_keys : NoDup (PublicKey <$> Add (Diff_ordered cur des dl cl)).
Proof.
  simpl. rewrite merge_sort_Permutation, <- list_fmap_compose.
  apply (NoDup_fst_filter (changed cur)). rewrite Hdl. apply NoDup_fst_map_to_list.
Qed.

Lemma NoDup_Remove : NoDup (Remove (Diff_ordered cur des dl cl)).
Proof.
  simpl. rewrite merge_sort_Permutation. apply NoDup_fst_filter.
  rewrite Hcl. apply NoDup_fst_map_to_list.
Qed.

End plan.

(** ** Applying a plan *)

(** The effect of [wg.Apply] on a plain table: additions first, then removals. *)
Definition apply_plan (p : Plan) (m : table) : table :=
  foldl (fun m k => delete k m)
        (foldl (fun m p => <[PublicKey p := AllowedIPs p]> m) m (Add p)) (Remove p).

(** Tables that hold the same allowed IPs for the same keys, in any order. *)
Definition table_equiv (m1 m2 : table) : Prop :=
  forall k, option_Forall2 Permutation (m1 !! k) (m2 !! k).

#[export] Instance table_equiv_equivalence : Equivalence table_equiv.
Proof.
  split.
  - intros m k. reflexivity.
  - intros m1 m2 H k. symmetry. apply H.
  - intros m1 m2 m3 H1 H2 k. etransitivity; [apply H1|apply H2].
Qed.

Lemma lookup_foldl_insert_ne (l : list Peer) (m : table) k :
  k ∉ (PublicKey <$> l) ->
  foldl (fun m p => <[PublicKey p := AllowedIPs p]> m) m l !! k = m !! k.
Proof.
  revert m. induction l as [|p l IH]; intros m H; [done|].
  cbn [foldl fmap list_fmap] in *. apply not_elem_of_cons in H as [H1 H2].
  rewrite IH by done. by rewrite lookup_insert_ne.
Qed.

Lemma lookup_foldl_insert (l : list Peer) (m : table) k ips :
  NoDup (PublicKey <$> l) -> mkPeer k ips ∈ l ->
  foldl (fun m p => <[PublicKey p := AllowedIPs p]> m) m l !! k = Some ips.
Proof.
  revert m. induction l as [|p l IH]; intros m Hnd Hin; [by apply elem_of_nil in Hin|].
  cbn [foldl fmap list_fmap] in *. apply NoDup_cons in Hnd as [Hp Hnd].
  apply elem_of_cons in Hin as [<-|Hin]; [|by apply IH].
  rewrite lookup_foldl_insert_ne by done. apply lookup_insert_eq.
Qed.

(** The table of a list without repeated keys. *)
Lemma lookup_index (l : list Peer) k ips : NoDup (PublicKey <$> l) -> index l !! k = Some ips <-> mkPeer k ips ∈ l.
Proof.
  intros Hnd. unfold index. split; [|by apply lookup_foldl_insert]. intros Hk.
  destruct (decide (k ∈ (PublicKey <$> l))) as [Hin|Hin]; [|by rewrite lookup_foldl_insert_ne in Hk].
  apply list_elem_of_fmap in Hin as ([k' ips'] & -> & Hin). simpl in *.
  rewrite (lookup_foldl_insert _ _ k' ips') in Hk by done. by injection Hk as ->.
Qed.

Lemma lookup_foldl_delete (l : list string) (m : table) k :
  foldl (fun m k => delete k m) m l !! k = if decide (k ∈ l) then None else m !! k.
Proof.
  revert m. induction l as [|x l IH]; intros m; [done|]. cbn [foldl]. rewrite IH.
  destruct (decide (k ∈ l)); [by rewrite decide_True by (by right)|].
  rewrite lookup_delete. case_decide; [subst; by rewrite decide_True by (by left)|].
  rewrite decide_False; [done|]. by intros [->|?]%elem_of_cons.
Qed.

Lemma lookup_apply_plan cur des dl cl k :
  dl ≡ₚ map_to_list des -> cl ≡ₚ map_to_list cur ->
  option_Forall2 Permutation (apply_plan (Diff_ordered cur des dl cl) cur !! k) (des !! k).
Proof.
  intros Hdl Hcl. unfold apply_plan. rewrite lookup_foldl_delete.
  pose proof (elem_of_Remove cur des dl cl Hcl k) as HR.
  pose proof (elem_of_Add cur des dl cl Hdl k) as HA.
  pose proof (NoDup_Add_keys cur des dl cl Hdl) as Hnd.
  destruct (des !! k) as [ips|] eqn:Ed.
  - rewrite decide_False by (intros Hin; apply HR in Hin as [_ ?]; done).
    destruct (cur !! k) as [cips|] eqn:Ec; [destruct (decide (cips ≡ₚ ips)) as [Hs|Hs]|].
    + rewrite lookup_foldl_insert_ne; [rewrite Ec; by constructor|].
      intros Hin. apply list_elem_of_fmap in Hin as ([k' ips'] & -> & Hin).
      apply HA in Hin as [[= ->] Hne]. by apply (Hne cips).
    + rewrite (lookup_foldl_insert _ _ k ips); [by constructor|done|].
      apply HA. split; [done|]. by intros ? [= <-].
    + rewrite (lookup_foldl_insert _ _ k ips); [by constructor|done|]. by apply HA.
  - destruct (decide _) as [Hin|Hnin]; [constructor|].
    rewrite lookup_foldl_insert_ne.
    + destruct (cur !! k) eqn:Ec; [|constructor]. destruct Hnin. apply HR. by split.
    + intros Hin. apply list_elem_of_fmap in Hin as ([k' ips'] & -> & Hin). by apply HA in Hin as [? _].
Qed.

Lemma peer_key_inj (l : list Peer) p q :
  NoDup (PublicKey <$> l) -> p ∈ l -> q ∈ l -> PublicKey p = PublicKey q -> p = q.
Proof.
  intros Hnd Hp Hq E.
  apply list_elem_of_lookup in Hp as [i Hi]. apply list_elem_of_lookup in Hq as [j Hj].
  assert (i = j) as ->; [|congruence].
  eapply (NoDup_lookup (PublicKey <$> l)); [done|by rewrite list_lookup_fmap, Hi|].
  by rewrite list_lookup_fmap, Hj, E.
Qed.

#[export] Instance peer_le_trans : Transitive peer_le.
Proof. intros p q r. unfold peer_le. apply transitivity. Qed.

#[export] Instance peer_le_total : Total peer_le.
Proof. intros p q. apply (total String.le). Qed.

(** Two sorted lists of the same peers are equal when the keys are distinct. *)
Lemma sorted_peers_unique (l1 l2 : list Peer) :
  l1 ≡ₚ l2 -> NoDup (PublicKey <$> l1) -> Sorted peer_le l1 -> Sorted peer_le l2 -> l1 = l2.
Proof.
  intros Hp Hnd H1 H2. apply (Sorted_unique_strong peer_le); try done.
  intros p q Hp1 Hq2 Hpq Hqp. rewrite <- Hp in Hq2.
  eapply peer_key_inj; [done..|]. by apply (anti_symm String.le).
Qed.

Lemma Sorted_peer_keys (l : list Peer) : Sorted peer_le l -> Sorted String.le (PublicKey <$> l).
Proof.
  induction 1 as [|p l Hs IH Hh]; simpl; constructor; [done|]. destruct Hh; simpl; by constructor.
Qed.

(** The plan converges: applied to the current peers it leaves exactly the
    desired peers, each with its desired allowed IPs up to order. *)
Theorem Diff_converges current desired :
  table_equiv (apply_plan (Diff current desired) (index current)) (index desired).
Proof. intros k. by apply lookup_apply_plan. Qed.

(** The plan is empty exactly when the two peer tables already agree up to
    the order of allowed IPs, so a gateway in the desired state is left alone. *)
Theorem Diff_empty_iff current desired :
  Empty (Diff current desired) = true <-> table_equiv (index current) (index desired).
Proof.
  set (cur := index current). set (des := index desired).
  assert (HA : forall k ips, mkPeer k ips ∈ Add (Diff current desired) <-> _)
    by (intros; by apply (elem_of_Add cur des)).
  assert (HR : forall k, k ∈ Remove (Diff current desired) <-> _)
    by (intros; by apply (elem_of_Remove cur des)).
  split.
  - intros He k. unfold Empty in He. apply andb_true_iff in He as [H1 H2]. to_prop.
    assert (E1 : Add (Diff current desired) = []) by (apply nil_length_inv; lia).
    assert (E2 : Remove (Diff current desired) = []) by (apply nil_length_inv; lia).
    rewrite E1 in HA. rewrite E2 in HR. specialize (HR k).
    destruct (cur !! k) as [cips|] eqn:Ec, (des !! k) as [ips|] eqn:Ed;
      [constructor|exfalso|exfalso|constructor].
    + destruct (decide (cips ≡ₚ ips)) as [|Hne]; [done|]. exfalso.
      apply (elem_of_nil (mkPeer k ips)), HA. split; [done|]. intros ?. rewrite Ec. by intros [= <-].
    + apply (elem_of_nil k), HR. by split.
    + apply (elem_of_nil (mkPeer k ips)), HA. split; [done|]. intros ?. by rewrite Ec.
  - intros Heq.
    assert (E1 : Add (Diff current desired) = []).
    { apply elem_of_nil_inv. intros [k ips] Hin. apply HA in Hin as [Hd Hne].
      specialize (Heq k). rewrite Hd in Heq. inversion Heq; subst. by eapply Hne. }
    assert (E2 : Remove (Diff current desired) = []).
    { apply elem_of_nil_inv. intros k Hin. apply HR in Hin as [[ips Hc] Hd].
      specialize (Heq k). rewrite Hc, Hd in Heq. inversion Heq. }
    unfold Empty. by rewrite E1, E2.
Qed.

(** Whatever order Go visits the two maps in, [Diff] returns the same plan,
    sorted by public key without duplicates. *)
Theorem Diff_order_irrelevant current desired des_order cur_order :
  des_order ≡ₚ map_to_list (index desired) -> cur_order ≡ₚ map_to_list (index current) ->
  Diff_ordered (index current) (index desired) des_order cur_order = Diff current desired /\
  Sorted String.le (PublicKey <$> Add (Diff current desired)) /\
  NoDup (PublicKey <$> Add (Diff current desired)) /\
  Sorted String.le (Remove (Diff current desired)) /\ NoDup (Remove (Diff current desired)).
Proof.
  intros Hd Hc.
  splits.
  - unfold Diff, Diff_ordered. f_equal.
    + apply sorted_peers_unique; try apply (Sorted_merge_sort peer_le).
      * rewrite !merge_sort_Permutation. apply fmap_Permutation, filter_Permutation_bool, Hd.
      * by apply (NoDup_Add_keys (index current) (index desired) des_order cur_order).
    + apply (Sorted_unique String.le); try apply (Sorted_merge_sort String.le).
      rewrite !merge_sort_Permutation. apply fmap_Permutation, filter_Permutation_bool, Hc.
  - apply Sorted_peer_keys, (Sorted_merge_sort peer_le).
  - by apply NoDup_Add_keys.
  - apply (Sorted_merge_sort String.le).
  - by apply NoDup_Remove.
Qed.

(** ** The repository's test cases *)

Definition test_current : list Peer :=
  [mkPeer "keep" ["10.7.0.2/32"; "fd07::2/128"]; mkPeer "stale" ["10.7.0.9/32"]].
Definition test_desired : list Peer :=
  [mkPeer "new" ["10.7.0.3/32"]; mkPeer "keep" ["fd07::2/128"; "10.7.0.2/32"]].

Example Diff_test :
  Diff test_current test_desired = mkPlan [mkPeer "new" ["10.7.0.3/32"]] ["stale"].
Proof. vm_compute. reflexivity. Qed.

(** "Sets" with repeated members are compared with their multiplicities. *)
Example sameSet_multiplicity : sameSet ["a"; "a"; "b"] ["a"; "b"; "b"] = false.
Proof. vm_compute. reflexivity. Qed.

Lemma Diff_order_irrelevant_witness :
  Diff_ordered (index test_current) (index test_desired)
    (reverse (map_to_list (index test_desired))) (reverse (map_to_list (index test_current))) =
    Diff test_current test_desired /\
  Sorted String.le (PublicKey <$> Add (Diff test_current test_desired)) /\
  NoDup (PublicKey <$> Add (Diff test_current test_desired)) /\
  Sorted String.le (Remove (Diff test_current test_desired)) /\
  NoDup (Remove (Diff test_current test_desired)).
Proof. apply Diff_order_irrelevant; apply reverse_Permutation. Defined.
