(* ===== verification/Wireguard.v ===== *)
(** [agent/internal/wg/wg.go]: the runner that drives the [wg] tool, and the
    parser of [wg show <iface> dump]. The tool itself is a parameter: a function
    from its arguments and the state of the interface to its output, or an error,
    and the next state. *)
From S2P Require Import Prelude GoStrings Reconcile.

(** ** The runner *)

Section Runner.
Context {dev : Type}.
Variable run : list string -> dev -> option string * dev.
Variable iface : string.

Definition read_PublicKey (d : dev) : option string * dev :=
  let '(out, d') := run ["show"; iface; "public-key"] d in (TrimSpace <$> out, d').

(** The body of the loop over the lines after the first: a peer, or nothing for
    a blank line and for a line of fewer than four fields. *)
Definition parse_line (line : string) : option Peer :=
  if bool_decide (TrimSpace line = EmptyString) then None
  else match Split "009" line with
       | f0 :: _ :: _ :: allowed :: _ =>
           let ips :=
             if negb (bool_decide (allowed = EmptyString)) && negb (bool_decide (allowed = "(none)"))
             then List.filter (fun ip => negb (bool_decide (ip = EmptyString)))
                    (TrimSpace <$> Split "," allowed)
             else [] in
           Some (mkPeer f0 ips)
       | _ => None
       end.

Definition parseDump (out : string) : list Peer :=
  omap parse_line (tail (Split "010" (TrimSpace out))).

Definition ListPeers (d : dev) : option (list Peer) * dev :=
  let '(out, d') := run ["show"; iface; "dump"] d in (parseDump <$> out, d').

(** [true] is a nil error. *)
Definition SetPeer (p : Peer) (d : dev) : bool * dev :=
  let '(out, d') := run ["set"; iface; "peer"; PublicKey p; "allowed-ips"; Join (AllowedIPs p) ","] d in
  (bool_decide (is_Some out), d').

Definition RemovePeer (publicKey : string) (d : dev) : bool * dev :=
  let '(out, d') := run ["set"; iface; "peer"; publicKey; "remove"] d in
  (bool_decide (is_Some out), d').

(** A loop that returns at the first error. *)
Fixpoint for_each {A} (f : A -> dev -> bool * dev) (l : list A) (d : dev) : bool * dev :=
  match l with
  | [] => (true, d)
  | x :: l' => let '(ok, d') := f x d in if ok : bool then for_each f l' d' else (false, d')
  end.

Definition Apply (plan : Plan) (d : dev) : bool * dev :=
  let '(ok, d') := for_each SetPeer (Add plan) d in
  if ok : bool then for_each RemovePeer (Remove plan) d' else (false, d').

End Runner.

Arguments parseDump out : simpl never.

(** ** What is relied on of the [wg] tool *)

(** The value of an "allowed-ips" argument: comma-separated, empty for none. *)
Definition ips_of (arg : string) : gset string :=
  list_to_set (List.filter (fun ip => negb (bool_decide (ip = EmptyString))) (Split "," arg)).

(** Cryptokey routing: an allowed IP belongs to one peer of the interface, so
    giving it to [pk] takes it from every other peer. *)
Definition assign (pk : string) (ips : gset string) (m : gmap string (gset string)) :
    gmap string (gset string) :=
  <[pk := ips]> ((fun s => s ∖ ips) <$> m).

(** The two documented effects of [wg set] the agent uses, when it succeeds. *)
Class WgDevice {dev : Type} (run : list string -> dev -> option string * dev) (iface : string) := {
  peers : dev -> gmap string (gset string);
  run_set : forall pk arg d out d',
    run ["set"; iface; "peer"; pk; "allowed-ips"; arg] d = (Some out, d') ->
    peers d' = assign pk (ips_of arg) (peers d);
  run_remove : forall pk d out d',
    run ["set"; iface; "peer"; pk; "remove"] d = (Some out, d') ->
    peers d' = delete pk (peers d)
}.

(** ** Reading back a dump *)

Section dump.

(** The fields [wg] prints of a peer besides the key and the allowed IPs. *)
Record dump_rest := mkDumpRest { preshared : string; dump_endpoint : string; dump_tail : list string }.

Definition dump_ips (ips : list string) : string :=
  match ips with [] => "(none)" | _ => Join ips "," end.

Definition dump_line (p : Peer * dump_rest) : string :=
  Join (PublicKey p.1 :: preshared p.2 :: dump_endpoint p.2 :: dump_ips (AllowedIPs p.1) :: dump_tail p.2) tab.

(** The text of [wg show <iface> dump]: a line for the interface, one per peer. *)
Definition dump (iface_line : string) (ps : list (Peer * dump_rest)) : string :=
  Join (iface_line :: (dump_line <$> ps)) newline +:+ newline.

(** Words of visible characters; allowed IPs have no comma and are not "(none)". *)
Definition word (s : string) : Prop := s <> EmptyString /\ all_graph s = true.
Definition ip_word (s : string) : Prop := word s /\ has_char "," s = false /\ s <> "(none)".

Definition dump_ok (p : Peer * dump_rest) : Prop :=
  word (PublicKey p.1) /\ word (preshared p.2) /\ word (dump_endpoint p.2) /\
  Forall ip_word (AllowedIPs p.1) /\ Forall word (dump_tail p.2).

End dump.

Lemma word_no_char s c : word s -> graph c = false -> has_char c s = false.
Proof. intros [_ H]. by apply all_graph_no_char. Qed.

Lemma word_solid s : word s -> solid s.
Proof. intros []. by apply all_graph_solid. Qed.

Lemma dump_ips_word ips : Forall ip_word ips -> word (dump_ips ips).
Proof.
  intros H. destruct ips as [|ip ips]; [by split|].
  change (dump_ips (ip :: ips)) with (Join (ip :: ips) ","). split.
  - apply solid_not_empty, Join_solid; [done|].
    eapply Forall_impl; [exact H|]. intros x [Hx _]. by apply word_solid.
  - apply Join_all_graph; [done|]. eapply Forall_impl; [exact H|]. by intros x [[_ Hx] _].
Qed.

(** The fields of a line are words. *)
Lemma dump_fields p :
  dump_ok p ->
  Forall word (PublicKey p.1 :: preshared p.2 :: dump_endpoint p.2 :: dump_ips (AllowedIPs p.1) :: dump_tail p.2).
Proof. intros (? & ? & ? & ? & ?). repeat (constructor; [by try apply dump_ips_word|]). done. Qed.

Lemma dump_line_solid p : dump_ok p -> solid (dump_line p).
Proof.
  intros H. apply Join_solid; [done|].
  eapply Forall_impl; [by apply dump_fields|]. apply word_solid.
Qed.

Lemma dump_line_no_newline p : dump_ok p -> has_char "010" (dump_line p) = false.
Proof.
  intros H. apply Join_no_char; [done|].
  eapply Forall_impl; [by apply dump_fields|]. intros w Hw. by apply word_no_char.
Qed.

(** The allowed-IPs field reads back as the list. *)
Lemma allowed_ips_back ips :
  Forall ip_word ips ->
  (if negb (bool_decide (dump_ips ips = EmptyString)) && negb (bool_decide (dump_ips ips = "(none)"))
   then List.filter (fun ip => negb (bool_decide (ip = EmptyString))) (TrimSpace <$> Split "," (dump_ips ips))
   else []) = ips.
Proof.
  intros H. destruct ips as [|ip ips]; [done|].
  pose proof (dump_ips_word _ H) as [Hne _]. rewrite bool_decide_eq_false_2 by done.
  rewrite bool_decide_eq_false_2.
  2: { intros E. destruct ips as [|ip' ips].
       - apply Forall_cons in H as [(_ & _ & Hn) _]. done.
       - change (dump_ips (ip :: ip' :: ips)) with (ip +:+ "," +:+ Join (ip' :: ips) ",") in E.
         apply (f_equal (has_char ",")) in E. rewrite !has_char_app in E.
         change (has_char "," ",") with true in E. by rewrite orb_true_r in E. }
  cbn [negb andb]. change (dump_ips (ip :: ips)) with (Join (ip :: ips) (String "," EmptyString)).
  rewrite Split_Join; [|done|eapply Forall_impl; [exact H|]; by intros x (_ & ? & _)].
  clear Hne. induction H as [|x l [[Hx1 Hx2] _] Hl IH]; [done|].
  cbn [fmap list_fmap]. rewrite TrimSpace_all_graph by done. simpl.
  rewrite bool_decide_eq_false_2 by done. cbn [negb]. f_equal. exact IH.
Qed.

Lemma parse_line_dump p : dump_ok p -> parse_line (dump_line p) = Some p.1.
Proof.
  intros H. unfold parse_line. rewrite solid_TrimSpace by (by apply dump_line_solid).
  rewrite bool_decide_eq_false_2 by (by apply solid_not_empty, dump_line_solid).
  unfold dump_line. rewrite (Split_Join "009"); [|done|].
  2: { eapply Forall_impl; [by apply dump_fields|]. intros w Hw. by apply word_no_char. }
  destruct H as (_ & _ & _ & Hips & _). rewrite allowed_ips_back by done. by destruct p as [[]].
Qed.

Lemma parseDump_back iface_line ps :
  solid iface_line -> has_char "010" iface_line = false -> Forall dump_ok ps ->
  parseDump (dump iface_line ps) = fst <$> ps.
Proof.
  intros Hi Hn Hps. unfold parseDump, dump.
  assert (Hs : solid (Join (iface_line :: (dump_line <$> ps)) newline)).
  { apply Join_solid; [done|]. constructor; [done|]. apply Forall_fmap.
    eapply Forall_impl; [exact Hps|]. intros p. apply dump_line_solid. }
  rewrite TrimSpace_newline by apply Hs.
  rewrite (Split_Join "010"); [|done|].
  2: { constructor; [done|]. apply Forall_fmap. eapply Forall_impl; [exact Hps|].
       intros p. apply dump_line_no_newline. }
  cbn [tail]. clear -Hps. induction Hps as [|p ps Hp Hps IH]; [done|].
  cbn [fmap list_fmap omap list_omap]. rewrite parse_line_dump by done. f_equal. exact IH.
Qed.

(** C33: [parseDump] reads back exactly the peers of a [wg show <iface> dump]:
    the interface line is dropped and each peer keeps its key and allowed IPs. *)
Theorem parseDump_dump iface_line ps :
  solid iface_line -> has_char "010" iface_line = false -> Forall dump_ok ps ->
  parseDump (dump iface_line ps) = fst <$> ps.
Proof. apply parseDump_back. Qed.

(** ** Applying a plan to an interface *)

(** Allowed IPs as the control plane writes them. *)
Definition plain_ip (s : string) : Prop := s <> EmptyString /\ has_char "," s = false.

Lemma ips_of_Join ips :
  Forall plain_ip ips -> ips_of (Join ips ",") = list_to_set ips.
Proof.
  intros H. unfold ips_of. destruct ips as [|ip ips]; [by vm_compute|].
  rewrite (Split_Join ","); [|done|eapply Forall_impl; [exact H|]; by intros x []].
  f_equal. induction H as [|x l [Hx _] Hl IH]; [done|]. simpl.
  rewrite bool_decide_eq_false_2 by done. cbn [negb]. by f_equal.
Qed.

Section converge.
Context {dev : Type} {run : list string -> dev -> option string * dev} {iface : string}.
Context `{!WgDevice run iface}.
Context (cur des : table).

(** Every desired IP belongs to one desired peer and is well formed. *)
Definition disjoint_ips (t : table) : Prop :=
  forall k1 k2 ips1 ips2 ip,
    t !! k1 = Some ips1 -> t !! k2 = Some ips2 -> ip ∈ ips1 -> ip ∈ ips2 -> k1 = k2.
Definition plain_table (t : table) : Prop := forall k ips, t !! k = Some ips -> Forall plain_ip ips.

Hypothesis Hdisj : disjoint_ips des.
Hypothesis Hplain : plain_table des.

(** The interface while the additions [l] are still to be made. *)
Definition adding (l : list Peer) (m : gmap string (gset string)) : Prop :=
  (forall k ips, des !! k = Some ips -> k ∈ (PublicKey <$> l) \/ m !! k = Some (list_to_set ips)) /\
  (forall k, des !! k = None -> cur !! k = None -> m !! k = None).

Lemma adding_step p l m :
  des !! PublicKey p = Some (AllowedIPs p) -> adding (p :: l) m ->
  adding l (assign (PublicKey p) (list_to_set (AllowedIPs p)) m).
Proof.
  intros Hp [H1 H2]. unfold assign. split.
  - intros k ips Hk. destruct (decide (k = PublicKey p)) as [->|Hne].
    + right. rewrite lookup_insert_eq. congruence.
    + destruct (H1 k ips Hk) as [[?|?]%elem_of_cons|Hm]; [done|by left|right].
      rewrite lookup_insert_ne by done. rewrite lookup_fmap, Hm. simpl. f_equal.
      apply set_eq. intros ip. rewrite elem_of_difference, !elem_of_list_to_set. split; [tauto|].
      intros Hip. split; [done|]. intros Hip'. apply Hne. eapply Hdisj; eauto.
  - intros k Hd Hc. rewrite lookup_insert_ne by congruence. rewrite lookup_fmap.
    by rewrite (H2 k Hd Hc).
Qed.

Lemma SetPeers_adding l d d' :
  (forall p, p ∈ l -> des !! PublicKey p = Some (AllowedIPs p)) ->
  adding l (peers d) -> for_each (SetPeer run iface) l d = (true, d') -> adding [] (peers d').
Proof.
  revert d. induction l as [|p l IH]; intros d Hl Ha H; cbn [for_each] in H; [by simplify_eq|].
  unfold SetPeer at 1 in H. destruct (run _ d) as [out d1] eqn:E.
  case_bool_decide as Ho; [|done]. destruct Ho as [o ->]. apply run_set in E.
  assert (Hp : des !! PublicKey p = Some (AllowedIPs p)) by (apply Hl; by left).
  apply IH in H; [done|intros q Hq; apply Hl; by right|].
  rewrite E, ips_of_Join by (by eapply Hplain). by apply adding_step.
Qed.

Lemma RemovePeers_lookup l d d' k :
  for_each (RemovePeer run iface) l d = (true, d') ->
  peers d' !! k = if decide (k ∈ l) then None else peers d !! k.
Proof.
  revert d. induction l as [|x l IH]; intros d H; cbn [for_each] in H; [by simplify_eq|].
  unfold RemovePeer at 1 in H. destruct (run _ d) as [out d1] eqn:E.
  case_bool_decide as Ho; [|done]. destruct Ho as [o ->]. apply run_remove in E.
  rewrite (IH _ H), E. destruct (decide (k ∈ l)); [by rewrite decide_True by (by right)|].
  rewrite lookup_delete. case_decide; [subst; by rewrite decide_True by (by left)|].
  rewrite decide_False; [done|]. by intros [->|?]%elem_of_cons.
Qed.

End converge.

(** The set of allowed IPs by key that a table stands for. *)
Definition sets_of (t : table) : gmap string (gset string) := list_to_set <$> t.

Lemma list_to_set_Permutation (l1 l2 : list string) :
  l1 ≡ₚ l2 -> list_to_set (C := gset string) l1 = list_to_set l2.
Proof. intros H. apply set_eq. intros x. by rewrite !elem_of_list_to_set, H. Qed.

Lemma Apply_peers {dev} (run : list string -> dev -> option string * dev) iface
    (W : WgDevice run iface) current desired d d' :
  disjoint_ips (index desired) -> plain_table (index desired) ->
  peers d = sets_of (index current) ->
  Apply run iface (Diff current desired) d = (true, d') ->
  peers d' = sets_of (index desired).
Proof.
  intros Hdis Hpl Hd HA. unfold Apply in HA.
  destruct (for_each (SetPeer run iface) _ d) as [ok d1] eqn:E1. destruct ok; [|done].
  set (cur := index current) in *. set (des := index desired) in *.
  assert (Ha : adding cur des [] (peers d1)).
  { eapply SetPeers_adding; [exact Hdis|exact Hpl| | |exact E1].
    - intros [k ips] Hin. by apply (elem_of_Add cur des) in Hin as [? _].
    - rewrite Hd. split.
      + intros k ips Hk. unfold sets_of. rewrite lookup_fmap.
        destruct (cur !! k) as [cips|] eqn:Ec; [destruct (decide (cips ≡ₚ ips)) as [Hs|Hs]|].
        * right. simpl. f_equal. by apply list_to_set_Permutation.
        * left. apply (list_elem_of_fmap_2' PublicKey _ (mkPeer k ips)); [|done].
          apply (elem_of_Add cur des); [done|]. split; [done|]. intros ?. rewrite Ec. by intros [= <-].
        * left. apply (list_elem_of_fmap_2' PublicKey _ (mkPeer k ips)); [|done].
          apply (elem_of_Add cur des); [done|]. split; [done|]. intros ?. by rewrite Ec.
      + intros k _ Hc. unfold sets_of. by rewrite lookup_fmap, Hc. }
  destruct Ha as [Ha1 Ha2]. apply map_eq. intros k.
  rewrite (RemovePeers_lookup _ _ _ k HA).
  pose proof (elem_of_Remove cur des (map_to_list des) (map_to_list cur) ltac:(done) k) as HR.
  unfold sets_of. rewrite lookup_fmap. destruct (decide _) as [Hin|Hnin].
  - apply HR in Hin as [_ ->]. done.
  - destruct (des !! k) as [ips|] eqn:Ed.
    + destruct (Ha1 k ips Ed) as [Hk|Hk]; [by apply elem_of_nil in Hk|done].
    + apply Ha2; [done|]. destruct (cur !! k) eqn:Ec; [|done].
      destruct Hnin. apply HR. by split.
Qed.

(** C32: when every [wg] command of [Apply] succeeds, the interface ends up with
    exactly the desired peers and allowed IPs, even where an IP moves from one
    peer to another: additions before removals never lose one. *)
Theorem Apply_converges {dev} (run : list string -> dev -> option string * dev) iface
    (W : WgDevice run iface) current desired d d' :
  disjoint_ips (index desired) -> plain_table (index desired) ->
  peers d = sets_of (index current) ->
  Apply run iface (Diff current desired) d = (true, d') ->
  peers d' = sets_of (index desired).
Proof. apply Apply_peers. Qed.

(** What [wg show <iface> dump] prints of an interface: its peers, a line each. It changes
    none of them. *)
Class WgShow {dev : Type} (run : list string -> dev -> option string * dev) (iface : string) `{!WgDevice run iface} := {
  run_show : forall d r d', run ["show"; iface; "dump"] d = (r, d') -> peers d' = peers d;
  run_dump : forall d out d', run ["show"; iface; "dump"] d = (Some out, d') ->
    exists iface_line ps, out = dump iface_line ps /\
      solid iface_line /\ has_char "010" iface_line = false /\ Forall dump_ok ps /\
      peers d = sets_of (index (fst <$> ps))
}.

(** The list of peers is the table of the interface. *)
Lemma ListPeers_same {dev} (run : list string -> dev -> option string * dev) iface `{WgShow dev run iface} d r d' :
  ListPeers run iface d = (r, d') -> peers d' = peers d.
Proof.
  unfold ListPeers. destruct (run _ d) as [out d1] eqn:E. intros Hc. injection Hc as _ <-. by apply run_show in E.
Qed.

Lemma ListPeers_peers {dev} (run : list string -> dev -> option string * dev) iface `{WgShow dev run iface} d cur d' :
  ListPeers run iface d = (Some cur, d') -> peers d = sets_of (index cur).
Proof.
  unfold ListPeers. destruct (run _ d) as [[out|] d1] eqn:E; [|done]. intros Hc. injection Hc as <- <-.
  apply run_dump in E as (line & ps & -> & Hl1 & Hl2 & Hps & Hp). by rewrite parseDump_back.
Qed.

(** ** The commands of a plan *)

Section commands.
Context {dev : Type} (run : list string -> dev -> option string * dev) (iface : string).

Definition set_cmd (p : Peer) : list string :=
  ["set"; iface; "peer"; PublicKey p; "allowed-ips"; Join (AllowedIPs p) ","].
Definition remove_cmd (pk : string) : list string := ["set"; iface; "peer"; pk; "remove"].

Definition plan_cmds (plan : Plan) : list (list string) :=
  (set_cmd <$> Add plan) ++ (remove_cmd <$> Remove plan).

(** The commands run one after the other, all successfully. *)
Inductive runs_ok : list (list string) -> dev -> dev -> Prop :=
| runs_nil d : runs_ok [] d d
| runs_cons c cs d out d1 d' :
    run c d = (Some out, d1) -> runs_ok cs d1 d' -> runs_ok (c :: cs) d d'.

(** The outcome of a list of commands that stops at the first error. *)
Definition stops_at_first_error (cs : list (list string)) (d : dev) (r : bool * dev) : Prop :=
  match r with
  | (true, d') => runs_ok cs d d'
  | (false, d') => exists before c after d1,
      cs = before ++ c :: after /\ runs_ok before d d1 /\ run c d1 = (None, d')
  end.

Lemma stops_cons c cs d r out d1 :
  run c d = (Some out, d1) -> stops_at_first_error cs d1 r -> stops_at_first_error (c :: cs) d r.
Proof.
  intros H. destruct r as [[] d']; simpl.
  - by eapply runs_cons.
  - intros (before & x & after & d2 & -> & Hr & Hx). exists (c :: before), x, after, d2.
    splits; try done. by eapply runs_cons.
Qed.

Lemma for_each_RemovePeer_stops l d :
  stops_at_first_error (remove_cmd <$> l) d (for_each (RemovePeer run iface) l d).
Proof.
  revert d. induction l as [|x l IH]; intros d; cbn [for_each fmap list_fmap]; [constructor|].
  unfold RemovePeer at 1. change ["set"; iface; "peer"; x; "remove"] with (remove_cmd x).
  destruct (run (remove_cmd x) d) as [[out|] d1] eqn:E.
  - by eapply stops_cons.
  - exists [], (remove_cmd x), (remove_cmd <$> l), d. splits; try done. constructor.
Qed.

(** An interface whose tool never fails. *)
Definition commands_succeed : Prop :=
  (forall p d, exists out d', run (set_cmd p) d = (Some out, d')) /\
  (forall pk d, exists out d', run (remove_cmd pk) d = (Some out, d')).

Lemma for_each_succeeds {A} (f : A -> dev -> bool * dev) l d :
  (forall x d, exists d', f x d = (true, d')) -> exists d', for_each f l d = (true, d').
Proof.
  intros Hf. revert d. induction l as [|x l IH]; intros d; [by exists d|]. cbn [for_each].
  destruct (Hf x d) as [d1 ->]. apply IH.
Qed.

Lemma Apply_succeeds plan d : commands_succeed -> exists d', Apply run iface plan d = (true, d').
Proof.
  intros [Hset Hrem]. unfold Apply.
  destruct (for_each_succeeds (SetPeer run iface) (Add plan) d) as [d1 ->].
  { intros p d1. destruct (Hset p d1) as (out & d2 & E). exists d2. unfold SetPeer. change ["set"; _; _; _; _; _] with (set_cmd p).
    by rewrite E. }
  apply for_each_succeeds. intros pk d2. destruct (Hrem pk d2) as (out & d3 & E). exists d3. unfold RemovePeer.
  change ["set"; _; _; _; _] with (remove_cmd pk). by rewrite E.
Qed.

(** [Apply] runs the commands of the plan in order, additions before
    removals, and stops at the first one that fails: none after it is run. *)
Theorem Apply_stops_at_first_error plan d :
  stops_at_first_error (plan_cmds plan) d (Apply run iface plan d).
Proof.
  unfold Apply, plan_cmds. destruct plan as [adds rems]. simpl. revert d.
  induction adds as [|p l IH]; intros d; cbn [for_each fmap list_fmap app].
  { apply for_each_RemovePeer_stops. }
  unfold SetPeer at 1.
  change ["set"; iface; "peer"; PublicKey p; "allowed-ips"; Join (AllowedIPs p) ","] with (set_cmd p).
  destruct (run (set_cmd p) d) as [[out|] d1] eqn:E.
  - specialize (IH d1). eapply stops_cons; [done|]. exact IH.
  - eexists [], (set_cmd p), _, d. splits; try done. constructor.
Qed.

End commands.

(** ** A concrete interface *)

(** An interface that is its peer table; every other command fails. *)
Definition toy_run (args : list string) (m : gmap string (gset string)) :
    option string * gmap string (gset string) :=
  match args with
  | ["set"; _; "peer"; pk; "allowed-ips"; arg] => (Some "", assign pk (ips_of arg) m)
  | ["set"; _; "peer"; pk; "remove"] => (Some "", delete pk m)
  | _ => (None, m)
  end.

#[export] Instance toy_device iface : WgDevice toy_run iface.
Proof. by refine {| peers := id |}; intros; simpl in *; simplify_eq. Defined.

Lemma test_plain : plain_table (index test_desired).
Proof.
  assert (H : map_Forall (fun _ ips => Forall plain_ip ips) (index test_desired)).
  { apply map_Forall_insert_2; [|apply map_Forall_insert_2; [|apply map_Forall_empty]];
      forall_list; by split. }
  exact H.
Qed.

Lemma test_disjoint : disjoint_ips (index test_desired).
Proof.
  intros k1 k2 ips1 ips2 ip H1 H2.
  change (index test_desired) with
    (<["keep" := ["fd07::2/128"; "10.7.0.2/32"]]> {["new" := ["10.7.0.3/32"]]} : table) in *.
  rewrite lookup_insert_Some, lookup_singleton_Some in H1, H2.
  rewrite !list_elem_of_In. intros Hi1 Hi2.
  destruct H1 as [[<- <-]|(_ & <- & <-)], H2 as [[<- <-]|(_ & <- & <-)]; try done;
    simpl in Hi1, Hi2; intuition congruence.
Qed.

Lemma Apply_converges_witness :
  @peers _ toy_run "wg0" (toy_device "wg0")
    (Apply toy_run "wg0" (Diff test_current test_desired) (sets_of (index test_current))).2 =
  sets_of (index test_desired).
Proof.
  apply (Apply_converges toy_run "wg0" (toy_device "wg0") test_current test_desired
           (sets_of (index test_current))).
  - exact test_disjoint.
  - exact test_plain.
  - reflexivity.
  - vm_compute. reflexivity.
Defined.

(** The dump of the repository's test. *)
Definition sample_peers : list (Peer * dump_rest) :=
  [(mkPeer "CLIENT1PUB=" ["10.7.0.2/32"; "fd07::2/128"],
    mkDumpRest "PSK1=" "203.0.113.9:12345" ["1699999999"; "1024"; "2048"; "25"]);
   (mkPeer "CLIENT2PUB=" ["10.7.0.3/32"], mkDumpRest "(none)" "(none)" ["0"; "0"; "0"; "off"])].
Definition sample_iface : string := Join ["PRIVKEY="; "PUBKEY="; "51820"; "off"] tab.

Lemma sample_peers_ok : Forall dump_ok sample_peers.
Proof. by forall_list; repeat split; forall_list; repeat split. Qed.

Lemma parseDump_dump_witness :
  parseDump (dump sample_iface sample_peers) =
  [mkPeer "CLIENT1PUB=" ["10.7.0.2/32"; "fd07::2/128"]; mkPeer "CLIENT2PUB=" ["10.7.0.3/32"]].
Proof.
  apply (parseDump_dump sample_iface sample_peers); [by split|reflexivity|exact sample_peers_ok].
Defined.

(** The same interface with its listing, when its keys and IPs are words. *)
Definition shown (m : gmap string (gset string)) : list (Peer * dump_rest) :=
  (fun ks => (mkPeer ks.1 (elements ks.2), mkDumpRest "(none)" "(none)" ["0"; "0"; "0"; "off"])) <$> map_to_list m.

#[export] Instance word_dec s : Decision (word s).
Proof. unfold word. apply _. Defined.
#[export] Instance ip_word_dec s : Decision (ip_word s).
Proof. unfold ip_word. apply _. Defined.
#[export] Instance dump_ok_dec p : Decision (dump_ok p).
Proof. unfold dump_ok. apply _. Defined.

Definition show_run (args : list string) (m : gmap string (gset string)) :
    option string * gmap string (gset string) :=
  match args with
  | ["show"; _; "dump"] => (if bool_decide (Forall dump_ok (shown m)) then Some (dump sample_iface (shown m)) else None, m)
  | ["show"; _; "public-key"] => (Some ("PUBKEY=" +:+ newline), m)
  | _ => toy_run args m
  end.

#[export] Instance show_device iface : WgDevice show_run iface.
Proof. by refine {| peers := id |}; intros; simpl in *; simplify_eq. Defined.

Lemma sets_of_shown m : sets_of (index (fst <$> shown m)) = m.
Proof.
  apply map_eq. intros k. unfold sets_of. rewrite lookup_fmap. unfold shown. rewrite <- list_fmap_compose.
  set (l := _ <$> map_to_list m).
  assert (Hnd : NoDup (PublicKey <$> l)).
  { unfold l. rewrite <- list_fmap_compose. apply NoDup_fst_map_to_list. }
  destruct (m !! k) as [s|] eqn:Ek.
  - rewrite (proj2 (lookup_index l k (elements s) Hnd)).
    + simpl. f_equal. apply list_to_set_elements_L.
    + apply list_elem_of_fmap. exists (k, s). split; [done|]. by apply elem_of_map_to_list.
  - destruct (index l !! k) as [ips|] eqn:Ei; [|done]. exfalso. apply lookup_index in Ei; [|done].
    apply list_elem_of_fmap in Ei as ([k' s] & E & Hin). injection E as -> ->. apply elem_of_map_to_list in Hin.
    simpl in *. congruence.
Qed.

#[export] Instance show_show iface : WgShow show_run iface.
Proof.
  split.
  - intros d r d' E. simpl in E. by injection E as _ <-.
  - intros d out d' E. simpl in E. case_bool_decide as Hok; [|done]. injection E as <- <-.
    exists sample_iface, (shown d). splits; try done. symmetry. apply sets_of_shown.
Defined.

Lemma show_commands iface : commands_succeed show_run iface.
Proof. split; intros; by eexists _, _. Qed.
