(* ===== verification/Crypto.v ===== *)
(** The parts of Go's [crypto/sha256], [crypto/hmac], [encoding/hex] and
    [encoding/base64] the sources call, on bytes ([Z] in [0, 255]). *)
From S2P Require Import Prelude GoStrings.

Definition bytes_of (s : string) : list Z :=
  (fun c => Z.of_nat (nat_of_ascii c)) <$> Stdlib.Strings.String.list_ascii_of_string s.
Definition string_of (b : list Z) : string :=
  Stdlib.Strings.String.string_of_list_ascii ((fun z => ascii_of_nat (Z.to_nat z)) <$> b).

(** ** SHA-256 *)

Definition rotr (n x : Z) : Z := Z.lor (Z.shiftr x n) (u32 (Z.shiftl x (32 - n))).

(** The constants as FIPS 180-4 defines them: the first 32 bits of the fractional
    parts of the cube and square roots of the first primes. *)
Definition is_prime (n : nat) : bool :=
  forallb (fun d => negb (Nat.eqb (n mod d) 0)) (seq 2 (n - 2)).

Definition primes_below (n : nat) : list Z := Z.of_nat <$> List.filter is_prime (seq 2 (n - 2)).

(** The integer cube root, bit by bit from bit [n - 1] down. *)
Fixpoint cube_root (n : nat) (x r : Z) : Z :=
  match n with
  | O => r
  | S n' =>
      let r' := r + 2 ^ Z.of_nat n' in
      cube_root n' x (if r' * r' * r' <=? x then r' else r)
  end.

Definition sha_k : list Z :=
  Eval vm_compute in (fun p => u32 (cube_root 36 (Z.shiftl p 96) 0)) <$> primes_below 312.

Definition sha_init : list Z :=
  Eval vm_compute in (fun p => u32 (Z.sqrt (Z.shiftl p 64))) <$> primes_below 20.

(** The message schedule, newest word first. *)
Fixpoint schedule (n : nat) (ws : list Z) : list Z :=
  match n with
  | O => ws
  | S n' =>
      let w k := nth (k - 1) ws 0 in
      let s0 := Z.lxor (Z.lxor (rotr 7 (w 15%nat)) (rotr 18 (w 15%nat))) (Z.shiftr (w 15%nat) 3) in
      let s1 := Z.lxor (Z.lxor (rotr 17 (w 2%nat)) (rotr 19 (w 2%nat))) (Z.shiftr (w 2%nat) 10) in
      schedule n' (u32 (w 16%nat + s0 + w 7%nat + s1) :: ws)
  end.

Definition round (h : list Z) (kw : Z * Z) : list Z :=
  match h with
  | [a; b; c; d; e; f; g; hh] =>
      let s1 := Z.lxor (Z.lxor (rotr 6 e) (rotr 11 e)) (rotr 25 e) in
      let ch := Z.lxor (Z.land e f) (Z.land (0xffffffff - e) g) in
      let t1 := hh + s1 + ch + kw.1 + kw.2 in
      let s0 := Z.lxor (Z.lxor (rotr 2 a) (rotr 13 a)) (rotr 22 a) in
      let maj := Z.lxor (Z.lxor (Z.land a b) (Z.land a c)) (Z.land b c) in
      [u32 (t1 + s0 + maj); a; b; c; u32 (d + t1); e; f; g]
  | _ => h
  end.

(** Big-endian words of the message, and bytes of a word. *)
Fixpoint words (b : list Z) : list Z :=
  match b with
  | b0 :: b1 :: b2 :: b3 :: b' => (((b0 * 256 + b1) * 256 + b2) * 256 + b3) :: words b'
  | _ => []
  end.

Definition be_bytes (n : nat) (v : Z) : list Z :=
  reverse ((fun i => Z.shiftr v (8 * Z.of_nat i) mod 256) <$> seq 0 n).

Definition block (h ws : list Z) : list Z :=
  let sched := reverse (schedule 48 (reverse ws)) in
  zip_with (fun x y => u32 (x + y)) h (foldl round h (zip sha_k sched)).

Fixpoint blocks (fuel : nat) (h ws : list Z) : list Z :=
  match fuel with
  | O => h
  | S fuel' => match ws with [] => h | _ => blocks fuel' (block h (take 16 ws)) (drop 16 ws) end
  end.

Definition sha_pad (b : list Z) : list Z :=
  let l := Z.of_nat (length b) in
  b ++ [128] ++ replicate (Z.to_nat ((55 - l) mod 64)) 0 ++ be_bytes 8 (8 * l).

(** [sha256.Sum256]: every block is 16 words, so the number of words is fuel enough. *)
Definition Sum256 (b : list Z) : list Z :=
  let ws := words (sha_pad b) in
  mjoin (be_bytes 4 <$> blocks (length ws) sha_init ws).

(** ** HMAC *)

Definition hmac_key (key : list Z) : list Z :=
  let k := if (64 <? Z.of_nat (length key)) then Sum256 key else key in
  k ++ replicate (64 - length k) 0.

Definition hmac_sha256 (key msg : list Z) : list Z :=
  let k := hmac_key key in
  Sum256 ((Z.lxor 0x5c <$> k) ++ Sum256 ((Z.lxor 0x36 <$> k) ++ msg)).

(** ** Encodings *)

(** [hex.EncodeToString] *)
Definition hex_nibble (v : Z) : Z := if v <? 10 then 48 + v else 87 + v.
Definition hex_encode (b : list Z) : string :=
  string_of (mjoin ((fun v => [hex_nibble (v / 16); hex_nibble (v mod 16)]) <$> b)).

(** The alphabet of [base64.RawURLEncoding]: 6 bits to a byte. *)
Definition b64_char (v : Z) : Z :=
  if v <? 26 then 65 + v
  else if v <? 52 then 97 + (v - 26)
  else if v <? 62 then 48 + (v - 52)
  else if v =? 62 then 45 else 95.

(** Three bytes to four characters, without padding. *)
Fixpoint b64_groups (b : list Z) : list Z :=
  match b with
  | x :: y :: z :: b' =>
      [x / 4; x mod 4 * 16 + y / 16; y mod 16 * 4 + z / 64; z mod 64] ++ b64_groups b'
  | [x; y] => [x / 4; x mod 4 * 16 + y / 16; y mod 16 * 4]
  | [x] => [x / 4; x mod 4 * 16]
  | [] => []
  end.

Definition b64url (b : list Z) : string := string_of (b64_char <$> b64_groups b).

(** ** Published test vectors *)

Example sha256_abc :
  hex_encode (Sum256 (bytes_of "abc")) = "ba7816bf8f01cfea414140de5dae2223b00361a396177a9cb410ff61f20015ad".
Proof. vm_compute. reflexivity. Qed.

Example sha256_two_blocks :
  hex_encode (Sum256 (bytes_of "abcdbcdecdefdefgefghfghighijhijkijkljklmklmnlmnomnopnopq")) =
  "248d6a61d20638b8e5c026930c3e6039a33ce45964ff2167f6ecedd419db06c1".
Proof. vm_compute. reflexivity. Qed.

Example hmac_rfc4231_2 :
  hex_encode (hmac_sha256 (bytes_of "Jefe") (bytes_of "what do ya want for nothing?")) =
  "5bdcc146bf60754e6a042426089575c75a003f089d2739839dec58b964ec3843".
Proof. vm_compute. reflexivity. Qed.

Example b64url_header :
  b64url (bytes_of "{") = "ew" /\ b64url [255; 254; 253; 252] = "__79_A".
Proof. vm_compute. by split. Qed.
