(* ===== verification/Json.v ===== *)
(** Go's [encoding/json] as the sources use it: the text of a value
    ([Marshal], [Encoder]), the value of a text ([Unmarshal], [Decoder]) and the
    assignment of a value to the fields of a struct. Strings are byte strings;
    a value's strings are the decoded ones, and its numbers are literals. *)
From S2P Require Import Prelude Floats GoStrings NetAddr.

#[warnings="-register-all"]
Inductive json :=
| JNull
| JBool (b : bool)
| JNum (lit : string)
| JStr (s : string)
| JArr (l : list json)
| JObj (l : list (string * json)).

Definition code (c : ascii) : Z := Z.of_nat (nat_of_ascii c).
Definition dquote : string := byte_str 34.
Definition backslash : string := byte_str 92.

Fixpoint str_take (n : nat) (s : string) : string :=
  match n, s with S n', String c s' => String c (str_take n' s') | _, _ => EmptyString end.
Fixpoint str_drop (n : nat) (s : string) : string :=
  match n, s with S n', String _ s' => str_drop n' s' | _, _ => s end.

Fixpoint concat_strings (l : list string) : string :=
  match l with [] => EmptyString | w :: l' => w +:+ concat_strings l' end.

(** ** UTF-8 *)

Definition between (lo hi : Z) (c : ascii) : bool := (lo <=? code c) && (code c <=? hi).
Definition cont (c : ascii) : bool := between 128 191 c.

(** Length of the encoded rune at the head of [s], 0 when there is none. *)
Definition rune_len (s : string) : nat :=
  match s with
  | EmptyString => O
  | String a s1 =>
      if code a <? 128 then 1%nat
      else match s1 with
      | EmptyString => O
      | String b s2 =>
          if between 194 223 a then if cont b then 2%nat else O
          else match s2 with
          | EmptyString => O
          | String c s3 =>
              if between 224 239 a then
                let ok := if code a =? 224 then between 160 191 b
                          else if code a =? 237 then between 128 159 b else cont b in
                if ok && cont c then 3%nat else O
              else match s3 with
              | EmptyString => O
              | String d _ =>
                  if between 240 244 a then
                    let ok := if code a =? 240 then between 144 191 b
                              else if code a =? 244 then between 128 143 b else cont b in
                    if ok && cont c && cont d then 4%nat else O
                  else O
              end
          end
      end
  end.

(** The runes of a byte string; [None] is a byte that starts no rune. *)
Fixpoint runes (fuel : nat) (s : string) : list (option string) :=
  match fuel, s with
  | S fuel', String _ s' =>
      match rune_len s with
      | O => None :: runes fuel' s'
      | n => Some (str_take n s) :: runes fuel' (str_drop n s)
      end
  | _, _ => []
  end.

Definition replacement : string := byte_str 239 +:+ byte_str 191 +:+ byte_str 189.

(** The bytes of [s] with U+FFFD for what is not UTF-8. *)
Definition to_valid (s : string) : string :=
  concat_strings (default replacement <$> runes (String.length s) s).

Definition byte_chr (v : Z) : string := byte_str (Z.to_nat v).

(** [utf8.AppendRune] of a code point that is not a surrogate. *)
Definition encode_rune (r : Z) : string :=
  if r <? 0x80 then byte_chr r
  else if r <? 0x800 then byte_chr (0xc0 + r / 64) +:+ byte_chr (0x80 + r mod 64)
  else if r <? 0x10000 then
    byte_chr (0xe0 + r / 4096) +:+ byte_chr (0x80 + r / 64 mod 64) +:+ byte_chr (0x80 + r mod 64)
  else
    byte_chr (0xf0 + r / 262144) +:+ byte_chr (0x80 + r / 4096 mod 64) +:+
    byte_chr (0x80 + r / 64 mod 64) +:+ byte_chr (0x80 + r mod 64).

(** ** Text of a value *)

(** A byte below 0x80 inside a string, with the HTML characters escaped. *)
Definition quote_char (c : ascii) : string :=
  let v := code c in
  if (v =? 34) || (v =? 92) then backslash +:+ String c EmptyString
  else if v =? 8 then backslash +:+ "b"
  else if v =? 12 then backslash +:+ "f"
  else if v =? 10 then backslash +:+ "n"
  else if v =? 13 then backslash +:+ "r"
  else if v =? 9 then backslash +:+ "t"
  else if (v <? 32) || (v =? 60) || (v =? 62) || (v =? 38)
  then backslash +:+ "u00" +:+ hex_digit (v / 16) +:+ hex_digit (v mod 16)
  else String c EmptyString.

Definition quote_rune (r : option string) : string :=
  match r with
  | None => backslash +:+ "ufffd"
  | Some (String c EmptyString) => quote_char c
  | Some w =>
      if bool_decide (w = encode_rune 0x2028) then backslash +:+ "u2028"
      else if bool_decide (w = encode_rune 0x2029) then backslash +:+ "u2029"
      else w
  end.

Definition quote (s : string) : string :=
  dquote +:+ concat_strings (quote_rune <$> runes (String.length s) s) +:+ dquote.

(** [json.Marshal]; struct fields and map entries come in the order of the list. *)
Fixpoint print (v : json) : string :=
  match v with
  | JNull => "null"
  | JBool b => if b then "true" else "false"
  | JNum lit => lit
  | JStr s => quote s
  | JArr l => "[" +:+ Join (List.map print l) "," +:+ "]"
  | JObj l => "{" +:+ Join (List.map (fun kv => quote kv.1 +:+ ":" +:+ print kv.2) l) "," +:+ "}"
  end.

(** ** Value of a text *)

Definition is_ws (c : ascii) : bool :=
  (code c =? 32) || (code c =? 9) || (code c =? 10) || (code c =? 13).

Fixpoint skip_ws (s : string) : string :=
  match s with String c s' => if is_ws c then skip_ws s' else s | EmptyString => EmptyString end.

Definition hex4 (s : string) : option (Z * string) :=
  match s with
  | String a (String b (String c (String d s'))) =>
      match hex_val a, hex_val b, hex_val c, hex_val d with
      | Some a, Some b, Some c, Some d => Some (((a * 16 + b) * 16 + c) * 16 + d, s')
      | _, _, _, _ => None
      end
  | _ => None
  end.

(** What follows the backslash of an escape: its bytes and the rest. A surrogate
    that is not the first of a pair becomes U+FFFD. *)
Definition unescape (s : string) : option (string * string) :=
  match s with
  | EmptyString => None
  | String c s' =>
      let v := code c in
      if (v =? 34) || (v =? 92) || (v =? 47) then Some (String c EmptyString, s')
      else if v =? 98 then Some (byte_chr 8, s')
      else if v =? 102 then Some (byte_chr 12, s')
      else if v =? 110 then Some (byte_chr 10, s')
      else if v =? 114 then Some (byte_chr 13, s')
      else if v =? 116 then Some (byte_chr 9, s')
      else if v =? 117 then
        match hex4 s' with
        | None => None
        | Some (r, s1) =>
            if (0xd800 <=? r) && (r <? 0xe000) then
              match cut_prefix (backslash +:+ "u") s1 ≫= hex4 with
              | Some (r2, s2) =>
                  if (r <? 0xdc00) && (0xdc00 <=? r2) && (r2 <? 0xe000)
                  then Some (encode_rune ((r - 0xd800) * 1024 + (r2 - 0xdc00) + 0x10000), s2)
                  else Some (replacement, s1)
              | None => Some (replacement, s1)
              end
            else Some (encode_rune r, s1)
        end
      else None
  end.

Definition prepend (w : string) (x : option (string * string)) : option (string * string) :=
  (fun '(a, b) => (w +:+ a, b)) <$> x.

(** The string after its opening quote. Every round takes a byte: the length of the
    text is fuel enough. *)
Fixpoint unquote (fuel : nat) (s : string) : option (string * string) :=
  match fuel, s with
  | S fuel', String c s' =>
      if code c =? 34 then Some (EmptyString, s')
      else if code c <? 32 then None
      else if code c =? 92 then
        match unescape s' with
        | Some (w, s1) => prepend w (unquote fuel' s1)
        | None => None
        end
      else match rune_len s with
           | O => prepend replacement (unquote fuel' s')
           | n => prepend (str_take n s) (unquote fuel' (str_drop n s))
           end
  | _, _ => None
  end.

(** The longest run of digits at the head. *)
Fixpoint digits (s : string) : string * string :=
  match s with
  | String c s' =>
      if is_digit c then let '(d, r) := digits s' in (String c d, r) else (EmptyString, s)
  | EmptyString => (EmptyString, EmptyString)
  end.

(** One or more digits. *)
Definition digits1 (s : string) : option (string * string) :=
  match digits s with (EmptyString, _) => None | dr => Some dr end.

Definition sign_part (s : string) : string * string :=
  match cut_prefix "-" s with Some s' => ("-", s') | None => (EmptyString, s) end.

Definition int_part (s : string) : option (string * string) :=
  match cut_prefix "0" s with Some s' => Some ("0", s') | None => digits1 s end.

Definition frac_part (s : string) : option (string * string) :=
  match cut_prefix "." s with
  | Some s' => prepend "." (digits1 s')
  | None => Some (EmptyString, s)
  end.

Definition exp_sign (s : string) : string * string :=
  match cut_prefix "-" s, cut_prefix "+" s with
  | Some s', _ => ("-", s')
  | None, Some s' => ("+", s')
  | None, None => (EmptyString, s)
  end.

Definition exp_part (s : string) : option (string * string) :=
  match s with
  | String c s' =>
      if (code c =? 101) || (code c =? 69)
      then let '(sg, s1) := exp_sign s' in prepend (String c sg) (digits1 s1)
      else Some (EmptyString, s)
  | EmptyString => Some (EmptyString, EmptyString)
  end.

(** A number: its sign, digits before and after the point, and exponent. *)
Definition scan_number (s : string) : option (string * string) :=
  let '(sg, s1) := sign_part s in
  match int_part s1 with
  | None => None
  | Some (i, s2) =>
      match frac_part s2 with
      | None => None
      | Some (f, s3) => prepend (sg +:+ i +:+ f) (exp_part s3)
      end
  end.

(** [maxNestingDepth] *)
Definition max_depth : Z := 10000.

(** A value at the head of a text, inside [depth] arrays and objects. Two rounds
    take a byte at least. *)
Fixpoint parse_value (fuel : nat) (depth : Z) (s : string) {struct fuel} : option (json * string) :=
  match fuel with
  | O => None
  | S fuel' =>
      match skip_ws s with
      | EmptyString => None
      | String c s' =>
          let v := code c in
          if v =? 123 then
            if depth <? max_depth then
              match skip_ws s' with
              | String "}" s1 => Some (JObj [], s1)
              | _ => (fun '(l, r) => (JObj l, r)) <$> parse_members fuel' (depth + 1) s'
              end
            else None
          else if v =? 91 then
            if depth <? max_depth then
              match skip_ws s' with
              | String "]" s1 => Some (JArr [], s1)
              | _ => (fun '(l, r) => (JArr l, r)) <$> parse_elements fuel' (depth + 1) s'
              end
            else None
          else if v =? 34 then
            (fun '(w, r) => (JStr w, r)) <$> unquote (String.length s') s'
          else if v =? 116 then pair (JBool true) <$> cut_prefix "rue" s'
          else if v =? 102 then pair (JBool false) <$> cut_prefix "alse" s'
          else if v =? 110 then pair JNull <$> cut_prefix "ull" s'
          else (fun '(lit, r) => (JNum lit, r)) <$> scan_number (String c s')
      end
  end
with parse_elements (fuel : nat) (depth : Z) (s : string) {struct fuel} : option (list json * string) :=
  match fuel with
  | O => None
  | S fuel' =>
      match parse_value fuel' depth s with
      | None => None
      | Some (v, r) =>
          match skip_ws r with
          | String "]" r' => Some ([v], r')
          | String "," r' => (fun '(l, r) => (v :: l, r)) <$> parse_elements fuel' depth r'
          | _ => None
          end
      end
  end
with parse_members (fuel : nat) (depth : Z) (s : string) {struct fuel} : option (list (string * json) * string) :=
  match fuel with
  | O => None
  | S fuel' =>
      match cut_prefix dquote (skip_ws s) with
      | None => None
      | Some s1 =>
          match unquote (String.length s1) s1 with
          | None => None
          | Some (k, s2) =>
              match skip_ws s2 with
              | String ":" s3 =>
                  match parse_value fuel' depth s3 with
                  | None => None
                  | Some (v, r) =>
                      match skip_ws r with
                      | String "}" r' => Some ([(k, v)], r')
                      | String "," r' => (fun '(l, r) => ((k, v) :: l, r)) <$> parse_members fuel' depth r'
                      | _ => None
                      end
                  end
              | _ => None
              end
          end
      end
  end.

(** A value and what follows it. *)
Definition parse_prefix (s : string) : option (json * string) := parse_value (2 * String.length s) 0 s.

(** [json.Unmarshal]'s syntax check: nothing follows the value. *)
Definition parse (s : string) : option json :=
  match parse_prefix s with
  | Some (v, r) => match skip_ws r with EmptyString => Some v | _ => None end
  | None => None
  end.

Definition composite (v : json) : bool := match v with JArr _ | JObj _ => true | _ => false end.

(** [json.NewDecoder(http.MaxBytesReader(w, body, limit)).Decode]: the first value
    of the body, whose end must be seen within the limit. *)
Definition Decode (limit : nat) (body : string) : option json :=
  match parse_prefix (str_take limit body) with
  | Some (v, r) =>
      if composite v || negb (bool_decide (r = EmptyString)) || (String.length body <=? limit)%nat
      then Some v else None
  | None => None
  end.

(** ** Assignment to Go values *)

(** [strconv.ParseInt(lit, 10, 64)] of a number literal. *)
Definition int_lit (lit : string) : option Z :=
  let '(sg, d) := sign_part lit in
  match dec_val 0 d with
  | Some n =>
      let n := if bool_decide (sg = EmptyString) then n else - n in
      if (- 2 ^ 63 <=? n) && (n <? 2 ^ 63) then Some n else None
  | None => None
  end.

(** The float nearest to [m * 10 ^ e10]. *)
Definition dec_float (neg : bool) (m e10 : Z) : float64 :=
  match m with
  | Zpos p =>
      if 0 <=? e10 then binary_normalize 53 1024 ((if neg then -1 else 1) * (m * 10 ^ e10)) 0 neg
      else match 10 ^ (- e10) with
           | Zpos q => SFdiv 53 1024 (S754_finite neg p 0) (S754_finite false q 0)
           | _ => S754_nan
           end
  | _ => S754_zero neg
  end.

(** [strconv.ParseFloat(lit, 64)] of a number literal: an error when it overflows. *)
Definition float_lit (lit : string) : option float64 :=
  let '(sg, s1) := sign_part lit in
  let neg := negb (bool_decide (sg = EmptyString)) in
  let '(i, s2) := digits s1 in
  let '(f, s3) := match cut_prefix "." s2 with Some s' => digits s' | None => (EmptyString, s2) end in
  let e := match s3 with
           | String _ s' => let '(esg, d) := exp_sign s' in
                            (if bool_decide (esg = "-") then -1 else 1) * default 0 (dec_val 0 d)
           | EmptyString => 0
           end in
  match dec_val 0 (i +:+ f) with
  | None => None
  | Some m => match dec_float neg m (e - Z.of_nat (String.length f)) with
              | S754_infinity _ | S754_nan => None
              | x => Some x
              end
  end.

(** The decimal exponent of [num / den]: the power of ten at or below it. Every round
    gains a factor of ten, so the binary digits of both are rounds enough
    ([dec_exponent_spec]). *)
Fixpoint dec_exponent (fuel : nat) (e num den : Z) : Z :=
  match fuel with
  | O => e
  | S fuel' => if 10 * den <=? num then dec_exponent fuel' (e + 1) num (10 * den)
               else if num <? den then dec_exponent fuel' (e - 1) (10 * num) den
               else e
  end.

(** [num * 10 ^ s / den], rounded to the nearest integer, ties to even. *)
Definition scaled (num den s : Z) : Z :=
  let '(a, b) := if 0 <=? s then (num * 10 ^ s, den) else (num, den * 10 ^ (- s)) in
  let q := a / b in
  let r := a mod b in
  if (2 * r <? b) || ((2 * r =? b) && Z.even q) then q else q + 1.

(** The shortest decimal [d * 10 ^ p] that reads back as the float [num / den], whose
    decimal exponent is [e]; 17 digits are always enough. *)
Fixpoint shortest (rounds : nat) (n : Z) (neg : bool) (num den e : Z) (f : float64) : Z * Z :=
  let d := scaled num den (n - 1 - e) in
  let p := e - (n - 1) in
  match rounds with
  | O => (d, p)
  | S rounds' => if bool_decide (dec_float neg d p = f) then (d, p)
                 else shortest rounds' (n + 1) neg num den e f
  end.

Fixpoint trim_zeros (fuel : nat) (d p : Z) : Z * Z :=
  match fuel with S fuel' => if d mod 10 =? 0 then trim_zeros fuel' (d / 10) (p + 1) else (d, p) | O => (d, p) end.

(** The digits [ds] of a number whose first digit has exponent [x]: as a decimal
    fraction when the exponent is small, in scientific notation otherwise. *)
Definition layout (ds : string) (x : Z) : string :=
  let k := Z.of_nat (String.length ds) in
  let zeros n := Stdlib.Strings.String.string_of_list_ascii (replicate (Z.to_nat n) "0"%char) in
  if (-7 <? x) && (x <? 21) then
    if x <? 0 then "0." +:+ zeros (- x - 1) +:+ ds
    else if k <=? x + 1 then ds +:+ zeros (x + 1 - k)
    else str_take (Z.to_nat (x + 1)) ds +:+ "." +:+ str_drop (Z.to_nat (x + 1)) ds
  else
    str_take 1 ds +:+ (if k =? 1 then EmptyString else "." +:+ str_drop 1 ds) +:+
    "e" +:+ (if x <? 0 then EmptyString else "+") +:+ Itoa x.

(** The text [json.Marshal] writes for a [float64]; infinities and NaN are an error. *)
Definition FormatFloat (f : float64) : option string :=
  match f with
  | S754_zero neg => Some (if neg then "-0" else "0")
  | S754_infinity _ | S754_nan => None
  | S754_finite neg m e =>
      let '(num, den) := if 0 <=? e then (Zpos m * 2 ^ e, 1) else (Zpos m, 2 ^ (- e)) in
      let '(d, p) := shortest 16 1 neg num den (dec_exponent (S (Z.to_nat (Z.log2 num + Z.log2 den))) 0 num den) f in
      let '(d, p) := trim_zeros 17 d p in
      let ds := Itoa d in
      Some ((if neg then "-" else EmptyString) +:+ layout ds (p + Z.of_nat (String.length ds) - 1))
  end.

Definition upper (c : ascii) : ascii :=
  if between 97 122 c then ascii_of_nat (nat_of_ascii c - 32) else c.

Definition fold_rune (r : option string) : string :=
  match r with
  | None => replacement
  | Some (String c EmptyString) => String (upper c) EmptyString
  | Some w => if bool_decide (w = encode_rune 0x17f) then "S"
              else if bool_decide (w = encode_rune 0x212a) then "K" else w
  end.

Definition fold_name (s : string) : string :=
  concat_strings (fold_rune <$> runes (String.length s) s).

(** The assignment of a value to a Go variable: the variable after it, and whether the
    types agreed. A value of the wrong type is skipped: the rest is assigned all the same,
    and the call reports an error. [null] leaves the variable as it was. *)
Definition Decoder (A : Type) : Type := json -> A -> A * bool.

(** Variables of type [string], [int] and [int64], [float64], and pointer to [float64]. *)
Definition d_string : Decoder string := fun v x =>
  match v with JStr s => (s, true) | JNull => (x, true) | _ => (x, false) end.

Definition d_int : Decoder Z := fun v x =>
  match v with
  | JNum lit => match int_lit lit with Some n => (n, true) | None => (x, false) end
  | JNull => (x, true)
  | _ => (x, false)
  end.

Definition d_float : Decoder float64 := fun v x =>
  match v with
  | JNum lit => match float_lit lit with Some f => (f, true) | None => (x, false) end
  | JNull => (x, true)
  | _ => (x, false)
  end.

Definition d_float_ptr : Decoder (option float64) := fun v x =>
  match v with
  | JNull => (None, true)
  | _ => let '(f, ok) := d_float v (default Fzero x) in if (ok : bool) then (Some f, true) else (x, false)
  end.

(** A field of a struct: the members of the object with its name, in turn. *)
Definition at_key {A} (k : string) (d : Decoder A) : Decoder A := fun v x =>
  match v with
  | JObj l =>
      foldl (fun '(x, ok) kv =>
        if bool_decide (fold_name kv.1 = fold_name k)
        then let '(x', ok') := d kv.2 x in (x', andb ok ok') else (x, ok)) (x, true) l
  | JNull => (x, true)
  | _ => (x, false)
  end.

(** A struct that starts from zero values, field by field: no two fields of a struct here
    have names that fold together, so their assignments do not depend on each other. *)
Definition Struct (S : Type) : Type := json -> S * bool.
Definition new {S} (s : S) : Struct S := fun _ => (s, true).
Definition with_field {A S} (mk : Struct (A -> S)) (d : Decoder A) (zero : A) : Struct S := fun v =>
  let '(f, ok) := mk v in let '(x, ok') := d v zero in (f x, andb ok ok').

(** [json.Unmarshal(data, &s)] and [json.NewDecoder(body).Decode(&s)] for a struct: its
    value after the call, and whether the call returned no error. *)
Definition Unmarshal {S} (d : Struct S) (data : string) : S * bool :=
  match parse data with Some v => d v | None => ((d JNull).1, false) end.

Definition DecodeStruct {S} (d : Struct S) (limit : nat) (body : string) : S * bool :=
  match Decode limit body with Some v => d v | None => ((d JNull).1, false) end.

(** ** Examples *)

Example parse_example :
  parse (" {" +:+ dquote +:+ "a" +:+ backslash +:+ "u00e9" +:+ dquote +:+ " : [1, -2.5e3, null]} ")
  = Some (JObj [("a" +:+ encode_rune 0xe9, JArr [JNum "1"; JNum "-2.5e3"; JNull])]).
Proof. vm_compute. reflexivity. Qed.

Example quote_example :
  quote ("<" +:+ dquote +:+ byte_str 1 +:+ byte_str 200 +:+ "x") =
  dquote +:+ backslash +:+ "u003c" +:+ backslash +:+ dquote +:+ backslash +:+ "u0001" +:+ backslash +:+ "ufffdx" +:+ dquote.
Proof. vm_compute. reflexivity. Qed.

Example float_lit_example :
  float_lit "1" = Some Fone /\ float_lit "-0" = Some (S754_zero true) /\ float_lit "1e400" = None /\
  float_lit "0.1" = Some (S754_finite false 7205759403792794 (-56)).
Proof. vm_compute. repeat split. Qed.

Example FormatFloat_examples :
  FormatFloat <$> omap float_lit ["1"; "0.1"; "12.5"; "100"; "1e21"; "123456789012345680000"; "1e-7"; "0.000001"; "-37.4219"; "9.5e22"]
  = Some <$> ["1"; "0.1"; "12.5"; "100"; "1e+21"; "123456789012345680000"; "1e-7"; "0.000001"; "-37.4219"; "9.5e+22"].
Proof. vm_compute. reflexivity. Qed.

Example fold_name_example : fold_name ("Pa" +:+ encode_rune 0x17f +:+ "sword") = fold_name "passWORD".
Proof. vm_compute. reflexivity. Qed.
