(* ===== verification/JsonFacts.v ===== *)
(** The texts [Json.print] writes are read back by [Json.parse]: strings by runes,
    numbers by their grammar, values by induction. *)
From S2P Require Import Prelude Floats GoStrings NetAddr Json.

(** ** Taking and dropping *)

Lemma str_take_app w t : str_take (String.length w) (w +:+ t) = w.
Proof. induction w as [|c w IH]; [by destruct t|]. rewrite string_app_cons. simpl. by rewrite IH. Qed.

Lemma str_drop_app w t : str_drop (String.length w) (w +:+ t) = t.
Proof. induction w as [|c w IH]; [by destruct t|]. rewrite string_app_cons. simpl. done. Qed.

Lemma str_take_drop n s : str_take n s +:+ str_drop n s = s.
Proof.
  revert s. induction n as [|n IH]; intros [|c s]; try done. simpl. rewrite string_app_cons. by rewrite IH.
Qed.

Lemma length_app_string a b : String.length (a +:+ b) = (String.length a + String.length b)%nat.
Proof. induction a as [|c a IH]; [done|]. rewrite string_app_cons. simpl. by rewrite IH. Qed.

Lemma str_drop_length n s : (String.length (str_drop n s) <= String.length s)%nat.
Proof. revert s. induction n as [|n IH]; intros [|c s]; simpl; try lia. specialize (IH s). lia. Qed.

Lemma str_take_all n s : (String.length s <= n)%nat -> str_take n s = s.
Proof. revert n. induction s as [|c s IH]; intros [|n]; simpl; try done; [lia|]. intros. rewrite IH; [done|lia]. Qed.

(** ** Runes *)

(** A well-formed encoded rune. *)
Definition is_rune (w : string) : Prop := w <> EmptyString /\ rune_len w = String.length w.

Ltac break_ifs :=
  repeat match goal with
  | H : context [if ?x then _ else _] |- _ => let E := fresh "E" in destruct x eqn:E; try done
  end.

Lemma rune_len_take s n t :
  rune_len s = S n -> rune_len (str_take (S n) s +:+ t) = S n /\ String.length (str_take (S n) s) = S n.
Proof.
  intros Hs. destruct s as [|a s]; [done|]. cbn [rune_len] in Hs.
  destruct (code a <? 128) eqn:Ea.
  { injection Hs as <-. cbn -[code between cont]. rewrite string_app_cons. cbn -[code between cont].
    rewrite Ea. split; [done|by destruct s]. }
  destruct s as [|b s]; [done|]. destruct (between 194 223 a) eqn:Eb.
  { destruct (cont b) eqn:Ec; [|done]. injection Hs as <-.
    replace (str_take 2 (String a (String b s))) with (String a (String b EmptyString)) by (by destruct s).
    rewrite !string_app_cons. cbn -[code between cont]. by rewrite Ea, Eb, Ec. }
  destruct s as [|c s]; [done|]. destruct (between 224 239 a) eqn:Ec.
  { destruct (_ && cont c) eqn:Ed in Hs; [|done]. injection Hs as <-.
    replace (str_take 3 (String a (String b (String c s))))
      with (String a (String b (String c EmptyString))) by (by destruct s).
    rewrite !string_app_cons. cbn -[code between cont]. by rewrite Ea, Eb, Ec, Ed. }
  destruct s as [|d s]; [done|]. destruct (between 240 244 a) eqn:Ed; [|done].
  destruct (_ && cont c && cont d) eqn:Ee in Hs; [|done]. injection Hs as <-.
  replace (str_take 4 (String a (String b (String c (String d s)))))
    with (String a (String b (String c (String d EmptyString)))) by (by destruct s).
  rewrite !string_app_cons. cbn -[code between cont]. by rewrite Ea, Eb, Ec, Ed, Ee.
Qed.

Lemma rune_len_app w t : is_rune w -> rune_len (w +:+ t) = String.length w.
Proof.
  intros [Hne Hw]. destruct (String.length w) as [|n] eqn:E; [by destruct w|].
  destruct (rune_len_take w n t) as [Ht _]; [congruence|].
  by rewrite str_take_all in Ht by lia.
Qed.

Lemma runes_sound fuel s : Forall (fun r => match r with Some w => is_rune w | None => True end) (runes fuel s).
Proof.
  revert s. induction fuel as [|fuel IH]; intros [|c s]; try constructor. cbn [runes].
  destruct (rune_len (String c s)) as [|n] eqn:E; constructor; auto.
  destruct (rune_len_take _ _ EmptyString E) as [H1 H2]. rewrite string_app_nil_r in H1.
  split; [|congruence]. by destruct (str_take _ _).
Qed.

(** ** Strings *)

Lemma prepend_Some w a b : prepend w (Some (a, b)) = Some (w +:+ a, b).
Proof. done. Qed.

Lemma quote_ascii_unquote n c t :
  (code c <? 128) = true ->
  unquote (S n) (quote_char c +:+ t) = prepend (String c EmptyString) (unquote n t).
Proof.
  destruct c as [[] [] [] [] [] [] [] []]; intros Hc; try done; cbn -[unquote];
    rewrite ?string_app_cons, ?string_app_nil_l; reflexivity.
Qed.

Lemma quote_rune_unquote n r t :
  (match r with Some w => is_rune w | None => True end) ->
  unquote (S n) (quote_rune r +:+ t) = prepend (default replacement r) (unquote n t).
Proof.
  intros Hr. destruct r as [w|]; [|reflexivity].
  destruct w as [|a w]; [by destruct Hr|]. destruct w as [|b w].
  { apply quote_ascii_unquote. destruct Hr as [_ Hr]. cbn -[code] in Hr. by destruct (code a <? 128). }
  assert (Ha : (code a <? 128) = false).
  { destruct Hr as [_ Hr]. cbn [rune_len String.length] in Hr. by destruct (code a <? 128). }
  cbn [quote_rune]. case_bool_decide as E1; [rewrite E1; reflexivity|].
  case_bool_decide as E2; [rewrite E2; reflexivity|]. cbn [default].
  pose proof (rune_len_app _ t Hr) as Hl.
  pose proof (str_take_app (String a (String b w)) t) as Ht.
  pose proof (str_drop_app (String a (String b w)) t) as Hd.
  rewrite !string_app_cons in *. cbn [unquote].
  apply Z.ltb_ge in Ha. rewrite (proj2 (Z.eqb_neq _ 34)), (proj2 (Z.ltb_ge _ 32)), (proj2 (Z.eqb_neq _ 92)) by lia.
  rewrite Hl. cbn [String.length] in *. by rewrite Ht, Hd.
Qed.

Lemma quote_rune_length r : (match r with Some w => is_rune w | None => True end) -> (1 <= String.length (quote_rune r))%nat.
Proof.
  destruct r as [[|a w]|]; [by intros []| |intros _; apply Nat.leb_le; reflexivity]. intros _. destruct w as [|b w].
  - destruct a as [[] [] [] [] [] [] [] []]; apply Nat.leb_le; reflexivity.
  - cbn [quote_rune]. repeat case_bool_decide; apply Nat.leb_le; reflexivity.
Qed.

Lemma concat_strings_app l1 l2 : concat_strings (l1 ++ l2) = concat_strings l1 +:+ concat_strings l2.
Proof. induction l1 as [|w l1 IH]; [done|]. simpl. by rewrite IH, string_app_assoc. Qed.

Lemma unquote_runes n rs t :
  Forall (fun r => match r with Some w => is_rune w | None => True end) rs ->
  (length rs < n)%nat ->
  unquote n (concat_strings (quote_rune <$> rs) +:+ dquote +:+ t) =
  Some (concat_strings (default replacement <$> rs), t).
Proof.
  intros Hrs. revert n. induction Hrs as [|r rs Hr Hrs IH]; intros n Hn; simpl in Hn.
  - destruct n; [lia|]. reflexivity.
  - destruct n; [lia|]. 
    change (concat_strings (quote_rune <$> r :: rs)) with (quote_rune r +:+ concat_strings (quote_rune <$> rs)).
    rewrite <- string_app_assoc, quote_rune_unquote by done.
    rewrite IH by lia. by rewrite prepend_Some.
Qed.

Lemma length_quote_runes rs :
  Forall (fun r => match r with Some w => is_rune w | None => True end) rs ->
  (length rs <= String.length (concat_strings (quote_rune <$> rs)))%nat.
Proof.
  induction 1 as [|r rs Hr Hrs IH]; simpl; [lia|]. rewrite length_app_string.
  pose proof (quote_rune_length r Hr). change (list_fmap _ _ quote_rune rs) with (quote_rune <$> rs). lia.
Qed.

(** A quoted string is read back, repaired where it was not UTF-8. *)
Lemma unquote_quote s t :
  exists body, quote s +:+ t = dquote +:+ body /\
    unquote (String.length body) body = Some (to_valid s, t).
Proof.
  set (rs := runes (String.length s) s).
  exists (concat_strings (quote_rune <$> rs) +:+ dquote +:+ t). split.
  - unfold quote. by rewrite <- !string_app_assoc.
  - apply unquote_runes; [apply runes_sound|].
    pose proof (length_quote_runes rs (runes_sound _ _)).
    rewrite !length_app_string. cbn. lia.
Qed.

(** ** Numbers *)

Fixpoint all_digits (s : string) : bool :=
  match s with EmptyString => true | String c s' => is_digit c && all_digits s' end.

(** Text that does not continue a number. *)
Definition ends (t : string) : bool :=
  match t with
  | EmptyString => true
  | String c _ => negb (is_digit c || (code c =? 46) || (code c =? 101) || (code c =? 69))
  end.

(** Text that does not start with a digit. *)
Definition no_digit (t : string) : bool := match t with EmptyString => true | String c _ => negb (is_digit c) end.

Lemma ends_no_digit t : ends t = true -> no_digit t = true.
Proof. destruct t as [|c t]; [done|]. simpl. by destruct (is_digit c). Qed.

Lemma digits_app d t : all_digits d = true -> no_digit t = true -> digits (d +:+ t) = (d, t).
Proof.
  intros Hd Ht. induction d as [|c d IH].
  { destruct t as [|c t]; [done|]. simpl in *. by destruct (is_digit c). }
  simpl in Hd. apply andb_true_iff in Hd as [Hc Hd]. rewrite string_app_cons. simpl. by rewrite Hc, IH.
Qed.

Lemma dec_val_app a b n acc : all_digits a = true -> dec_val acc a = Some n -> dec_val acc (a +:+ b) = dec_val n b.
Proof.
  revert acc. induction a as [|c a IH]; intros acc Ha Hn; [by injection Hn as ->|].
  rewrite string_app_cons. simpl in *. apply andb_true_iff in Ha as [Hc Ha]. rewrite Hc in *. auto.
Qed.

Lemma all_digits_app a b : all_digits (a +:+ b) = all_digits a && all_digits b.
Proof.
  induction a as [|c a IH]; [done|]. rewrite string_app_cons. simpl. by rewrite IH, andb_assoc.
Qed.

(** The decimal digits of a number, none for zero. *)
Definition decimal (n : Z) (d : string) : Prop :=
  all_digits d = true /\ dec_val 0 d = Some n /\
  match d with EmptyString => n = 0 | String c _ => code c <> 48 end.

Lemma pretty_char_digit x :
  (x < 10)%N -> is_digit (pretty_N_char x) = true /\ digit_val (pretty_N_char x) = Z.of_N x /\
  (x <> 0%N -> code (pretty_N_char x) <> 48).
Proof.
  intros Hx. assert (x = 0 \/ x = 1 \/ x = 2 \/ x = 3 \/ x = 4 \/ x = 5 \/ x = 6 \/ x = 7 \/ x = 8 \/ x = 9)%N by lia.
  destruct_or?; subst; by vm_compute.
Qed.

Lemma pretty_N_go_decimal x s : exists d, pretty_N_go x s = d +:+ s /\ decimal (Z.of_N x) d.
Proof.
  revert s. induction (N.lt_wf_0 x) as [x _ IH]. intros s.
  destruct (decide (x = 0)%N) as [->|Hx].
  { exists EmptyString. split; [done|]. by split. }
  rewrite pretty_N_go_step by lia.
  destruct (IH (x `div` 10)%N ltac:(apply N.div_lt; lia) (String (pretty_N_char (x `mod` 10)) s)) as (d & -> & Hd & Hv & Hnz).
  destruct (pretty_char_digit (x `mod` 10)%N) as (Hc & Hcv & Hc0); [by apply N.mod_lt|].
  exists (d +:+ String (pretty_N_char (x `mod` 10)) EmptyString). split; [by rewrite <- string_app_assoc|].
  assert (Ex : Z.of_N x = Z.of_N (x `div` 10) * 10 + Z.of_N (x `mod` 10)).
  { rewrite N2Z.inj_div, N2Z.inj_mod. pose proof (Z.div_mod (Z.of_N x) 10). lia. }
  unfold decimal. splits.
  - rewrite all_digits_app, Hd. simpl. by rewrite Hc.
  - rewrite (dec_val_app _ _ _ _ Hd Hv). simpl. rewrite Hc, Hcv. f_equal. lia.
  - destruct d as [|c d]; [|done]. apply Hc0. lia.
Qed.

Lemma decimal_pretty x : (0 < x)%N -> decimal (Z.of_N x) (pretty x).
Proof.
  intros Hx. unfold pretty, pretty_N. rewrite decide_False by lia.
  destruct (pretty_N_go_decimal x EmptyString) as (d & -> & Hd). by rewrite string_app_nil_r.
Qed.

Lemma Itoa_cases z :
  (z = 0 /\ Itoa z = "0") \/ (0 < z /\ decimal z (Itoa z)) \/
  (z < 0 /\ exists d, Itoa z = "-" +:+ d /\ decimal (- z) d).
Proof.
  destruct z as [|p|p]; [by left| |]; right.
  - left. split; [lia|]. exact (decimal_pretty (Npos p) ltac:(lia)).
  - right. split; [lia|]. exists (pretty (Npos p)). split; [done|]. exact (decimal_pretty (Npos p) ltac:(lia)).
Qed.

Lemma char_eqb_diff a b (p : ascii -> bool) : p a <> p b -> char_eqb a b = false.
Proof. intros Hp. destruct (char_eqb a b) eqn:E; [|done]. by apply char_eqb_eq in E as ->. Qed.

Lemma ends_cut c t : is_digit c || (code c =? 46) || (code c =? 101) || (code c =? 69) = true ->
  ends t = true -> cut_prefix (String c EmptyString) t = None.
Proof.
  intros Hc Ht. destruct t as [|x t]; [done|]. cbn [cut_prefix].
  rewrite (char_eqb_diff c x (fun c => is_digit c || (code c =? 46) || (code c =? 101) || (code c =? 69))); [done|].
  cbn [ends] in Ht. apply negb_true_iff in Ht. rewrite Hc, Ht. done.
Qed.

Lemma ends_frac t : ends t = true -> frac_part t = Some (EmptyString, t).
Proof. intros Ht. unfold frac_part. by rewrite ends_cut. Qed.

Lemma ends_exp t : ends t = true -> exp_part t = Some (EmptyString, t).
Proof.
  destruct t as [|x t]; [done|]. cbn [ends exp_part]. intros Ht. apply negb_true_iff in Ht.
  apply orb_false_iff in Ht as [Ht ->]. apply orb_false_iff in Ht as [_ ->]. done.
Qed.

Lemma all_digits_head c d : all_digits (String c d) = true -> is_digit c = true.
Proof. simpl. by intros [? _]%andb_true_iff. Qed.

Lemma decimal_int_part n d t : 0 < n -> decimal n d -> no_digit t = true -> int_part (d +:+ t) = Some (d, t).
Proof.
  intros Hn (Hd & Hv & Hz) Ht. destruct d as [|c d]; [lia|]. unfold int_part.
  assert (E : cut_prefix "0" (String c d +:+ t) = None).
  { rewrite string_app_cons. cbn [cut_prefix].
    rewrite (char_eqb_diff "0"%char c (fun c => code c =? 48)); [done|]. by rewrite (proj2 (Z.eqb_neq _ _) Hz). }
  unfold digits1. by rewrite E, digits_app.
Qed.

Lemma decimal_sign_part n d t : 0 < n -> decimal n d -> sign_part (d +:+ t) = (EmptyString, d +:+ t).
Proof.
  intros Hn (Hd & Hv & Hz). destruct d as [|c d]; [lia|]. apply all_digits_head in Hd.
  unfold sign_part. rewrite string_app_cons. cbn [cut_prefix].
  by rewrite (char_eqb_diff "-"%char c is_digit) by (by rewrite Hd).
Qed.

Lemma minus_sign_part s : sign_part ("-" +:+ s) = ("-", s).
Proof. done. Qed.

(** A literal the grammar of numbers reads whole. *)
Definition number (lit : string) : Prop :=
  (exists c s, lit = String c s /\ (is_digit c || (code c =? 45)) = true) /\
  forall t, ends t = true -> scan_number (lit +:+ t) = Some (lit, t).

Lemma scan_int sg i t :
  (forall t, sign_part ((sg +:+ i) +:+ t) = (sg, i +:+ t)) -> int_part (i +:+ t) = Some (i, t) -> ends t = true ->
  scan_number ((sg +:+ i) +:+ t) = Some (sg +:+ i, t).
Proof.
  intros Hs Hi Ht. unfold scan_number. rewrite Hs, Hi, ends_frac, ends_exp by done.
  by rewrite prepend_Some, !string_app_nil_r.
Qed.

Lemma Itoa_number z : number (Itoa z).
Proof.
  destruct (Itoa_cases z) as [[-> ->]|[[Hz Hd]|[Hz (d & -> & Hd)]]].
  - split; [by eexists _, _|]. intros t Ht. by apply (scan_int "" "0").
  - split.
    + destruct Hd as (Hd & Hv & _). destruct (Itoa z) as [|c d]; [simpl in Hv; injection Hv; lia|].
      exists c, d. by rewrite (all_digits_head _ _ Hd).
    + intros t Ht. apply (scan_int "" (Itoa z)); [|by eapply decimal_int_part; eauto using ends_no_digit|done].
      intros t'. by eapply decimal_sign_part.
  - split; [by eexists _, _|]. intros t Ht. apply (scan_int "-" d); [done| |done].
    eapply decimal_int_part; [|eauto using ends_no_digit..]. lia.
Qed.

Lemma int_lit_Itoa z : - 2 ^ 63 <= z < 2 ^ 63 -> int_lit (Itoa z) = Some z.
Proof.
  intros Hr. assert (Hb : (- 2 ^ 63 <=? z) && (z <? 2 ^ 63) = true).
  { apply andb_true_iff. by rewrite Z.leb_le, Z.ltb_lt. }
  unfold int_lit. destruct (Itoa_cases z) as [[-> ->]|[[Hz Hd]|[Hz (d & -> & Hd)]]].
  - reflexivity.
  - rewrite <- (string_app_nil_r (Itoa z)), (decimal_sign_part z), string_app_nil_r by done.
    destruct Hd as (_ & -> & _). rewrite bool_decide_true by done. by rewrite Hb.
  - rewrite minus_sign_part. destruct Hd as (_ & -> & _). rewrite bool_decide_false by done.
    by rewrite Z.opp_involutive, Hb.
Qed.

(** ** Values *)

(** Induction on a value, its elements and its members. *)
Section json_induction.
Context (P : json -> Prop).
Hypothesis HNull : P JNull.
Hypothesis HBool : forall b, P (JBool b).
Hypothesis HNum : forall lit, P (JNum lit).
Hypothesis HStr : forall s, P (JStr s).
Hypothesis HArr : forall l, Forall P l -> P (JArr l).
Hypothesis HObj : forall l, Forall (fun kv => P kv.2) l -> P (JObj l).

Fixpoint json_deep_ind (v : json) : P v :=
  match v with
  | JNull => HNull
  | JBool b => HBool b
  | JNum lit => HNum lit
  | JStr s => HStr s
  | JArr l => HArr l ((fix go l : Forall P l :=
      match l with [] => Forall_nil_2 _ | v :: l' => Forall_cons_2 _ _ _ (json_deep_ind v) (go l') end) l)
  | JObj l => HObj l ((fix go l : Forall (fun kv => P kv.2) l :=
      match l with [] => Forall_nil_2 _ | kv :: l' => Forall_cons_2 _ _ _ (json_deep_ind kv.2) (go l') end) l)
  end.
End json_induction.

(** The value a text stands for: its strings repaired where they are not UTF-8. *)
Fixpoint valid_json (v : json) : json :=
  match v with
  | JStr s => JStr (to_valid s)
  | JArr l => JArr (List.map valid_json l)
  | JObj l => JObj (List.map (fun kv => (to_valid kv.1, valid_json kv.2)) l)
  | _ => v
  end.

(** Its numbers are numbers. *)
Fixpoint numeric (v : json) : Prop :=
  match v with
  | JNum lit => number lit
  | JArr l => fold_right (fun v P => numeric v /\ P) True l
  | JObj l => fold_right (fun kv P => numeric kv.2 /\ P) True l
  | _ => True
  end.

(** Arrays and objects inside each other. *)
Fixpoint nesting (v : json) : Z :=
  match v with
  | JArr l => 1 + fold_right (fun v n => Z.max (nesting v) n) 0 l
  | JObj l => 1 + fold_right (fun kv n => Z.max (nesting kv.2) n) 0 l
  | _ => 0
  end.

Lemma number_char c : is_digit c || (code c =? 45) = true -> is_ws c = false /\ 45 <= code c <= 57.
Proof.
  unfold is_digit, is_ws. fold (code c). intros Hc.
  assert (45 <= code c <= 57).
  { apply orb_true_iff in Hc as [Hc|Hc]; to_prop; lia. }
  split; [|done]. rewrite !(proj2 (Z.eqb_neq _ _)) by lia. done.
Qed.

(** The first character of a value's text. *)
Lemma print_head v : numeric v -> exists c s, print v = String c s /\ is_ws c = false /\ code c <> 93.
Proof.
  destruct v as [|[]|lit|s|l|l]; intros Hn; try by eexists _, _.
  destruct Hn as [(c & s & -> & Hc) _]. apply number_char in Hc as [Hc Hr].
  exists c, s. repeat split; [done|lia].
Qed.

Lemma skip_ws_solid c s : is_ws c = false -> skip_ws (String c s) = String c s.
Proof. intros Hc. simpl. by rewrite Hc. Qed.

Lemma skip_comma x : skip_ws ("," +:+ x) = String "," x.
Proof. done. Qed.

(** What [parse_value] does on the text of [v]. *)
Definition reads (v : json) : Prop := forall fuel d t,
  numeric v -> d + nesting v <= max_depth -> ends t = true -> (2 * String.length (print v) <= S fuel)%nat ->
  parse_value fuel d (print v +:+ t) = Some (valid_json v, t).

Lemma reads_num lit : reads (JNum lit).
Proof.
  intros fuel d t [(c & s & -> & Hc) Hn] _ Ht Hf. destruct fuel as [|fuel]; [cbn in Hf; lia|].
  specialize (Hn t Ht). apply number_char in Hc as [Hc Hr]. cbn [print]. rewrite string_app_cons in *.
  cbn [parse_value]. rewrite skip_ws_solid by done.
  rewrite !(proj2 (Z.eqb_neq (code c) _)) by lia. by rewrite Hn.
Qed.

Lemma reads_str s : reads (JStr s).
Proof.
  intros fuel d t _ _ Ht Hf. destruct fuel as [|fuel].
  { unfold print, quote in Hf. rewrite !length_app_string in Hf. cbn in Hf. lia. }
  destruct (unquote_quote s t) as (body & Hq & Hu). cbn [print]. rewrite Hq.
  change (dquote +:+ body) with (String (ascii_of_nat 34) body). cbn -[unquote ascii_of_nat is_ws code].
  change (is_ws (ascii_of_nat 34)) with false. change (code (ascii_of_nat 34)) with 34. cbn -[unquote].
  by rewrite Hu.
Qed.

Lemma parse_elements_print l : forall fuel d t,
  l <> [] -> Forall reads l -> numeric (JArr l) -> d + (nesting (JArr l) - 1) <= max_depth ->
  (2 * String.length (Join (List.map print l) ",") <= fuel)%nat ->
  parse_elements fuel d (Join (List.map print l) "," +:+ "]" +:+ t) = Some (List.map valid_json l, t).
Proof.
  induction l as [|v l IH]; intros fuel d t Hne Hr Hn Hd Hf; [done|].
  apply Forall_cons in Hr as [Hv Hr]. destruct Hn as [Hnv Hnl].
  assert (Hdv : d + nesting v <= max_depth) by (cbn in Hd; lia).
  assert (Hdl : d + (nesting (JArr l) - 1) <= max_depth) by (cbn in Hd |- *; lia).
  destruct (print_head v Hnv) as (c & s & Ep & _).
  destruct l as [|v' l].
  - cbn [List.map Join] in *. rewrite Ep in Hf. destruct fuel as [|fuel]; [cbn in Hf; lia|].
    cbn [parse_elements]. rewrite Hv by (done || (rewrite Ep; lia)). done.
  - cbn [List.map] in *. rewrite Join_cons in *. rewrite !length_app_string in Hf.
    assert (0 < String.length (print v))%nat by (rewrite Ep; cbn; lia).
    change (String.length ",") with 1%nat in Hf. destruct fuel as [|fuel]; [lia|]. cbn [parse_elements].
    rewrite <- !string_app_assoc. rewrite Hv; [|done..|lia].
    rewrite skip_comma. cbn [List.map] in IH.
    rewrite IH; [done..|lia].
Qed.

Lemma reads_arr l : Forall reads l -> reads (JArr l).
Proof.
  intros Hl fuel d t Hn Hd Ht Hf. cbn [print] in *. rewrite !length_app_string in Hf.
  change (String.length "[") with 1%nat in Hf. change (String.length "]") with 1%nat in Hf.
  destruct fuel as [|fuel]; [lia|]. rewrite <- !string_app_assoc. cbn [parse_value].
  change ("[" +:+ ?x) with (String "[" x). rewrite skip_ws_solid by done.
  change (code "[") with 91. cbn -[Join max_depth nesting].
  assert (0 <= nesting (JArr l) - 1).
  { clear. cbn. induction l; cbn; lia. }
  rewrite (proj2 (Z.ltb_lt d max_depth)) by lia.
  destruct l as [|v l]; [done|].
  rewrite (parse_elements_print (v :: l) fuel (d + 1) t) by (done || lia).
  assert (exists c s, Join (List.map print (v :: l)) "," +:+ "]" +:+ t = String c s /\ is_ws c = false /\ code c <> 93)
    as (c & s & -> & Hc & Hc').
  { destruct (print_head v) as (c & s & Ep & Hc & Hc'); [by destruct Hn|].
    destruct l as [|v' l]; cbn [List.map Join]; rewrite Ep; rewrite <- ?string_app_assoc, string_app_cons; eauto. }
  rewrite skip_ws_solid by done. by destruct c as [[] [] [] [] [] [] [] []].
Qed.

Definition print_member (kv : string * json) : string := quote kv.1 +:+ ":" +:+ print kv.2.

Lemma skip_colon x : skip_ws (":" +:+ x) = String ":" x.
Proof. done. Qed.

Lemma skip_dquote x : skip_ws (dquote +:+ x) = dquote +:+ x.
Proof. done. Qed.

Lemma cut_dquote x : cut_prefix dquote (dquote +:+ x) = Some x.
Proof. done. Qed.

Lemma length_quote k : (2 <= String.length (quote k))%nat.
Proof. unfold quote. rewrite !length_app_string. change (String.length dquote) with 1%nat. lia. Qed.

Lemma parse_members_print l : forall fuel d t,
  l <> [] -> Forall (fun kv => reads kv.2) l -> numeric (JObj l) -> d + (nesting (JObj l) - 1) <= max_depth ->
  (2 * String.length (Join (List.map print_member l) ",") <= fuel)%nat ->
  parse_members fuel d (Join (List.map print_member l) "," +:+ "}" +:+ t) =
  Some (List.map (fun kv => (to_valid kv.1, valid_json kv.2)) l, t).
Proof.
  induction l as [|[k v] l IH]; intros fuel d t Hne Hr Hn Hd Hf; [done|].
  apply Forall_cons in Hr as [Hv Hr]. destruct Hn as [Hnv Hnl]. cbn [snd] in *.
  assert (Hdv : d + nesting v <= max_depth) by (cbn in Hd; lia).
  assert (Hdl : d + (nesting (JObj l) - 1) <= max_depth) by (cbn in Hd |- *; lia).
  pose proof (length_quote k) as Hk.
  assert (Hm : String.length (print_member (k, v)) = (String.length (quote k) + (1 + String.length (print v)))%nat).
  { unfold print_member. by rewrite !length_app_string. }
  destruct l as [|kv l].
  - cbn [List.map Join] in *. destruct fuel as [|fuel]; [lia|]. cbn [parse_members]. unfold print_member at 1.
    cbn [fst snd]. rewrite <- !string_app_assoc.
    destruct (unquote_quote k (":" +:+ print v +:+ "}" +:+ t)) as (body & -> & Hu).
    rewrite skip_dquote, cut_dquote, Hu, skip_colon. rewrite Hv by (done || lia). done.
  - cbn [List.map] in *. rewrite Join_cons in *. rewrite !length_app_string, Hm in Hf.
    change (String.length ",") with 1%nat in Hf. destruct fuel as [|fuel]; [lia|]. cbn [parse_members].
    unfold print_member at 1. cbn [fst snd]. rewrite <- !string_app_assoc.
    destruct (unquote_quote k (":" +:+ print v +:+ "," +:+ Join (print_member kv :: List.map print_member l) "," +:+ "}" +:+ t))
      as (body & -> & Hu).
    rewrite skip_dquote, cut_dquote, Hu, skip_colon. rewrite Hv by (done || lia).
    rewrite skip_comma. rewrite IH by (done || lia). done.
Qed.

Lemma reads_obj l : Forall (fun kv => reads kv.2) l -> reads (JObj l).
Proof.
  intros Hl fuel d t Hn Hd Ht Hf. cbn [print] in *. fold print_member in *. rewrite !length_app_string in Hf.
  change (String.length "{") with 1%nat in Hf. change (String.length "}") with 1%nat in Hf.
  destruct fuel as [|fuel]; [lia|]. rewrite <- !string_app_assoc. cbn [parse_value].
  change ("{" +:+ ?x) with (String "{" x). rewrite skip_ws_solid by done.
  change (code "{") with 123. cbn -[Join max_depth nesting].
  assert (0 <= nesting (JObj l) - 1).
  { clear. cbn. induction l; cbn; lia. }
  rewrite (proj2 (Z.ltb_lt d max_depth)) by lia.
  destruct l as [|kv l]; [done|].
  rewrite (parse_members_print (kv :: l) fuel (d + 1) t) by (done || lia).
  assert (exists s, Join (List.map print_member (kv :: l)) "," +:+ "}" +:+ t = dquote +:+ s) as (s & ->).
  { destruct l; cbn [List.map Join]; unfold print_member at 1, quote at 1; rewrite <- !string_app_assoc; eauto. }
  by rewrite skip_dquote.
Qed.

Lemma all_reads v : reads v.
Proof.
  induction v using json_deep_ind; auto using reads_num, reads_str, reads_arr, reads_obj.
  - intros [|fuel] d t _ _ _ Hf; [cbn in Hf; lia|done].
  - intros [|fuel] d t _ _ _ Hf; destruct b; cbn in Hf; done || lia.
Qed.

(** A value's text, with what follows it. *)
Lemma parse_prefix_print v t :
  numeric v -> nesting v <= max_depth -> ends t = true ->
  parse_prefix (print v +:+ t) = Some (valid_json v, t).
Proof.
  intros Hn Hd Ht. apply all_reads; try done. rewrite length_app_string. lia.
Qed.

(** [json.Unmarshal] of what [json.Marshal] wrote. *)
Lemma parse_print v : numeric v -> nesting v <= max_depth -> parse (print v) = Some (valid_json v).
Proof.
  intros Hn Hd. unfold parse. rewrite <- (string_app_nil_r (print v)), parse_prefix_print by done. done.
Qed.

(** ** ASCII text is its own repair *)

Definition ascii_text (s : string) : bool := forallb (fun c => code c <? 128) (Stdlib.Strings.String.list_ascii_of_string s).

Lemma to_valid_ascii s : ascii_text s = true -> to_valid s = s.
Proof.
  unfold to_valid. induction s as [|c s IH]; [done|]. intros Hs.
  change ((code c <? 128) && ascii_text s = true) in Hs. apply andb_true_iff in Hs as [Hc Hs].
  cbn [String.length runes rune_len]. rewrite Hc. cbn [str_take str_drop]. csimpl.
  change (String c (concat_strings (default replacement <$> runes (String.length s) s)) = String c s). by rewrite IH.
Qed.

(** ** Fields of an object *)

Definition named (k : string) (kv : string * json) : bool := bool_decide (fold_name kv.1 = fold_name k).

Lemma at_key_members {A} k (d : Decoder A) l x :
  at_key k d (JObj l) x =
  foldl (fun '(x, ok) kv => let '(x', ok') := d kv.2 x in (x', andb ok ok')) (x, true) (List.filter (named k) l).
Proof.
  unfold at_key. generalize true. revert x. induction l as [|kv l IH]; intros x b; [done|]. cbn [foldl List.filter].
  unfold named at 1. destruct (bool_decide _); [|apply IH]. cbn [foldl]. destruct (d kv.2 x). apply IH.
Qed.

(** The one member with the name is what is assigned. *)
Lemma at_key_found {A} k (d : Decoder A) l k' v x :
  List.filter (named k) l = [(k', v)] -> at_key k d (JObj l) x = d v x.
Proof. intros E. rewrite at_key_members, E. simpl. by destruct (d v x). Qed.

Lemma at_key_absent {A} k (d : Decoder A) l x :
  List.filter (named k) l = [] -> at_key k d (JObj l) x = (x, true).
Proof. intros E. by rewrite at_key_members, E. Qed.
