(* ===== verification/JsonFloats.v ===== *)
(** The text of a float is a number of the JSON grammar, so a value with floats is
    read back too. *)
From S2P Require Import Prelude Floats GoStrings NetAddr Json JsonFacts.

(** ** The decimal exponent *)

Lemma dec_exponent_up fuel : forall e num den,
  0 < den <= num -> num < den * 10 ^ Z.of_nat fuel ->
  exists k, 0 <= k /\ dec_exponent fuel e num den = e + k /\ den * 10 ^ k <= num.
Proof.
  induction fuel as [|fuel IH]; intros e num den Hd Hn; [simpl in Hn; lia|]. cbn [dec_exponent].
  rewrite Nat2Z.inj_succ, Z.pow_succ_r in Hn by lia.
  destruct (10 * den <=? num) eqn:E1; to_prop.
  - destruct (IH (e + 1) num (10 * den)) as (k & Hk & -> & Hle); [lia|lia|].
    exists (k + 1). splits; [lia|lia|]. rewrite Z.pow_add_r by lia. lia.
  - rewrite (proj2 (Z.ltb_ge num den)) by lia. exists 0. splits; lia.
Qed.

Lemma dec_exponent_down fuel : forall e num den,
  0 < num < den -> den <= num * 10 ^ Z.of_nat fuel ->
  exists k, 0 <= k /\ dec_exponent fuel e num den = e - k /\ den <= num * 10 ^ k.
Proof.
  induction fuel as [|fuel IH]; intros e num den Hd Hn; [simpl in Hn; lia|]. cbn [dec_exponent].
  rewrite Nat2Z.inj_succ, Z.pow_succ_r in Hn by lia.
  rewrite (proj2 (Z.leb_gt (10 * den) num)) by lia. rewrite (proj2 (Z.ltb_lt num den)) by lia.
  destruct (Z.lt_ge_cases (10 * num) den) as [Hlt|Hge].
  - destruct (IH (e - 1) (10 * num) den) as (k & Hk & -> & Hle); [lia|lia|].
    exists (k + 1). splits; [lia|lia|]. rewrite Z.pow_add_r by lia. lia.
  - exists 1. splits; [lia| |lia]. destruct fuel as [|fuel]; cbn [dec_exponent]; [done|].
    rewrite (proj2 (Z.leb_gt (10 * den) (10 * num))) by lia. by rewrite (proj2 (Z.ltb_ge (10 * num) den)) by lia.
Qed.

Lemma pow2_le_pow10 a : 0 <= a -> 2 ^ a <= 10 ^ a.
Proof. intros. apply Z.pow_le_mono_l. lia. Qed.

Lemma scaled_pos num den s :
  0 < num -> 0 < den ->
  (if 0 <=? s then den <= num * 10 ^ s else den * 10 ^ (- s) <= num) -> 1 <= scaled num den s.
Proof.
  intros Hn Hd Hs. unfold scaled.
  assert (Hq : forall a b, 0 < b <= a -> 1 <= (if (2 * (a mod b) <? b) || (2 * (a mod b) =? b) && Z.even (a / b) then a / b else a / b + 1)).
  { intros a b Hab. assert (1 <= a / b) by (apply Z.div_le_lower_bound; lia). destruct (_ || _); lia. }
  destruct (0 <=? s) eqn:E; to_prop; apply Hq; [lia|].
  split; [|done]. apply Z.mul_pos_pos; [done|]. apply Z.pow_pos_nonneg; lia.
Qed.

(** The exponent found leaves at least one digit to every scaling. *)
Lemma dec_exponent_spec num den n :
  0 < num -> 0 < den -> 1 <= n ->
  1 <= scaled num den (n - 1 - dec_exponent (S (Z.to_nat (Z.log2 num + Z.log2 den))) 0 num den).
Proof.
  intros Hn Hd H1. set (fuel := S _). apply scaled_pos; [done..|].
  pose proof (Z.log2_spec num Hn) as [Ln1 Ln2]. pose proof (Z.log2_spec den Hd) as [Ld1 Ld2].
  pose proof (Z.log2_nonneg num). pose proof (Z.log2_nonneg den).
  assert (Hpow : forall x, 0 <= x <= Z.log2 num + Z.log2 den -> 2 ^ Z.succ x <= 10 ^ Z.of_nat fuel).
  { intros x Hx. transitivity (2 ^ Z.of_nat fuel); [apply Z.pow_le_mono_r; lia|]. apply pow2_le_pow10. lia. }
  assert (0 < 10 ^ (n - 1)) by (apply Z.pow_pos_nonneg; lia).
  destruct (Z.lt_ge_cases num den) as [Hlt|Hge].
  - destruct (dec_exponent_down fuel 0 num den) as (k & Hk & -> & Hle); [lia| |].
    { specialize (Hpow (Z.log2 den) ltac:(lia)). nia. }
    rewrite (proj2 (Z.leb_le 0 _)) by lia. replace (n - 1 - (0 - k)) with (k + (n - 1)) by lia.
    rewrite Z.pow_add_r by lia. nia.
  - destruct (dec_exponent_up fuel 0 num den) as (k & Hk & -> & Hle); [lia| |].
    { specialize (Hpow (Z.log2 num) ltac:(lia)). nia. }
    assert (0 < 10 ^ k) by (apply Z.pow_pos_nonneg; lia).
    destruct (0 <=? n - 1 - (0 + k)) eqn:E; to_prop.
    + assert (0 < 10 ^ (n - 1 - (0 + k))) by (apply Z.pow_pos_nonneg; lia). nia.
    + assert (10 ^ (- (n - 1 - (0 + k))) <= 10 ^ k) by (apply Z.pow_le_mono_r; lia). nia.
Qed.

Lemma shortest_pos rounds neg num den e f : forall n,
  1 <= n -> (forall n, 1 <= n -> 1 <= scaled num den (n - 1 - e)) -> 1 <= (shortest rounds n neg num den e f).1.
Proof.
  induction rounds as [|rounds IH]; intros n Hn Hs; cbn [shortest]; [by apply Hs|].
  case_bool_decide; [by apply Hs|]. apply IH; [lia|done].
Qed.

Lemma trim_zeros_pos fuel : forall d p, 1 <= d -> 1 <= (trim_zeros fuel d p).1.
Proof.
  induction fuel as [|fuel IH]; intros d p Hd; [done|]. cbn [trim_zeros].
  destruct (d mod 10 =? 0) eqn:E; to_prop; [|done]. apply IH. lia.
Qed.

(** ** The grammar *)

(** The parts of a number after its digits: a fraction, an exponent. *)
Definition fraction (f : string) : Prop := f = EmptyString \/ exists d, f = "." +:+ d /\ d <> EmptyString /\ all_digits d = true.
Definition exponent (x : string) : Prop :=
  x = EmptyString \/ exists sg d, x = "e" +:+ sg +:+ d /\ (sg = "+" \/ sg = "-") /\ d <> EmptyString /\ all_digits d = true.
Definition integer (i : string) : Prop :=
  (exists c s, i = String c s /\ is_digit c = true) /\ forall t, no_digit t = true -> int_part (i +:+ t) = Some (i, t).

Lemma digits1_app d t : d <> EmptyString -> all_digits d = true -> no_digit t = true -> digits1 (d +:+ t) = Some (d, t).
Proof. intros Hne Hd Ht. unfold digits1. rewrite digits_app by done. by destruct d. Qed.

Lemma exponent_no_digit x t : exponent x -> ends t = true -> no_digit (x +:+ t) = true.
Proof. intros [->|(sg & d & -> & _)] Ht; [by apply ends_no_digit|]. done. Qed.

Lemma exponent_part x t : exponent x -> ends t = true -> exp_part (x +:+ t) = Some (x, t).
Proof.
  intros [->|(sg & d & -> & Hsg & Hne & Hd)] Ht; [by apply ends_exp|].
  assert (Es : exp_sign ((sg +:+ d) +:+ t) = (sg, d +:+ t)) by (by destruct Hsg as [-> | ->]).
  rewrite <- string_app_assoc. change ("e" +:+ ?y) with (String "e" y). cbn [exp_part].
  change ((code "e" =? 101) || (code "e" =? 69)) with true. cbv iota. rewrite Es.
  rewrite digits1_app by (done || by apply ends_no_digit). done.
Qed.

Lemma fraction_part f t : fraction f -> no_digit t = true -> cut_prefix "." t = None ->
  frac_part (f +:+ t) = Some (f, t).
Proof.
  intros [->|(d & -> & Hne & Hd)] Ht Hc; unfold frac_part.
  - by rewrite string_app_nil_l, Hc.
  - change (cut_prefix "." (("." +:+ d) +:+ t)) with (Some (d +:+ t)). cbv iota. by rewrite digits1_app.
Qed.

Lemma number_parts (neg : bool) i f x :
  integer i -> fraction f -> exponent x -> number ((if neg then "-" else EmptyString) +:+ i +:+ f +:+ x).
Proof.
  intros [(c & s & Ei & Hc) Hi] Hf Hx. split.
  - destruct neg; [by eexists _, _|]. rewrite Ei. exists c, (s +:+ f +:+ x). split; [done|]. by rewrite Hc.
  - intros t Ht. unfold scan_number.
    assert (Es : sign_part (((if neg then "-" else EmptyString) +:+ i +:+ f +:+ x) +:+ t) =
                 ((if neg then "-" else EmptyString), i +:+ f +:+ x +:+ t)).
    { destruct neg; rewrite <- !string_app_assoc; [done|]. rewrite string_app_nil_l, Ei. unfold sign_part.
      rewrite string_app_cons. cbn [cut_prefix]. by rewrite (char_eqb_diff "-"%char c is_digit) by (by rewrite Hc). }
    rewrite Es, Hi.
    2: { destruct Hf as [->|(d & -> & _)]; [|done]. rewrite string_app_nil_l. by apply exponent_no_digit. }
    assert (Hcut : cut_prefix "." (x +:+ t) = None).
    { destruct Hx as [->|(sg & d & -> & _)]; [by apply ends_cut|done]. }
    rewrite fraction_part by (done || by apply exponent_no_digit).
    rewrite exponent_part by done. rewrite prepend_Some. by rewrite <- !string_app_assoc.
Qed.

Lemma decimal_integer n d : 0 < n -> decimal n d -> integer d.
Proof.
  intros Hn Hd. split; [|intros t Ht; by eapply decimal_int_part].
  destruct Hd as (Hd & _ & Hz). destruct d as [|c d]; [lia|]. exists c, d. eauto using all_digits_head.
Qed.

Lemma zero_integer : integer "0".
Proof. split; [by eexists _, _|]. done. Qed.

(** ** Digits in place *)

Definition zeros (n : Z) : string := Stdlib.Strings.String.string_of_list_ascii (replicate (Z.to_nat n) "0"%char).

Lemma zeros_digits n : all_digits (zeros n) = true.
Proof. unfold zeros. induction (Z.to_nat n); done. Qed.

Lemma take_digits n d : all_digits d = true -> all_digits (str_take n d) = true /\ all_digits (str_drop n d) = true.
Proof.
  revert d. induction n as [|n IH]; intros [|c d] Hd; try done. simpl in *.
  apply andb_true_iff in Hd as [-> Hd]. by apply IH.
Qed.

(** Some leading digits of a number, and any digits after it, make a number again. *)
Lemma head_integer c d : all_digits (String c d) = true -> code c <> 48 -> integer (String c d).
Proof.
  intros Hd Hc. split; [eauto using all_digits_head|]. intros t Ht. unfold int_part.
  rewrite string_app_cons. cbn [cut_prefix].
  rewrite (char_eqb_diff "0"%char c (fun c => code c =? 48)) by (by rewrite (proj2 (Z.eqb_neq _ _) Hc)).
  rewrite <- string_app_cons. by rewrite digits1_app.
Qed.

Lemma str_drop_not_empty n s : (n < String.length s)%nat -> str_drop n s <> EmptyString.
Proof. revert s. induction n as [|n IH]; intros [|c s] Hn; simpl in *; try done; try lia. apply IH. lia. Qed.

Lemma Itoa_exponent x : exponent ("e" +:+ (if x <? 0 then EmptyString else "+") +:+ Itoa x).
Proof.
  right. destruct (Itoa_cases x) as [[-> ->]|[[Hx (Hd & Hv & Hz)]|[Hx (d & -> & (Hd & Hv & Hz))]]].
  - exists "+", "0". by auto.
  - rewrite (proj2 (Z.ltb_ge x 0)) by lia. exists "+", (Itoa x). splits; auto.
    intros E. rewrite E in Hz. lia.
  - rewrite (proj2 (Z.ltb_lt x 0)) by lia. exists "-", d. splits; auto. intros ->. lia.
Qed.

Lemma layout_number (neg : bool) ds n x :
  0 < n -> decimal n ds -> number ((if neg then "-" else EmptyString) +:+ layout ds x).
Proof.
  intros Hn (Hd & Hv & Hz). destruct ds as [|c d]; [lia|]. unfold layout. fold zeros.
  set (k := Z.of_nat (String.length (String c d))).
  assert (Hc := all_digits_head _ _ Hd).
  destruct ((-7 <? x) && (x <? 21)) eqn:E; to_prop.
  - change (Stdlib.Strings.String.string_of_list_ascii (replicate (Z.to_nat ?m) "0"%char)) with (zeros m).
    destruct (x <? 0) eqn:E0; to_prop.
    + replace ("0." +:+ _) with ("0" +:+ ("." +:+ (zeros (- x - 1) +:+ String c d)) +:+ EmptyString)
        by (rewrite string_app_nil_r; done).
      apply number_parts; [apply zero_integer| |by left]. right. eexists. split; [done|]. split.
      * intros Hz'. apply (f_equal String.length) in Hz'. rewrite length_app_string in Hz'. simpl in Hz'. lia.
      * by rewrite all_digits_app, zeros_digits, Hd.
    + destruct (k <=? x + 1) eqn:E2; to_prop.
      * replace (String c d +:+ _) with ((String c d +:+ zeros (x + 1 - k)) +:+ EmptyString +:+ EmptyString)
          by (by rewrite !string_app_nil_r).
        apply number_parts; [|by left..]. rewrite string_app_cons. apply head_integer; [|done].
        rewrite <- string_app_cons, all_digits_app. by rewrite Hd, zeros_digits.
      * destruct (Z.to_nat (x + 1)) as [|m] eqn:Em; [lia|].
        replace (str_take _ _ +:+ _) with
          (str_take (S m) (String c d) +:+ ("." +:+ str_drop (S m) (String c d)) +:+ EmptyString)
          by (by rewrite string_app_nil_r).
        destruct (take_digits (S m) _ Hd) as [Ht Hdr]. apply number_parts; [by apply head_integer| |by left].
        right. eexists. splits; [done| |done]. apply str_drop_not_empty. lia.
  - apply number_parts; [| |apply Itoa_exponent].
    + cbn [str_take]. apply head_integer; [by rewrite <- Hc; simpl; rewrite Hc|done].
    + destruct (k =? 1) eqn:E2; to_prop; [by left|]. right. eexists. destruct (take_digits 1 _ Hd) as [_ Hdr].
      splits; [done| |done]. apply str_drop_not_empty. unfold k in E2. simpl in *. lia.
Qed.

Lemma FormatFloat_number f t : FormatFloat f = Some t -> number t.
Proof.
  destruct f as [neg| | |neg m e]; try done; cbn [FormatFloat].
  - intros [= <-]. pose proof (number_parts neg "0" "" "" zero_integer ltac:(by left) ltac:(by left)) as Hn. by destruct neg.
  - set (nd := if 0 <=? e then _ else _).
    assert (Hnd : 0 < nd.1 /\ 0 < nd.2).
    { unfold nd. destruct (0 <=? e) eqn:E; to_prop; simpl; split; try done; try apply Z.mul_pos_pos; try done; apply Z.pow_pos_nonneg; lia. }
    destruct nd as [num den]. cbn [fst snd] in Hnd. destruct Hnd as [Hnum Hden].
    destruct (shortest _ _ _ _ _ _ _) as [d p] eqn:Es.
    assert (Hd : 1 <= d).
    { change d with (d, p).1. rewrite <- Es. apply shortest_pos; [lia|]. intros n Hn. by apply dec_exponent_spec. }
    destruct (trim_zeros 17 d p) as [d' p'] eqn:Et.
    assert (Hd' : 1 <= d') by (change d' with (d', p').1; rewrite <- Et; by apply trim_zeros_pos).
    intros [= <-]. apply (layout_number neg _ d'); [lia|].
    destruct (Itoa_cases d') as [[? _]|[[_ Hdec]|[? _]]]; [lia|done|lia].
Qed.
