(* ===== verification/Base64.v ===== *)
(** Go's [encoding/base64] without padding, both alphabets: the decoder, and that it
    reads back what the encoder writes. *)
From S2P Require Import Prelude GoStrings NetAddr Crypto.

(** [base64.RawStdEncoding.EncodeToString] *)
Definition b64std_char (v : Z) : Z := if v =? 62 then 43 else if v =? 63 then 47 else b64_char v.
Definition b64std (b : list Z) : string := string_of (b64std_char <$> b64_groups b).

(** The value of a character; [c62] and [c63] are the last two of the alphabet. *)
Definition b64_val (c62 c63 c : Z) : option Z :=
  if (65 <=? c) && (c <=? 90) then Some (c - 65)
  else if (97 <=? c) && (c <=? 122) then Some (c - 71)
  else if (48 <=? c) && (c <=? 57) then Some (c + 4)
  else if c =? c62 then Some 62
  else if c =? c63 then Some 63
  else None.

(** Four characters to three bytes; the bits left over at the end are dropped. *)
Fixpoint b64_ungroup (v : list Z) : option (list Z) :=
  match v with
  | a :: b :: c :: d :: v' =>
      (fun r => a * 4 + b / 16 :: b mod 16 * 16 + c / 4 :: c mod 4 * 64 + d :: r) <$> b64_ungroup v'
  | [a; b; c] => Some [a * 4 + b / 16; b mod 16 * 16 + c / 4]
  | [a; b] => Some [a * 4 + b / 16]
  | [_] => None
  | [] => Some []
  end.

(** [DecodeString]: line ends are skipped, any other foreign byte is an error. *)
Definition b64_decode (c62 c63 : Z) (s : string) : option (list Z) :=
  mapM (b64_val c62 c63) (List.filter (fun c => negb ((c =? 10) || (c =? 13))) (bytes_of s)) ≫= b64_ungroup.

Definition b64url_decode : string -> option (list Z) := b64_decode 45 95.
Definition b64std_decode : string -> option (list Z) := b64_decode 43 47.

(** ** Bytes and strings *)

Lemma bytes_of_string_of b : Forall is_byte b -> bytes_of (string_of b) = b.
Proof.
  unfold bytes_of, string_of. rewrite Stdlib.Strings.String.list_ascii_of_string_of_list_ascii.
  induction 1 as [|x b Hx Hb IH]; [done|]. csimpl. rewrite IH. f_equal.
  unfold is_byte in Hx. rewrite nat_ascii_embedding by lia. lia.
Qed.

Lemma string_of_bytes_of s : string_of (bytes_of s) = s.
Proof.
  unfold bytes_of, string_of. induction s as [|c s IH]; [done|]. csimpl.
  cbn [Stdlib.Strings.String.string_of_list_ascii]. rewrite IH, Nat2Z.id, ascii_nat_embedding. done.
Qed.

Lemma bytes_of_bytes s : Forall is_byte (bytes_of s).
Proof.
  unfold bytes_of. induction s as [|c s IH]; csimpl; constructor; [|done].
  pose proof (nat_ascii_bounded c). unfold is_byte. lia.
Qed.

(** ** Round trips *)

Definition sextet (v : Z) : Prop := 0 <= v < 64.

Lemma sextet_forall (P : Z -> bool) :
  forallb P (Z.of_nat <$> seq 0 64) = true -> forall v, sextet v -> P v = true.
Proof.
  intros H v Hv. rewrite forallb_forall in H. apply H. apply list_elem_of_In, list_elem_of_fmap.
  exists (Z.to_nat v). unfold sextet in Hv. split; [lia|]. apply elem_of_seq. lia.
Qed.

(** Three bytes at a time. *)
Lemma triples_ind (P : list Z -> Prop) :
  P [] -> (forall x, P [x]) -> (forall x y, P [x; y]) -> (forall x y z l, P l -> P (x :: y :: z :: l)) ->
  forall l, P l.
Proof.
  intros H0 H1 H2 H3. fix IH 1. intros [|x [|y [|z l]]]; [apply H0|apply H1|apply H2|apply H3, IH].
Qed.

Lemma b64_groups_sextets b : Forall is_byte b -> Forall sextet (b64_groups b).
Proof.
  induction b as [|x|x y|x y z b IH] using triples_ind; intros Hb; cbn [b64_groups app];
    repeat match goal with Hf : Forall is_byte (_ :: _) |- _ => apply Forall_cons in Hf as [? Hf] end;
    unfold is_byte, sextet in *; repeat (constructor; [lia|]); auto.
Qed.

Lemma b64_ungroup_groups b : Forall is_byte b -> b64_ungroup (b64_groups b) = Some b.
Proof.
  induction b as [|x|x y|x y z b IH] using triples_ind; intros Hb; cbn [b64_groups app b64_ungroup];
    repeat match goal with Hf : Forall is_byte (_ :: _) |- _ => apply Forall_cons in Hf as [? Hf] end;
    unfold is_byte in *; [done|..].
  - do 2 f_equal. lia.
  - do 2 f_equal; [lia|]. f_equal. lia.
  - rewrite IH by done. csimpl. f_equal. f_equal; [lia|]. f_equal; [lia|]. f_equal. lia.
Qed.

Section alphabet.
Context (chr : Z -> Z) (c62 c63 : Z).
Hypothesis chr_val : forall v, sextet v ->
  is_byte (chr v) /\ chr v <> 10 /\ chr v <> 13 /\ b64_val c62 c63 (chr v) = Some v.

Lemma b64_decode_groups b : Forall is_byte b -> b64_decode c62 c63 (string_of (chr <$> b64_groups b)) = Some b.
Proof.
  intros Hb. unfold b64_decode. pose proof (b64_groups_sextets b Hb) as Hs.
  rewrite bytes_of_string_of by (apply Forall_fmap; eapply Forall_impl; [exact Hs|]; intros v Hv; apply chr_val, Hv).
  assert (Em : mapM (b64_val c62 c63)
      (List.filter (fun c => negb ((c =? 10) || (c =? 13))) (chr <$> b64_groups b)) = Some (b64_groups b)).
  { apply mapM_Some. induction Hs as [|v l Hv Hl IH]; csimpl; [constructor|].
    destruct (chr_val v Hv) as (_ & H10 & H13 & Hval).
    rewrite (proj2 (Z.eqb_neq _ 10)), (proj2 (Z.eqb_neq _ 13)) by done. by constructor. }
  rewrite Em. by apply b64_ungroup_groups.
Qed.
End alphabet.

Lemma b64url_char_val v : sextet v ->
  is_byte (b64_char v) /\ b64_char v <> 10 /\ b64_char v <> 13 /\ b64_val 45 95 (b64_char v) = Some v.
Proof.
  intros Hv.
  assert (E : bool_decide (is_byte (b64_char v) /\ b64_char v <> 10 /\ b64_char v <> 13 /\ b64_val 45 95 (b64_char v) = Some v) = true).
  { unfold is_byte. revert v Hv. by apply sextet_forall. }
  by apply bool_decide_eq_true in E.
Qed.

Lemma b64std_char_val v : sextet v ->
  is_byte (b64std_char v) /\ b64std_char v <> 10 /\ b64std_char v <> 13 /\ b64_val 43 47 (b64std_char v) = Some v.
Proof.
  intros Hv.
  assert (E : bool_decide (is_byte (b64std_char v) /\ b64std_char v <> 10 /\ b64std_char v <> 13 /\ b64_val 43 47 (b64std_char v) = Some v) = true).
  { unfold is_byte. revert v Hv. by apply sextet_forall. }
  by apply bool_decide_eq_true in E.
Qed.

Lemma b64url_decode_encode b : Forall is_byte b -> b64url_decode (b64url b) = Some b.
Proof. apply (b64_decode_groups b64_char). exact b64url_char_val. Qed.

Lemma b64std_decode_encode b : Forall is_byte b -> b64std_decode (b64std b) = Some b.
Proof. apply (b64_decode_groups b64std_char). exact b64std_char_val. Qed.

(** A character outside the alphabet does not occur in encoded text. *)
Lemma has_char_string_of c b :
  Forall (fun v => v <> Z.of_nat (nat_of_ascii c)) b -> Forall is_byte b -> has_char c (string_of b) = false.
Proof.
  induction 1 as [|v b Hv Hb IH]; intros Hbytes; [done|]. apply Forall_cons in Hbytes as [Hv' Hbytes].
  change (string_of (v :: b)) with (String (ascii_of_nat (Z.to_nat v)) (string_of b)). cbn [has_char].
  destruct (char_eqb _ c) eqn:E; [|auto]. apply char_eqb_eq in E. exfalso. apply Hv. rewrite <- E.
  unfold is_byte in Hv'. rewrite nat_ascii_embedding by lia. lia.
Qed.

Lemma b64url_no_dot b : Forall is_byte b -> has_char "." (b64url b) = false.
Proof.
  intros Hb. apply has_char_string_of; apply Forall_fmap; eapply Forall_impl; try apply (b64_groups_sextets b Hb);
    intros v Hv; [|by apply b64url_char_val].
  cbn. apply Z.eqb_neq, negb_true_iff. revert v Hv. by apply sextet_forall.
Qed.

Lemma b64std_no_dollar b : Forall is_byte b -> has_char "$" (b64std b) = false.
Proof.
  intros Hb. apply has_char_string_of; apply Forall_fmap; eapply Forall_impl; try apply (b64_groups_sextets b Hb);
    intros v Hv; [|by apply b64std_char_val].
  cbn. apply Z.eqb_neq, negb_true_iff. revert v Hv. by apply sextet_forall.
Qed.

(** Every byte a hash or HMAC returns is one. *)
Lemma be_bytes_bytes n v : Forall is_byte (be_bytes n v).
Proof.
  unfold be_bytes. apply Forall_reverse, Forall_fmap, Forall_true. intros i. unfold is_byte. simpl.
  pose proof (Z.mod_pos_bound (Z.shiftr v (8 * Z.of_nat i)) 256). lia.
Qed.

Lemma Sum256_bytes b : Forall is_byte (Sum256 b).
Proof.
  unfold Sum256. cbv zeta. induction (blocks _ _ _) as [|h hs IH]; [constructor|].
  change (Forall is_byte (be_bytes 4 h ++ mjoin (be_bytes 4 <$> hs))). apply Forall_app. auto using be_bytes_bytes.
Qed.

Example b64_decode_examples :
  b64url_decode ("e" +:+ newline +:+ "w") = Some [123] /\ b64url_decode "e" = None /\
  b64url_decode "ew==" = None /\ b64std_decode "+/8" = Some [251; 255].
Proof. vm_compute. repeat split. Qed.
