(* ===== verification/GoTime.v ===== *)
(** Go's [time]: the RFC 3339 text of an instant in UTC, and [time.ParseDuration]. *)
From S2P Require Import Prelude Floats Model GoStrings Json.

(** ** Calendar *)

(** Year, month and day of a day number counted from 1970-01-01, in the proleptic
    Gregorian calendar: years start in March, in eras of 400 years. *)
Definition civil (z : Z) : Z * Z * Z :=
  let z := z + 719468 in
  let era := z / 146097 in
  let doe := z mod 146097 in
  let yoe := (doe - doe / 1460 + doe / 36524 - doe / 146096) / 365 in
  let doy := doe - (365 * yoe + yoe / 4 - yoe / 100) in
  let mp := (5 * doy + 2) / 153 in
  let d := doy - (153 * mp + 2) / 5 + 1 in
  let m := if mp <? 10 then mp + 3 else mp - 9 in
  (yoe + era * 400 + (if m <=? 2 then 1 else 0), m, d).

Fixpoint zeros (n : nat) : string := match n with O => EmptyString | S n' => String "0" (zeros n') end.

(** [appendInt]: a number in decimal, padded with zeros to [width] digits. *)
Definition appendInt (width : nat) (n : Z) : string :=
  let d := Itoa (Z.abs n) in
  (if n <? 0 then "-" else EmptyString) +:+ zeros (width - String.length d) +:+ d.

(** [t.UTC().Format(time.RFC3339)] *)
Definition FormatRFC3339 (t : Time) : string :=
  let s := t / Second in
  let '(y, m, d) := civil (s / 86400) in
  let r := s mod 86400 in
  appendInt 4 y +:+ "-" +:+ appendInt 2 m +:+ "-" +:+ appendInt 2 d +:+ "T" +:+
  appendInt 2 (r / 3600) +:+ ":" +:+ appendInt 2 (r / 60 mod 60) +:+ ":" +:+ appendInt 2 (r mod 60) +:+ "Z".

(** ** Durations *)

(** [uint64(x)] of a float that is not negative. *)
Definition float_trunc (x : float64) : Z :=
  match x with
  | S754_finite s m e => (if s then -1 else 1) * Z.shiftl (Zpos m) e
  | _ => 0
  end.

(** [leadingInt]: [None] when the digits exceed 2^63. *)
Fixpoint leadingInt (x : Z) (s : string) : option (Z * string) :=
  match s with
  | String c s' =>
      if is_digit c then
        if 2 ^ 63 / 10 <? x then None
        else let x' := x * 10 + digit_val c in if 2 ^ 63 <? x' then None else leadingInt x' s'
      else Some (x, s)
  | EmptyString => Some (x, s)
  end.

(** [leadingFraction]: digits past the capacity of 63 bits are dropped. *)
Fixpoint leadingFraction (x : Z) (scale : float64) (overflow : bool) (s : string) : Z * float64 * string :=
  match s with
  | String c s' =>
      if is_digit c then
        if overflow || ((2 ^ 63 - 1) / 10 <? x) then leadingFraction x scale true s'
        else
          let y := x * 10 + digit_val c in
          if 2 ^ 63 <? y then leadingFraction x scale true s'
          else leadingFraction y (Fmul scale (Fof_Z 10)) false s'
      else (x, scale, s)
  | EmptyString => (x, scale, s)
  end.

(** The unit: everything up to the next digit or point. *)
Fixpoint leading_unit (s : string) : string * string :=
  match s with
  | String c s' =>
      if is_digit c || (code c =? 46) then (EmptyString, s)
      else let '(u, r) := leading_unit s' in (String c u, r)
  | EmptyString => (EmptyString, s)
  end.

Definition unitMap (u : string) : option Z :=
  if bool_decide (u = "ns") then Some 1
  else if bool_decide (u = "us") || bool_decide (u = encode_rune 0xb5 +:+ "s") || bool_decide (u = encode_rune 0x3bc +:+ "s")
  then Some 1000
  else if bool_decide (u = "ms") then Some 1000000
  else if bool_decide (u = "s") then Some Second
  else if bool_decide (u = "m") then Some Minute
  else if bool_decide (u = "h") then Some Hour
  else None.

(** One number with its unit; every round takes a byte. *)
Fixpoint duration_loop (fuel : nat) (d : Z) (s : string) : option Z :=
  match fuel, s with
  | _, EmptyString => Some d
  | O, _ => None
  | S fuel', String c _ =>
      if negb (is_digit c || (code c =? 46)) then None
      else match leadingInt 0 s with
      | None => None
      | Some (v, s1) =>
          let pre := is_digit c in
          let '(f, scale, s2, post) :=
            match cut_prefix "." s1 with
            | Some s' => let '(f, scale, s2) := leadingFraction 0 Fone false s' in
                         (f, scale, s2, negb (bool_decide (s2 = s')))
            | None => (0, Fone, s1, false)
            end in
          if negb (pre || post) then None
          else
            let '(u, s3) := leading_unit s2 in
            match unitMap u with
            | None => None
            | Some unit =>
                if 2 ^ 63 / unit <? v then None
                else
                  let v := v * unit + (if 0 <? f then float_trunc (Fmul (Fof_Z f) (Fdiv (Fof_Z unit) scale)) else 0) in
                  if (2 ^ 63 <? v) || (2 ^ 63 <? d + v) then None
                  else duration_loop fuel' (d + v) s3
            end
      end
  end.

(** [time.ParseDuration] *)
Definition ParseDuration (s : string) : option Duration :=
  let '(neg, s) := match cut_prefix "-" s, cut_prefix "+" s with
                   | Some s', _ => (true, s')
                   | None, Some s' => (false, s')
                   | None, None => (false, s)
                   end in
  if bool_decide (s = "0") then Some 0
  else if bool_decide (s = EmptyString) then None
  else match duration_loop (String.length s) 0 s with
       | None => None
       | Some d => if (neg : bool) then Some (- d) else if d <? 2 ^ 63 then Some d else None
       end.

(** [d.Seconds()], and [int(d.Seconds())]. *)
Definition Seconds (d : Duration) : float64 :=
  Fadd (Fof_Z (Z.quot d Second)) (Fdiv (Fof_Z (Z.rem d Second)) (Fof_Z Second)).
Definition whole_seconds (d : Duration) : Z := float_trunc (Seconds d).

(** ** Examples *)

Example FormatRFC3339_examples :
  FormatRFC3339 0 = "1970-01-01T00:00:00Z" /\
  FormatRFC3339 (1709210096 * Second + 5) = "2024-02-29T12:34:56Z" /\
  FormatRFC3339 (-1) = "1969-12-31T23:59:59Z" /\
  FormatRFC3339 (4102444800 * Second) = "2100-01-01T00:00:00Z".
Proof. vm_compute. repeat split. Qed.

Example ParseDuration_examples :
  ParseDuration "168h" = Some (168 * Hour) /\ ParseDuration "1h30m" = Some (90 * Minute) /\
  ParseDuration "-1.5s" = Some (-1500000000) /\ ParseDuration "0" = Some 0 /\
  ParseDuration ".s" = None /\ ParseDuration "5" = None /\ ParseDuration "3000000h" = None /\
  ParseDuration "0.1h" = Some (6 * Minute).
Proof. vm_compute. repeat split. Qed.

(** The calendar inverts the count of days, by evaluation on the days from 2010 to 2014. *)
Definition days_of (y m d : Z) : Z :=
  let y := if m <=? 2 then y - 1 else y in
  let era := y / 400 in
  let yoe := y mod 400 in
  let doy := (153 * (if 2 <? m then m - 3 else m + 9) + 2) / 5 + d - 1 in
  era * 146097 + (yoe * 365 + yoe / 4 - yoe / 100 + doy) - 719468.

Fixpoint era_ok (n : nat) (z : Z) : bool :=
  match n with
  | O => true
  | S n' => let '(y, m, d) := civil z in (days_of y m d =? z) && era_ok n' (z + 1)
  end.

Example civil_days : era_ok (Z.to_nat 1800) 14610 = true.
Proof. vm_compute. reflexivity. Qed.
