(* ===== verification/Strconv.v ===== *)
(** Go's [strconv] readers and [strings.Fields], and the process environment. *)
From S2P Require Import Prelude GoStrings Json JsonFacts GoTime Model.

(** [strconv.ParseUint(s, 10, 64)]: [None] is an error. *)
Definition ParseUint (s : string) : option Z :=
  if bool_decide (s = EmptyString) then None
  else match dec_val 0 s with Some n => if n <? 2 ^ 64 then Some n else None | None => None end.

(** The sign of a literal ([true] is minus) and what follows it. *)
Definition sign_of (s : string) : bool * string :=
  match cut_prefix "-" s, cut_prefix "+" s with
  | Some s', _ => (true, s')
  | None, Some s' => (false, s')
  | None, None => (false, s)
  end.

(** [strconv.Atoi(s)]: [int] has 64 bits. *)
Definition Atoi (s : string) : option Z :=
  let '(neg, d) := sign_of s in
  if bool_decide (d = EmptyString) then None
  else match dec_val 0 d with
       | Some n =>
           let n := if neg then - n else n in
           if (- 2 ^ 63 <=? n) && (n <? 2 ^ 63) then Some n else None
       | None => None
       end.

(** [strconv.ParseBool(s)] *)
Definition ParseBool (s : string) : option bool :=
  if bool_decide (s ∈ ["1"; "t"; "T"; "TRUE"; "true"; "True"]) then Some true
  else if bool_decide (s ∈ ["0"; "f"; "F"; "FALSE"; "false"; "False"]) then Some false
  else None.

(** [strings.Fields(s)]: the words between runs of white space; [cur] is the word being
    read. Every round takes a byte at least. *)
Fixpoint fields_from (fuel : nat) (cur s : string) : list string :=
  let flush := if bool_decide (cur = EmptyString) then [] else [cur] in
  match fuel, s with
  | S fuel', String c s' =>
      match first_prefix white_space s with
      | Some rest => flush ++ fields_from fuel' EmptyString rest
      | None => fields_from fuel' (cur +:+ String c EmptyString) s'
      end
  | _, _ => flush
  end.
Definition Fields (s : string) : list string := fields_from (String.length s) EmptyString s.

(** ** The environment *)

Abbreviation Environ := (gmap string string).

(** [os.LookupEnv], and [os.Getenv] with its empty text for an absent name. *)
Definition LookupEnv (env : Environ) (key : string) : option string := env !! key.
Definition Getenv (env : Environ) (key : string) : string := default EmptyString (env !! key).

(** ** Facts *)

Lemma decimal_not_empty n d : 0 < n -> decimal n d -> d <> EmptyString.
Proof. intros Hn (_ & _ & Hd). destruct d; [lia|done]. Qed.

(** A number's digits do not start with a sign. *)
Lemma decimal_sign_of n d t : 0 < n -> decimal n d -> sign_of (d +:+ t) = (false, d +:+ t).
Proof.
  intros Hn (Hd & _ & Hz). destruct d as [|c d]; [lia|]. unfold sign_of. rewrite string_app_cons. cbn [cut_prefix].
  rewrite (char_eqb_diff "-"%char c is_digit), (char_eqb_diff "+"%char c is_digit);
    by rewrite ?(all_digits_head _ _ Hd).
Qed.

Lemma minus_sign_of d : sign_of ("-" +:+ d) = (true, d).
Proof. reflexivity. Qed.

Lemma Atoi_Itoa z : - 2 ^ 63 <= z < 2 ^ 63 -> Atoi (Itoa z) = Some z.
Proof.
  intros Hr. assert (Hb : (- 2 ^ 63 <=? z) && (z <? 2 ^ 63) = true).
  { apply andb_true_iff. by rewrite Z.leb_le, Z.ltb_lt. }
  unfold Atoi. destruct (Itoa_cases z) as [[-> ->]|[[Hz Hd]|[Hz (d & -> & Hd)]]].
  - reflexivity.
  - rewrite <- (string_app_nil_r (Itoa z)), (decimal_sign_of z), string_app_nil_r by done.
    rewrite bool_decide_false by (by apply (decimal_not_empty z)). destruct Hd as (_ & -> & _). by rewrite Hb.
  - rewrite minus_sign_of. rewrite bool_decide_false by (apply (decimal_not_empty (- z)); [lia|done]).
    destruct Hd as (_ & -> & _). by rewrite Z.opp_involutive, Hb.
Qed.

(** Digits before something else, within 63 bits. *)
Lemma leadingInt_digits d t x n :
  all_digits d = true -> dec_val x d = Some n -> 0 <= x -> n <= 2 ^ 63 -> no_digit t = true ->
  leadingInt x (d +:+ t) = Some (n, t).
Proof.
  revert x. induction d as [|c d IH]; intros x Hd Hv Hx Hn Ht.
  { injection Hv as ->. destruct t as [|c t]; [done|]. rewrite string_app_nil_l.
    cbn [no_digit leadingInt] in *. apply negb_true_iff in Ht. by rewrite Ht. }
  rewrite string_app_cons. cbn [all_digits leadingInt dec_val] in *. apply andb_true_iff in Hd as [Hc Hd].
  rewrite Hc in *.
  assert (Hc0 : 0 <= digit_val c) by (unfold is_digit, digit_val in *; to_prop; lia).
  assert (Hle : x * 10 + digit_val c <= n).
  { clear -Hd Hv Hx Hc0. assert (H0 : 0 <= x * 10 + digit_val c) by lia. revert Hv H0.
    generalize (x * 10 + digit_val c). clear -Hd. induction d as [|c d IH]; intros y Hv Hy; cbn in *; [by injection Hv as ->|].
    apply andb_true_iff in Hd as [Hc Hd]. rewrite Hc in Hv.
    assert (0 <= digit_val c) by (unfold is_digit, digit_val in *; to_prop; lia).
    specialize (IH Hd (y * 10 + digit_val c) Hv ltac:(lia)). lia. }
  rewrite (proj2 (Z.ltb_ge _ _)) by lia. rewrite (proj2 (Z.ltb_ge _ _)) by lia. apply IH; auto; lia.
Qed.
