(* ===== verification/Sysload.v ===== *)
(** The load of a gateway: [agent/internal/sysload/sysload.go]. A meter turns counters of
    the kernel into rates between one reading and the next. *)
From S2P Require Import Prelude Floats Model GoStrings Json GoTime Strconv.

Record Sample := mkSample { CPUPct : float64; RxBps : Z; TxBps : Z }.

Record cpuSample := mkCpu { total : Z; idle : Z }.
Record netSample := mkNet { rx : Z; tx : Z; at_ : Time }.

(** A meter without its readers: what they return is an argument of [Sample]. *)
Record Meter := mkMeter {
  wanIface : string;
  prevCPU : cpuSample;
  prevNet : netSample;
  hasCPU : bool;
  hasNet : bool
}.

Definition New (iface : string) : Meter := mkMeter iface (mkCpu 0 0) (mkNet 0 0 0) false false.

(** ** The readers, over the files of /proc and /sys *)

(** The fields after "cpu" are added up, the fourth and fifth as idle time too; a field
    that is no number is skipped. The sums wrap at 64 bits. *)
Fixpoint add_fields (i : nat) (fs : list string) (acc : cpuSample) : cpuSample :=
  match fs with
  | [] => acc
  | v :: fs' =>
      add_fields (S i) fs'
        match ParseUint v with
        | None => acc
        | Some n => mkCpu (u64 (total acc + n))
                      (if ((i =? 3) || (i =? 4))%nat then u64 (idle acc + n) else idle acc)
        end
  end.

Fixpoint first_cpu_line (lines : list string) : cpuSample :=
  match lines with
  | [] => mkCpu 0 0
  | line :: lines' =>
      match Fields line with
      | name :: fs =>
          if (length (name :: fs) <? 5)%nat || negb (bool_decide (name = "cpu")) then first_cpu_line lines'
          else add_fields 0 fs (mkCpu 0 0)
      | [] => first_cpu_line lines'
      end
  end.

Definition parseProcStat (content : string) : cpuSample := first_cpu_line (Split "010" content).

Section readers.
(** [os.ReadFile]: [None] is an error. *)
Variable ReadFile : string -> option string.

Definition defaultReadProcStat : option string := ReadFile "/proc/stat".

Definition readUint (path : string) : option Z := ReadFile path ≫= fun b => ParseUint (TrimSpace b).

Definition defaultReadNetBytes (iface : string) : option (Z * Z) :=
  let base := "/sys/class/net/" +:+ iface +:+ "/statistics/" in
  readUint (base +:+ "rx_bytes") ≫= fun r => readUint (base +:+ "tx_bytes") ≫= fun t => Some (r, t).
End readers.

(** ** One sample *)

Section meter.
(** [int64(f)] of a float outside its range, which Go leaves to the processor. *)
Variable beyond : float64 -> Z.

Definition int64_of (f : float64) : Z :=
  let n := float_trunc f in
  if is_finite f && (- 2 ^ 63 <=? n) && (n <? 2 ^ 63) then n else beyond f.

(** The utilisation between two readings of the CPU counters, in percent. *)
Definition cpu_pct (prev cur : cpuSample) : float64 :=
  let dt := i64 (i64 (total cur) - i64 (total prev)) in
  let di := i64 (i64 (idle cur) - i64 (idle prev)) in
  if 0 <? dt then Fmul (Fdiv (Fof_Z (i64 (dt - di))) (Fof_Z dt)) (Fof_Z 100) else Fzero.

(** Bits per second between two readings of a byte counter [dt] seconds apart; zero when
    the counter went back. *)
Definition rate (prev cur : Z) (dt : float64) : Z :=
  if Flt Fzero dt && (prev <=? cur) then int64_of (Fdiv (Fmul (Fof_Z (u64 (cur - prev))) (Fof_Z 8)) dt) else 0.

(** [Sample]: the sample and the meter after it. [stat] and [net] are what the two
    readers return ([None] is an error), [now] is the clock. *)
Definition sample (now : Time) (stat : option string) (net : option (Z * Z)) (m : Meter) : Sample * Meter :=
  let cur := parseProcStat <$> stat in
  let fresh := match cur with Some c => 0 <? total c | None => false end in
  let pct := match cur with
             | Some c => if fresh && hasCPU m then cpu_pct (prevCPU m) c else Fzero
             | None => Fzero
             end in
  let '(rxbps, txbps) :=
    match net with
    | Some (r, t) =>
        if hasNet m then
          let dt := Seconds (Sub now (at_ (prevNet m))) in
          (rate (rx (prevNet m)) r dt, rate (tx (prevNet m)) t dt)
        else (0, 0)
    | None => (0, 0)
    end in
  (mkSample pct rxbps txbps,
   mkMeter (wanIface m)
     (match cur with Some c => if fresh then c else prevCPU m | None => prevCPU m end)
     (match net with Some (r, t) => mkNet r t now | None => prevNet m end)
     (hasCPU m || fresh) (hasNet m || bool_decide (is_Some net))).

(** The samples of a sequence of calls. *)
Fixpoint samples (rs : list (Time * option string * option (Z * Z))) (m : Meter) : list Sample :=
  match rs with
  | [] => []
  | (now, stat, net) :: rs' => let '(s, m') := sample now stat net m in s :: samples rs' m'
  end.

(** ** The percentages *)

(** What is read of the CPU counters, when anything is. *)
Definition cpu_of (r : Time * option string * option (Z * Z)) : option cpuSample :=
  match r with
  | (_, Some content, _) => let c := parseProcStat content in if 0 <? total c then Some c else None
  | (_, None, _) => None
  end.

(** Counters that count up: idle time is part of the total, and nothing wraps. *)
Definition counts_up (c1 c2 : cpuSample) : Prop :=
  0 <= total c1 /\ 0 <= idle c1 <= idle c2 /\ idle c2 - idle c1 <= total c2 - total c1 /\ total c2 < 2 ^ 53 /\ idle c2 < 2 ^ 53.

(** A number from 0 to 100. *)
Definition percent (f : float64) : Prop := nonneg f = true /\ Flt (Fof_Z 100) f = false.

Lemma hundred : Fof_Z 100 = S754_finite false 7036874417766400 (-46).
Proof. reflexivity. Qed.

Lemma upto_hundred f : upto 7036874417766400 (-46) f -> percent f.
Proof.
  intros Hf. split; [|rewrite hundred; by apply (upto_le 7036874417766400)].
  apply upto_fin_nonneg in Hf. by destruct f as [|[]| |[]].
Qed.

Lemma cpu_pct_percent prev cur : counts_up prev cur -> percent (cpu_pct prev cur).
Proof.
  intros (Ht & [Hi1 Hi2] & Hd & Hb1 & Hb2). unfold cpu_pct. cbv zeta. 
  rewrite (i64_small (total cur)), (i64_small (total prev)), (i64_small (idle cur)), (i64_small (idle prev)) by lia.
  rewrite (i64_small (total cur - total prev)), (i64_small (idle cur - idle prev)) by lia. rewrite i64_small by lia.
  destruct (0 <? _) eqn:E; [|by vm_compute]. to_prop.
  destruct (Fof_Z_exact (total cur - total prev)) as (m & e & Em & Hm & _); [lia|]. rewrite Em, Fmul_comm, hundred.
  apply upto_hundred, Fmul_upto; [lia..|]. apply Fdiv_upto; [done|]. eapply Fof_Z_upto; [| |exact Em]; lia.
Qed.

Lemma zero_percent : percent Fzero.
Proof. by vm_compute. Qed.

Lemma sample_percent now stat net m :
  (forall c, hasCPU m = true -> cpu_of (now, stat, net) = Some c -> counts_up (prevCPU m) c) ->
  percent (CPUPct (sample now stat net m).1).
Proof.
  intros Hc. unfold sample. destruct (match net with Some _ => _ | None => _ end) as [r t]. cbn [fst CPUPct].
  destruct stat as [content|]; [|apply zero_percent]. cbn [fmap option_fmap option_map cpu_of] in *.
  destruct (0 <? total (parseProcStat content)), (hasCPU m); try apply zero_percent.
  apply cpu_pct_percent. by apply Hc.
Qed.

(** The meter remembers the last reading there was. *)
Lemma sample_prev now stat net m :
  let m' := (sample now stat net m).2 in
  match cpu_of (now, stat, net) with
  | Some c => hasCPU m' = true /\ prevCPU m' = c
  | None => hasCPU m' = hasCPU m /\ prevCPU m' = prevCPU m
  end.
Proof.
  unfold sample. destruct (match net with Some _ => _ | None => _ end) as [r t].
  destruct stat as [content|]; cbn; [|by rewrite orb_false_r].
  destruct (0 <? total (parseProcStat content)); cbn; [by rewrite orb_true_r|by rewrite orb_false_r].
Qed.

Lemma samples_percent rs : forall m,
  (hasCPU m = true -> Sorted counts_up (prevCPU m :: omap cpu_of rs)) -> Sorted counts_up (omap cpu_of rs) ->
  Forall (fun s => percent (CPUPct s)) (samples rs m).
Proof.
  induction rs as [|[[now stat] net] rs IH]; intros m Hm Hs; [constructor|]. cbn [samples].
  pose proof (sample_percent now stat net m) as Hp. pose proof (sample_prev now stat net m) as Hprev.
  destruct (sample now stat net m) as [s m']. cbn [fst snd] in *. cbn [omap list_omap] in Hm, Hs.
  destruct (cpu_of (now, stat, net)) as [c|].
  - destruct Hprev as [Hh' Hp']. constructor.
    + apply Hp. intros c' Hh [= <-]. specialize (Hm Hh). apply Sorted_inv in Hm as [_ Hm]. by inversion Hm.
    + apply IH; [intros _; by rewrite Hp'|]. by apply Sorted_inv in Hs as [Hs _].
  - destruct Hprev as [Hh' Hp']. constructor; [by apply Hp|]. apply IH; [|done]. by rewrite Hh', Hp'.
Qed.

(** C39: the utilisation reported to the control plane is a percentage, whatever readings
    fail in between, as long as the kernel's counters count up: the first sample says 0. *)
Theorem reported_cpu_is_a_percentage iface rs :
  Sorted counts_up (omap cpu_of rs) -> Forall (fun s => percent (CPUPct s)) (samples rs (New iface)).
Proof. intros Hs. by apply samples_percent. Qed.

(** A counter that went back says nothing about the traffic. *)
Lemma rate_reset prev cur dt : cur < prev -> rate prev cur dt = 0.
Proof. intros Hr. unfold rate. by rewrite (proj2 (Z.leb_gt _ _)), andb_false_r by done. Qed.

End meter.

(** ** The repository's test *)

Definition stat1 : string := "cpu  100 0 100 800 0 0 0 0 0 0" +:+ newline +:+ "cpu0 1 2 3 4".
Definition stat2 : string := "cpu  200 0 200 1600 0 0 0 0 0 0" +:+ newline.

Example parseProcStat_examples :
  parseProcStat stat1 = mkCpu 1000 800 /\ parseProcStat ("cpu0 1 2 3 4" +:+ newline) = mkCpu 0 0 /\
  parseProcStat ("intr 5" +:+ newline +:+ "cpu 1 x 3 4 5 6") = mkCpu 19 9.
Proof. vm_compute. repeat split. Qed.

(** 800 of 1000 jiffies were idle; 1000 bytes came in and 2000 went out in 2 seconds. *)
Example samples_example :
  samples (fun _ => 0) [(0, Some stat1, Some (1000, 2000)); (2 * Second, Some stat2, Some (2000, 4000));
                        (4 * Second, None, Some (5, 4500))] (New "eth0") =
  [mkSample Fzero 0 0; mkSample (Fof_Z 20) 4000 8000; mkSample Fzero 0 2000].
Proof. vm_compute. reflexivity. Qed.

Lemma reported_cpu_is_a_percentage_witness :
  Forall (fun s => percent (CPUPct s))
    (samples (fun _ => 0) [(0, Some stat1, None); (1, None, None); (2 * Second, Some stat2, Some (1, 2))] (New "eth0")).
Proof.
  apply reported_cpu_is_a_percentage.
  change (Sorted counts_up [mkCpu 1000 800; mkCpu 2000 1600]). unfold counts_up. repeat constructor; cbn; lia.
Defined.
