(* ===== verification/Jwt.v ===== *)
(** Access tokens: [control-plane/internal/auth/jwt.go]. *)
From S2P Require Import Prelude Model GoStrings NetAddr Crypto Base64 Json JsonFacts.

Inductive token_error := ErrTokenInvalid | ErrTokenExpired | ErrEmptySecret.

Definition b64 (s : string) : string := b64url (bytes_of s).

Definition sign (secret msg : string) : string := b64url (hmac_sha256 (bytes_of secret) (bytes_of msg)).

Definition quoted (w : string) : string := dquote +:+ w +:+ dquote.

(** [headerHS256] *)
Definition jose_header : string :=
  "{" +:+ quoted "alg" +:+ ":" +:+ quoted "HS256" +:+ "," +:+ quoted "typ" +:+ ":" +:+ quoted "JWT" +:+ "}".
Definition headerHS256 : string := b64 jose_header.

Record Claims := mkClaims { Subject : string; IssuedAt : Time; ExpiresAt : Time }.

(** [t.Unix()] and [time.Unix(s, 0)]. *)
Definition Unix (t : Time) : Z := t / Second.
Definition FromUnix (s : Z) : Time := s * Second.

(** [json.Marshal] of the payload, whose keys come in order. *)
Definition payload_json (subject : string) (iat exp : Z) : json :=
  JObj [("exp", JNum (Itoa exp)); ("iat", JNum (Itoa iat)); ("sub", JStr subject)].

(** The header, the payload and their signature. *)
Definition signed_token (secret payload : string) : string :=
  let signingInput := headerHS256 +:+ "." +:+ b64 payload in
  signingInput +:+ "." +:+ sign secret signingInput.

Definition IssueJWT (secret subject : string) (ttl : Duration) (now : Time) : result token_error string :=
  if bool_decide (secret = EmptyString) then Err ErrEmptySecret
  else
    let payload := print (payload_json subject (Unix now) (Unix (now + ttl))) in
    Ok (signed_token secret payload).

(** The structs the two parts are decoded into. *)
Definition hdr : Struct string := with_field (new id) (at_key "alg" d_string) "".

Record payload := mkPayload { p_Sub : string; p_Iat : Z; p_Exp : Z }.
Definition decode_payload : Struct payload :=
  with_field (with_field (with_field (new mkPayload) (at_key "sub" d_string) "") (at_key "iat" d_int) 0)
    (at_key "exp" d_int) 0.

(** [base64.RawURLEncoding.DecodeString] and [json.Unmarshal] of one part. *)
Definition decode_part {S} (d : Struct S) (part : string) : option S :=
  match b64url_decode part with
  | None => None
  | Some b => match Unmarshal d (string_of b) with (s, true) => Some s | (_, false) => None end
  end.

Definition no_claims : Claims := mkClaims "" 0 0.

(** The claims and the error of [ParseJWT]. *)
Definition ParseJWT (secret token : string) (now : Time) : Claims * option token_error :=
  match Split "." token with
  | [h; p; sg] =>
      let signingInput := h +:+ "." +:+ p in
      if negb (bool_decide (sign secret signingInput = sg)) then (no_claims, Some ErrTokenInvalid)
      else match decode_part hdr h with
           | None => (no_claims, Some ErrTokenInvalid)
           | Some alg =>
               if negb (bool_decide (alg = "HS256")) then (no_claims, Some ErrTokenInvalid)
               else match decode_part decode_payload p with
                    | None => (no_claims, Some ErrTokenInvalid)
                    | Some pl =>
                        let c := mkClaims (p_Sub pl) (FromUnix (p_Iat pl)) (FromUnix (p_Exp pl)) in
                        if (0 <? p_Exp pl) && (p_Exp pl <=? Unix now) then (c, Some ErrTokenExpired)
                        else (c, None)
                    end
           end
  | _ => (no_claims, Some ErrTokenInvalid)
  end.

(** ** The parts of an issued token *)

Lemma decode_part_b64 {S} (d : Struct S) s x : Unmarshal d s = (x, true) -> decode_part d (b64 s) = Some x.
Proof.
  intros Hu. unfold decode_part, b64. rewrite b64url_decode_encode by apply bytes_of_bytes.
  by rewrite string_of_bytes_of, Hu.
Qed.

Lemma decode_header : decode_part hdr headerHS256 = Some "HS256".
Proof. apply decode_part_b64. vm_compute. reflexivity. Qed.

(** The payload object, assigned to its struct. *)
Lemma decode_payload_value sub iat exp :
  decode_payload (JObj [("exp", JNum exp); ("iat", JNum iat); ("sub", JStr sub)]) =
  let '(i, ok1) := d_int (JNum iat) 0 in let '(e, ok2) := d_int (JNum exp) 0 in
  (mkPayload sub i e, ok1 && ok2).
Proof.
  unfold decode_payload, with_field, new.
  rewrite (at_key_found "sub" _ _ "sub" (JStr sub)), (at_key_found "iat" _ _ "iat" (JNum iat)),
    (at_key_found "exp" _ _ "exp" (JNum exp)) by reflexivity. cbn [d_string].
  by destruct (d_int (JNum iat) 0), (d_int (JNum exp) 0).
Qed.

Lemma decode_issued_payload subject iat exp :
  - 2 ^ 63 <= iat < 2 ^ 63 -> - 2 ^ 63 <= exp < 2 ^ 63 ->
  decode_part decode_payload (b64 (print (payload_json subject iat exp))) =
  Some (mkPayload (to_valid subject) iat exp).
Proof.
  intros Hi He. apply decode_part_b64. unfold Unmarshal. rewrite parse_print.
  - change (valid_json (payload_json subject iat exp)) with
      (JObj [("exp", JNum (Itoa exp)); ("iat", JNum (Itoa iat)); ("sub", JStr (to_valid subject))]).
    rewrite decode_payload_value. unfold d_int. by rewrite !int_lit_Itoa.
  - cbn. auto using Itoa_number.
  - by vm_compute.
Qed.

Lemma sign_no_dot secret msg : has_char "." (sign secret msg) = false.
Proof. apply b64url_no_dot, Sum256_bytes. Qed.

Lemma b64_no_dot s : has_char "." (b64 s) = false.
Proof. apply b64url_no_dot, bytes_of_bytes. Qed.

Lemma Split_token h p sg :
  has_char "." h = false -> has_char "." p = false -> has_char "." sg = false ->
  Split "." ((h +:+ "." +:+ p) +:+ "." +:+ sg) = [h; p; sg].
Proof.
  intros Hh Hp Hs. rewrite <- !string_app_assoc.
  change (Split "." (h +:+ String "." (p +:+ String "." sg)) = [h; p; sg]).
  by rewrite !Split_app, Split_no_sep.
Qed.

(** [strings.Split] takes a token apart without loss. *)
Lemma Split_Join_inv sep s : Join (Split sep s) (String sep EmptyString) = s.
Proof.
  induction s as [|c s IH]; [done|]. cbn [Split]. destruct (char_eqb c sep) eqn:E.
  - apply char_eqb_eq in E as ->. pose proof (Split_not_nil sep s) as Hn.
    destruct (Split sep s) as [|w ws]; [done|]. rewrite Join_cons, IH. done.
  - pose proof (Split_not_nil sep s) as Hn. destruct (Split sep s) as [|w ws]; [done|].
    rewrite <- IH. by destruct ws.
Qed.

(** What is read from a token that was signed here. *)
Lemma ParseJWT_signed secret subject iat exp now :
  - 2 ^ 63 <= iat < 2 ^ 63 -> - 2 ^ 63 <= exp < 2 ^ 63 ->
  ParseJWT secret (signed_token secret (print (payload_json subject iat exp))) now =
    (mkClaims (to_valid subject) (FromUnix iat) (FromUnix exp),
     if (0 <? exp) && (exp <=? Unix now) then Some ErrTokenExpired else None).
Proof.
  intros Hi He. unfold ParseJWT, signed_token. cbv zeta.
  rewrite Split_token by (apply b64_no_dot || apply sign_no_dot).
  rewrite bool_decide_true by done. cbn [negb]. rewrite decode_header, bool_decide_true by done. cbn [negb].
  rewrite decode_issued_payload by done. cbn [p_Sub p_Iat p_Exp]. by destruct (_ && _).
Qed.

Lemma IssueJWT_signed secret subject ttl now tok :
  IssueJWT secret subject ttl now = Ok tok ->
  tok = signed_token secret (print (payload_json subject (Unix now) (Unix (now + ttl)))).
Proof. unfold IssueJWT. case_bool_decide; [done|]. congruence. Qed.

(** A configured secret signs every token. *)
Lemma IssueJWT_total secret subject ttl now : secret <> EmptyString -> exists tok, IssueJWT secret subject ttl now = Ok tok.
Proof. intros Hs. unfold IssueJWT. rewrite bool_decide_false by done. eauto. Qed.

(** ** What the two functions promise *)

(** C23: a token issued for a subject is read back with the subject, the time of issue and
    the expiry, to the second; it is refused as expired from the second of its expiry on. *)
Theorem IssueJWT_ParseJWT secret subject ttl now now' tok :
  - 2 ^ 63 <= Unix now < 2 ^ 63 -> - 2 ^ 63 <= Unix (now + ttl) < 2 ^ 63 ->
  IssueJWT secret subject ttl now = Ok tok ->
  ParseJWT secret tok now' =
    (mkClaims (to_valid subject) (FromUnix (Unix now)) (FromUnix (Unix (now + ttl))),
     if (0 <? Unix (now + ttl)) && (Unix (now + ttl) <=? Unix now') then Some ErrTokenExpired else None).
Proof. intros Hi He ->%IssueJWT_signed. by apply ParseJWT_signed. Qed.

(** C22: a token is accepted exactly when it is two parts followed by their signature, the
    first part pins the algorithm, the second is a payload, and its expiry has not come. *)
Theorem ParseJWT_accepts secret tok now c :
  ParseJWT secret tok now = (c, None) <->
  exists h p pl,
    Split "." tok = [h; p; sign secret (h +:+ "." +:+ p)] /\
    decode_part hdr h = Some "HS256" /\
    decode_part decode_payload p = Some pl /\
    (0 < p_Exp pl -> Unix now < p_Exp pl) /\
    c = mkClaims (p_Sub pl) (FromUnix (p_Iat pl)) (FromUnix (p_Exp pl)).
Proof.
  unfold ParseJWT. split.
  - destruct (Split "." tok) as [|h [|p [|sg [|]]]]; try done. case_bool_decide as Hs; [|done]. cbn [negb].
    destruct (decode_part hdr h) as [alg|] eqn:Eh; [|done]. case_bool_decide as Ha; [|done]. cbn [negb].
    destruct (decode_part decode_payload p) as [pl|] eqn:Ep; [|done]. cbv zeta.
    destruct ((0 <? p_Exp pl) && (p_Exp pl <=? Unix now)) eqn:E; [done|]. intros Hc. injection Hc as <-. subst.
    exists h, p, pl. splits; try done. intros Hp. apply andb_false_iff in E as [E|E]; to_prop; lia.
  - intros (h & p & pl & -> & -> & -> & He & ->). rewrite !bool_decide_true by done. cbn [negb]. cbv zeta.
    replace ((0 <? p_Exp pl) && (p_Exp pl <=? Unix now)) with false; [done|]. symmetry.
    apply andb_false_iff. destruct (Z.lt_ge_cases 0 (p_Exp pl)); [right; apply Z.leb_gt; auto|left; by apply Z.ltb_ge].
Qed.

Lemma IssueJWT_ParseJWT_witness :
  let now := 1700000000 * Second in
  exists tok, IssueJWT "secret" "user-1" (15 * Minute) now = Ok tok /\
    ParseJWT "secret" tok (now + Minute) =
      (mkClaims "user-1" now (now + 15 * Minute), None) /\
    (ParseJWT "secret" tok (now + 15 * Minute)).2 = Some ErrTokenExpired.
Proof.
  intros now. eexists. split; [reflexivity|]. split.
  - rewrite (IssueJWT_ParseJWT "secret" "user-1" (15 * Minute) now _ _); [reflexivity|by vm_compute..|reflexivity].
  - rewrite (IssueJWT_ParseJWT "secret" "user-1" (15 * Minute) now _ _); [reflexivity|by vm_compute..|reflexivity].
Defined.
