(* ===== verification/Ratelimit.v ===== *)
(** The per-key limiter: [control-plane/internal/ratelimit/ratelimit.go]. The token
    bucket of one key is [golang.org/x/time/rate], a parameter. *)
From S2P Require Import Prelude Model GoStrings.

(** [rate.Every], [rate.NewLimiter] and [limiter.AllowN(t, 1)]. *)
Class Rate := {
  Limit : Type;
  bucket : Type;
  Every : Duration -> Limit;
  NewLimiter : Limit -> Z -> bucket;
  AllowAt : Time -> bucket -> bool * bucket
}.

(** The verdicts of a bucket on a sequence of events. *)
Fixpoint verdicts `{Rate} (ts : list Time) (b : bucket) : list bool :=
  match ts with
  | [] => []
  | t :: ts' => let '(ok, b') := AllowAt t b in ok :: verdicts ts' b'
  end.

(** Two buckets no event from [t] on tells apart. *)
Definition same_from `{Rate} (t : Time) (b1 b2 : bucket) : Prop :=
  forall ts, Forall (fun u => t <= u) ts -> verdicts ts b1 = verdicts ts b2.

(** What the package documents: a bucket of [burst] tokens, full at first, refilled by
    a token every [Every]'s interval. So it holds [burst] events at once, and a bucket
    left alone for the time of [burst] tokens is full again. *)
Class RateLaws `{Rate} : Prop := {
  burst_allowed : forall d n ts t, Forall (eq t) ts -> Z.of_nat (length ts) <= n ->
    Forall (eq true) (verdicts ts (NewLimiter (Every d) n));
  refilled : forall d n ts t t', 0 < d -> 1 <= n -> Forall (fun u => u <= t) ts -> t + n * d <= t' ->
    same_from t' (foldl (fun b u => (AllowAt u b).2) (NewLimiter (Every d) n) ts) (NewLimiter (Every d) n)
}.

Section limiter.
Context `{Rate}.

Record visitor := mkVisitor { limiter : bucket; lastSeen : Time }.

Record Limiter := mkLimiter {
  visitors : gmap string visitor;
  rate : Limit;
  burst : Z;
  ttl : Duration
}.

(** [max], and [time.Minute / time.Duration(n)]. *)
Definition max (a b : Z) : Z := if b <? a then a else b.
Definition interval (perMinute : Z) : Duration := Z.quot Minute (max perMinute 1).

Definition New (perMinute b : Z) : Limiter :=
  mkLimiter ∅ (Every (interval perMinute)) (max b 1) (10 * Minute).

Definition Allow (key : string) (now : Time) (l : Limiter) : bool * Limiter :=
  let v := match visitors l !! key with
           | Some v => v
           | None => mkVisitor (NewLimiter (rate l) (burst l)) 0
           end in
  let '(ok, b) := AllowAt now (limiter v) in
  (ok, mkLimiter (<[key := mkVisitor b now]> (visitors l)) (rate l) (burst l) (ttl l)).

Definition Cleanup (now : Time) (l : Limiter) : Limiter :=
  mkLimiter (filter (fun kv => ~ (lastSeen kv.2 < now - ttl l)) (visitors l)) (rate l) (burst l) (ttl l).

(** A use of the limiter: a request of a client, or the periodic sweep. *)
Inductive use := allow (key : string) | sweep.

(** The uses in order of time, with the verdicts of the requests. *)
Fixpoint uses (us : list (Time * use)) (l : Limiter) : list (string * bool) :=
  match us with
  | [] => []
  | (t, allow k) :: us' => let '(ok, l') := Allow k t l in (k, ok) :: uses us' l'
  | (t, sweep) :: us' => uses us' (Cleanup t l)
  end.

(** ** The specification: one bucket per client *)

(** The instants of one client's requests. *)
Definition times_of (k : string) (us : list (Time * use)) : list Time :=
  omap (fun '(t, u) => match u with allow k' => if bool_decide (k' = k) then Some t else None | sweep => None end) us.

(** The verdicts one client got. *)
Definition verdicts_of (k : string) (vs : list (string * bool)) : list bool :=
  omap (fun '(k', ok) => if bool_decide (k' = k) then Some ok else None) vs.

Definition in_order (us : list (Time * use)) : Prop := StronglySorted (fun a b => a.1 <= b.1) us.

(** The bucket of a client after its requests, as if nothing were ever evicted. *)
Definition ideal (d : Duration) (n : Z) (hist : list Time) : bucket :=
  foldl (fun b u => (AllowAt u b).2) (NewLimiter (Every d) n) hist.

(** ** Buckets no later event tells apart *)

Lemma same_from_refl t b : same_from t b b.
Proof. by intros ts _. Qed.

Lemma same_from_sym t b1 b2 : same_from t b1 b2 -> same_from t b2 b1.
Proof. intros Hb ts Hts. symmetry. auto. Qed.

Lemma same_from_later t t' b1 b2 : t <= t' -> same_from t b1 b2 -> same_from t' b1 b2.
Proof. intros Ht Hb ts Hts. apply Hb. eapply Forall_impl; [exact Hts|]. simpl. lia. Qed.

Lemma same_from_allow t u b1 b2 :
  t <= u -> same_from t b1 b2 ->
  (AllowAt u b1).1 = (AllowAt u b2).1 /\ same_from u (AllowAt u b1).2 (AllowAt u b2).2.
Proof.
  intros Hu Hb.
  assert (Hall : forall ts, Forall (fun x => u <= x) ts ->
    (AllowAt u b1).1 = (AllowAt u b2).1 /\ verdicts ts (AllowAt u b1).2 = verdicts ts (AllowAt u b2).2).
  { intros ts Hts. specialize (Hb (u :: ts)). cbn [verdicts] in Hb.
    destruct (AllowAt u b1), (AllowAt u b2). cbn [fst snd].
    assert (E := Hb ltac:(constructor; [done|eapply Forall_impl; [exact Hts|]; simpl; lia])).
    by injection E. }
  split; [by apply (Hall [])|]. intros ts Hts. by apply Hall.
Qed.

Lemma verdicts_same t b1 b2 ts : same_from t b1 b2 -> Forall (fun u => t <= u) ts -> verdicts ts b1 = verdicts ts b2.
Proof. auto. Qed.

(** ** One client among the others *)

Section one_client.
Context `{!RateLaws} (k : string) (d : Duration) (n : Z).
Hypothesis d_pos : 0 < d.
Hypothesis n_pos : 1 <= n.

(** At [t], the limiter's bucket for [k] is as good as the ideal one. *)
Definition tracks (l : Limiter) (hist : list Time) (t : Time) : Prop :=
  match visitors l !! k with
  | Some v => same_from t (limiter v) (ideal d n hist) /\ Forall (fun u => u <= lastSeen v) hist
  | None => same_from t (NewLimiter (Every d) n) (ideal d n hist)
  end.

Definition configured (l : Limiter) : Prop := rate l = Every d /\ burst l = n /\ n * d <= ttl l.

Lemma ideal_app hist t : ideal d n (hist ++ [t]) = (AllowAt t (ideal d n hist)).2.
Proof. unfold ideal. by rewrite foldl_app. Qed.

Lemma tracks_later l hist t t' : t <= t' -> tracks l hist t -> tracks l hist t'.
Proof.
  intros Ht. unfold tracks. destruct (visitors l !! k) as [v|].
  - intros [? ?]. eauto using same_from_later.
  - eauto using same_from_later.
Qed.

Lemma tracks_allow l hist t :
  configured l -> tracks l hist t -> Forall (fun u => u <= t) hist ->
  (Allow k t l).1 = (AllowAt t (ideal d n hist)).1 /\ tracks (Allow k t l).2 (hist ++ [t]) t.
Proof.
  intros (Hr & Hn & _) Ht Hh. unfold Allow, tracks in *. rewrite Hr, Hn, ideal_app.
  set (v := match visitors l !! k with Some v => v | None => _ end).
  assert (Hv : same_from t (limiter v) (ideal d n hist)).
  { unfold v. destruct (visitors l !! k); [by destruct Ht|done]. }
  destruct (same_from_allow t t _ _ ltac:(lia) Hv) as [H1 H2].
  destruct (AllowAt t (limiter v)) as [ok b]. cbn [fst snd visitors] in *.
  rewrite lookup_insert_eq. cbn [limiter lastSeen]. splits; [done|done|].
  apply Forall_app. split; [done|by repeat constructor].
Qed.

Lemma tracks_other l hist t k' : k' <> k -> tracks l hist t -> tracks (Allow k' t l).2 hist t.
Proof.
  intros Hne. unfold Allow, tracks. destruct (AllowAt _ _) as [ok b]. cbn [snd visitors].
  by rewrite lookup_insert_ne.
Qed.

Lemma tracks_sweep l hist t : configured l -> tracks l hist t -> tracks (Cleanup t l) hist t.
Proof.
  intros (_ & _ & Httl). unfold Cleanup, tracks. cbn [visitors]. rewrite map_lookup_filter.
  destruct (visitors l !! k) as [v|]; [|done]. intros [Hs Hh]. cbn [option_bind mbind].
  case_guard as Hv; [done|]. cbn [lastSeen snd] in Hv.
  apply same_from_sym. apply (refilled d n hist (lastSeen v) t); try done. lia.
Qed.

Lemma configured_allow l t k' : configured l -> configured (Allow k' t l).2.
Proof. unfold Allow, configured. by destruct (AllowAt _ _). Qed.

Lemma uses_ideal us : forall l hist t,
  configured l -> tracks l hist t -> Forall (fun u => u <= t) hist ->
  in_order us -> Forall (fun x => t <= x.1) us ->
  verdicts_of k (uses us l) = verdicts (times_of k us) (ideal d n hist).
Proof.
  induction us as [|[t' u] us IH]; intros l hist t Hc Ht Hh Ho Hus; [done|].
  apply Forall_cons in Hus as [Htt' Hus]. cbn [fst] in Htt'.
  apply StronglySorted_inv in Ho as [Ho Hle]. cbn [fst] in Hle.
  assert (Hh' : Forall (fun u => u <= t') hist) by (eapply Forall_impl; [exact Hh|]; simpl; lia).
  apply (tracks_later _ _ _ t') in Ht; [|done].
  destruct u as [k'|]; cbn [uses].
  - destruct (Allow k' t' l) as [ok l'] eqn:E. unfold verdicts_of, times_of. csimpl.
    assert (Hc' := configured_allow l t' k' Hc). rewrite E in Hc'. cbn [snd] in Hc'.
    case_bool_decide as Hk.
    + subst k'. destruct (tracks_allow l hist t' Hc Ht Hh') as [Hok Ht']. rewrite E in Hok, Ht'. cbn [fst snd] in *.
      cbn [verdicts]. rewrite (surjective_pairing (AllowAt t' (ideal d n hist))), <- Hok, <- ideal_app. f_equal.
      apply (IH l' (hist ++ [t']) t'); try done. apply Forall_app. split; [done|by repeat constructor].
    + apply (IH l' hist t'); try done. pose proof (tracks_other l hist t' k' Hk Ht) as Ho'. by rewrite E in Ho'.
  - apply (IH (Cleanup t' l) hist t'); try done. by apply tracks_sweep.
Qed.

End one_client.

(** C25: the limiter keeps one bucket per client: the verdicts a client gets are those of
    a token bucket that sees the client's own requests, whatever the other clients do and
    whenever the sweep runs, as long as a bucket refills within the ten minutes after which
    an idle one is evicted. *)
Theorem limiter_refines_buckets `{!RateLaws} perMinute b k us :
  perMinute <= Minute -> max b 1 * interval perMinute <= 10 * Minute -> in_order us ->
  verdicts_of k (uses us (New perMinute b)) =
  verdicts (times_of k us) (NewLimiter (Every (interval perMinute)) (max b 1)).
Proof.
  intros Hp Hb Ho.
  assert (Hmax : forall z, 1 <= max z 1 /\ z <= max z 1 /\ (max z 1 = z \/ max z 1 = 1)).
  { intros z. unfold max. destruct (1 <? z) eqn:E; to_prop; lia. }
  destruct us as [|[t u] us]; [done|].
  change (NewLimiter (Every (interval perMinute)) (max b 1)) with (ideal (interval perMinute) (max b 1) []).
  apply (uses_ideal k (interval perMinute) (max b 1)) with (t := t); try done.
  - unfold interval. destruct (Hmax perMinute) as (H1 & _ & Hm). unfold Minute, Second in *.
    rewrite Z.quot_div_nonneg by lia. apply Z.div_str_pos. lia.
  - apply Hmax.
  - unfold tracks, New. cbn [visitors]. rewrite lookup_empty. apply same_from_refl.
  - apply StronglySorted_inv in Ho as [_ Ho]. constructor; [simpl; lia|done].
Qed.

End limiter.

(** ** A bucket to evaluate on: credit in nanoseconds, and the last refill *)

Record toy_bucket := mkToy { tb_d : Z; tb_n : Z; tb_credit : Z; tb_last : option Time }.

Definition toy_credit (t : Time) (b : toy_bucket) : Z :=
  match tb_last b with
  | None => tb_credit b
  | Some u => Z.min (tb_n b * tb_d b) (tb_credit b + Z.max 0 (t - u))
  end.

Definition toy_allow (t : Time) (b : toy_bucket) : bool * toy_bucket :=
  if tb_d b <=? toy_credit t b
  then (true, mkToy (tb_d b) (tb_n b) (toy_credit t b - Z.max 0 (tb_d b)) (Some t))
  else (false, mkToy (tb_d b) (tb_n b) (toy_credit t b) (Some t)).

Definition toy_rate : Rate := {|
  Limit := Z;
  bucket := toy_bucket;
  Every d := Z.max 0 d;
  NewLimiter d n := mkToy d n (n * d) None;
  AllowAt := toy_allow
|}.

Lemma toy_burst d n ts t b :
  0 <= d -> Forall (eq t) ts -> tb_d b = d -> tb_n b = n -> (tb_last b = None \/ tb_last b = Some t) ->
  Z.of_nat (length ts) * d <= tb_credit b <= n * d ->
  Forall (eq true) (@verdicts toy_rate ts b).
Proof.
  intros Hd Hts. revert b. induction Hts as [|x ts <- Hts IH]; intros b Ed En Hl Hc; [constructor|].
  assert (Ec : toy_credit t b = tb_credit b).
  { unfold toy_credit. destruct Hl as [-> | ->]; [done|]. rewrite En, Ed. lia. }
  cbn [verdicts AllowAt toy_rate]. unfold toy_allow. rewrite Ec, Ed.
  cbn [length] in Hc. rewrite Nat2Z.inj_succ in Hc. rewrite (proj2 (Z.leb_le _ _)) by nia.
  constructor; [done|]. apply IH; cbn; auto. nia.
Qed.

(** What a toy bucket looks like after events up to [t]. *)
Definition toy_state (d n t : Z) (b : toy_bucket) : Prop :=
  tb_d b = d /\ tb_n b = n /\
  match tb_last b with None => tb_credit b = n * d | Some u => u <= t /\ 0 <= tb_credit b end.

Lemma toy_allow_state d n t u b :
  0 <= d -> 0 <= n -> u <= t -> toy_state d n t b -> toy_state d n t (toy_allow u b).2.
Proof.
  intros Hd Hn Hu (Ed & En & Hl). unfold toy_allow, toy_state.
  assert (Hc : 0 <= toy_credit u b).
  { unfold toy_credit. rewrite Ed, En. destruct (tb_last b); nia. }
  rewrite Ed. destruct (_ <=? _) eqn:E; to_prop; cbn [snd tb_d tb_n tb_last tb_credit]; splits; auto. lia.
Qed.

Lemma toy_full d n t t' b : 0 <= d -> 0 <= n -> toy_state d n t b -> t + n * d <= t' -> toy_credit t' b = n * d.
Proof.
  intros Hd Hn (Ed & En & Hl) Ht. unfold toy_credit. rewrite En, Ed. destruct (tb_last b); [|done]. nia.
Qed.

Lemma toy_allow_full d n t t' b :
  0 <= d -> 0 <= n -> toy_state d n t b -> t + n * d <= t' ->
  toy_allow t' b = toy_allow t' (mkToy d n (n * d) None).
Proof.
  intros Hd Hn Hs Ht. unfold toy_allow. rewrite (toy_full d n t t' b) by done.
  destruct Hs as (-> & -> & _). done.
Qed.

Lemma verdicts_head `{Rate} t ts b1 b2 :
  AllowAt t b1 = AllowAt t b2 -> verdicts (t :: ts) b1 = verdicts (t :: ts) b2.
Proof. cbn [verdicts]. by intros ->. Qed.

#[export] Instance toy_rate_laws : @RateLaws toy_rate.
Proof.
  split.
  - intros d n ts t Hts Hn. apply (toy_burst (Z.max 0 d) n ts t); cbn; auto; nia.
  - intros d n ts t t' Hd Hn Hts Ht' us Hus. cbn [NewLimiter Every toy_rate bucket AllowAt] in *.
    rewrite Z.max_r by lia. destruct us as [|u us]; [done|]. apply Forall_cons in Hus as [Hu _].
    assert (Hs : toy_state d n t (foldl (fun b u => (toy_allow u b).2) (mkToy d n (n * d) None) ts)).
    { assert (Hs : toy_state d n t (mkToy d n (n * d) None)) by done. revert Hs.
      generalize (mkToy d n (n * d) None). induction Hts as [|x ts Hx Hts IH]; intros b Hs; [done|].
      cbn [foldl]. apply IH. apply toy_allow_state; lia || done. }
    apply verdicts_head. apply (toy_allow_full d n t u); try lia. exact Hs.
Qed.

Lemma limiter_refines_buckets_witness :
  let us := [(0, allow "a"); (1, allow "b"); (2, allow "a"); (11 * Minute, sweep); (11 * Minute, allow "a")] in
  @verdicts_of "a" (@uses toy_rate us (@New toy_rate 10 1)) = [true; false; true].
Proof.
  intros us. etransitivity.
  - apply (@limiter_refines_buckets toy_rate toy_rate_laws 10 1 "a" us).
    + by vm_compute.
    + by vm_compute.
    + repeat (constructor; [|repeat constructor; by vm_compute]). constructor.
  - vm_compute. reflexivity.
Defined.
