(* ===== verification/Http.v ===== *)
(** Requests and replies of the control plane's HTTP surface, and the helpers of
    [control-plane/internal/api/server.go] and [handlers.go] that read the one and write
    the other. Of [net/http] a request keeps what the handlers look at. *)
From S2P Require Import Prelude Floats Model GoStrings NetAddr Json.

Record Request := mkRequest {
  rq_Method : string;
  rq_Path : list string;           (* the path's segments, unescaped *)
  rq_RemoteAddr : string;
  rq_Authorization : string;       (* Header.Get: "" when absent *)
  rq_XForwardedFor : string;
  rq_Body : string
}.

(** What is written to the client: [Text] is a reply of [net/http] itself. *)
Inductive body := NoBody | Text (s : string) | Json (v : json).

Record Reply := mkReply { status : Z; content : body }.

Definition StatusOK := 200.
Definition StatusCreated := 201.
Definition StatusNoContent := 204.
Definition StatusBadRequest := 400.
Definition StatusUnauthorized := 401.
Definition StatusForbidden := 403.
Definition StatusNotFound := 404.
Definition StatusMethodNotAllowed := 405.
Definition StatusConflict := 409.
Definition StatusTooManyRequests := 429.
Definition StatusInternalServerError := 500.
Definition StatusServiceUnavailable := 503.

(** [writeJSON]; the encoder writes nothing for a value that has no text. *)
Definition writeJSON (code : Z) (v : option json) : Reply :=
  mkReply code (match v with Some v => Json v | None => NoBody end).

Definition writeError (code : Z) (msg : string) : Reply :=
  writeJSON code (Some (JObj [("error", JStr msg)])).

(** [w.WriteHeader(code)] alone. *)
Definition WriteHeader (code : Z) : Reply := mkReply code NoBody.

(** [http.NotFound] *)
Definition NotFound : Reply := mkReply StatusNotFound (Text ("404 page not found" +:+ newline)).

(** The bytes after the headers: the encoder ends a value with a line end. *)
Definition body_text (b : body) : string :=
  match b with NoBody => EmptyString | Text s => s | Json v => print v +:+ newline end.

(** [strings.EqualFold] of two texts of which one has no letter that folds outside
    ASCII. *)
Definition map_string (f : ascii -> ascii) (s : string) : string :=
  Stdlib.Strings.String.string_of_list_ascii (f <$> Stdlib.Strings.String.list_ascii_of_string s).
Definition EqualFold (a b : string) : bool := bool_decide (map_string upper a = map_string upper b).

Definition prefix_Bearer : string := "Bearer ".

Definition bearerToken (r : Request) : string :=
  let h := rq_Authorization r in
  let n := String.length prefix_Bearer in
  if (n <? String.length h)%nat && EqualFold (str_take n h) prefix_Bearer
  then TrimSpace (str_drop n h)
  else EmptyString.

(** [subtle.ConstantTimeCompare(a, b) == 1] *)
Definition constEq (a b : string) : bool := bool_decide (a = b).

(** [strings.LastIndexByte]: the text before and after the last occurrence. *)
Fixpoint cut_last (sep : ascii) (s : string) : option (string * string) :=
  match s with
  | EmptyString => None
  | String c s' =>
      match cut_last sep s' with
      | Some (a, b) => Some (String c a, b)
      | None => if char_eqb c sep then Some (EmptyString, s') else None
      end
  end.

(** [net.SplitHostPort] *)
Definition SplitHostPort (hostport : string) : option (string * string) :=
  match cut_last ":" hostport with
  | None => None
  | Some (before, port) =>
      match cut_prefix "[" hostport with
      | Some s1 =>
          match Cut "]" s1 with
          | None => None
          | Some (host, rest) =>
              if bool_decide (rest = String ":" port) && negb (has_char "[" s1) && negb (has_char "]" rest)
              then Some (host, port) else None
          end
      | None =>
          if has_char ":" before || has_char "[" hostport || has_char "]" hostport then None
          else Some (before, port)
      end
  end.

(** [clientIP]; [trustProxy] is [s.cfg.TrustProxy]. *)
Definition clientIP (trustProxy : bool) (r : Request) : string :=
  let remote := match SplitHostPort (rq_RemoteAddr r) with Some (host, _) => host | None => rq_RemoteAddr r end in
  if trustProxy && negb (bool_decide (rq_XForwardedFor r = EmptyString))
  then TrimSpace (hd EmptyString (Split "," (rq_XForwardedFor r)))
  else remote.

(** ** Fields of JSON objects *)

Definition str_field (k v : string) : list (string * json) := [(k, JStr v)].
Definition int_field (k : string) (n : Z) : list (string * json) := [(k, JNum (Itoa n))].
(** [omitempty] *)
Definition str_field_opt (k v : string) : list (string * json) :=
  if bool_decide (v = EmptyString) then [] else [(k, JStr v)].
Definition int_field_opt (k : string) (n : Z) : list (string * json) :=
  if n =? 0 then [] else [(k, JNum (Itoa n))].
Definition ptr_field_opt (k : string) (v : option string) : list (string * json) :=
  match v with Some s => [(k, JStr s)] | None => [] end.
Definition strings_json (l : list string) : json := JArr (JStr <$> l).

Example SplitHostPort_examples :
  SplitHostPort "10.0.0.1:5000" = Some ("10.0.0.1", "5000") /\
  SplitHostPort "[::1]:80" = Some ("::1", "80") /\
  SplitHostPort "::1" = None /\ SplitHostPort "[::1]" = None /\ SplitHostPort "h" = None.
Proof. vm_compute. repeat split. Qed.

Example bearerToken_example :
  bearerToken (mkRequest "GET" [] "" "bearer  tok " "" "") = "tok".
Proof. vm_compute. reflexivity. Qed.
