(* ===== verification/Agent.v ===== *)
(** The gateway's agent: its client of the control plane ([agent/internal/cp/client.go]),
    the address of its latency probe ([agent/internal/probe/probe.go]) and its main
    program ([agent/cmd/aevora-agent/main.go]). *)
From S2P Require Import Prelude Floats Model GoStrings NetAddr Json GoTime Strconv Http Reconcile Wireguard Sysload.

(** The errors, by where they come from; [refused] carries its text. *)
Inductive agent_error :=
| wg_failed
| marshal_failed
| unreachable
| refused (text : string)
| bad_body
| empty_node_token
| bad_network.

(** A request of the client, and the reply it reads. *)
Record ClientRequest := mkClientRequest {
  cq_Method : string;
  cq_URL : string;
  cq_Authorization : string;      (* "" when the header is not set *)
  cq_Body : string
}.
Record ClientReply := mkClientReply { cr_StatusCode : Z; cr_Status : string; cr_Body : string }.

(** ** The client *)

(** [strings.TrimRight(s, "/")] *)
Fixpoint TrimRight_slash (s : string) : string :=
  match s with
  | EmptyString => EmptyString
  | String c s' =>
      match TrimRight_slash s' with
      | EmptyString => if bool_decide (c = "/"%char) then EmptyString else String c EmptyString
      | t => String c t
      end
  end.

Record Client := mkClient { base : string }.
Definition NewClient (baseURL : string) : Client := mkClient (TrimRight_slash baseURL).

Record Registration := mkRegistration {
  r_Name : string;
  r_CountryCode : string;
  r_CountryName : string;
  r_City : string;
  r_Region : string;
  r_EndpointHost : string;
  r_EndpointPort : Z;
  r_PublicKey : string;
  r_WGSubnetV4 : string;
  r_WGSubnetV6 : string;
  r_Capacity : Z;
  r_BandwidthMbps : Z;
  r_Latitude : option float64;
  r_Longitude : option float64
}.

Record Metrics := mkMetrics { ActivePeers : Z; m_CPU : float64; m_Rx : Z; m_Tx : Z }.

(** A float that is a member of an object; [None] when it has no JSON text. *)
Definition float_member (k : string) (f : float64) : option (list (string * json)) :=
  (fun t => [(k, JNum t)]) <$> FormatFloat f.
Definition float_member_opt (k : string) (f : option float64) : option (list (string * json)) :=
  match f with Some f => float_member k f | None => Some [] end.

(** [json.Marshal] of a registration and of metrics. *)
Definition Registration_json (r : Registration) : option json :=
  float_member_opt "latitude" (r_Latitude r) ≫= fun lat =>
  float_member_opt "longitude" (r_Longitude r) ≫= fun long =>
  Some (JObj (str_field "name" (r_Name r) ++ str_field "country_code" (r_CountryCode r) ++
    str_field "country_name" (r_CountryName r) ++ str_field_opt "city" (r_City r) ++ str_field_opt "region" (r_Region r) ++
    str_field "endpoint_host" (r_EndpointHost r) ++ int_field_opt "endpoint_port" (r_EndpointPort r) ++
    str_field "public_key" (r_PublicKey r) ++ str_field "wg_subnet_v4" (r_WGSubnetV4 r) ++
    str_field_opt "wg_subnet_v6" (r_WGSubnetV6 r) ++ int_field "capacity" (r_Capacity r) ++
    int_field_opt "bandwidth_mbps" (r_BandwidthMbps r) ++ lat ++ long)).

Definition Metrics_json (m : Metrics) : option json :=
  float_member "cpu_pct" (m_CPU m) ≫= fun cpu =>
  Some (JObj (int_field "active_peers" (ActivePeers m) ++ cpu ++ int_field "rx_bps" (m_Rx m) ++ int_field "tx_bps" (m_Tx m))).

(** A slice: elements are decoded over those it already has, further ones from [zero]. *)
Fixpoint decode_elems {A} (d : Decoder A) (zero : A) (vs : list json) (old : list A) : list A * bool :=
  match vs with
  | [] => ([], true)
  | v :: vs' =>
      let '(x, ok) := d v (hd zero old) in
      let '(xs, oks) := decode_elems d zero vs' (tail old) in (x :: xs, ok && oks)
  end.
Definition d_slice {A} (d : Decoder A) (zero : A) : Decoder (list A) := fun v old =>
  match v with
  | JArr vs => decode_elems d zero vs old
  | JNull => ([], true)
  | _ => (old, false)
  end.

(** The structs the replies are decoded into. *)
Definition decode_node_token : Struct string := with_field (new id) (at_key "node_token" d_string) EmptyString.

Definition d_peer : Decoder Reconcile.Peer := fun v p =>
  with_field (with_field (new Reconcile.mkPeer) (at_key "public_key" d_string) (Reconcile.PublicKey p))
    (at_key "allowed_ips" (d_slice d_string EmptyString)) (AllowedIPs p) v.
Definition decode_peers : Struct (list Reconcile.Peer) :=
  with_field (new id) (at_key "peers" (d_slice d_peer (Reconcile.mkPeer EmptyString []))) [].

Section client.
Context {net : Type}.
(** [http.NewRequestWithContext] and [c.http.Do] together: [None] is an error of either. *)
Variable send : ClientRequest -> net -> option ClientReply * net.

(** [do]: the body is absent, or what [json.Marshal] makes of it. The body of a good reply
    is returned for [out]. *)
Definition do (c : Client) (method path bearer : string) (body : option (option json)) (n : net)
    : result agent_error string * net :=
  match body with
  | Some None => (Err marshal_failed, n)
  | _ =>
      let text := match body with Some (Some v) => print v | _ => EmptyString end in
      let auth := if bool_decide (bearer = EmptyString) then EmptyString else "Bearer " +:+ bearer in
      let '(resp, n') := send (mkClientRequest method (base c +:+ path) auth text) n in
      match resp with
      | None => (Err unreachable, n')
      | Some resp =>
          if (cr_StatusCode resp <? 200) || (300 <=? cr_StatusCode resp)
          then
            let msg := str_take (Z.to_nat 4096) (cr_Body resp) in
            (Err (refused (method +:+ " " +:+ path +:+ ": " +:+ cr_Status resp +:+ ": " +:+ TrimSpace msg)), n')
          else (Ok (cr_Body resp), n')
      end
  end.

(** [json.NewDecoder(resp.Body).Decode(out)], which reads as far as it has to. *)
Definition decode_into {A} (d : Struct A) (text : string) : result agent_error A :=
  match DecodeStruct d (String.length text) text with (x, true) => Ok x | (_, false) => Err bad_body end.

Definition Register (c : Client) (enrollmentSecret : string) (reg : Registration) (n : net)
    : result agent_error string * net :=
  let '(r, n') := do c "POST" "/v1/gateways/register" enrollmentSecret (Some (Registration_json reg)) n in
  (match r with
   | Ok text =>
       match decode_into decode_node_token text with
       | Ok tok => if bool_decide (tok = EmptyString) then Err empty_node_token else Ok tok
       | Err e => Err e
       | Panic => Panic
       end
   | Err e => Err e
   | Panic => Panic
   end, n').

Definition done_ (r : result agent_error string) : result agent_error () :=
  match r with Ok _ => Ok () | Err e => Err e | Panic => Panic end.

Definition Heartbeat (c : Client) (nodeToken : string) (m : Metrics) (n : net) : result agent_error () * net :=
  let '(r, n') := do c "POST" "/v1/gateways/heartbeat" nodeToken (Some (Metrics_json m)) n in (done_ r, n').

Definition Peers (c : Client) (nodeToken : string) (n : net) : result agent_error (list Reconcile.Peer) * net :=
  let '(r, n') := do c "GET" "/v1/gateways/peers" nodeToken None n in
  (match r with Ok text => decode_into decode_peers text | Err e => Err e | Panic => Panic end, n').

Definition Deregister (c : Client) (nodeToken : string) (n : net) : result agent_error () * net :=
  let '(r, n') := do c "POST" "/v1/gateways/deregister" nodeToken None n in (done_ r, n').

End client.

(** ** The latency probe *)

(** [InsideIP]: the network's address with its last byte set to 1. *)
Definition InsideIP (cidr : string) : result agent_error string :=
  match ParseCIDR cidr with
  | None => Err bad_network
  | Some n =>
      match To4 (net_IP n) with
      | Some [a; b; c; _] => Ok (IP_String (v4InV6Prefix ++ [a; b; c; 1]))
      | _ => Err bad_network
      end
  end.

(** ** The main program *)

Record config := mkConfig {
  controlURL : string;
  iface : string;
  wan : string;
  tokenFile : string;
  enrollmentSecret : string;
  syncInterval : Duration;
  probePort : Z;
  reg : Registration
}.

Section environment.
Variable env : Environ.

Definition getenv (k def : string) : string :=
  let v := Getenv env k in if bool_decide (v = EmptyString) then def else v.

Definition get_parsed {A} (parse : string -> option A) (k : string) (def : A) : A :=
  let v := Getenv env k in
  if bool_decide (v = EmptyString) then def else match parse v with Some x => x | None => def end.
Definition getint : string -> Z -> Z := get_parsed Atoi.
Definition getdur : string -> Duration -> Duration := get_parsed ParseDuration.

Definition loadConfig : config := {|
  controlURL := getenv "AEVORA_CONTROL_URL" "http://127.0.0.1:8080";
  iface := getenv "AEVORA_WG_INTERFACE" "wg0";
  wan := getenv "AEVORA_WAN_INTERFACE" "eth0";
  tokenFile := getenv "AEVORA_NODE_TOKEN_FILE" "/etc/aevora/node.token";
  enrollmentSecret := Getenv env "AEVORA_ENROLLMENT_SECRET";
  syncInterval := getdur "AEVORA_SYNC_INTERVAL" (3 * Second);
  probePort := getint "AEVORA_PROBE_PORT" 51821;
  reg := {|
    r_Name := Getenv env "AEVORA_GATEWAY_NAME";
    r_CountryCode := Getenv env "AEVORA_COUNTRY_CODE";
    r_CountryName := Getenv env "AEVORA_COUNTRY_NAME";
    r_City := Getenv env "AEVORA_CITY";
    r_Region := Getenv env "AEVORA_REGION";
    r_EndpointHost := Getenv env "AEVORA_ENDPOINT_HOST";
    r_EndpointPort := getint "AEVORA_ENDPOINT_PORT" 51820;
    r_PublicKey := EmptyString;
    r_WGSubnetV4 := Getenv env "AEVORA_WG_SUBNET_V4";
    r_WGSubnetV6 := Getenv env "AEVORA_WG_SUBNET_V6";
    r_Capacity := getint "AEVORA_CAPACITY" 250;
    r_BandwidthMbps := getint "AEVORA_BANDWIDTH_MBPS" 0;
    r_Latitude := None;
    r_Longitude := None
  |}
|}.

End environment.

Definition with_key (pub : string) (r : Registration) : Registration :=
  mkRegistration (r_Name r) (r_CountryCode r) (r_CountryName r) (r_City r) (r_Region r) (r_EndpointHost r)
    (r_EndpointPort r) pub (r_WGSubnetV4 r) (r_WGSubnetV6 r) (r_Capacity r) (r_BandwidthMbps r)
    (r_Latitude r) (r_Longitude r).

(** What the agent acts on: the interface, the network to the control plane, the meter
    and the files. *)
Record world (dev net : Type) := mkWorld {
  w_dev : dev;
  w_net : net;
  w_meter : Meter;
  w_files : gmap string string
}.
Arguments mkWorld {dev net} _ _ _ _.
Arguments w_dev {dev net} _.
Arguments w_net {dev net} _.
Arguments w_meter {dev net} _.
Arguments w_files {dev net} _.

(** What happens to a running agent: a tick, with what the meter's readers return at that
    time, or the signal to stop. *)
Inductive occurrence :=
| tick (at_time : Time) (stat : option string) (net_bytes : option (Z * Z))
| stop.

Section agent.
Context {dev net : Type}.
Variable run_wg : list string -> dev -> option string * dev.
Variable send : ClientRequest -> net -> option ClientReply * net.
Variable beyond : float64 -> Z.
(** Whether [os.WriteFile] succeeds on a path. *)
Variable writable : string -> bool.
Variables (cfg : config) (client : Client).

Abbreviation world := (world dev net).

(** [syncOnce] on a tick: heartbeat the load, then bring the peers to the desired set. *)
Definition syncOnce (t : Time) (stat : option string) (net_bytes : option (Z * Z)) (token : string) (w : world)
    : result agent_error () * world :=
  let '(peers, d1) := ListPeers run_wg (iface cfg) (w_dev w) in
  match peers with
  | None => (Err wg_failed, mkWorld d1 (w_net w) (w_meter w) (w_files w))
  | Some current =>
      let '(load, meter) := sample beyond t stat net_bytes (w_meter w) in
      let '(r, n1) := Heartbeat send client token
        (mkMetrics (Z.of_nat (length current)) (CPUPct load) (RxBps load) (TxBps load)) (w_net w) in
      match r with
      | Ok _ =>
          let '(desired, n2) := Peers send client token n1 in
          match desired with
          | Ok desired =>
              let plan := Diff current desired in
              if Empty plan then (Ok (), mkWorld d1 n2 meter (w_files w))
              else
                let '(ok, d2) := Apply run_wg (iface cfg) plan d1 in
                (if ok : bool then Ok () else Err wg_failed, mkWorld d2 n2 meter (w_files w))
          | Err e => (Err e, mkWorld d1 n2 meter (w_files w))
          | Panic => (Panic, mkWorld d1 n2 meter (w_files w))
          end
      | Err e => (Err e, mkWorld d1 n1 meter (w_files w))
      | Panic => (Panic, mkWorld d1 n1 meter (w_files w))
      end
  end.

(** [ensureRegistered]: the saved token, or a new one, saved when the file can be written. *)
Definition ensureRegistered (w : world) : result agent_error string * world :=
  match TrimSpace <$> w_files w !! tokenFile cfg with
  | Some (String _ _ as tok) => (Ok tok, w)
  | _ =>
      let '(pub, d1) := read_PublicKey run_wg (iface cfg) (w_dev w) in
      match pub with
      | None => (Err wg_failed, mkWorld d1 (w_net w) (w_meter w) (w_files w))
      | Some pub =>
          let '(r, n1) := Register send client (enrollmentSecret cfg) (with_key pub (reg cfg)) (w_net w) in
          let files := match r with
                       | Ok token => if writable (tokenFile cfg) then <[tokenFile cfg := token]> (w_files w) else w_files w
                       | _ => w_files w
                       end in
          (r, mkWorld d1 n1 (w_meter w) files)
      end
  end.

(** The loop of [run]: an error of a tick is logged; the signal deregisters and returns. *)
Fixpoint serve (token : string) (os : list occurrence) (w : world) : world :=
  match os with
  | [] => w
  | tick t stat net_bytes :: os' => serve token os' (syncOnce t stat net_bytes token w).2
  | stop :: _ =>
      let '(_, n') := Deregister send client token (w_net w) in
      mkWorld (w_dev w) n' (w_meter w) (w_files w)
  end.

(** [run] after its set-up; [time.NewTicker] panics on an interval that is not positive. *)
Definition run_agent (os : list occurrence) (w : world) : result agent_error () * world :=
  let '(r, w1) := ensureRegistered w in
  match r with
  | Err e => (Err e, w1)
  | Panic => (Panic, w1)
  | Ok token => if syncInterval cfg <=? 0 then (Panic, w1) else (Ok (), serve token os w1)
  end.

End agent.
