(* ===== verification/Db.v ===== *)
(** The data the control plane keeps in PostgreSQL (the migrations under
    [control-plane/internal/store/migrations]): the rows, the tables, and what is
    relied on of the server. *)
From S2P Require Import Prelude Floats Model NetAddr.

(** ** Rows *)

Record user_row := mkUserRow {
  u_email : string;
  u_display_name : option string;
  u_status : string;
  u_created_at : Time;
  u_password_hash : option string
}.

Record invite_row := mkInviteRow {
  i_note : option string;
  i_used_by : option string;
  i_expires_at : option Time;
  i_used_at : option Time
}.

Record device_row := mkDeviceRow {
  d_user_id : string;
  d_name : string;
  d_platform : string;
  d_public_key : string;
  d_created_at : Time;
  d_last_seen_at : option Time;
  d_revoked_at : option Time
}.

Record location_row := mkLocationRow {
  l_code : string;
  l_country_name : string;
  l_enabled : bool
}.

Record gateway_row := mkGatewayRow {
  g_location_id : string;
  g_name : string;
  g_city : option string;
  g_region : option string;
  g_public_key : string;
  g_endpoint_host : string;
  g_endpoint_port : Z;
  g_wg_subnet_v4 : string;
  g_wg_subnet_v6 : option string;
  g_capacity : Z;
  g_bandwidth_mbps : option Z;
  g_latitude : option float64;
  g_longitude : option float64;
  g_status : GatewayStatus;
  g_active_peers : Z;
  g_cpu_pct : float64;
  g_rx_bps : Z;
  g_tx_bps : Z;
  g_agent_token_hash : option string;
  g_last_heartbeat_at : option Time
}.

Inductive lease_state := Active | Released | Expired.

#[export] Instance lease_state_eq_dec : EqDecision lease_state.
Proof. solve_decision. Defined.

Record lease_row := mkLeaseRow {
  le_gateway_id : string;
  le_device_id : string;
  le_client_public_key : string;
  le_assigned_ip_v4 : string;
  le_assigned_ip_v6 : option string;
  le_state : lease_state;
  le_expires_at : Time;
  le_released_at : option Time
}.

Record token_row := mkTokenRow {
  t_device_id : string;
  t_token_hash : string;
  t_expires_at : Time;
  t_revoked_at : option Time
}.

(** The tables, by primary key. *)
Record DB := mkDB {
  users : gmap string user_row;
  invite_codes : gmap string invite_row;
  devices : gmap string device_row;
  locations : gmap string location_row;
  gateways : gmap string gateway_row;
  leases : gmap string lease_row;
  refresh_tokens : gmap string token_row
}.

Definition empty_db : DB := mkDB ∅ ∅ ∅ ∅ ∅ ∅ ∅.

(** A table as a component of [DB]. *)
Record Table (R : Type) := mkTable { get : DB -> gmap string R; put : gmap string R -> DB -> DB }.
Arguments mkTable {R} get put.
Arguments get {R} t db.
Arguments put {R} t m db.

Definition Users := mkTable users (fun x db =>
  mkDB x (invite_codes db) (devices db) (locations db) (gateways db) (leases db) (refresh_tokens db)).
Definition Invites := mkTable invite_codes (fun x db =>
  mkDB (users db) x (devices db) (locations db) (gateways db) (leases db) (refresh_tokens db)).
Definition Devices := mkTable devices (fun x db =>
  mkDB (users db) (invite_codes db) x (locations db) (gateways db) (leases db) (refresh_tokens db)).
Definition Locations := mkTable locations (fun x db =>
  mkDB (users db) (invite_codes db) (devices db) x (gateways db) (leases db) (refresh_tokens db)).
Definition Gateways := mkTable gateways (fun x db =>
  mkDB (users db) (invite_codes db) (devices db) (locations db) x (leases db) (refresh_tokens db)).
Definition Leases := mkTable leases (fun x db =>
  mkDB (users db) (invite_codes db) (devices db) (locations db) (gateways db) x (refresh_tokens db)).
Definition RefreshTokens := mkTable refresh_tokens (fun x db =>
  mkDB (users db) (invite_codes db) (devices db) (locations db) (gateways db) (leases db) x).

(** [n] fits a column of type [integer]; the driver refuses other values. *)
Definition int4 (n : Z) : bool := (- 2 ^ 31 <=? n) && (n <? 2 ^ 31).

(** The parameter is NULL or fits. *)
Definition int4_opt (n : option Z) : bool := match n with Some n => int4 n | None => true end.

(** ** What is relied on of PostgreSQL *)

(** Input and output of the column types, and the order of rows, are the
    server's. [None] is a value the server rejects. *)
Class Postgres := {
  pg_uuid : string -> option string;           (* uuid_in, as canonical text *)
  pg_cidr : string -> option string;           (* cidr_in, as text *)
  pg_inet : string -> option string;           (* inet_in *)
  pg_host : string -> string;                  (* host(inet) *)
  pg_fold : string -> string;                  (* the comparison key of citext *)
  pg_text_le : string -> string -> bool;       (* ORDER BY on a text column *)
  pg_interval : Duration -> Duration;          (* make_interval(secs => d.Seconds()) *)
  pg_rows : forall A, list A -> list A         (* the order of an unordered SELECT *)
}.
Arguments pg_rows {_ A} l.

(** The documented behaviour the theorems use, each only where it is named. *)
Class PostgresOrder `{Postgres} : Prop := {
  pg_rows_Permutation : forall A (l : list A), pg_rows l ≡ₚ l
}.

(** An IPv4 address goes through an [inet] column unchanged. *)
Class PostgresInet `{Postgres} : Prop := {
  pg_inet_host : forall ip, Forall is_byte ip -> length ip = 4%nat ->
    exists x, pg_inet (ipv4_string ip) = Some x /\ pg_host x = ipv4_string ip
}.

Lemma pg_host_of_inet `{PostgresInet} v x : pg_inet (ipv4_string (PutUint32 v)) = Some x -> pg_host x = ipv4_string (PutUint32 v).
Proof. intros Hx. destruct (pg_inet_host (PutUint32 v)) as (y & Ey & Hy); [apply PutUint32_bytes|done|]. congruence. Qed.

(** ** A server to evaluate on *)

(** Every string is a uuid, rows come in key order, networks and addresses are
    checked with the parsers of [NetAddr]. *)
Definition demo_pg : Postgres := {|
  pg_uuid s := Some s;
  pg_cidr s := match ParseCIDR s with Some _ => Some s | None => None end;
  pg_inet s := match ParseIP s with Some _ => Some s | None => None end;
  pg_host s := s;
  pg_fold s := s;
  pg_text_le := String.leb;
  pg_interval d := d;
  pg_rows A l := l
|}.

#[export] Instance demo_pg_order : @PostgresOrder demo_pg.
Proof. by split. Qed.

#[export] Instance demo_pg_inet : @PostgresInet demo_pg.
Proof.
  split. intros ip Hip Hlen. exists (ipv4_string ip). split; [|done]. simpl.
  destruct ip as [|a [|b [|c [|d [|]]]]]; try done.
  repeat match goal with Hf : Forall _ (_ :: _) |- _ => apply Forall_cons in Hf as [? Hf] end.
  by rewrite ParseIP_ipv4_string.
Qed.
