(* ===== verification/Session.v ===== *)
(** The sessions the store's operations run in, the monad they are written in, and
    the Hoare triples their theorems are proved with.

    One call of a store operation sees one reading of the server's clock and one of
    the process's, one list of outcomes of its round trips to the server, and the
    random values it draws. A statement can fail before it takes effect ([Lost]:
    a broken connection, a cancelled context, a value the server rejects) or after
    it ([Late]: the reply was lost); a transaction that does not commit leaves the
    tables as they were. *)
From S2P Require Import Prelude Model GoStrings Crypto Alloc Db.

Record Clock := mkClock {
  now : Time;        (* now() in a statement *)
  time_Now : Time    (* time.Now() in the process *)
}.

Inductive fault := Fine | Lost | Late.

Record session := mkSession {
  s_db : DB;
  s_faults : list fault;      (* outcomes of the next round trips; then all fine *)
  s_uuids : list string;      (* values of the next gen_random_uuid() *)
  s_rand : list (list Z)      (* the next 32-byte reads of crypto/rand *)
}.

Definition with_db (db : DB) (s : session) : session := mkSession db (s_faults s) (s_uuids s) (s_rand s).

(** An operation: from the clock and a session to a result and the session after. *)
Definition M (A : Type) : Type := Clock -> session -> result StoreError A * session.

Definition ret {A} (a : A) : M A := fun _ s => (Ok a, s).
Definition fail {A} (e : StoreError) : M A := fun _ s => (Err e, s).
Definition bind {A B} (m : M A) (k : A -> M B) : M B := fun c s =>
  match m c s with
  | (Ok a, s') => k a c s'
  | (Err e, s') => (Err e, s')
  | (Panic, s') => (Panic, s')
  end.
Definition of_result {A} (r : result StoreError A) : M A := fun _ s => (r, s).
Definition get_clock : M Clock := fun c s => (Ok c, s).
(** A call whose error the caller only logs or drops. *)
Definition try {A} (m : M A) : M (result StoreError A) := fun c s =>
  match m c s with (Panic, s') => (Panic, s') | (r, s') => (Ok r, s') end.

Notation "'let!' x := m 'in' k" := (bind m (fun x => k))
  (at level 10, x binder, m at level 100, k at level 200).
Notation "'let!' ' p := m 'in' k" := (bind m (fun p => k))
  (at level 10, p strict pattern, m at level 100, k at level 200).

(** The outcome of one round trip to the server. *)
Definition next_fault : M fault := fun _ s =>
  match s_faults s with
  | [] => (Ok Fine, s)
  | f :: fs => (Ok f, mkSession (s_db s) fs (s_uuids s) (s_rand s))
  end.

(** A statement: a partial function on the tables (an error is a rejected value or
    a violated constraint). *)
Definition stmt {A} (f : DB -> result StoreError (A * DB)) : M A :=
  let! flt := next_fault in
  fun _ s =>
    match flt, f (s_db s) with
    | Fine, Ok (a, db') => (Ok a, with_db db' s)
    | Fine, Err e => (Err e, s)
    | Fine, Panic => (Panic, s)
    | Late, Ok (_, db') => (Err ErrDB, with_db db' s)
    | _, _ => (Err ErrDB, s)
    end.

(** [SELECT]: no change of the tables. *)
Definition query {A} (f : DB -> result StoreError A) : M A :=
  stmt (fun db => match f db with Ok a => Ok (a, db) | Err e => Err e | Panic => Panic end).

(** [QueryRow(SELECT ...)]: the first row, or [pgx.ErrNoRows] as [None]. *)
Definition query_row `{Postgres} {A} (f : DB -> list A) : M (option A) :=
  query (fun db => Ok (head (pg_rows (f db)))).

(** [Query(SELECT ...)] and the loop over all its rows. *)
Definition query_all `{Postgres} {A} (f : DB -> list A) : M (list A) :=
  query (fun db => Ok (pg_rows (f db))).

(** [UPDATE ... WHERE p], with the command tag's row count. *)
Definition update {R} (t : Table R) (p : DB -> R -> bool) (f : R -> R) : M Z :=
  stmt (fun db => Ok (rows_affected (p db) (get t db), put t (update_where (p db) f (get t db)) db)).

(** [UPDATE ... WHERE id = k AND p], with the row count. *)
Definition update_row {R} (t : Table R) (k : string) (p : DB -> R -> bool) (f : R -> R) : M Z :=
  stmt (fun db => match get t db !! k with
                  | Some r => if p db r then Ok (1, put t (<[k := f r]> (get t db)) db) else Ok (0, db)
                  | None => Ok (0, db)
                  end).

(** [INSERT] of a row under a primary key; [ok] is what the other constraints of
    the table ask of the tables. *)
Definition insert_row {R} (t : Table R) (k : string) (r : R) (ok : DB -> bool) : M () :=
  stmt (fun db => match get t db !! k with
                  | Some _ => Err ErrDB
                  | None => if ok db then Ok ((), put t (<[k := r]> (get t db)) db) else Err ErrDB
                  end).

(** [pool.Begin], the body, and [tx.Commit], with the deferred [tx.Rollback]: any
    error or panic of the body restores the tables. A commit whose reply is lost
    has taken effect. *)
Definition transaction {A} (body : M A) : M A := fun c s0 =>
  match next_fault c s0 with
  | (Ok Fine, s1) =>
      match body c s1 with
      | (Ok a, s2) =>
          match next_fault c s2 with
          | (Ok Fine, s3) => (Ok a, s3)
          | (Ok Late, s3) => (Err ErrDB, s3)
          | (_, s3) => (Err ErrDB, with_db (s_db s0) s3)
          end
      | (Err e, s2) => (Err e, with_db (s_db s0) s2)
      | (Panic, s2) => (Panic, with_db (s_db s0) s2)
      end
  | (_, s1) => (Err ErrDB, s1)
  end.

(** [gen_random_uuid()] and [rand.Read]: no value left is a failure of the source. *)
Definition gen_random_uuid : M string := fun _ s =>
  match s_uuids s with
  | [] => (Err ErrDB, s)
  | u :: us => (Ok u, mkSession (s_db s) (s_faults s) us (s_rand s))
  end.

Definition rand_Read : M (list Z) := fun _ s =>
  match s_rand s with
  | [] => (Err ErrDB, s)
  | b :: bs => (Ok b, mkSession (s_db s) (s_faults s) (s_uuids s) bs)
  end.

(** A string passed for a [uuid] parameter. *)
Definition uuid_param `{Postgres} (s : string) : M string :=
  of_result (match pg_uuid s with Some u => Ok u | None => Err ErrDB end).

(** [auth.GenerateToken] and [auth.HashToken]. *)
Definition GenerateToken : M string := let! b := rand_Read in ret (b64url b).
Definition HashToken (plain : string) : string := hex_encode (Sum256 (bytes_of plain)).

(** [nilIfEmpty], [nilIfZero]: SQL NULL for a zero value. *)
Definition nilIfEmpty (s : string) : option string := if bool_decide (s = EmptyString) then None else Some s.
Definition nilIfZero (n : Z) : option Z := if n =? 0 then None else Some n.

(** ** Hoare triples: from tables with [P], the result and the tables after satisfy [Q] *)

Definition triple {A} (c : Clock) (P : DB -> Prop) (m : M A) (Q : result StoreError A -> DB -> Prop) : Prop :=
  forall s r s', P (s_db s) -> m c s = (r, s') -> Q r (s_db s').

Section triples.
Context (c : Clock).
Implicit Types (P : DB -> Prop).

Lemma triple_conseq {A} P P' (m : M A) (Q Q' : result StoreError A -> DB -> Prop) :
  triple c P' m Q' -> (forall db, P db -> P' db) -> (forall r db, Q' r db -> Q r db) -> triple c P m Q.
Proof. intros H HP HQ s r s' Hs Hm. apply HQ. eapply H; eauto. Qed.

Lemma triple_ret {A} P (a : A) Q : (forall db, P db -> Q (Ok a) db) -> triple c P (ret a) Q.
Proof. intros H s r s' Hs [= <- <-]. auto. Qed.

Lemma triple_fail {A} P e (Q : result StoreError A -> DB -> Prop) :
  (forall db, P db -> Q (Err e) db) -> triple c P (fail e) Q.
Proof. intros H s r s' Hs [= <- <-]. auto. Qed.

Lemma triple_of_result {A} P (x : result StoreError A) Q :
  (forall db, P db -> Q x db) -> triple c P (of_result x) Q.
Proof. intros H s r s' Hs [= <- <-]. auto. Qed.

Lemma triple_get_clock P Q : (forall db, P db -> Q (Ok c) db) -> triple c P get_clock Q.
Proof. intros H s r s' Hs [= <- <-]. auto. Qed.

(** The failures of the first part are failures of the whole. *)
Lemma triple_bind {A B} P R (m : M A) (k : A -> M B) Q :
  triple c P m R -> (forall a, triple c (R (Ok a)) (k a) Q) ->
  (forall e db, R (Err e) db -> Q (Err e) db) -> (forall db, R Panic db -> Q Panic db) ->
  triple c P (bind m k) Q.
Proof.
  intros Hm Hk He Hp s r s' Hs. unfold bind. destruct (m c s) as [[a|e|] s1] eqn:E.
  - apply Hk. exact (Hm _ _ _ Hs E).
  - intros [= <- <-]. apply He. exact (Hm _ _ _ Hs E).
  - intros [= <- <-]. apply Hp. exact (Hm _ _ _ Hs E).
Qed.

Lemma triple_try {A} P (m : M A) Q :
  triple c P m (fun r db => match r with Panic => Q Panic db | _ => Q (Ok r) db end) ->
  triple c P (try m) Q.
Proof.
  intros H s r s' Hs. unfold try. destruct (m c s) as [[a|e|] s1] eqn:E; intros [= <- <-];
    exact (H _ _ _ Hs E).
Qed.

Lemma next_fault_db s f s1 : next_fault c s = (f, s1) -> s_db s1 = s_db s /\ exists x, f = Ok x.
Proof. unfold next_fault. destruct (s_faults s); intros [= <- <-]; eauto. Qed.

(** A statement: its effect with its result, or its effect or nothing with an error. *)
Lemma triple_stmt {A} P (f : DB -> result StoreError (A * DB)) Q :
  (forall db, P db -> Q (Err ErrDB) db /\
     match f db with
     | Ok (a, db') => Q (Ok a) db' /\ Q (Err ErrDB) db'
     | Err e => Q (Err e) db
     | Panic => Q Panic db
     end) ->
  triple c P (stmt f) Q.
Proof.
  intros H s r s' Hs Hm. unfold stmt, bind in Hm.
  destruct (next_fault c s) as [flt s1] eqn:E. destruct (next_fault_db _ _ _ E) as (Hdb & x & ->).
  destruct (H _ Hs) as [H0 H1]. rewrite <- Hdb in H0, H1.
  destruct x, (f (s_db s1)) as [[a db']|e|]; injection Hm as <- <-; simpl; by destruct_and?.
Qed.

Lemma triple_query {A} P (f : DB -> result StoreError A) Q :
  (forall db, P db -> Q (Err ErrDB) db /\ Q (f db) db) -> triple c P (query f) Q.
Proof.
  intros H. apply triple_stmt. intros db Hdb. destruct (H _ Hdb) as [? ?].
  destruct (f db); auto.
Qed.

Lemma triple_gen_random_uuid P Q :
  (forall db, P db -> Q (Err ErrDB) db /\ forall u, Q (Ok u) db) -> triple c P gen_random_uuid Q.
Proof.
  intros H s r s' Hs Hm. unfold gen_random_uuid in Hm. destruct (H _ Hs).
  destruct (s_uuids s); injection Hm as <- <-; simpl; auto.
Qed.

Lemma triple_GenerateToken P Q :
  (forall db, P db -> Q (Err ErrDB) db /\ forall t, Q (Ok t) db) -> triple c P GenerateToken Q.
Proof.
  intros H s r s' Hs Hm. unfold GenerateToken, bind, rand_Read in Hm. destruct (H _ Hs).
  destruct (s_rand s); injection Hm as <- <-; simpl; auto.
Qed.

(** A transaction: what its body does from the tables it starts with, kept on
    commit and undone otherwise. *)
Lemma triple_transaction {A} P (body : M A) R Q :
  (forall db, P db -> Q (Err ErrDB) db) ->
  (forall db0, P db0 -> triple c (eq db0) body (R db0)) ->
  (forall db0 a db, P db0 -> R db0 (Ok a) db -> Q (Ok a) db /\ Q (Err ErrDB) db) ->
  (forall db0 e db, P db0 -> R db0 (Err e) db -> Q (Err e) db0) ->
  (forall db0 db, P db0 -> R db0 Panic db -> Q Panic db0) ->
  triple c P (transaction body) Q.
Proof.
  intros H0 Hb Hok Herr Hpanic s r s' Hs Hm. unfold transaction in Hm.
  destruct (next_fault c s) as [f1 s1] eqn:E1. destruct (next_fault_db _ _ _ E1) as (Hd1 & x & ->).
  destruct x; try (injection Hm as <- <-; rewrite Hd1; by apply H0).
  destruct (body c s1) as [[a|e|] s2] eqn:E2;
    pose proof (Hb _ Hs _ _ _ (eq_sym Hd1) E2) as HR.
  - destruct (Hok _ _ _ Hs HR) as [Ha Hl].
    destruct (next_fault c s2) as [f2 s3] eqn:E3. destruct (next_fault_db _ _ _ E3) as (Hd3 & y & ->).
    rewrite <- Hd3 in Ha, Hl.
    destruct y; injection Hm as <- <-; simpl; auto.
  - injection Hm as <- <-. simpl. eauto.
  - injection Hm as <- <-. simpl. eauto.
Qed.

End triples.

(** ** Operations that keep an invariant of the tables *)

Definition preserves {A} (I : DB -> Prop) (m : M A) : Prop := forall c, triple c I m (fun _ => I).

Lemma preserves_conseq {A} I (m : M A) (Q : Clock -> result StoreError A -> DB -> Prop) :
  (forall c, triple c I m (Q c)) -> (forall c r db, Q c r db -> I db) -> preserves I m.
Proof. intros H HQ c s r s' Hs Hm. eapply HQ, H; eauto. Qed.

Lemma preserves_bind {A B} I (m : M A) (k : A -> M B) :
  preserves I m -> (forall a, preserves I (k a)) -> preserves I (bind m k).
Proof. intros Hm Hk c. eapply triple_bind; [apply Hm|intros a; apply Hk|done|done]. Qed.

Lemma preserves_ret {A} I (a : A) : preserves I (ret a).
Proof. intros c. by apply triple_ret. Qed.

Lemma preserves_fail {A} I e : preserves I (@fail A e).
Proof. intros c. by apply triple_fail. Qed.

Lemma preserves_of_result {A} I (x : result StoreError A) : preserves I (of_result x).
Proof. intros c. by apply triple_of_result. Qed.

Lemma preserves_get_clock I : preserves I get_clock.
Proof. intros c. by apply triple_get_clock. Qed.

Lemma preserves_gen_random_uuid I : preserves I gen_random_uuid.
Proof. intros c. by apply triple_gen_random_uuid. Qed.

Lemma preserves_GenerateToken I : preserves I GenerateToken.
Proof. intros c. by apply triple_GenerateToken. Qed.

Lemma preserves_try {A} I (m : M A) : preserves I m -> preserves I (try m).
Proof. intros H c. apply triple_try. eapply triple_conseq; [apply H|done|]. by intros [] db Hdb. Qed.

Lemma preserves_query {A} I (f : DB -> result StoreError A) : preserves I (query f).
Proof. intros c. by apply triple_query. Qed.

Lemma preserves_stmt {A} I (f : DB -> result StoreError (A * DB)) :
  (forall db a db', I db -> f db = Ok (a, db') -> I db') -> preserves I (stmt f).
Proof.
  intros H c. apply triple_stmt. intros db Hdb. split; [done|].
  destruct (f db) as [[a db']| |] eqn:E; eauto.
Qed.

Lemma preserves_transaction {A} I (body : M A) : preserves I body -> preserves I (transaction body).
Proof.
  intros H c. apply (triple_transaction c I body (fun _ _ => I)); try done.
  intros db0 H0. eapply triple_conseq; [apply H| |done]. by intros ? <-.
Qed.

(** ** Successful runs *)

(** From the tables [db], [m] can return [a] and leave [db']. *)
Definition yields {A} (c : Clock) (m : M A) (db : DB) (a : A) (db' : DB) : Prop :=
  exists s s', s_db s = db /\ s_db s' = db' /\ m c s = (Ok a, s').

Section yields.
Context (c : Clock).

Lemma yields_run {A} (m : M A) s a s' : m c s = (Ok a, s') -> yields c m (s_db s) a (s_db s').
Proof. intros Hm. by exists s, s'. Qed.

Lemma yields_bind {A B} (m : M A) (k : A -> M B) db b db'' :
  yields c (bind m k) db b db'' -> exists a db', yields c m db a db' /\ yields c (k a) db' b db''.
Proof.
  intros (s & s'' & Hs & Hs'' & Hm). unfold bind in Hm. destruct (m c s) as [[a|e|] s1] eqn:E; [|done..].
  exists a, (s_db s1). split; [by exists s, s1|by exists s1, s''].
Qed.

Lemma yields_ret {A} (a b : A) db db' : yields c (ret a) db b db' -> a = b /\ db' = db.
Proof. intros (s & s' & Hs & Hs' & [= <- <-]). by subst. Qed.

Lemma yields_fail {A} e (a : A) db db' : ~ yields c (fail e) db a db'.
Proof. by intros (s & s' & _ & _ & [=]). Qed.

Lemma yields_of_result {A} (x : result StoreError A) a db db' :
  yields c (of_result x) db a db' -> x = Ok a /\ db' = db.
Proof. intros (s & s' & Hs & Hs' & [= -> <-]). by subst. Qed.

Lemma yields_get_clock c' db db' : yields c get_clock db c' db' -> c = c' /\ db' = db.
Proof. intros (s & s' & Hs & Hs' & [= <- <-]). by subst. Qed.

Lemma yields_gen_random_uuid u db db' : yields c gen_random_uuid db u db' -> db' = db.
Proof.
  intros (s & s' & Hs & Hs' & Hm). unfold gen_random_uuid in Hm.
  destruct (s_uuids s); [done|]. injection Hm as _ <-. by subst.
Qed.

Lemma yields_GenerateToken t db db' : yields c GenerateToken db t db' -> db' = db.
Proof.
  intros (s & s' & Hs & Hs' & Hm). unfold GenerateToken, bind, rand_Read in Hm.
  destruct (s_rand s); [done|]. injection Hm as _ <-. by subst.
Qed.

Lemma yields_stmt {A} (f : DB -> result StoreError (A * DB)) a db db' :
  yields c (stmt f) db a db' -> f db = Ok (a, db').
Proof.
  intros (s & s' & Hs & Hs' & Hm). unfold stmt, bind in Hm.
  destruct (next_fault c s) as [r s1] eqn:E. destruct (next_fault_db _ _ _ _ E) as (Hd & x & ->).
  rewrite Hd, Hs in Hm. destruct x, (f db) as [[a1 db1]| |]; try done.
  injection Hm as <- <-. by subst.
Qed.

Lemma yields_query {A} (f : DB -> result StoreError A) a db db' :
  yields c (query f) db a db' -> f db = Ok a /\ db' = db.
Proof. intros Hy. apply yields_stmt in Hy. destruct (f db); by simplify_eq. Qed.

Lemma yields_query_row `{Postgres} {A} (f : DB -> list A) a db db' :
  yields c (query_row f) db a db' -> a = head (pg_rows (f db)) /\ db' = db.
Proof. intros Hy. apply yields_query in Hy as [[= <-] ->]. done. Qed.

Lemma yields_query_all `{Postgres} {A} (f : DB -> list A) a db db' :
  yields c (query_all f) db a db' -> a = pg_rows (f db) /\ db' = db.
Proof. intros Hy. apply yields_query in Hy as [[= <-] ->]. done. Qed.

Lemma yields_uuid_param `{Postgres} s u db db' : yields c (uuid_param s) db u db' -> pg_uuid s = Some u /\ db' = db.
Proof. intros Hy. apply yields_of_result in Hy as [Hu ->]. destruct (pg_uuid s); by simplify_eq. Qed.

Lemma yields_update {R} (t : Table R) p f n db db' :
  yields c (update t p f) db n db' ->
  n = rows_affected (p db) (get t db) /\ db' = put t (update_where (p db) f (get t db)) db.
Proof. intros Hy. apply yields_stmt in Hy. by simplify_eq. Qed.

Lemma yields_update_row {R} (t : Table R) k p f n db db' :
  yields c (update_row t k p f) db n db' ->
  (exists r, get t db !! k = Some r /\ p db r = true /\ n = 1 /\ db' = put t (<[k := f r]> (get t db)) db) \/
  (forall r, get t db !! k = Some r -> p db r = false) /\ n = 0 /\ db' = db.
Proof.
  intros Hy. apply yields_stmt in Hy. destruct (get t db !! k) as [r|].
  - destruct (p db r) eqn:E; simplify_eq.
    + left. eauto.
    + right. splits; [|done..]. by intros r' [= <-].
  - right. by simplify_eq.
Qed.

Lemma yields_insert_row {R} (t : Table R) k r ok x db db' :
  yields c (insert_row t k r ok) db x db' ->
  get t db !! k = None /\ ok db = true /\ db' = put t (<[k := r]> (get t db)) db.
Proof.
  intros Hy. apply yields_stmt in Hy. destruct (get t db !! k); [done|].
  destruct (ok db); by simplify_eq.
Qed.

(** How a statement ends: it has its effect, though its reply may be lost, or none. *)
Lemma stmt_outcome {A} (f : DB -> result StoreError (A * DB)) s r s' :
  stmt f c s = (r, s') ->
  (s_db s' = s_db s /\ is_ok r = false) \/
  exists a, f (s_db s) = Ok (a, s_db s') /\ (r = Ok a \/ r = Err ErrDB).
Proof.
  unfold stmt, bind. destruct (next_fault c s) as [x s1] eqn:E. destruct (next_fault_db _ _ _ _ E) as (Hd & flt & ->).
  rewrite <- Hd. destruct flt, (f (s_db s1)) as [[a db']|e|] eqn:Ef; intros [= <- <-]; try (by left);
    right; exists a; cbn; auto.
Qed.

(** How a transaction ends: nothing has happened, or its body has succeeded (then
    the caller may still see an error, the reply to [COMMIT] having been lost). *)
Lemma transaction_outcome {A} (body : M A) s r s' :
  transaction body c s = (r, s') ->
  (s_db s' = s_db s /\ is_ok r = false) \/
  exists a, yields c body (s_db s) a (s_db s') /\ (r = Ok a \/ r = Err ErrDB).
Proof.
  intros Hm. unfold transaction in Hm.
  destruct (next_fault c s) as [f1 s1] eqn:E1. destruct (next_fault_db _ _ _ _ E1) as (Hd1 & x & ->).
  destruct x; try (injection Hm as <- <-; by left).
  destruct (body c s1) as [[a|e|] s2] eqn:E2; try (injection Hm as <- <-; by left).
  apply yields_run in E2. rewrite Hd1 in E2.
  destruct (next_fault c s2) as [f2 s3] eqn:E3. destruct (next_fault_db _ _ _ _ E3) as (Hd3 & y & ->).
  rewrite <- Hd3 in E2. destruct y; injection Hm as <- <-; try (by left); right; exists a; auto.
Qed.

Lemma yields_transaction {A} (body : M A) a db db' :
  yields c (transaction body) db a db' -> yields c body db a db'.
Proof.
  intros (s & s' & <- & <- & Hm). apply transaction_outcome in Hm as [[_ [=]]|(a' & Hy & [[= ->]|[=]])].
  done.
Qed.

End yields.

Lemma preserves_transaction_ok {A} I (body : M A) :
  (forall c db a db', I db -> yields c body db a db' -> I db') -> preserves I (transaction body).
Proof.
  intros Hb c s r s' Hs Hm. apply transaction_outcome in Hm as [[-> _]|(a & Hy & _)]; [done|].
  by eapply Hb.
Qed.

(** Take a successful run apart, one step of the program at a time. *)
Ltac yields_inv :=
  repeat match goal with
  | H : yields _ (bind _ _) _ _ _ |- _ => apply yields_bind in H as (? & ? & ? & H)
  | H : yields _ (transaction _) _ _ _ |- _ => apply yields_transaction in H
  | H : yields _ (ret _) _ _ _ |- _ => apply yields_ret in H as [? ?]; subst
  | H : yields _ (fail _) _ _ _ |- _ => by apply yields_fail in H
  | H : yields _ (of_result _) _ _ _ |- _ => apply yields_of_result in H as [? ?]; subst
  | H : yields _ get_clock _ _ _ |- _ => apply yields_get_clock in H as [? ?]; subst
  | H : yields _ gen_random_uuid _ _ _ |- _ => apply yields_gen_random_uuid in H; subst
  | H : yields _ GenerateToken _ _ _ |- _ => apply yields_GenerateToken in H; subst
  | H : yields _ (query_row _) _ _ _ |- _ => apply yields_query_row in H as [? ?]; subst
  | H : yields _ (query_all _) _ _ _ |- _ => apply yields_query_all in H as [? ?]; subst
  | H : yields _ (query _) _ _ _ |- _ => apply yields_query in H as [? ?]; subst
  | H : yields _ (uuid_param _) _ _ _ |- _ => apply yields_uuid_param in H as [? ?]; subst
  | H : yields _ (update _ _ _) _ _ _ |- _ => apply yields_update in H as [? ?]; subst
  | H : yields _ (insert_row _ _ _ _) _ _ _ |- _ => apply yields_insert_row in H as (? & ? & ?); subst
  | H : yields _ (stmt _) _ _ _ |- _ => apply yields_stmt in H
  end.

(** ** Runs without faults *)

Lemma stmt_fine {A} (f : DB -> result StoreError (A * DB)) c db us rs :
  stmt f c (mkSession db [] us rs) =
  match f db with
  | Ok (a, db') => (Ok a, mkSession db' [] us rs)
  | Err e => (Err e, mkSession db [] us rs)
  | Panic => (Panic, mkSession db [] us rs)
  end.
Proof. unfold stmt, bind, next_fault. simpl. by destruct (f db) as [[]| |]. Qed.

Lemma query_fine {A} (f : DB -> result StoreError A) c db us rs :
  query f c (mkSession db [] us rs) = (f db, mkSession db [] us rs).
Proof. unfold query. rewrite stmt_fine. by destruct (f db). Qed.

Lemma update_fine {R} (t : Table R) p f c db us rs :
  update t p f c (mkSession db [] us rs) =
  (Ok (rows_affected (p db) (get t db)), mkSession (put t (update_where (p db) f (get t db)) db) [] us rs).
Proof. unfold update. by rewrite stmt_fine. Qed.

Lemma bind_fine {A B} (m : M A) (k : A -> M B) c s a s' :
  m c s = (Ok a, s') -> bind m k c s = k a c s'.
Proof. unfold bind. by intros ->. Qed.

Lemma bind_run {A B} (m : M A) (k : A -> M B) c s a s' x :
  m c s = (Ok a, s') -> k a c s' = x -> bind m k c s = x.
Proof. intros Hm Hk. by rewrite (bind_fine _ _ _ _ _ _ Hm). Qed.

Lemma get_clock_fine c s : get_clock c s = (Ok c, s).
Proof. done. Qed.

Lemma gen_random_uuid_fine c db u us rs :
  gen_random_uuid c (mkSession db [] (u :: us) rs) = (Ok u, mkSession db [] us rs).
Proof. done. Qed.

Lemma query_row_fine `{Postgres} {A} (f : DB -> list A) c db us rs :
  query_row f c (mkSession db [] us rs) = (Ok (head (pg_rows (f db))), mkSession db [] us rs).
Proof. unfold query_row. by rewrite query_fine. Qed.

Lemma query_all_fine `{Postgres} {A} (f : DB -> list A) c db us rs :
  query_all f c (mkSession db [] us rs) = (Ok (pg_rows (f db)), mkSession db [] us rs).
Proof. unfold query_all. by rewrite query_fine. Qed.

Lemma uuid_param_fine `{Postgres} s u c ss : pg_uuid s = Some u -> uuid_param s c ss = (Ok u, ss).
Proof. intros E. unfold uuid_param, of_result. by rewrite E. Qed.

Lemma transaction_fine {A} (body : M A) c db us rs :
  (forall r s', body c (mkSession db [] us rs) = (r, s') -> s_faults s' = []) ->
  transaction body c (mkSession db [] us rs) =
  match body c (mkSession db [] us rs) with
  | (Ok a, s') => (Ok a, s')
  | (r, s') => (r, with_db db s')
  end.
Proof.
  intros H. unfold transaction, next_fault at 1. simpl.
  destruct (body c _) as [[a|e|] s2] eqn:E; [|done..].
  unfold next_fault. by rewrite (H _ _ eq_refl).
Qed.

(** Without faults to come there are none later. *)
Definition calm {A} (m : M A) : Prop :=
  forall c s r s', s_faults s = [] -> m c s = (r, s') -> s_faults s' = [].

Lemma calm_bind {A B} (m : M A) (k : A -> M B) : calm m -> (forall a, calm (k a)) -> calm (bind m k).
Proof.
  intros Hm Hk c s r s' Hs. unfold bind. destruct (m c s) as [[a|e|] s1] eqn:E.
  - apply Hk. exact (Hm _ _ _ _ Hs E).
  - intros [= <- <-]. exact (Hm _ _ _ _ Hs E).
  - intros [= <- <-]. exact (Hm _ _ _ _ Hs E).
Qed.

Lemma calm_ret {A} (a : A) : calm (ret a). Proof. by intros c s r s' Hs [= <- <-]. Qed.
Lemma calm_fail {A} e : calm (@fail A e). Proof. by intros c s r s' Hs [= <- <-]. Qed.
Lemma calm_of_result {A} (x : result StoreError A) : calm (of_result x).
Proof. by intros c s r s' Hs [= <- <-]. Qed.
Lemma calm_get_clock : calm get_clock. Proof. by intros c s r s' Hs [= <- <-]. Qed.

Lemma calm_stmt {A} (f : DB -> result StoreError (A * DB)) : calm (stmt f).
Proof.
  intros c [db fs us rs] r s'. simpl. intros ->. rewrite stmt_fine.
  destruct (f db) as [[]| |]; by intros [= <- <-].
Qed.

Lemma calm_gen_random_uuid : calm gen_random_uuid.
Proof. intros c s r s' Hs. unfold gen_random_uuid. destruct (s_uuids s); by intros [= <- <-]. Qed.

Lemma calm_GenerateToken : calm GenerateToken.
Proof.
  intros c s r s' Hs. unfold GenerateToken, bind, rand_Read. destruct (s_rand s); by intros [= <- <-].
Qed.

#[export] Hint Resolve calm_ret calm_fail calm_of_result calm_get_clock calm_gen_random_uuid
  calm_GenerateToken : aevora.
#[export] Hint Extern 1 (calm (bind _ _)) => apply calm_bind; [|intros ?] : aevora.
#[export] Hint Extern 1 (calm (stmt _)) => apply calm_stmt : aevora.
#[export] Hint Extern 1 (calm (query _)) => apply calm_stmt : aevora.
#[export] Hint Extern 1 (calm (query_row _)) => apply calm_stmt : aevora.
#[export] Hint Extern 1 (calm (query_all _)) => apply calm_stmt : aevora.
#[export] Hint Extern 1 (calm (update _ _ _)) => apply calm_stmt : aevora.
#[export] Hint Extern 1 (calm (update_row _ _ _ _)) => apply calm_stmt : aevora.
#[export] Hint Extern 1 (calm (insert_row _ _ _ _)) => apply calm_stmt : aevora.
#[export] Hint Extern 1 (calm (uuid_param _)) => apply calm_of_result : aevora.
#[export] Hint Extern 2 (calm (match ?x with _ => _ end)) => destruct x : aevora.

#[export] Hint Resolve preserves_ret preserves_fail preserves_of_result preserves_get_clock
  preserves_gen_random_uuid preserves_GenerateToken preserves_query : aevora.
#[export] Hint Extern 1 (preserves _ (bind _ _)) => apply preserves_bind; [|intros ?] : aevora.
#[export] Hint Extern 1 (preserves _ (try _)) => apply preserves_try : aevora.
#[export] Hint Extern 1 (preserves _ (transaction _)) => apply preserves_transaction : aevora.
#[export] Hint Extern 1 (preserves _ (query_row _)) => apply preserves_query : aevora.
#[export] Hint Extern 1 (preserves _ (query_all _)) => apply preserves_query : aevora.
#[export] Hint Extern 1 (preserves _ (uuid_param _)) => apply preserves_of_result : aevora.
#[export] Hint Extern 2 (preserves _ (match ?x with _ => _ end)) => destruct x : aevora.
