(* ===== verification/Migrate.v ===== *)
(** Schema migrations: [Store.Migrate] of [control-plane/internal/store/store.go]. The
    scripts are a parameter: what each does to the schema, or its error. *)
From S2P Require Import Prelude Model GoStrings Json JsonFacts Alloc Db Session.

(** [strings.HasSuffix] and [strings.TrimSuffix]. *)
Definition HasSuffix (s suf : string) : bool :=
  (String.length suf <=? String.length s)%nat && bool_decide (str_drop (String.length s - String.length suf) s = suf).
Definition TrimSuffix (s suf : string) : string :=
  if HasSuffix s suf then str_take (String.length s - String.length suf) s else s.

Section migrate.
Context {schema : Type}.
(** [tx.Exec] of a script; [None] is an error. *)
Variable exec : string -> schema -> option schema.
(** The embedded directory: file names and their contents. *)
Variable migrationsFS : gmap string string.

(** The recorded versions ([None]: the table does not exist) and the rest of the schema. *)
Record catalog := mkCatalog { schema_migrations : option (gset string); objects : schema }.

(** A catalog with the outcomes of the next round trips. *)
Abbreviation conn := (catalog * list fault)%type.

Definition next (fs : list fault) : fault * list fault :=
  match fs with [] => (Fine, []) | f :: fs' => (f, fs') end.

Definition trip {A} (f : catalog -> option (A * catalog)) (s : conn) : option A * conn :=
  let '(flt, fs) := next s.2 in
  match flt, f s.1 with
  | Fine, Some (a, c) => (Some a, (c, fs))
  | Late, Some (_, c) => (None, (c, fs))
  | _, _ => (None, (s.1, fs))
  end.

(** [tx.Rollback] after an error: the catalog before the transaction. *)
Definition rollback (before : catalog) (s : conn) : conn := (before, (next s.2).2).

(** [tx.Commit]: when it is lost, so is the transaction; when its answer is, it counts. *)
Definition commit (before : catalog) (s : conn) : bool * conn :=
  match next s.2 with
  | (Fine, fs) => (true, (s.1, fs))
  | (Late, fs) => (false, (s.1, fs))
  | (Lost, fs) => (false, (before, fs))
  end.

Definition create_table (c : catalog) : option (() * catalog) :=
  Some ((), mkCatalog (Some (default ∅ (schema_migrations c))) (objects c)).
Definition recorded (version : string) (c : catalog) : option (bool * catalog) :=
  match schema_migrations c with Some vs => Some (bool_decide (version ∈ vs), c) | None => None end.
Definition run_script (body : string) (c : catalog) : option (() * catalog) :=
  match exec body (objects c) with Some o => Some ((), mkCatalog (schema_migrations c) o) | None => None end.
Definition record (version : string) (c : catalog) : option (() * catalog) :=
  match schema_migrations c with
  | Some vs => if bool_decide (version ∈ vs) then None else Some ((), mkCatalog (Some ({[version]} ∪ vs)) (objects c))
  | None => None
  end.

(** The body of the loop: [true] is a nil error so far. *)
Definition migrate_one (f : string) (s : conn) : bool * conn :=
  let version := TrimSuffix f ".up.sql" in
  match trip (recorded version) s with
  | (None, s1) => (false, s1)
  | (Some true, s1) => (true, s1)
  | (Some false, s1) =>
      match trip (fun c => Some ((), c)) s1 with       (* Begin *)
      | (None, s2) => (false, s2)
      | (Some _, s2) =>
          match trip (run_script (default EmptyString (migrationsFS !! f))) s2 with
          | (None, s3) => (false, rollback s2.1 s3)
          | (Some _, s3) =>
              match trip (record version) s3 with
              | (None, s4) => (false, rollback s2.1 s4)
              | (Some _, s4) => commit s2.1 s4
              end
          end
      end
  end.

Fixpoint migrate_all (fs : list string) (s : conn) : bool * conn :=
  match fs with
  | [] => (true, s)
  | f :: fs' => let '(ok, s1) := migrate_one f s in if ok : bool then migrate_all fs' s1 else (false, s1)
  end.

(** The names [ReadDir] returns, of the migrations, sorted. *)
Definition files : list string :=
  merge_sort String.le (List.filter (fun f => HasSuffix f ".up.sql") (fst <$> map_to_list migrationsFS)).

Definition Migrate (s : conn) : bool * conn :=
  match trip create_table s with
  | (None, s1) => (false, s1)
  | (Some _, s1) => migrate_all files s1
  end.

(** ** Where a catalog is on the way *)

Variable fresh : schema.

Definition version_of (f : string) : string := TrimSuffix f ".up.sql".

(** The schema after the scripts of some files, in order. *)
Fixpoint after (fs : list string) (o : schema) : option schema :=
  match fs with
  | [] => Some o
  | f :: fs' => exec (default EmptyString (migrationsFS !! f)) o ≫= after fs'
  end.

(** The first [k] migrations, and no other, are recorded and in the schema. *)
Definition migrated (k : nat) (c : catalog) : Prop :=
  default ∅ (schema_migrations c) = list_to_set (version_of <$> take k files) /\
  after (take k files) fresh = Some (objects c).

Lemma after_app l1 l2 o : after (l1 ++ l2) o = after l1 o ≫= after l2.
Proof.
  revert o. induction l1 as [|g l1 IH]; intros o; simpl; [done|]. destruct (exec _ o) as [o'|]; [apply IH|done].
Qed.

Lemma after_snoc l f o : after (l ++ [f]) o = after l o ≫= exec (default EmptyString (migrationsFS !! f)).
Proof. rewrite after_app. destruct (after l o) as [o'|]; simpl; [by destruct (exec _ o')|done]. Qed.

Lemma version_inj f g :
  HasSuffix f ".up.sql" = true -> HasSuffix g ".up.sql" = true -> version_of f = version_of g -> f = g.
Proof.
  assert (Hs : forall f, HasSuffix f ".up.sql" = true -> f = version_of f +:+ ".up.sql").
  { intros h Hh. unfold version_of, TrimSuffix. rewrite Hh. unfold HasSuffix in Hh. to_prop.
    match goal with E : str_drop ?n h = _ |- _ => rewrite <- (str_take_drop n h) at 1; by rewrite E end. }
  intros Hf Hg E. by rewrite (Hs f Hf), (Hs g Hg), E.
Qed.

Lemma elem_of_files f : f ∈ files -> HasSuffix f ".up.sql" = true.
Proof. unfold files. rewrite merge_sort_Permutation. by intros [_ ?]%list_elem_of_In%filter_In. Qed.

Lemma NoDup_versions : NoDup (version_of <$> files).
Proof.
  apply NoDup_fmap_2_strong.
  - intros f g Hf%elem_of_files Hg%elem_of_files. by apply version_inj.
  - unfold files. rewrite merge_sort_Permutation. pose proof (NoDup_fst_map_to_list migrationsFS) as Hnd.
    induction Hnd as [|x l Hx Hl IH]; simpl; [constructor|]. destruct (HasSuffix x _); [|done]. constructor; [|done].
    intros Hin. apply Hx. apply list_elem_of_In, filter_In in Hin as [Hin _]. by apply list_elem_of_In.
Qed.

(** There is no more to be done than all. *)
Lemma migrated_min j c : migrated j c -> migrated (Nat.min j (length files)) c.
Proof.
  intros [Ha Hb]. destruct (Nat.le_gt_cases j (length files)); [by rewrite Nat.min_l|].
  rewrite Nat.min_r by lia. rewrite take_ge in Ha, Hb by lia. split; by rewrite take_ge.
Qed.

(** A migration whose turn has come is not recorded; one before it is. *)
Lemma version_recorded k j f : files !! k = Some f -> version_of f ∈ (list_to_set (version_of <$> take j files) : gset string) <-> (k < j)%nat.
Proof.
  intros Hk. rewrite elem_of_list_to_set. split.
  - intros (g & Eg & Hg)%list_elem_of_fmap. apply list_elem_of_lookup in Hg as [i Hi].
    apply lookup_take_Some in Hi as [Hi Hij]. enough (k = i) by lia.
    apply (NoDup_lookup (version_of <$> files) k i (version_of f)); [apply NoDup_versions|by rewrite list_lookup_fmap, Hk|].
    rewrite list_lookup_fmap, Hi. simpl. by rewrite Eg.
  - intros Hkj. apply list_elem_of_fmap. exists f. split; [done|]. apply list_elem_of_lookup. exists k.
    by apply lookup_take_Some.
Qed.

Lemma take_next k f : files !! k = Some f -> take (S k) files = take k files ++ [f].
Proof. apply take_S_r. Qed.

(** What a round trip leaves, whatever its outcome. *)
Lemma trip_cases {A} (f : catalog -> option (A * catalog)) s r s' :
  trip f s = (r, s') ->
  match r with
  | Some a => f s.1 = Some (a, s'.1)
  | None => s'.1 = s.1 \/ exists a, f s.1 = Some (a, s'.1)
  end.
Proof.
  unfold trip. destruct (next s.2) as [flt fs]. destruct flt, (f s.1) as [[a c]|] eqn:E; intros Et; injection Et as <- <-; eauto.
Qed.

(** One migration, from a catalog where all before it are done. *)
Lemma migrate_one_step k j f s ok s' :
  files !! k = Some f -> (k <= j)%nat -> migrated j s.1 -> schema_migrations s.1 <> None ->
  migrate_one f s = (ok, s') ->
  exists j', (j <= j')%nat /\ migrated j' s'.1 /\ schema_migrations s'.1 <> None /\ (ok = true -> (k < j')%nat).
Proof.
  intros Hk Hkj Hm Hsome. unfold migrate_one. fold (version_of f).
  destruct (schema_migrations s.1) as [vs|] eqn:Evs; [|done]. clear Hsome.
  assert (Hvs : vs = list_to_set (version_of <$> take j files)) by (destruct Hm as [Hm _]; by rewrite Evs in Hm).
  destruct (trip (recorded _) s) as [r1 s1] eqn:E1. apply trip_cases in E1. unfold recorded in E1. rewrite Evs in E1.
  assert (Hs1 : s1.1 = s.1).
  { destruct r1; [by injection E1|]. destruct E1 as [E1|[a E1]]; [done|by injection E1]. }
  assert (Hkeep : forall s2 : conn, s2.1 = s.1 -> exists j', (j <= j')%nat /\ migrated j' s2.1 /\ schema_migrations s2.1 <> None /\ (false = true -> (k < j')%nat)).
  { intros s2 ->. exists j. rewrite Evs. by splits. }
  destruct r1 as [[]|]; [| |intros E; injection E as <- <-; by apply Hkeep].
  { injection E1 as Ein _. to_prop. rewrite Hvs, (version_recorded k j f Hk) in Ein.
    intros E. injection E as <- <-. exists j. rewrite Hs1, Evs. by splits. }
  injection E1 as Ein _. to_prop. rewrite Hvs, (version_recorded k j f Hk) in Ein. assert (k = j) as <- by lia.
  destruct (trip _ s1) as [r2 s2] eqn:E2. apply trip_cases in E2.
  assert (Hs2 : s2.1 = s.1).
  { destruct r2; [injection E2; congruence|]. destruct E2 as [E2|[a E2]]; [congruence|injection E2; congruence]. }
  destruct r2; [|intros E; injection E as <- <-; by apply Hkeep].
  destruct (trip (run_script _) s2) as [r3 s3] eqn:E3. destruct r3; [|intros E; injection E as <- <-; by apply Hkeep].
  apply trip_cases in E3. unfold run_script in E3. rewrite Hs2 in E3. destruct (exec _ _) as [o|] eqn:Eo; [|done]. injection E3 as _ E3.
  destruct (trip (record _) s3) as [r4 s4] eqn:E4. destruct r4; [|intros E; injection E as <- <-; by apply Hkeep].
  apply trip_cases in E4. unfold record in E4. rewrite <- E3 in E4. cbn in E4. rewrite Evs in E4. case_bool_decide; [done|]. injection E4 as _ E4.
  assert (Hdone : migrated (S k) s4.1 /\ schema_migrations s4.1 <> None).
  { rewrite <- E4. split; [|done]. split; cbn.
    - rewrite (take_next k f Hk), fmap_app, list_to_set_app_L, Hvs. cbn. by rewrite union_empty_r_L, union_comm_L.
    - destruct Hm as [_ Hm]. rewrite (take_next k f Hk), after_snoc, Hm. exact Eo. }
  destruct Hdone as [Hd Hd']. unfold commit. destruct (next s4.2) as [[] fs]; intros E; injection E as <- <-.
  - exists (S k). splits; [lia|done|done|lia].
  - by apply (Hkeep (s2.1, fs)).
  - exists (S k). splits; [lia|done|done|done].
Qed.

Lemma migrate_all_steps l : forall k j s ok s',
  drop k files = l -> (k <= j)%nat -> migrated j s.1 -> schema_migrations s.1 <> None -> (j <= length files)%nat ->
  migrate_all l s = (ok, s') ->
  exists j', (j <= j')%nat /\ migrated j' s'.1 /\ (ok = true -> (length files <= j')%nat).
Proof.
  induction l as [|f l IH]; intros k j s ok s' Hd Hkj Hm Hs Hj; cbn [migrate_all].
  - intros E. injection E as <- <-. exists j. splits; [done|done|]. intros _.
    apply (f_equal length) in Hd. rewrite length_drop in Hd. cbn in Hd. lia.
  - assert (Hk : files !! k = Some f).
    { rewrite <- (Nat.add_0_r k), <- lookup_drop, Hd. done. }
    destruct (migrate_one f s) as [ok1 s1] eqn:E1.
    destruct (migrate_one_step k j f s ok1 s1 Hk Hkj Hm Hs E1) as (j1 & Hj1 & Hm1 & Hs1 & Hok1).
    destruct ok1; [|intros E; injection E as <- <-; exists j1; by splits].
    intros E. destruct (IH (S k) (Nat.min j1 (length files)) s1 ok s') as (j' & Hj' & Hm' & Hok'); try done.
    + replace (S k) with (k + 1)%nat by lia. by rewrite <- drop_drop, Hd.
    + specialize (Hok1 eq_refl). apply lookup_lt_Some in Hk. lia.
    + by apply migrated_min.
    + lia.
    + exists j'. splits; [lia|done|done].
Qed.

(** ** Without faults *)

Lemma trip_fine {A} (f : catalog -> option (A * catalog)) c :
  trip f (c, []) = match f c with Some (a, c') => (Some a, (c', [])) | None => (None, (c, [])) end.
Proof. unfold trip. cbn. by destruct (f c) as [[]|]. Qed.

Lemma migrate_one_fine k j f c :
  files !! k = Some f -> (k <= j)%nat -> migrated j c -> schema_migrations c <> None -> is_Some (after files fresh) ->
  exists c', migrate_one f (c, []) = (true, (c', [])).
Proof.
  intros Hk Hkj Hm Hs [o Ho]. unfold migrate_one. fold (version_of f). rewrite trip_fine. unfold recorded.
  destruct (schema_migrations c) as [vs|] eqn:Evs; [|done].
  assert (Hvs : vs = list_to_set (version_of <$> take j files)) by (destruct Hm as [Hm _]; by rewrite Evs in Hm).
  case_bool_decide as Hin; [eauto|]. rewrite trip_fine. cbn [fst]. rewrite trip_fine. unfold run_script.
  assert (k = j) as <-.
  { rewrite Hvs, (version_recorded k j f Hk) in Hin. lia. }
  destruct Hm as [_ Hm]. rewrite <- (take_drop_middle files k f Hk), after_app, Hm in Ho. cbn in Ho.
  destruct (exec _ _) as [o1|]; [|done]. rewrite trip_fine. unfold record. cbn. rewrite Evs, bool_decide_false by done. eauto.
Qed.

Lemma migrate_all_fine l : forall k j c,
  drop k files = l -> (k <= j)%nat -> (j <= length files)%nat -> migrated j c -> schema_migrations c <> None ->
  is_Some (after files fresh) -> exists c', migrate_all l (c, []) = (true, (c', [])).
Proof.
  induction l as [|f l IH]; intros k j c Hd Hkj Hj Hm Hs Ho; cbn [migrate_all]; [eauto|].
  assert (Hk : files !! k = Some f) by (rewrite <- (Nat.add_0_r k), <- lookup_drop, Hd; done).
  destruct (migrate_one_fine k j f c Hk Hkj Hm Hs Ho) as [c1 E1]. rewrite E1.
  destruct (migrate_one_step k j f (c, []) true (c1, []) Hk Hkj Hm Hs E1) as (j1 & Hj1 & Hm1 & Hs1 & Hok1).
  specialize (Hok1 eq_refl). apply (IH (S k) (Nat.min j1 (length files))); try done; [|apply lookup_lt_Some in Hk; lia|lia|].
  - replace (S k) with (k + 1)%nat by lia. by rewrite <- drop_drop, Hd.
  - by apply migrated_min.
Qed.

(** C36: migrating is safe on every boot: started where the first migrations are done, it
    ends, however its statements and commits end, where at least these are done, each once
    and in order; when it reports success, all are; and it does when nothing fails. *)
Theorem Migrate_resumes k s ok s' :
  (k <= length files)%nat -> migrated k s.1 -> Migrate s = (ok, s') ->
  (exists k', (k <= k' <= length files)%nat /\ migrated k' s'.1 /\ (ok = true -> k' = length files)) /\
  (s.2 = [] -> is_Some (after files fresh) -> ok = true).
Proof.
  intros Hk Hm. unfold Migrate. destruct (trip create_table s) as [r s1] eqn:E1. pose proof E1 as E1'. apply trip_cases in E1.
  assert (Hcreate : forall c, create_table s.1 = Some ((), c) -> migrated k c /\ schema_migrations c <> None).
  { unfold create_table. intros c Ec. injection Ec as <-. split; [|done]. by destruct Hm as [Ha Hb]. }
  intros E. split.
  - destruct r as [[]|].
    + apply Hcreate in E1 as [Hm1 Hs1].
      destruct (migrate_all_steps files 0 k s1 ok s') as (k' & Hk' & Hm' & Hok'); try done; [lia|].
      exists (Nat.min k' (length files)). splits; [lia|lia|by apply migrated_min|]. intros Hok. specialize (Hok' Hok). lia.
    + injection E as <- <-. exists k. splits; try done.
      destruct E1 as [->|[[] E1]]; [done|by apply Hcreate].
  - destruct s as [c fs]. cbn [fst snd] in *. intros -> Ho. rewrite trip_fine in E1'. unfold create_table in E1'.
    injection E1' as <- <-. destruct (Hcreate _ eq_refl) as [Hm1 Hs1].
    destruct (migrate_all_fine files 0 k _ ltac:(done) ltac:(lia) Hk Hm1 Hs1 Ho) as [c' Ec]. rewrite Ec in E. by injection E.
Qed.

End migrate.

(** ** Two migrations, the second interrupted *)

Definition demo_migrations : gmap string string :=
  list_to_map [("0002_fleet.up.sql", "fleet"); ("0001_init.up.sql", "init"); ("0001_init.down.sql", "drop")].
(** A schema is the list of scripts that made it. *)
Definition demo_exec_sql (body : string) (o : list string) : option (list string) := Some (o ++ [body]).

Definition interrupted : bool * (catalog * list fault) :=
  Eval vm_compute in Migrate demo_exec_sql demo_migrations
    (mkCatalog None [], [Fine; Fine; Fine; Fine; Fine; Fine; Fine; Fine; Fine; Lost]).

Example interrupted_eq : interrupted = (false, (mkCatalog (Some {["0001_init"]}) ["init"], [])).
Proof. vm_compute. reflexivity. Qed.

Lemma Migrate_resumes_witness :
  exists s', Migrate demo_exec_sql demo_migrations interrupted.2 = (true, s') /\
    migrated demo_exec_sql demo_migrations [] 2 s'.1.
Proof.
  destruct (Migrate demo_exec_sql demo_migrations interrupted.2) as [ok s'] eqn:E.
  assert (Hm : migrated demo_exec_sql demo_migrations [] 1 interrupted.2.1) by (split; vm_compute; reflexivity).
  destruct (Migrate_resumes demo_exec_sql demo_migrations [] 1 interrupted.2 ok s' ltac:(vm_compute; lia) Hm E)
    as ((k' & _ & Hm' & Hok) & Hfine).
  assert (Ht : ok = true) by (apply Hfine; [reflexivity|by vm_compute; eexists]). rewrite Ht in *.
  exists s'. split; [done|]. rewrite (Hok eq_refl) in Hm'. exact Hm'.
Defined.
