(* ===== verification/Password.v ===== *)
(** Password hashes: [control-plane/internal/auth/password.go]. Argon2id itself is
    [golang.org/x/crypto/argon2], a parameter. *)
From S2P Require Import Prelude Model GoStrings NetAddr Crypto Base64 Json JsonFacts Alloc Db Session.

(** [argon2.IDKey(password, salt, time, memory, threads, keyLen)]; [None] when it
    panics. *)
Class Argon2 := {
  IDKey : list Z -> list Z -> Z -> Z -> Z -> Z -> option (list Z)
}.

(** A key has the length asked for; the parameters the code chooses are legal. *)
Class Argon2Keys `{Argon2} : Prop := {
  IDKey_length : forall pw salt t mem par n k,
    IDKey pw salt t mem par n = Some k -> length k = Z.to_nat n /\ Forall is_byte k;
  IDKey_legal : forall pw salt t mem par n, 1 <= t -> 1 <= par -> is_Some (IDKey pw salt t mem par n)
}.

Definition argonTime : Z := 1.
Definition argonMemory : Z := 64 * 1024.
Definition argonThreads : Z := 4.
Definition argonKeyLen : Z := 32.
Definition argonSaltLen : nat := 16.

(** [argon2.Version] *)
Definition Version : Z := 19.

(** ** [fmt.Sscanf] with the verb [%d] *)

(** The blanks before a number; a line end is an error ([None]). *)
Fixpoint skip_blanks (fuel : nat) (s : string) : option string :=
  match fuel with
  | O => Some s
  | S fuel' =>
      match cut_prefix (byte_str 13 +:+ newline) s, cut_prefix newline s with
      | Some _, _ | None, Some _ => None
      | None, None =>
          match first_prefix white_space s with Some s' => skip_blanks fuel' s' | None => Some s end
      end
  end.

(** A decimal number for an unsigned operand of [bits] bits. *)
Definition scan_uint (bits : Z) (s : string) : option (Z * string) :=
  match skip_blanks (String.length s) s with
  | None => None
  | Some s1 =>
      match digits1 s1 with
      | None => None
      | Some (d, r) =>
          match dec_val 0 d with
          | Some n => if n <? 2 ^ bits then Some (n, r) else None
          | None => None
          end
      end
  end.

(** A decimal number for an [int]. *)
Definition scan_int (s : string) : option (Z * string) :=
  match skip_blanks (String.length s) s with
  | None => None
  | Some s1 =>
      let '(sg, s2) := exp_sign s1 in
      match digits1 s2 with
      | None => None
      | Some (d, r) =>
          match dec_val 0 d with
          | Some n =>
              let n := if bool_decide (sg = "-") then - n else n in
              if (- 2 ^ 63 <=? n) && (n <? 2 ^ 63) then Some (n, r) else None
          | None => None
          end
      end
  end.

Section password.
Context `{Argon2}.

(** [fmt.Sscanf(s, "v=%d", &version)] *)
Definition scan_version (s : string) : option Z := fst <$> (cut_prefix "v=" s ≫= scan_int).

(** [fmt.Sscanf(s, "m=%d,t=%d,p=%d", &mem, &t, &par)] *)
Definition scan_params (s : string) : option (Z * Z * Z) :=
  match cut_prefix "m=" s ≫= scan_uint 32 with
  | Some (mem, s1) =>
      match cut_prefix ",t=" s1 ≫= scan_uint 32 with
      | Some (t, s2) =>
          match cut_prefix ",p=" s2 ≫= scan_uint 8 with
          | Some (par, _) => Some (mem, t, par)
          | None => None
          end
      | None => None
      end
  | None => None
  end.

(** The PHC text of a salt and a key. *)
Definition phc (salt key : list Z) : string :=
  "$argon2id$v=" +:+ Itoa Version +:+ "$m=" +:+ Itoa argonMemory +:+ ",t=" +:+ Itoa argonTime +:+
  ",p=" +:+ Itoa argonThreads +:+ "$" +:+ b64std salt +:+ "$" +:+ b64std key.

Definition HashPassword (password : string) : M string :=
  let! b := rand_Read in
  let salt := take argonSaltLen b in
  match IDKey (bytes_of password) salt argonTime argonMemory argonThreads argonKeyLen with
  | None => of_result Panic
  | Some hash => ret (phc salt hash)
  end.

Inductive password_error := ErrPasswordMismatch.

Definition VerifyPassword (password encoded : string) : result password_error () :=
  match Split "$" encoded with
  | [p0; p1; p2; p3; p4; p5] =>
      if negb (bool_decide (p1 = "argon2id")) then Err ErrPasswordMismatch
      else if negb (bool_decide (scan_version p2 = Some Version)) then Err ErrPasswordMismatch
      else
        match scan_params p3 with
        | None => Err ErrPasswordMismatch
        | Some (mem, t, par) =>
            match b64std_decode p4 with
            | None => Err ErrPasswordMismatch
            | Some salt =>
                match b64std_decode p5 with
                | None => Err ErrPasswordMismatch
                | Some want =>
                    match IDKey (bytes_of password) salt t mem par (Z.of_nat (length want)) with
                    | None => Panic
                    | Some got => if bool_decide (got = want) then Ok () else Err ErrPasswordMismatch
                    end
                end
            end
        end
  | _ => Err ErrPasswordMismatch
  end.

(** ** Reading back a hash *)

Lemma Split_phc salt key :
  Forall is_byte salt -> Forall is_byte key ->
  Split "$" (phc salt key) = [""; "argon2id"; "v=19"; "m=65536,t=1,p=4"; b64std salt; b64std key].
Proof.
  intros Hs Hk. unfold phc.
  change (Split "$" ("" +:+ String "$" ("argon2id" +:+ String "$" ("v=19" +:+ String "$"
    ("m=65536,t=1,p=4" +:+ String "$" (b64std salt +:+ String "$" (b64std key)))))) =
    [""; "argon2id"; "v=19"; "m=65536,t=1,p=4"; b64std salt; b64std key]).
  rewrite !Split_app by (reflexivity || by apply b64std_no_dollar). by rewrite Split_no_sep by (by apply b64std_no_dollar).
Qed.

(** [VerifyPassword] of a hash [HashPassword] wrote compares the two keys. *)
Lemma VerifyPassword_phc password salt key :
  Forall is_byte salt -> Forall is_byte key -> length key = Z.to_nat argonKeyLen ->
  VerifyPassword password (phc salt key) =
    match IDKey (bytes_of password) salt argonTime argonMemory argonThreads argonKeyLen with
    | None => Panic
    | Some got => if bool_decide (got = key) then Ok () else Err ErrPasswordMismatch
    end.
Proof.
  intros Hs Hk Hl. unfold VerifyPassword. rewrite Split_phc by done.
  rewrite bool_decide_true by done. cbn [negb].
  rewrite bool_decide_true by (vm_compute; reflexivity). cbn [negb].
  replace (scan_params "m=65536,t=1,p=4") with (Some (argonMemory, argonTime, argonThreads)) by (vm_compute; reflexivity).
  rewrite !b64std_decode_encode by done. rewrite Hl. done.
Qed.

(** C24: the password a hash was made of is accepted, and another one exactly when the
    key derivation sends both to the same key. *)
Theorem HashPassword_VerifyPassword `{!Argon2Keys} password password' c s encoded s' :
  Forall (Forall is_byte) (s_rand s) ->
  HashPassword password c s = (Ok encoded, s') ->
  VerifyPassword password encoded = Ok () /\
  (VerifyPassword password' encoded =
     if bool_decide (IDKey (bytes_of password') (take argonSaltLen (hd [] (s_rand s))) argonTime argonMemory argonThreads argonKeyLen =
                     IDKey (bytes_of password) (take argonSaltLen (hd [] (s_rand s))) argonTime argonMemory argonThreads argonKeyLen)
     then Ok () else Err ErrPasswordMismatch).
Proof.
  intros Hb. unfold HashPassword, bind, rand_Read. destruct (s_rand s) as [|b bs]; [done|]. cbn [hd].
  apply Forall_cons in Hb as [Hb _].
  assert (Hs : Forall is_byte (take argonSaltLen b)) by (by apply Forall_take).
  destruct (IDKey (bytes_of password) _ _ _ _ _) as [key|] eqn:Ek; [|done]. intros [= <- <-].
  destruct (IDKey_length _ _ _ _ _ _ _ Ek) as [Hl Hkey].
  rewrite !VerifyPassword_phc by done. rewrite Ek. rewrite bool_decide_true by done. split; [done|].
  destruct (IDKey_legal (bytes_of password') (take argonSaltLen b) argonTime argonMemory argonThreads argonKeyLen)
    as [got Eg]; [done..|]. rewrite Eg. by repeat case_bool_decide; simplify_eq.
Qed.

(** Text that is not a hash of this version, or whose parameters or encodings do not
    read, is a mismatch: no password opens it. *)
Lemma VerifyPassword_malformed password encoded :
  (forall mem t par salt want p0 p2 p3 p4 p5,
     Split "$" encoded = [p0; "argon2id"; p2; p3; p4; p5] -> scan_version p2 = Some Version ->
     scan_params p3 = Some (mem, t, par) -> b64std_decode p4 = Some salt -> b64std_decode p5 = Some want -> False) ->
  VerifyPassword password encoded = Err ErrPasswordMismatch.
Proof.
  intros Hn. unfold VerifyPassword. destruct (Split "$" encoded) as [|p0 [|p1 [|p2 [|p3 [|p4 [|p5 [|]]]]]]] eqn:Es; try done.
  case_bool_decide as H1; [|done]. case_bool_decide as H2; [|done]. cbn [negb].
  destruct (scan_params p3) as [[[mem t] par]|] eqn:E3; [|done].
  destruct (b64std_decode p4) as [salt|] eqn:E4; [|done].
  destruct (b64std_decode p5) as [want|] eqn:E5; [|done]. subst. exfalso. eauto 10.
Qed.

End password.

(** A key derivation to evaluate on: the password and the salt, cut to length. *)
Definition toy_argon2 : Argon2 := {|
  IDKey pw salt t mem par n :=
    if (1 <=? t) && (1 <=? par)
    then Some (take (Z.to_nat n) (((fun b => b mod 256) <$> (pw ++ salt)) ++ replicate (Z.to_nat n) 0))
    else None
|}.

#[export] Instance toy_argon2_keys : @Argon2Keys toy_argon2.
Proof.
  split; simpl; intros pw salt t mem par n.
  - intros k. destruct (_ && _); [|done]. intros [= <-]. split.
    + rewrite length_take, length_app, length_replicate. lia.
    + apply Forall_take, Forall_app. split.
      * apply Forall_fmap, Forall_true. intros x. unfold is_byte. simpl. lia.
      * apply Forall_replicate. unfold is_byte. lia.
  - intros Ht Hp. rewrite (proj2 (Z.leb_le 1 t)), (proj2 (Z.leb_le 1 par)) by done. eauto.
Qed.

Definition salted : session := mkSession empty_db [] [] [replicate 32 7].

Lemma HashPassword_VerifyPassword_witness :
  exists encoded s', @HashPassword toy_argon2 "hunter22" (mkClock 0 0) salted = (Ok encoded, s') /\
    @VerifyPassword toy_argon2 "hunter22" encoded = Ok () /\
    @VerifyPassword toy_argon2 "hunter23" encoded = Err ErrPasswordMismatch.
Proof.
  eexists _, _. split; [vm_compute; reflexivity|].
  destruct (@HashPassword_VerifyPassword toy_argon2 toy_argon2_keys "hunter22" "hunter23" (mkClock 0 0) salted _ _
              ltac:(repeat constructor; done) eq_refl) as [H1 H2].
  split; [exact H1|]. etransitivity; [exact H2|]. vm_compute. reflexivity.
Defined.
