(* ===== verification/StoreGateways.v ===== *)
(** The gateway registry: [control-plane/internal/store/gateways.go],
    [locations.go] and [observability.go]. *)
From S2P Require Import Prelude Floats Model Crypto Alloc Db Session.

Section operations.
Context `{Postgres}.

(** [INSERT INTO locations ... ON CONFLICT (code) DO UPDATE SET country_name]. *)
Definition upsert_location (u code country : string) (db : DB) : result StoreError (string * DB) :=
  match find_row (fun l => bool_decide (l_code l = code)) (locations db) with
  | Some (id, l) =>
      Ok (id, put Locations (<[id := mkLocationRow code country (l_enabled l)]> (locations db)) db)
  | None =>
      match locations db !! u with
      | Some _ => Err ErrDB
      | None => Ok (u, put Locations (<[u := mkLocationRow code country true]> (locations db)) db)
      end
  end.

(** The row a registration writes; [old] is the row it replaces, whose live metrics
    the statement does not mention. *)
Definition registered_row (r : GatewayRegistration) (locationID tokenHash net4 : string)
    (net6 : option string) (old : option gateway_row) : gateway_row := {|
  g_location_id := locationID;
  g_name := reg_Name r;
  g_city := nilIfEmpty (reg_City r);
  g_region := nilIfEmpty (reg_Region r);
  g_public_key := reg_PublicKey r;
  g_endpoint_host := reg_EndpointHost r;
  g_endpoint_port := reg_EndpointPort r;
  g_wg_subnet_v4 := net4;
  g_wg_subnet_v6 := net6;
  g_capacity := reg_Capacity r;
  g_bandwidth_mbps := nilIfZero (reg_BandwidthMbps r);
  g_latitude := reg_Latitude r;
  g_longitude := reg_Longitude r;
  g_status := GatewayPending;
  g_active_peers := from_option g_active_peers 0 old;
  g_cpu_pct := from_option g_cpu_pct Fzero old;
  g_rx_bps := from_option g_rx_bps 0 old;
  g_tx_bps := from_option g_tx_bps 0 old;
  g_agent_token_hash := Some tokenHash;
  g_last_heartbeat_at := old ≫= g_last_heartbeat_at
|}.

(** The values of the registration as the columns' types and checks take them:
    the two networks, or [None]. *)
Definition registration_values (r : GatewayRegistration) : option (string * option string) :=
  if int4 (reg_EndpointPort r) && int4 (reg_Capacity r) && int4_opt (nilIfZero (reg_BandwidthMbps r))
     && (0 <? reg_Capacity r)
  then
    match pg_cidr (reg_WGSubnetV4 r), nilIfEmpty (reg_WGSubnetV6 r) with
    | Some net4, None => Some (net4, None)
    | Some net4, Some s => match pg_cidr s with Some net6 => Some (net4, Some net6) | None => None end
    | None, _ => None
    end
  else None.

(** [INSERT INTO gateways ... ON CONFLICT (name) DO UPDATE ... RETURNING id]. *)
Definition upsert_gateway (u locationID : string) (r : GatewayRegistration) (tokenHash : string) (db : DB)
    : result StoreError (string * DB) :=
  match registration_values r, locations db !! locationID with
  | Some (net4, net6), Some _ =>
      match find_row (fun g => bool_decide (g_name g = reg_Name r)) (gateways db) with
      | Some (id, g) =>
          Ok (id, put Gateways (<[id := registered_row r locationID tokenHash net4 net6 (Some g)]> (gateways db)) db)
      | None =>
          match gateways db !! u with
          | Some _ => Err ErrDB
          | None => Ok (u, put Gateways (<[u := registered_row r locationID tokenHash net4 net6 None]> (gateways db)) db)
          end
      end
  | _, _ => Err ErrDB
  end.

(** The gateway handed back. *)
Definition registered_gateway (r : GatewayRegistration) (locationID id : string) : Gateway :=
  mkGateway id locationID (reg_CountryCode r) (reg_CountryName r) (reg_Name r) (reg_City r)
    (reg_Region r) (reg_PublicKey r) (reg_EndpointHost r) (reg_EndpointPort r) (reg_Capacity r)
    (reg_BandwidthMbps r) (reg_Latitude r) (reg_Longitude r) GatewayPending 0 Fzero 0 0 None.

(** Between [Begin] and [Commit]. *)
Definition RegisterGateway_tx (r : GatewayRegistration) (tokenPlain : string) : M (Gateway * string) :=
  let! u := gen_random_uuid in
  let! locationID := stmt (upsert_location u (reg_CountryCode r) (reg_CountryName r)) in
  let! u' := gen_random_uuid in
  let! id := stmt (upsert_gateway u' locationID r (HashToken tokenPlain)) in
  ret (registered_gateway r locationID id, tokenPlain).

Definition RegisterGateway (r : GatewayRegistration) : M (Gateway * string) :=
  let! tokenPlain := GenerateToken in
  transaction (RegisterGateway_tx r tokenPlain).

(** [agent_token_hash = h AND status <> 'disabled'] *)
Definition live_token (h : string) (g : gateway_row) : bool :=
  bool_decide (g_agent_token_hash g = Some h) && negb (bool_decide (g_status g = GatewayDisabled)).

Definition beat (t : Time) (m : GatewayMetrics) (g : gateway_row) : gateway_row :=
  mkGatewayRow (g_location_id g) (g_name g) (g_city g) (g_region g) (g_public_key g) (g_endpoint_host g)
    (g_endpoint_port g) (g_wg_subnet_v4 g) (g_wg_subnet_v6 g) (g_capacity g) (g_bandwidth_mbps g)
    (g_latitude g) (g_longitude g) GatewayHealthy (m_ActivePeers m) (m_CPUPct m) (m_RxBps m) (m_TxBps m)
    (g_agent_token_hash g) (Some t).

Definition with_status (st : GatewayStatus) (g : gateway_row) : gateway_row :=
  mkGatewayRow (g_location_id g) (g_name g) (g_city g) (g_region g) (g_public_key g) (g_endpoint_host g)
    (g_endpoint_port g) (g_wg_subnet_v4 g) (g_wg_subnet_v6 g) (g_capacity g) (g_bandwidth_mbps g)
    (g_latitude g) (g_longitude g) st (g_active_peers g) (g_cpu_pct g) (g_rx_bps g) (g_tx_bps g)
    (g_agent_token_hash g) (g_last_heartbeat_at g).

(** The gateway of which only the columns [id], [name] and [status] are scanned. *)
Definition named_gateway (id name : string) (st : GatewayStatus) : Gateway :=
  mkGateway id "" "" "" name "" "" "" "" 0 0 0 None None st 0 Fzero 0 0 None.

(** [UPDATE ... RETURNING], of which [QueryRow] scans the first row. *)
Definition heartbeat_update (t : Time) (h : string) (m : GatewayMetrics) (db : DB)
    : result StoreError (option Gateway * DB) :=
  if int4 (m_ActivePeers m) then
    Ok ((fun '(id, g) => named_gateway id (g_name g) GatewayHealthy) <$>
          head (pg_rows (select_rows (live_token h) (gateways db))),
        put Gateways (update_where (live_token h) (beat t m) (gateways db)) db)
  else Err ErrDB.

Definition Heartbeat (tokenHash : string) (m : GatewayMetrics) : M Gateway :=
  let! c := get_clock in
  let! row := stmt (heartbeat_update (now c) tokenHash m) in
  match row with
  | None => fail ErrInvalidToken
  | Some g => ret g
  end.

Definition DeregisterGateway (tokenHash : string) : M () :=
  let! n := update Gateways (fun _ g => bool_decide (g_agent_token_hash g = Some tokenHash))
              (with_status GatewayDisabled) in
  if n =? 0 then fail ErrInvalidToken else ret ().

(** [status = 'healthy' AND (last_heartbeat_at IS NULL OR last_heartbeat_at < now() - ttl)] *)
Definition stale (t : Time) (ttl : Duration) (g : gateway_row) : bool :=
  bool_decide (g_status g = GatewayHealthy) &&
  match g_last_heartbeat_at g with
  | None => true
  | Some b => b <? t - pg_interval ttl
  end.

Definition MarkStaleUnhealthy (ttl : Duration) : M Z :=
  let! c := get_clock in
  update Gateways (fun _ => stale (now c) ttl) (with_status GatewayUnhealthy).

(** [gateways g JOIN locations l ON l.id = g.location_id] *)
Definition join_locations (db : DB) : list ((string * gateway_row) * location_row) :=
  omap (fun kg => (pair kg) <$> locations db !! g_location_id kg.2) (map_to_list (gateways db)).

(** [gatewaySelectCols] and [scanGateway]. *)
Definition scanGateway (row : (string * gateway_row) * location_row) : Gateway :=
  let '((id, g), l) := row in
  mkGateway id (g_location_id g) (l_code l) (l_country_name l) (g_name g) (default "" (g_city g))
    (default "" (g_region g)) (g_public_key g) (g_endpoint_host g) (g_endpoint_port g) (g_capacity g)
    (default 0 (g_bandwidth_mbps g)) (g_latitude g) (g_longitude g) (g_status g) (g_active_peers g)
    (g_cpu_pct g) (g_rx_bps g) (g_tx_bps g) (g_last_heartbeat_at g).

(** [ORDER BY l.country_name, g.name] *)
Definition by_country_name (a b : (string * gateway_row) * location_row) : Prop :=
  (if bool_decide (l_country_name a.2 = l_country_name b.2)
   then pg_text_le (g_name a.1.2) (g_name b.1.2)
   else pg_text_le (l_country_name a.2) (l_country_name b.2)) = true.

#[export] Instance by_country_name_dec : RelDecision by_country_name.
Proof. intros a b. unfold by_country_name. apply _. Defined.

Definition ListGateways : M (list Gateway) :=
  query (fun db => Ok (scanGateway <$> merge_sort by_country_name (pg_rows (join_locations db)))).

(** The conditions both candidate queries share: an enabled location of the
    country, a healthy status, and a heartbeat within [ttl]. *)
Definition fresh (t : Time) (ttl : Duration) (country : string)
    (row : (string * gateway_row) * location_row) : bool :=
  bool_decide (l_code row.2 = country) && l_enabled row.2 &&
  bool_decide (g_status row.1.2 = GatewayHealthy) &&
  match g_last_heartbeat_at row.1.2 with
  | None => false
  | Some b => t - pg_interval ttl <=? b
  end.

Definition SelectableGateways (countryCode : string) (ttl : Duration) : M (list Gateway) :=
  let! c := get_clock in
  let! rows := query_all (fun db =>
    List.filter (fun row => fresh (now c) ttl countryCode row && (g_active_peers row.1.2 <? g_capacity row.1.2))
      (join_locations db)) in
  ret (scanGateway <$> rows).

(** [COUNT(g.id)] over the gateways of a location, all or the healthy ones. *)
Definition count_gateways (p : gateway_row -> bool) (db : DB) : Z := rows_affected p (gateways db).

Definition location_counts (db : DB) (kl : string * location_row) : Location :=
  let here g := bool_decide (g_location_id g = kl.1) in
  mkLocation kl.1 (l_code kl.2) (l_country_name kl.2) (l_enabled kl.2)
    (count_gateways here db)
    (count_gateways (fun g => here g && bool_decide (g_status g = GatewayHealthy)) db).

Definition by_country (a b : string * location_row) : Prop :=
  pg_text_le (l_country_name a.2) (l_country_name b.2) = true.

#[export] Instance by_country_dec : RelDecision by_country.
Proof. intros a b. unfold by_country. apply _. Defined.

Definition ListLocations : M (list Location) :=
  query (fun db => Ok (location_counts db <$>
    merge_sort by_country (pg_rows (select_rows l_enabled (locations db))))).

(** [SELECT status, count( * ) FROM gateways GROUP BY status], as the map the loop
    builds. *)
Definition status_counts (db : DB) : gmap string Z :=
  foldl (fun m st => let n := count_gateways (fun g => bool_decide (g_status g = st)) db in
                     if 0 <? n then <[status_string st := n]> m else m)
    ∅ [GatewayPending; GatewayHealthy; GatewayUnhealthy; GatewayDraining; GatewayDisabled].

Definition is_active (l : lease_row) : bool := bool_decide (le_state l = Active).

Definition FleetSnapshot : M (gmap string Z * Z) :=
  let! gatewaysByStatus := query (fun db => Ok (status_counts db)) in
  let! activeSessions := query (fun db => Ok (rows_affected is_active (leases db))) in
  ret (gatewaysByStatus, activeSessions).

End operations.
