(* ===== verification/StoreIdentity.v ===== *)
(** Users, devices, invites and refresh tokens:
    [control-plane/internal/store/identity.go]. An id the code has read from the
    server is passed back to it as it is; an id from outside goes through
    [uuid_param]. *)
From S2P Require Import Prelude Model Crypto Alloc Db Session.

Section operations.
Context `{Postgres}.

(** [INSERT INTO refresh_tokens], with the token's unique hash and its device. *)
Definition token_ok (deviceID hash : string) (db : DB) : bool :=
  match find_row (fun t => bool_decide (t_token_hash t = hash)) (refresh_tokens db), devices db !! deviceID with
  | None, Some _ => true
  | _, _ => false
  end.

Definition newRefreshToken (deviceID : string) (ttl : Duration) : M string :=
  let! plain := GenerateToken in
  let! c := get_clock in
  let! u := gen_random_uuid in
  let! _ := insert_row RefreshTokens u
              (mkTokenRow deviceID (HashToken plain) (now c + pg_interval ttl) None)
              (token_ok deviceID (HashToken plain)) in
  ret plain.

(** [INSERT INTO devices]: a duplicate key or id is a unique violation (SQLSTATE
    23505), which [isUniqueViolation] recognises; an unknown platform or user is
    another error. *)
Definition insert_device (u uid : string) (r : DeviceRegistration) (t : Time) (db : DB)
    : result StoreError (() * DB) :=
  if negb (ValidPlatform (dr_Platform r)) then Err ErrDB
  else
    match devices db !! u,
          find_row (fun d => bool_decide (d_public_key d = dr_PublicKey r)) (devices db) with
    | None, None =>
        match users db !! uid with
        | None => Err ErrDB
        | Some _ => Ok ((), put Devices (<[u := mkDeviceRow uid (dr_Name r) (dr_Platform r)
                                              (dr_PublicKey r) t None None]> (devices db)) db)
        end
    | _, _ => Err ErrDeviceKeyTaken
    end.

(** [uid] is [userID] as the server reads it. *)
Definition insertDevice (userID uid : string) (r : DeviceRegistration) : M Device :=
  let! c := get_clock in
  let! u := gen_random_uuid in
  let! _ := stmt (insert_device u uid r (now c)) in
  ret (mkDevice u userID (dr_Name r) (dr_Platform r) (dr_PublicKey r) (now c) None None).

Definition email_is (email : string) (u : user_row) : bool := bool_decide (pg_fold (u_email u) = pg_fold email).

(** [INSERT INTO users ... ON CONFLICT (email) DO UPDATE SET display_name]. *)
Definition upsert_user (u email : string) (display : option string) (t : Time) (db : DB)
    : result StoreError (User * DB) :=
  let user id r := mkUser id (u_email r) (default "" (u_display_name r)) (u_status r) (u_created_at r) in
  let save id r := Ok (user id r, put Users (<[id := r]> (users db)) db) in
  match find_row (email_is email) (users db) with
  | Some (id, r) =>
      save id (mkUserRow (u_email r) (match display with Some d => Some d | None => u_display_name r end)
                 (u_status r) (u_created_at r) (u_password_hash r))
  | None =>
      match users db !! u with
      | Some _ => Err ErrDB
      | None => save u (mkUserRow email display "active" t None)
      end
  end.

(** The invite may still be redeemed. *)
Definition invite_open (t : Time) (i : invite_row) : bool :=
  match i_used_at i with
  | Some _ => false
  | None => match i_expires_at i with Some e => negb (e <? t) | None => true end
  end.

Definition use_invite (uid : string) (t : Time) (i : invite_row) : invite_row :=
  mkInviteRow (i_note i) (Some uid) (i_expires_at i) (Some t).

(** [SELECT ... FROM invite_codes WHERE code = $1 FOR UPDATE] *)
Definition find_invite (code : string) (db : DB) : list invite_row := option_list (invite_codes db !! code).

(** Between [Begin] and [Commit]. *)
Definition Enroll_tx (req : EnrollRequest) (refreshTTL : Duration) : M (User * Device * string) :=
  let! c := get_clock in
  let! row := query_row (find_invite (er_InviteCode req)) in
  match row with
  | None => fail ErrInviteInvalid
  | Some i =>
      if invite_open (time_Now c) i then
        let! u0 := gen_random_uuid in
        let! u := stmt (upsert_user u0 (er_Email req) (nilIfEmpty (er_DisplayName req)) (now c)) in
        let! d := insertDevice (usr_ID u) (usr_ID u) (er_Device req) in
        let! _ := update_row Invites (er_InviteCode req) (fun _ _ => true) (use_invite (usr_ID u) (now c)) in
        let! refresh := newRefreshToken (dev_ID d) refreshTTL in
        ret (u, d, refresh)
      else fail ErrInviteInvalid
  end.

Definition Enroll (req : EnrollRequest) (refreshTTL : Duration) : M (User * Device * string) :=
  transaction (Enroll_tx req refreshTTL).

(** Between [Begin] and [Commit]. *)
Definition CreateDevice_tx (userID : string) (r : DeviceRegistration) (refreshTTL : Duration) : M (Device * string) :=
  let! uid := uuid_param userID in
  let! d := insertDevice userID uid r in
  let! refresh := newRefreshToken (dev_ID d) refreshTTL in
  ret (d, refresh).

Definition CreateDevice (userID : string) (r : DeviceRegistration) (refreshTTL : Duration) : M (Device * string) :=
  transaction (CreateDevice_tx userID r refreshTTL).

Definition scan_device (kd : string * device_row) : Device :=
  mkDevice kd.1 (d_user_id kd.2) (d_name kd.2) (d_platform kd.2) (d_public_key kd.2)
    (d_created_at kd.2) (d_last_seen_at kd.2) (d_revoked_at kd.2).

(** [ORDER BY created_at DESC] *)
Definition newest_first (a b : Device) : Prop := dev_CreatedAt b <= dev_CreatedAt a.

#[export] Instance newest_first_dec : RelDecision newest_first.
Proof. intros a b. unfold newest_first. apply _. Defined.

Definition ListDevices (userID : string) : M (list Device) :=
  let! uid := uuid_param userID in
  query (fun db => Ok (merge_sort newest_first
    (scan_device <$> pg_rows (select_rows (fun d => bool_decide (d_user_id d = uid)) (devices db))))).

Definition not_revoked (d : device_row) : bool := bool_decide (d_revoked_at d = None).
Definition owned_live (uid : string) (d : device_row) : bool := bool_decide (d_user_id d = uid) && not_revoked d.

Definition revoke_device (t : Time) (d : device_row) : device_row :=
  mkDeviceRow (d_user_id d) (d_name d) (d_platform d) (d_public_key d) (d_created_at d)
    (d_last_seen_at d) (Some t).

Definition see_device (t : Time) (d : device_row) : device_row :=
  mkDeviceRow (d_user_id d) (d_name d) (d_platform d) (d_public_key d) (d_created_at d)
    (Some t) (d_revoked_at d).

Definition revoke_token (t : Time) (x : token_row) : token_row :=
  mkTokenRow (t_device_id x) (t_token_hash x) (t_expires_at x) (Some t).

Definition live_token_of (did : string) (x : token_row) : bool :=
  bool_decide (t_device_id x = did) && bool_decide (t_revoked_at x = None).

Definition set_lease_state (st : lease_state) (released : option Time) (l : lease_row) : lease_row :=
  mkLeaseRow (le_gateway_id l) (le_device_id l) (le_client_public_key l) (le_assigned_ip_v4 l)
    (le_assigned_ip_v6 l) st (le_expires_at l)
    (match released with Some t => Some t | None => le_released_at l end).

Definition active_of (did : string) (l : lease_row) : bool :=
  bool_decide (le_device_id l = did) && bool_decide (le_state l = Active).

(** Three statements on the pool, each its own transaction. *)
Definition RevokeDevice (userID deviceID : string) : M () :=
  let! did := uuid_param deviceID in
  let! uid := uuid_param userID in
  let! c := get_clock in
  let! n := update_row Devices did (fun _ => owned_live uid) (revoke_device (now c)) in
  if n =? 0 then fail ErrNotFound
  else
    let! _ := update RefreshTokens (fun _ => live_token_of did) (revoke_token (now c)) in
    let! _ := update Leases (fun _ => active_of did) (set_lease_state Expired None) in
    ret ().

(** The join of [RefreshAccess]: the owner and the device of a usable token. *)
Definition refreshable (t : Time) (hash : string) (db : DB) : list (string * string) :=
  omap (fun kt : string * token_row =>
    let x := kt.2 in
    if bool_decide (t_token_hash x = hash) && bool_decide (t_revoked_at x = None) && (t <? t_expires_at x)
    then match devices db !! t_device_id x with
         | Some d => if not_revoked d then Some (d_user_id d, t_device_id x) else None
         | None => None
         end
    else None) (map_to_list (refresh_tokens db)).

Definition RefreshAccess (refreshPlain : string) : M (string * string) :=
  let! c := get_clock in
  let! row := query_row (refreshable (now c) (HashToken refreshPlain)) in
  match row with
  | None => fail ErrInvalidToken
  | Some (userID, deviceID) =>
      let! _ := try (update_row Devices deviceID (fun _ _ => true) (see_device (now c))) in
      ret (userID, deviceID)
  end.

Definition CreateInvite (code note : string) (expiresAt : option Time) : M () :=
  insert_row Invites code (mkInviteRow (nilIfEmpty note) None expiresAt None) (fun _ => true).

Definition set_password_hash (hash : string) (u : user_row) : user_row :=
  mkUserRow (u_email u) (u_display_name u) (u_status u) (u_created_at u) (Some hash).

Definition SetPassword (userID passwordHash : string) : M () :=
  let! uid := uuid_param userID in
  let! n := update_row Users uid (fun _ _ => true) (set_password_hash passwordHash) in
  if n =? 0 then fail ErrNotFound else ret ().

Definition GetCredentialsByEmail (email : string) : M (string * string * string) :=
  let! row := query_row (fun db => select_rows (email_is email) (users db)) in
  match row with
  | None => fail ErrNotFound
  | Some (id, u) => ret (id, default "" (u_password_hash u), u_status u)
  end.

End operations.
