(* ===== verification/StoreConnections.v ===== *)
(** Connections, that is leases of tunnel addresses:
    [control-plane/internal/store/connections.go]. *)
From S2P Require Import Prelude Floats Model Selection GoStrings NetAddr Crypto Alloc Db Session StoreGateways StoreIdentity.

Record gwCandidate := mkCandidate { cand_g : Gateway; subnetV4 : string; subnetV6 : option string }.

(** The zero value a Go map gives for a missing key. *)
Definition zero_candidate : gwCandidate :=
  mkCandidate (mkGateway "" "" "" "" "" "" "" "" "" 0 0 0 None None GatewayPending 0 Fzero 0 0 None) "" None.

Section operations.
Context `{Postgres}.

(** The key of the caller's device, unless it is revoked. *)
Definition device_key (did uid : string) (db : DB) : list string :=
  match devices db !! did with
  | Some d => if owned_live uid d then [d_public_key d] else []
  | None => []
  end.

(** [SELECT count( * ) FROM leases le WHERE le.gateway_id = g.id AND le.state = 'active'] *)
Definition on_gateway (gid : string) (l : lease_row) : bool :=
  bool_decide (le_gateway_id l = gid) && is_active l.

Definition lease_count (db : DB) (gid : string) : Z := rows_affected (on_gateway gid) (leases db).

(** One row of the candidate query as the loop scans it; columns it does not select
    keep their zero values, and the status is set to healthy. *)
Definition scan_candidate (db : DB) (row : (string * gateway_row) * location_row) : gwCandidate :=
  let '((id, g), l) := row in
  mkCandidate
    (mkGateway id "" "" (l_country_name l) (g_name g) (default "" (g_city g)) "" (g_public_key g)
       (g_endpoint_host g) (g_endpoint_port g) (g_capacity g) (default 0 (g_bandwidth_mbps g)) None None
       GatewayHealthy (lease_count db id) Fzero (g_rx_bps g) (g_tx_bps g) None)
    (g_wg_subnet_v4 g) (g_wg_subnet_v6 g).

Definition candidates (t : Time) (heartbeatTTL : Duration) (country : string) (db : DB) : list gwCandidate :=
  scan_candidate db <$> List.filter (fresh t heartbeatTTL country) (join_locations db).

(** [byID] as the loop fills it. *)
Definition by_id (cs : list gwCandidate) : gmap string gwCandidate :=
  foldl (fun m c => <[ID (cand_g c) := c]> m) ∅ cs.

(** [host(assigned_ip_v4)] of the active leases of a gateway. *)
Definition active_hosts (gid : string) (db : DB) : list string :=
  (fun kl => pg_host (le_assigned_ip_v4 kl.2)) <$> select_rows (on_gateway gid) (leases db).

(** One address of the loop of [usedHostAddrs]: what does not parse is skipped. *)
Definition host_addr (s : string) : option Z := ((ParseIP s ≫= To4) ≫= Uint32).

Definition usedHostAddrs (gatewayID : string) : M (gset Z) :=
  let! rows := query_all (active_hosts gatewayID) in
  ret (list_to_set (omap host_addr rows)).

(** [INSERT INTO leases]: the addresses as [inet], the foreign keys, and the index
    [uq_lease_gw_ip_active]. *)
Definition taken (gid ip : string) (l : lease_row) : bool :=
  on_gateway gid l && bool_decide (le_assigned_ip_v4 l = ip).

Definition inet_opt (v6 : option string) : option (option string) :=
  match v6 with
  | None => Some None
  | Some s => match pg_inet s with Some x => Some (Some x) | None => None end
  end.

Definition insert_lease (u gid did pub v4 : string) (v6 : option string) (expires : Time) (db : DB)
    : result StoreError (() * DB) :=
  match pg_inet v4, inet_opt v6, gateways db !! gid, devices db !! did with
  | Some ip4, Some ip6, Some _, Some _ =>
      match leases db !! u, find_row (taken gid ip4) (leases db) with
      | None, None =>
          Ok ((), put Leases (<[u := mkLeaseRow gid did pub ip4 ip6 Active expires None]> (leases db)) db)
      | _, _ => Err ErrDB
      end
  | _, _, _, _ => Err ErrDB
  end.

(** The answer to the client. *)
Definition connection (id : string) (expires : Time) (chosen : gwCandidate) (v4 : string) (v6 : option string)
    : Connection :=
  let g := cand_g chosen in
  mkConnection id (Name g) (CountryName g) (City g) (JoinHostPort (EndpointHost g) (Itoa (EndpointPort g)))
    (PublicKey g) (v4 +:+ "/32") ((fun s => s +:+ "/128") <$> v6) expires.

(** Between [Begin] and [Commit]; the numbered steps are those of the code. *)
Definition CreateConnection_tx (userID deviceID country : string) (leaseTTL heartbeatTTL : Duration)
    : M Connection :=
  let! c := get_clock in
  (* 1. the device *)
  let! did := uuid_param deviceID in
  let! uid := uuid_param userID in
  let! row := query_row (device_key did uid) in
  match row with
  | None => fail ErrDeviceNotFound
  | Some clientPub =>
      (* 1b. release what it holds *)
      let! _ := update Leases (fun _ => active_of did) (set_lease_state Released (Some (now c))) in
      (* 2. the candidates *)
      let! cs := query_all (candidates (now c) heartbeatTTL country) in
      match Best (cand_g <$> cs) with
      | None => fail ErrNoGatewayAvailable
      | Some best =>
          let chosen := default zero_candidate (by_id cs !! ID best) in
          let gid := ID (cand_g chosen) in
          (* 3. the row lock *)
          let! _ := query (fun _ => Ok ()) in
          (* 4., 5. the address *)
          let! used := usedHostAddrs gid in
          let! '(v4, v6) := of_result (allocateHost (subnetV4 chosen) (subnetV6 chosen) used) in
          (* 6. the lease *)
          let expires := now c + pg_interval leaseTTL in
          let! u := gen_random_uuid in
          let! _ := stmt (insert_lease u gid did clientPub v4 v6 expires) in
          ret (connection u expires chosen v4 v6)
      end
  end.

Definition CreateConnection (userID deviceID country : string) (leaseTTL heartbeatTTL : Duration)
    : M Connection :=
  transaction (CreateConnection_tx userID deviceID country leaseTTL heartbeatTTL).

(** [SELECT id FROM gateways WHERE agent_token_hash = $1 AND status <> 'disabled'] *)
Definition gateway_of_token (h : string) (db : DB) : list string :=
  fst <$> select_rows (live_token h) (gateways db).

(** The active, unexpired leases of a gateway. *)
Definition serving (t : Time) (gid : string) (l : lease_row) : bool := on_gateway gid l && (t <? le_expires_at l).

Definition peer_of (l : lease_row) : Peer :=
  mkPeer (le_client_public_key l)
    ((pg_host (le_assigned_ip_v4 l) +:+ "/32") ::
     match pg_host <$> le_assigned_ip_v6 l with
     | Some s => if bool_decide (s = EmptyString) then [] else [s +:+ "/128"]
     | None => []
     end).

Definition GatewayPeers (tokenHash : string) : M (list Peer) :=
  let! c := get_clock in
  let! row := query_row (gateway_of_token tokenHash) in
  match row with
  | None => fail ErrInvalidToken
  | Some gid =>
      let! rows := query_all (fun db => select_rows (serving (now c) gid) (leases db)) in
      ret ((fun kl => peer_of kl.2) <$> rows)
  end.

(** [state = 'active' AND device_id IN (SELECT id FROM devices WHERE user_id = $2)] *)
Definition active_owned (uid : string) (db : DB) (l : lease_row) : bool :=
  is_active l &&
  match devices db !! le_device_id l with
  | Some d => bool_decide (d_user_id d = uid)
  | None => false
  end.

Definition ReleaseConnection (userID leaseID : string) : M () :=
  let! lid := uuid_param leaseID in
  let! uid := uuid_param userID in
  let! c := get_clock in
  let! n := update_row Leases lid (active_owned uid) (set_lease_state Released (Some (now c))) in
  if n =? 0 then fail ErrNotFound else ret ().

Definition extend (expires : Time) (l : lease_row) : lease_row :=
  mkLeaseRow (le_gateway_id l) (le_device_id l) (le_client_public_key l) (le_assigned_ip_v4 l)
    (le_assigned_ip_v6 l) (le_state l) expires (le_released_at l).

Definition RenewConnection (userID leaseID : string) (leaseTTL : Duration) : M Time :=
  let! lid := uuid_param leaseID in
  let! uid := uuid_param userID in
  let! c := get_clock in
  let expires := now c + pg_interval leaseTTL in
  let! n := update_row Leases lid (active_owned uid) (extend expires) in
  if n =? 0 then fail ErrNotFound else ret expires.

Definition expired (t : Time) (l : lease_row) : bool := is_active l && (le_expires_at l <? t).

Definition ExpireStaleLeases : M Z :=
  let! c := get_clock in
  update Leases (fun _ => expired (now c)) (set_lease_state Expired None).

(** [state = 'active' AND gateway_id IN (SELECT id FROM gateways WHERE status <> 'healthy')] *)
Definition stranded (db : DB) (l : lease_row) : bool :=
  is_active l &&
  match gateways db !! le_gateway_id l with
  | Some g => negb (bool_decide (g_status g = GatewayHealthy))
  | None => false
  end.

Definition ExpireLeasesOnUnhealthyGateways : M Z := update Leases stranded (set_lease_state Expired None).

End operations.
