(* ===== verification/Schema.v ===== *)
(** What the tables satisfy at all times: the constraints the migrations declare,
    and those only the code maintains (a device holds at most one active lease, a
    lease carries its device's key, a redeemed invite names its user). Every
    operation of the store keeps them, whatever its statements' outcomes, when operations
    follow one another; [Contention] and [Races] say which of them overlapping keeps. *)
From S2P Require Import Prelude Floats Model Crypto Alloc Db Session StoreGateways StoreIdentity StoreConnections.

Section schema.
Context `{Postgres}.

Definition active_ip (l : lease_row) : option (string * string) :=
  if is_active l then Some (le_gateway_id l, le_assigned_ip_v4 l) else None.
Definition active_device (l : lease_row) : option string := if is_active l then Some (le_device_id l) else None.

(** A value the column has made of some text. *)
Definition stored (input : string -> option string) (s : string) : Prop := exists t, input t = Some s.
Definition stored_opt (input : string -> option string) (s : option string) : Prop := forall x, s = Some x -> stored input x.

(** The types and the CHECKs of the columns, row by row. *)
Definition user_ok (u : user_row) : Prop := u_status u ∈ ["active"; "suspended"].
Definition device_ok (d : device_row) : Prop := ValidPlatform (d_platform d) = true.
Definition gateway_ok (g : gateway_row) : Prop :=
  0 < g_capacity g < 2 ^ 31 /\ int4_opt (g_bandwidth_mbps g) = true /\ int4 (g_endpoint_port g) = true /\
  int4 (g_active_peers g) = true /\ stored pg_cidr (g_wg_subnet_v4 g) /\ stored_opt pg_cidr (g_wg_subnet_v6 g).
Definition lease_ok (l : lease_row) : Prop :=
  stored pg_inet (le_assigned_ip_v4 l) /\ stored_opt pg_inet (le_assigned_ip_v6 l).
(** Only the code's: redeemed by somebody at some time. *)
Definition invite_ok (i : invite_row) : Prop := i_used_at i = None <-> i_used_by i = None.

Record wf (db : DB) : Prop := {
  wf_emails : unique (fun u => Some (pg_fold (u_email u))) (users db);
  wf_keys : unique (fun d => Some (d_public_key d)) (devices db);
  wf_codes : unique (fun l => Some (l_code l)) (locations db);
  wf_names : unique (fun g => Some (g_name g)) (gateways db);
  wf_hashes : unique (fun t => Some (t_token_hash t)) (refresh_tokens db);
  wf_lease_ip : unique active_ip (leases db);
  wf_lease_device : unique active_device (leases db);
  wf_device_user : refs (fun d => Some (d_user_id d)) (devices db) (users db);
  wf_gateway_location : refs (fun g => Some (g_location_id g)) (gateways db) (locations db);
  wf_lease_gateway : refs (fun l => Some (le_gateway_id l)) (leases db) (gateways db);
  wf_lease_owner : refs (fun l => Some (le_device_id l)) (leases db) (devices db);
  wf_token_device : refs (fun t => Some (t_device_id t)) (refresh_tokens db) (devices db);
  wf_invite_user : refs i_used_by (invite_codes db) (users db);
  wf_user_rows : all_rows user_ok (users db);
  wf_device_rows : all_rows device_ok (devices db);
  wf_gateways : all_rows gateway_ok (gateways db);
  wf_lease_rows : all_rows lease_ok (leases db);
  wf_invites : all_rows invite_ok (invite_codes db);
  wf_snapshot : forall k l d, leases db !! k = Some l -> devices db !! le_device_id l = Some d ->
    le_client_public_key l = d_public_key d
}.

(** A device's key is on one active lease at most. *)
Lemma wf_lease_key db k1 k2 l1 l2 :
  wf db -> leases db !! k1 = Some l1 -> leases db !! k2 = Some l2 -> is_active l1 = true -> is_active l2 = true ->
  le_client_public_key l1 = le_client_public_key l2 -> k1 = k2.
Proof.
  intros Hwf Hk1 Hk2 Ha1 Ha2 Hkey.
  destruct (wf_lease_owner _ Hwf k1 l1 _ Hk1 eq_refl) as [d1 Hd1].
  destruct (wf_lease_owner _ Hwf k2 l2 _ Hk2 eq_refl) as [d2 Hd2].
  rewrite (wf_snapshot _ Hwf _ _ _ Hk1 Hd1), (wf_snapshot _ Hwf _ _ _ Hk2 Hd2) in Hkey.
  assert (Hdev : le_device_id l1 = le_device_id l2)
    by (apply (wf_keys _ Hwf _ _ d1 d2 (d_public_key d1)); [done..|by rewrite Hkey]).
  apply (wf_lease_device _ Hwf k1 k2 l1 l2 (le_device_id l1)); [done|done|unfold active_device..].
  - by rewrite Ha1.
  - by rewrite Ha2, Hdev.
Qed.

(** How a row may change without regard to the rest of the tables. *)
Definition lease_rel (l l' : lease_row) : Prop :=
  le_gateway_id l' = le_gateway_id l /\ le_device_id l' = le_device_id l /\
  le_client_public_key l' = le_client_public_key l /\ le_assigned_ip_v4 l' = le_assigned_ip_v4 l /\
  le_assigned_ip_v6 l' = le_assigned_ip_v6 l /\ (le_state l' = Active -> le_state l = Active).
Definition device_rel (d d' : device_row) : Prop :=
  d_user_id d' = d_user_id d /\ d_public_key d' = d_public_key d /\ d_platform d' = d_platform d /\
  (d_revoked_at d <> None -> d_revoked_at d' <> None).
Definition gateway_rel (g g' : gateway_row) : Prop :=
  g_name g' = g_name g /\ g_location_id g' = g_location_id g /\ g_capacity g' = g_capacity g /\
  g_bandwidth_mbps g' = g_bandwidth_mbps g /\ g_endpoint_port g' = g_endpoint_port g /\
  g_wg_subnet_v4 g' = g_wg_subnet_v4 g /\ g_wg_subnet_v6 g' = g_wg_subnet_v6 g /\
  (int4 (g_active_peers g) = true -> int4 (g_active_peers g') = true).
Definition token_rel (t t' : token_row) : Prop :=
  t_device_id t' = t_device_id t /\ t_token_hash t' = t_token_hash t /\ t_expires_at t' = t_expires_at t /\
  (t_revoked_at t <> None -> t_revoked_at t' <> None).
Definition user_rel (u u' : user_row) : Prop := u_email u' = u_email u /\ u_created_at u' = u_created_at u /\ u_status u' = u_status u.
Definition invite_rel (i i' : invite_row) : Prop :=
  i_expires_at i' = i_expires_at i /\ (i_used_at i <> None -> i' = i).
Definition location_rel (l l' : location_row) : Prop := l_code l' = l_code l /\ l_enabled l' = l_enabled l.
Definition gateway_id_rel (g g' : gateway_row) : Prop := g_name g' = g_name g.

Lemma lease_rel_refl l : lease_rel l l. Proof. by repeat split. Qed.
Lemma device_rel_refl d : device_rel d d. Proof. by repeat split. Qed.
Lemma gateway_rel_refl g : gateway_rel g g. Proof. by repeat split. Qed.
Lemma token_rel_refl t : token_rel t t. Proof. by repeat split. Qed.

Lemma lease_rel_active l l' : lease_rel l l' -> is_active l' = true -> is_active l = true.
Proof. unfold is_active. intros (_ & _ & _ & _ & _ & Ha). rewrite !bool_decide_eq_true. auto. Qed.

Lemma lease_rel_set_state st t l : st <> Active -> lease_rel l (set_lease_state st t l).
Proof. by repeat split. Qed.

Lemma lease_rel_extend t l : lease_rel l (extend t l).
Proof. by repeat split. Qed.

Lemma is_active_set_state st t l : is_active (set_lease_state st t l) = bool_decide (st = Active).
Proof. done. Qed.

(** ** One table at a time *)

Lemma wf_leases_narrow db m : wf db -> narrows lease_rel (leases db) m -> wf (put Leases m db).
Proof.
  intros [] Hn. split; try assumption; simpl.
  - apply (unique_narrows _ lease_rel (leases db)); [|done..].
    intros l l' x Hr. unfold active_ip. pose proof (lease_rel_active _ _ Hr) as Ha.
    destruct Hr as (-> & _ & _ & -> & _). destruct (is_active l'); [|done]. by rewrite Ha.
  - apply (unique_narrows _ lease_rel (leases db)); [|done..].
    intros l l' x Hr. unfold active_device. pose proof (lease_rel_active _ _ Hr) as Ha.
    destruct Hr as (_ & -> & _). destruct (is_active l'); [|done]. by rewrite Ha.
  - apply (refs_narrows _ lease_rel (leases db)); [|done..]. by intros l l' x (-> & _).
  - apply (refs_narrows _ lease_rel (leases db)); [|done..]. by intros l l' x (_ & -> & _).
  - apply (all_rows_narrows _ lease_rel (leases db)); [|done..]. unfold lease_ok. by intros l l' (_ & _ & _ & -> & -> & _).
  - intros k l' d Hk Hd. destruct (Hn _ _ Hk) as (l & Hl & _ & E1 & -> & _).
    rewrite E1 in Hd. eauto.
Qed.

Lemma wf_lease_new db u l :
  wf db -> lease_ok l -> leases db !! u = None -> is_Some (gateways db !! le_gateway_id l) ->
  (exists d, devices db !! le_device_id l = Some d /\ le_client_public_key l = d_public_key d) ->
  (forall k l', leases db !! k = Some l' -> is_active l' = true -> le_device_id l' <> le_device_id l) ->
  find_row (taken (le_gateway_id l) (le_assigned_ip_v4 l)) (leases db) = None ->
  wf (put Leases (<[u := l]> (leases db)) db).
Proof.
  intros [] Hl Hu Hg (d & Hd & Hkey) Hdev Hip. split; try assumption; simpl.
  - apply unique_insert; [|done]. intros k l' x Hl'. unfold active_ip.
    destruct (is_active l') eqn:Ha; [|done]. destruct (is_active l); [|done]. intros [= <-] [= E1 E2].
    pose proof (proj1 (find_row_None _ _) Hip k l' Hl') as Hf. unfold taken, on_gateway in Hf.
    by rewrite Ha, E1, E2, !bool_decide_true in Hf.
  - apply unique_insert; [|done]. intros k l' x Hl'. unfold active_device.
    destruct (is_active l') eqn:Ha; [|done]. destruct (is_active l); [|done]. intros [= <-] [= E].
    by destruct (Hdev k l' Hl' Ha).
  - apply refs_insert; [|done]. by intros x [= <-].
  - apply refs_insert; [|done]. intros x [= <-]. eauto.
  - by apply all_rows_insert.
  - intros k l' d'. destruct (decide (k = u)) as [->|].
    + rewrite lookup_insert_eq. intros [= <-] Hd'. by simplify_eq.
    + rewrite lookup_insert_ne by done. eauto.
Qed.

Lemma wf_devices_narrow db m :
  wf db -> narrows device_rel (devices db) m -> (forall k, is_Some (devices db !! k) -> is_Some (m !! k)) ->
  wf (put Devices m db).
Proof.
  intros [] Hn Hdom. split; try assumption; simpl.
  - apply (unique_narrows _ device_rel (devices db)); [|done..]. by intros d d' x (_ & -> & _).
  - apply (refs_narrows _ device_rel (devices db)); [|done..]. by intros d d' x (-> & _).
  - by apply (refs_parent _ _ (devices db)).
  - by apply (refs_parent _ _ (devices db)).
  - apply (all_rows_narrows _ device_rel (devices db)); [|done..]. unfold device_ok. by intros d d' (_ & _ & -> & _).
  - intros k l d' Hk Hd. destruct (Hn _ _ Hd) as (d & Hd0 & _ & -> & _). eauto.
Qed.

Lemma wf_device_new db u d :
  wf db -> device_ok d -> devices db !! u = None -> is_Some (users db !! d_user_id d) ->
  find_row (fun d' => bool_decide (d_public_key d' = d_public_key d)) (devices db) = None ->
  wf (put Devices (<[u := d]> (devices db)) db).
Proof.
  intros Hwf Hd Hu Huser Hkey. destruct Hwf. split; try assumption; simpl.
  - apply unique_insert; [|done]. intros k d' x Hd' [= <-] [= E].
    pose proof (proj1 (find_row_None _ _) Hkey k d' Hd') as Hf. simpl in Hf. to_prop. congruence.
  - apply refs_insert; [|done]. by intros x [= <-].
  - apply (refs_parent _ _ (devices db)); [|done]. intros x. apply is_Some_insert.
  - apply (refs_parent _ _ (devices db)); [|done]. intros x. apply is_Some_insert.
  - by apply all_rows_insert.
  - intros k l d' Hk. destruct (decide (le_device_id l = u)) as [E|].
    + destruct (wf_lease_owner0 k l _ Hk eq_refl) as [x Hx]. congruence.
    + rewrite lookup_insert_ne by done. eauto.
Qed.

Lemma wf_tokens_narrow db m :
  wf db -> narrows token_rel (refresh_tokens db) m -> wf (put RefreshTokens m db).
Proof.
  intros [] Hn. split; try assumption; simpl.
  - apply (unique_narrows _ token_rel (refresh_tokens db)); [|done..]. by intros t t' x (_ & -> & _).
  - apply (refs_narrows _ token_rel (refresh_tokens db)); [|done..]. by intros t t' x (-> & _).
Qed.

Lemma wf_token_new db u t :
  wf db -> token_ok (t_device_id t) (t_token_hash t) db = true ->
  wf (put RefreshTokens (<[u := t]> (refresh_tokens db)) db).
Proof.
  intros [] Hok. unfold token_ok in Hok.
  destruct (find_row _ _) eqn:Ef; [done|]. destruct (devices db !! t_device_id t) eqn:Ed; [|done].
  split; try assumption; simpl.
  - apply unique_insert; [|done]. intros k t' x Ht' [= <-] [= E].
    pose proof (proj1 (find_row_None _ _) Ef k t' Ht') as Hf. simpl in Hf. to_prop. congruence.
  - apply refs_insert; [|done]. intros x [= <-]. eauto.
Qed.

Lemma wf_users_insert db k u :
  wf db -> user_ok u ->
  (forall k' u', users db !! k' = Some u' -> pg_fold (u_email u') = pg_fold (u_email u) -> k' = k) ->
  wf (put Users (<[k := u]> (users db)) db).
Proof.
  intros [] Hu Hk. split; try assumption; simpl.
  - apply unique_insert; [|done]. intros k' u' x Hu' [= <-] [= E]. eauto.
  - apply (refs_parent _ _ (users db)); [|done]. intros x. apply is_Some_insert.
  - apply (refs_parent _ _ (users db)); [|done]. intros x. apply is_Some_insert.
  - by apply all_rows_insert.
Qed.

Lemma wf_invite_insert db k i :
  wf db -> invite_ok i -> (forall u, i_used_by i = Some u -> is_Some (users db !! u)) ->
  wf (put Invites (<[k := i]> (invite_codes db)) db).
Proof.
  intros [] Hi Hu. split; try assumption; simpl.
  - by apply refs_insert.
  - by apply all_rows_insert.
Qed.

Lemma wf_location_insert db k l :
  wf db -> (forall k' l', locations db !! k' = Some l' -> l_code l' = l_code l -> k' = k) ->
  wf (put Locations (<[k := l]> (locations db)) db).
Proof.
  intros [] Hk. split; try assumption; simpl.
  - apply unique_insert; [|done]. intros k' l' x Hl' [= <-] [= E]. eauto.
  - apply (refs_parent _ _ (locations db)); [|done]. intros x. apply is_Some_insert.
Qed.

Lemma wf_gateways_narrow db m :
  wf db -> narrows gateway_rel (gateways db) m -> (forall k, is_Some (gateways db !! k) -> is_Some (m !! k)) ->
  wf (put Gateways m db).
Proof.
  intros [] Hn Hdom. split; try assumption; simpl.
  - apply (unique_narrows _ gateway_rel (gateways db)); [|done..]. by intros d d' x (-> & _).
  - apply (refs_narrows _ gateway_rel (gateways db)); [|done..]. by intros d d' x (_ & -> & _).
  - by apply (refs_parent _ _ (gateways db)).
  - apply (all_rows_narrows _ gateway_rel (gateways db)); [|done..].
    unfold gateway_ok. intros g g' (_ & _ & -> & -> & -> & -> & -> & Ha) (? & ? & ? & ? & ?). auto 6.
Qed.

Lemma wf_gateway_insert db k g :
  wf db -> (forall k' g', gateways db !! k' = Some g' -> g_name g' = g_name g -> k' = k) ->
  gateway_ok g -> is_Some (locations db !! g_location_id g) ->
  wf (put Gateways (<[k := g]> (gateways db)) db).
Proof.
  intros [] Hk Hg Hl. split; try assumption; simpl.
  - apply unique_insert; [|done]. intros k' g' x Hg' [= <-] [= E]. eauto.
  - apply refs_insert; [|done]. by intros x [= <-].
  - apply (refs_parent _ _ (gateways db)); [|done]. intros x. apply is_Some_insert.
  - by apply all_rows_insert.
Qed.

Lemma wf_empty : wf empty_db.
Proof. split; try by intros ?. all: by repeat intros ?. Qed.

(** ** What never comes back: rows are only added, and change along their relation *)

Definition grows {R} (rel : R -> R -> Prop) (m m' : gmap string R) : Prop :=
  forall k r, m !! k = Some r -> exists r', m' !! k = Some r' /\ rel r r'.

Record evolves (db db' : DB) : Prop := {
  ev_users : grows user_rel (users db) (users db');
  ev_invites : grows invite_rel (invite_codes db) (invite_codes db');
  ev_devices : grows device_rel (devices db) (devices db');
  ev_locations : grows location_rel (locations db) (locations db');
  ev_gateways : grows gateway_id_rel (gateways db) (gateways db');
  ev_leases : grows lease_rel (leases db) (leases db');
  ev_tokens : grows token_rel (refresh_tokens db) (refresh_tokens db')
}.

Lemma grows_refl {R} (rel : R -> R -> Prop) `{!Reflexive rel} m : grows rel m m.
Proof. intros k r. eauto. Qed.

Lemma grows_trans {R} (rel : R -> R -> Prop) `{!Transitive rel} m1 m2 m3 :
  grows rel m1 m2 -> grows rel m2 m3 -> grows rel m1 m3.
Proof.
  intros H1 H2 k r Hk. destruct (H1 _ _ Hk) as (r' & Hk' & ?). destruct (H2 _ _ Hk') as (r'' & ? & ?).
  exists r''. split; [done|]. by transitivity r'.
Qed.

Lemma grows_insert {R} (rel : R -> R -> Prop) `{!Reflexive rel} m k r :
  (forall r0, m !! k = Some r0 -> rel r0 r) -> grows rel m (<[k := r]> m).
Proof.
  intros Hrel k' r' Hk'. destruct (decide (k' = k)) as [->|].
  - rewrite lookup_insert_eq. eauto.
  - rewrite lookup_insert_ne by done. eauto.
Qed.

Lemma grows_update_where {R} (rel : R -> R -> Prop) `{!Reflexive rel} p f m :
  (forall r, p r = true -> rel r (f r)) -> grows rel m (update_where p f m).
Proof.
  intros Hrel k r Hk. rewrite lookup_update_where, Hk. simpl. eexists. split; [done|].
  destruct (p r) eqn:E; eauto.
Qed.

#[export] Instance user_rel_pre : PreOrder user_rel.
Proof. split; [by repeat split|]. intros x y z (? & ? & ?) (? & ? & ?). repeat split; congruence. Qed.
#[export] Instance invite_rel_pre : PreOrder invite_rel.
Proof.
  split; [by repeat split|]. intros x y z (E1 & H1) (E2 & H2). split; [congruence|].
  intros Hx. rewrite (H1 Hx) in *. auto.
Qed.
#[export] Instance device_rel_pre : PreOrder device_rel.
Proof. split; [by repeat split|]. intros x y z (? & ? & ? & ?) (? & ? & ? & ?). repeat split; try congruence; auto. Qed.
#[export] Instance location_rel_pre : PreOrder location_rel.
Proof. split; [by repeat split|]. intros x y z (? & ?) (? & ?). split; congruence. Qed.
#[export] Instance gateway_id_rel_pre : PreOrder gateway_id_rel.
Proof. split; [done|]. unfold gateway_id_rel. intros x y z ? ?. congruence. Qed.
#[export] Instance lease_rel_pre : PreOrder lease_rel.
Proof.
  split; [by repeat split|].
  intros x y z (? & ? & ? & ? & ? & ?) (? & ? & ? & ? & ? & ?). repeat split; try congruence; auto.
Qed.
#[export] Instance token_rel_pre : PreOrder token_rel.
Proof.
  split; [by repeat split|]. intros x y z (? & ? & ? & ?) (? & ? & ? & ?). repeat split; try congruence; auto.
Qed.

#[export] Instance evolves_pre : PreOrder evolves.
Proof.
  split.
  - intros db. split; by apply grows_refl; apply _.
  - intros x y z [] []. split; eapply grows_trans; eauto; apply _.
Qed.

(** Changing one table along its relation. *)
Lemma evolves_users db m : grows user_rel (users db) m -> evolves db (put Users m db).
Proof. intros Hm. destruct (reflexivity db : evolves db db). by split. Qed.
Lemma evolves_invites db m : grows invite_rel (invite_codes db) m -> evolves db (put Invites m db).
Proof. intros Hm. destruct (reflexivity db : evolves db db). by split. Qed.
Lemma evolves_devices db m : grows device_rel (devices db) m -> evolves db (put Devices m db).
Proof. intros Hm. destruct (reflexivity db : evolves db db). by split. Qed.
Lemma evolves_locations db m : grows location_rel (locations db) m -> evolves db (put Locations m db).
Proof. intros Hm. destruct (reflexivity db : evolves db db). by split. Qed.
Lemma evolves_gateways db m : grows gateway_id_rel (gateways db) m -> evolves db (put Gateways m db).
Proof. intros Hm. destruct (reflexivity db : evolves db db). by split. Qed.
Lemma evolves_leases db m : grows lease_rel (leases db) m -> evolves db (put Leases m db).
Proof. intros Hm. destruct (reflexivity db : evolves db db). by split. Qed.
Lemma evolves_tokens db m : grows token_rel (refresh_tokens db) m -> evolves db (put RefreshTokens m db).
Proof. intros Hm. destruct (reflexivity db : evolves db db). by split. Qed.

(** Both at once: the tables satisfy their constraints and have evolved from [db0]. *)
Definition sound (db0 db : DB) : Prop := wf db /\ evolves db0 db.

(** One statement's effect keeps both. *)
Definition good (db db' : DB) : Prop := wf db' /\ evolves db db'.

Lemma sound_good db0 db db' : sound db0 db -> good db db' -> sound db0 db'.
Proof. intros [_ ?] [? ?]. split; [done|]. by transitivity db. Qed.

Lemma good_leases_update db p f :
  wf db -> (forall l, lease_rel l (f l)) -> good db (put Leases (update_where p f (leases db)) db).
Proof.
  intros Hwf Hf. split.
  - apply wf_leases_narrow; [done|]. apply narrows_update_where; [apply lease_rel_refl|auto].
  - apply evolves_leases, grows_update_where; [apply _|auto].
Qed.

Lemma good_lease_row db k l l' :
  wf db -> leases db !! k = Some l -> lease_rel l l' -> good db (put Leases (<[k := l']> (leases db)) db).
Proof.
  intros Hwf Hk Hl. split.
  - apply wf_leases_narrow; [done|]. by eapply narrows_insert; [apply lease_rel_refl| |].
  - apply evolves_leases, grows_insert; [apply _|]. intros r0 Hr. by simplify_eq.
Qed.

Lemma good_device_row db k d d' :
  wf db -> devices db !! k = Some d -> device_rel d d' -> good db (put Devices (<[k := d']> (devices db)) db).
Proof.
  intros Hwf Hk Hd. split.
  - apply wf_devices_narrow; [done|by eapply narrows_insert; [apply device_rel_refl| |]|].
    intros x. apply is_Some_insert.
  - apply evolves_devices, grows_insert; [apply _|]. intros r0 Hr. by simplify_eq.
Qed.

Lemma good_tokens_update db p f :
  wf db -> (forall t, token_rel t (f t)) -> good db (put RefreshTokens (update_where p f (refresh_tokens db)) db).
Proof.
  intros Hwf Hf. split.
  - apply wf_tokens_narrow; [done|]. apply narrows_update_where; [apply token_rel_refl|auto].
  - apply evolves_tokens, grows_update_where; [apply _|auto].
Qed.

Lemma good_gateways_update db p f :
  wf db -> (forall g, gateway_rel g (f g)) -> good db (put Gateways (update_where p f (gateways db)) db).
Proof.
  intros Hwf Hf. split.
  - apply wf_gateways_narrow; [done| |intros k; apply is_Some_update_where].
    apply narrows_update_where; [apply gateway_rel_refl|auto].
  - apply evolves_gateways, grows_update_where; [apply _|]. intros g _. apply Hf.
Qed.

End schema.
