(* ===== verification/Facts.v ===== *)
(** What a successful run of each compound operation of the store has done to the
    tables: the functional core the properties and the soundness of the steps share. *)
From S2P Require Import Prelude Floats Model Selection GoStrings NetAddr Crypto Alloc Db Session StoreGateways StoreIdentity StoreConnections Schema.

Section facts.
Context `{PostgresOrder}.

(** A query whose condition determines the row. *)
Lemma head_pg_rows_option {A} (o : option A) : head (pg_rows (option_list o)) = o.
Proof.
  destruct o as [x|]; simpl.
  - pose proof (pg_rows_Permutation _ [x]) as Hp. by apply Permutation_singleton_r in Hp as ->.
  - pose proof (pg_rows_Permutation A []) as Hp. by apply Permutation_nil_r in Hp as ->.
Qed.

Lemma head_pg_rows_elem {A} (l : list A) x : head (pg_rows l) = Some x -> x ∈ l.
Proof.
  intros Hh. rewrite <- (pg_rows_Permutation _ l). destruct (pg_rows l); [done|]. simpl in Hh.
  simplify_eq. by left.
Qed.

Lemma head_pg_rows_None {A} (l : list A) : head (pg_rows l) = None <-> l = [].
Proof.
  pose proof (pg_rows_Permutation _ l) as Hp. split.
  - intros Hh. destruct (pg_rows l); [|done]. by apply Permutation_nil_l in Hp.
  - intros ->. by apply Permutation_nil_r in Hp as ->.
Qed.

(** The first row of a query with one answer. *)
Lemma head_pg_rows_only {A} (l : list A) x : x ∈ l -> (forall y, y ∈ l -> y = x) -> head (pg_rows l) = Some x.
Proof.
  intros Hx Hy. destruct (head (pg_rows l)) as [y|] eqn:E.
  - by rewrite (Hy y (head_pg_rows_elem _ _ E)).
  - apply head_pg_rows_None in E as ->. by apply elem_of_nil in Hx.
Qed.

Lemma newRefreshToken_yields c did ttl db plain db' :
  yields c (newRefreshToken did ttl) db plain db' ->
  exists u, refresh_tokens db !! u = None /\ token_ok did (HashToken plain) db = true /\
    db' = put RefreshTokens
            (<[u := mkTokenRow did (HashToken plain) (now c + pg_interval ttl) None]> (refresh_tokens db)) db.
Proof. unfold newRefreshToken. intros Hy. yields_inv. eauto. Qed.

Lemma insert_device_Ok u uid r t db x db' :
  insert_device u uid r t db = Ok (x, db') ->
  ValidPlatform (dr_Platform r) = true /\ devices db !! u = None /\
  find_row (fun d => bool_decide (d_public_key d = dr_PublicKey r)) (devices db) = None /\
  is_Some (users db !! uid) /\
  db' = put Devices (<[u := mkDeviceRow uid (dr_Name r) (dr_Platform r) (dr_PublicKey r) t None None]>
                       (devices db)) db.
Proof.
  unfold insert_device. destruct (ValidPlatform _); [|done]. simpl.
  destruct (devices db !! u); [done|]. destruct (find_row _ _); [done|].
  destruct (users db !! uid) eqn:E; [|done]. intros [= <- <-]. eauto 10.
Qed.

Lemma insertDevice_yields c userID uid r db d db' :
  yields c (insertDevice userID uid r) db d db' ->
  insert_device (dev_ID d) uid r (now c) db = Ok ((), db') /\
  d = mkDevice (dev_ID d) userID (dr_Name r) (dr_Platform r) (dr_PublicKey r) (now c) None None.
Proof. unfold insertDevice. intros Hy. yields_inv. split; [|done].
  match goal with Hi : insert_device _ _ _ _ _ = Ok (?x, _) |- _ => by destruct x end.
Qed.

Lemma upsert_user_Ok u0 email disp t db u db1 :
  upsert_user u0 email disp t db = Ok (u, db1) ->
  exists row, db1 = put Users (<[usr_ID u := row]> (users db)) db /\
    u = mkUser (usr_ID u) (u_email row) (default "" (u_display_name row)) (u_status row) (u_created_at row) /\
    match users db !! usr_ID u with
    | Some old =>
        pg_fold (u_email old) = pg_fold email /\
        row = mkUserRow (u_email old) (match disp with Some d => Some d | None => u_display_name old end)
                (u_status old) (u_created_at old) (u_password_hash old)
    | None => find_row (email_is email) (users db) = None /\ row = mkUserRow email disp "active" t None
    end.
Proof.
  unfold upsert_user. destruct (find_row _ _) as [[k r]|] eqn:Ef.
  - intros [= <- <-]. apply find_row_Some in Ef as [Hk He]. unfold email_is in He. to_prop.
    eexists. split; [done|]. split; [done|]. simpl. by rewrite Hk.
  - destruct (users db !! u0) eqn:Eu; [done|]. intros [= <- <-].
    eexists. split; [done|]. split; [done|]. simpl. by rewrite Eu.
Qed.

(** Enrolment: the invite was open, and the four tables have changed together. *)
Lemma Enroll_yields c req ttl db u d plain db' :
  yields c (Enroll_tx req ttl) db (u, d, plain) db' ->
  exists i u0 db1 db2 t,
    invite_codes db !! er_InviteCode req = Some i /\ invite_open (time_Now c) i = true /\
    upsert_user u0 (er_Email req) (nilIfEmpty (er_DisplayName req)) (now c) db = Ok (u, db1) /\
    insert_device (dev_ID d) (usr_ID u) (er_Device req) (now c) db1 = Ok ((), db2) /\
    d = mkDevice (dev_ID d) (usr_ID u) (dr_Name (er_Device req)) (dr_Platform (er_Device req))
          (dr_PublicKey (er_Device req)) (now c) None None /\
    refresh_tokens db !! t = None /\
    token_ok (dev_ID d) (HashToken plain) (put Invites (<[er_InviteCode req := use_invite (usr_ID u) (now c) i]>
       (invite_codes db)) db2) = true /\
    db' = put RefreshTokens
            (<[t := mkTokenRow (dev_ID d) (HashToken plain) (now c + pg_interval ttl) None]> (refresh_tokens db))
            (put Invites (<[er_InviteCode req := use_invite (usr_ID u) (now c) i]> (invite_codes db)) db2).
Proof.
  unfold Enroll_tx. intros Hy. yields_inv.
  unfold find_invite in Hy. rewrite head_pg_rows_option in Hy.
  destruct (invite_codes db !! er_InviteCode req) as [i|] eqn:Ei; [|yields_inv].
  destruct (invite_open _ i) eqn:Eo; [|yields_inv]. yields_inv. simplify_eq.
  match goal with Hu : upsert_user ?u0 _ _ _ _ = Ok (_, ?db1) |- _ =>
    pose proof Hu as Hu'; exists i, u0, db1; apply upsert_user_Ok in Hu' as (row & -> & _) end.
  match goal with Hd : yields _ (insertDevice _ _ _) _ _ ?db2 |- _ =>
    apply insertDevice_yields in Hd as [Hd ?]; exists db2; pose proof Hd as Hd';
    apply insert_device_Ok in Hd' as (_ & _ & _ & _ & ->) end.
  match goal with Hi : yields _ (update_row _ _ _ _) _ _ _ |- _ =>
    apply yields_update_row in Hi as [(i' & Hi' & _ & _ & ->)|(Hf & _)] end.
  - match goal with Ht : yields _ (newRefreshToken _ _) _ _ _ |- _ =>
      apply newRefreshToken_yields in Ht as (t & Hnt & Hok & ->) end.
    exists t. simpl in *. rewrite Ei in Hi'. simplify_eq. splits; done.
  - exfalso. specialize (Hf i). simpl in Hf. by discriminate Hf.
Qed.

Lemma owned_live_revoked uid d : d_revoked_at d <> None -> owned_live uid d = false.
Proof.
  intros Hr. unfold owned_live, not_revoked. rewrite (bool_decide_false _ Hr). apply andb_false_r.
Qed.

Lemma RefreshAccess_yields c plain db uid did db' :
  yields c (RefreshAccess plain) db (uid, did) db' ->
  exists k x d, refresh_tokens db !! k = Some x /\ t_token_hash x = HashToken plain /\
    t_revoked_at x = None /\ now c < t_expires_at x /\ t_device_id x = did /\
    devices db !! did = Some d /\ d_user_id d = uid /\ d_revoked_at d = None.
Proof.
  unfold RefreshAccess. intros Hy. yields_inv.
  match type of Hy with yields ?c' _ _ _ _ => rename c' into c end.
  destruct (head _) as [[u' d']|] eqn:Eh; [|yields_inv]. yields_inv. simplify_eq.
  apply head_pg_rows_elem in Eh as Hin.
  unfold refreshable in Hin. apply list_elem_of_omap in Hin as ([k tk] & Hk & Htk). simpl in Htk.
  apply elem_of_map_to_list in Hk.
  destruct (_ && _) eqn:Ec; [|done]. to_prop.
  destruct (devices db !! t_device_id tk) as [d|] eqn:Ed; [|done].
  destruct (not_revoked d) eqn:En; [|done]. unfold not_revoked in En. to_prop. simplify_eq.
  exists k, tk, d. splits; done.
Qed.

(** The tables with the leases of a device released. *)
Definition released (did : string) (t : Time) (db : DB) : DB :=
  put Leases (update_where (active_of did) (set_lease_state Released (Some t)) (leases db)) db.

(** The addresses in use on a gateway. *)
Definition used_addrs (gid : string) (db : DB) : gset Z := list_to_set (omap host_addr (active_hosts gid db)).

Lemma usedHostAddrs_yields c gid db used db' :
  yields c (usedHostAddrs gid) db used db' -> used = used_addrs gid db /\ db' = db.
Proof.
  unfold usedHostAddrs. intros Hy. yields_inv. split; [|done]. unfold used_addrs.
  pose proof (pg_rows_Permutation _ (active_hosts gid db)) as Hp.
  apply leibniz_equiv. intros a. rewrite !elem_of_list_to_set. by rewrite Hp.
Qed.

Lemma usedHostAddrs_fine c gid db us rs :
  usedHostAddrs gid c (mkSession db [] us rs) = (Ok (used_addrs gid db), mkSession db [] us rs).
Proof.
  unfold usedHostAddrs. eapply bind_run; [apply query_all_fine|]. unfold ret. f_equal. f_equal.
  unfold used_addrs. pose proof (pg_rows_Permutation _ (active_hosts gid db)) as Hp.
  apply leibniz_equiv. intros a. rewrite !elem_of_list_to_set. by rewrite Hp.
Qed.

Lemma size_used_addrs gid db : Z.of_nat (size (used_addrs gid db)) <= lease_count db gid.
Proof.
  unfold used_addrs, lease_count. rewrite rows_affected_select. apply inj_le.
  etransitivity; [apply size_list_to_set_le|].
  assert (Ho : forall l : list string, (length (omap host_addr l) <= length l)%nat).
  { induction l as [|x l IH]; csimpl; [done|]. destruct (host_addr x); csimpl; lia. }
  etransitivity; [apply Ho|]. unfold active_hosts. by rewrite length_fmap.
Qed.

Lemma device_key_option did uid db :
  device_key did uid db =
  option_list (match devices db !! did with
               | Some d => if owned_live uid d then Some (d_public_key d) else None
               | None => None
               end).
Proof. unfold device_key. destruct (devices db !! did) as [d|]; [|done]. by destruct (owned_live uid d). Qed.

Lemma elem_of_join_locations id g l db :
  ((id, g), l) ∈ join_locations db <-> gateways db !! id = Some g /\ locations db !! g_location_id g = Some l.
Proof.
  unfold join_locations. rewrite list_elem_of_omap. split.
  - intros ([id' g'] & Hin & Hl). simpl in Hl. apply elem_of_map_to_list in Hin.
    destruct (locations db !! g_location_id g') eqn:E; by simplify_eq/=.
  - intros [Hg Hl]. exists (id, g). split; [by apply elem_of_map_to_list|]. simpl. by rewrite Hl.
Qed.

Definition cand_id (c : gwCandidate) : string := ID (cand_g c).

Lemma elem_of_candidates t ttl country db c :
  c ∈ candidates t ttl country db <->
  exists id g l, c = scan_candidate db ((id, g), l) /\ gateways db !! id = Some g /\
    locations db !! g_location_id g = Some l /\ fresh t ttl country ((id, g), l) = true.
Proof.
  unfold candidates. rewrite list_elem_of_fmap. split.
  - intros ([[id g] l] & -> & Hin). apply list_elem_of_In, filter_In in Hin as [Hin Hf].
    apply list_elem_of_In, elem_of_join_locations in Hin as [Hg Hl]. eauto 10.
  - intros (id & g & l & -> & Hg & Hl & Hf). exists ((id, g), l). split; [done|].
    apply list_elem_of_In, filter_In. split; [|done].
    by apply list_elem_of_In, elem_of_join_locations.
Qed.

Lemma NoDup_candidates t ttl country db : NoDup (cand_id <$> candidates t ttl country db).
Proof.
  unfold candidates, join_locations. pose proof (NoDup_fst_map_to_list (gateways db)) as Hnd.
  induction (map_to_list (gateways db)) as [|[id g] rows IH]; simpl; [constructor|].
  simpl in Hnd. apply NoDup_cons in Hnd as [Hnew Hnd]. specialize (IH Hnd).
  destruct (locations db !! g_location_id g) as [l|]; simpl; [|done].
  destruct (fresh _ _ _ _); [|done]. simpl. apply NoDup_cons. split; [|done].
  intros Hin. apply Hnew. apply list_elem_of_fmap.
  apply list_elem_of_fmap in Hin as (c & Hc & Hin). apply list_elem_of_fmap in Hin as ([[id' g'] l'] & -> & Hin).
  apply list_elem_of_In, filter_In in Hin as [Hin _]. apply list_elem_of_In, list_elem_of_omap in Hin.
  destruct Hin as ([id2 g2] & Hin & Hl2). exists (id2, g2). split; [|done].
  simpl in *. destruct (locations db !! g_location_id g2); by simplify_eq/=.
Qed.

Lemma by_id_lookup (cs : list gwCandidate) c :
  NoDup (cand_id <$> cs) -> c ∈ cs -> by_id cs !! cand_id c = Some c.
Proof.
  unfold by_id. revert c. induction cs as [|c' cs IH] using rev_ind; intros c Hnd Hin; [by apply elem_of_nil in Hin|].
  rewrite foldl_app. simpl. rewrite fmap_app in Hnd. apply NoDup_app in Hnd as (Hnd & Hdisj & _).
  apply elem_of_app in Hin as [Hin|Hin].
  - rewrite lookup_insert_ne; [by apply IH|]. intros E. apply (Hdisj (cand_id c)).
    + by apply list_elem_of_fmap_2.
    + apply list_elem_of_singleton. symmetry. exact E.
  - apply list_elem_of_singleton in Hin as ->. apply lookup_insert_eq.
Qed.

(** The candidate [Best] picks is found again in [byID]. *)
Lemma chosen_candidate t ttl country db cs best :
  cs ≡ₚ candidates t ttl country db -> Best (cand_g <$> cs) = Some best ->
  exists id g l,
    default zero_candidate (by_id cs !! ID best) = scan_candidate db ((id, g), l) /\
    best = cand_g (scan_candidate db ((id, g), l)) /\
    gateways db !! id = Some g /\ locations db !! g_location_id g = Some l /\
    fresh t ttl country ((id, g), l) = true /\ selectable best = true.
Proof.
  intros Hcs Hbest. apply Best_Some_selectable in Hbest as [Hin Hsel].
  apply list_elem_of_fmap in Hin as (c & -> & Hin).
  assert (Hby : by_id cs !! ID (cand_g c) = Some c).
  { apply by_id_lookup; [|done]. rewrite Hcs. apply NoDup_candidates. }
  rewrite Hby. rewrite Hcs in Hin. apply elem_of_candidates in Hin as (id & g & l & -> & Hg & Hl & Hf).
  by exists id, g, l.
Qed.

Lemma insert_lease_Ok u gid did pub v4 v6 expires db x db' :
  insert_lease u gid did pub v4 v6 expires db = Ok (x, db') ->
  exists ip4 ip6, pg_inet v4 = Some ip4 /\ inet_opt v6 = Some ip6 /\
    is_Some (gateways db !! gid) /\ is_Some (devices db !! did) /\ leases db !! u = None /\
    find_row (taken gid ip4) (leases db) = None /\
    db' = put Leases (<[u := mkLeaseRow gid did pub ip4 ip6 Active expires None]> (leases db)) db.
Proof.
  unfold insert_lease. destruct (pg_inet v4) as [ip4|]; [|done]. destruct (inet_opt v6) as [ip6|]; [|done].
  destruct (gateways db !! gid) eqn:Eg; [|done]. destruct (devices db !! did) eqn:Ed; [|done].
  destruct (leases db !! u) eqn:Eu; [done|]. destruct (find_row _ _) eqn:Ef; [done|].
  intros [= <- <-]. exists ip4, ip6. eauto 10.
Qed.

(** A connection: the device is the caller's and live, its old leases are released,
    the gateway is the best of the candidates, the address the lowest one free
    there, and the lease recorded. *)
Definition connected (c : Clock) (userID deviceID country : string) (leaseTTL heartbeatTTL : Duration)
    (db : DB) (conn : Connection) (db' : DB) : Prop :=
  exists did uid d gid g l v4 v6 ip4 ip6,
    let db1 := released did (now c) db in
    let chosen := scan_candidate db1 ((gid, g), l) in
    let expires := now c + pg_interval leaseTTL in
    pg_uuid deviceID = Some did /\ pg_uuid userID = Some uid /\
    devices db !! did = Some d /\ owned_live uid d = true /\
    gateways db !! gid = Some g /\ locations db !! g_location_id g = Some l /\
    fresh (now c) heartbeatTTL country ((gid, g), l) = true /\
    selectable (cand_g chosen) = true /\
    Best (cand_g <$> pg_rows (candidates (now c) heartbeatTTL country db1)) = Some (cand_g chosen) /\
    allocateHost (g_wg_subnet_v4 g) (g_wg_subnet_v6 g) (used_addrs gid db1) = Ok (v4, v6) /\
    pg_inet v4 = Some ip4 /\ inet_opt v6 = Some ip6 /\
    leases db1 !! conn_ID conn = None /\
    find_row (taken gid ip4) (leases db1) = None /\
    conn = connection (conn_ID conn) expires chosen v4 v6 /\
    db' = put Leases (<[conn_ID conn := mkLeaseRow gid did (d_public_key d) ip4 ip6 Active expires None]>
                        (leases db1)) db1.

Lemma CreateConnection_yields c userID deviceID country leaseTTL heartbeatTTL db conn db' :
  yields c (CreateConnection_tx userID deviceID country leaseTTL heartbeatTTL) db conn db' ->
  connected c userID deviceID country leaseTTL heartbeatTTL db conn db'.
Proof.
  unfold CreateConnection_tx. intros Hy. yields_inv.
  rewrite device_key_option, head_pg_rows_option in Hy.
  match goal with Hd : pg_uuid deviceID = Some ?x |- _ => rename x into did end.
  match goal with Hd : pg_uuid userID = Some ?x |- _ => rename x into uid end.
  destruct (devices db !! did) as [d|] eqn:Ed; [|yields_inv].
  destruct (owned_live uid d) eqn:Eo; [|yields_inv]. yields_inv.
  match goal with _ : yields ?c0 _ _ _ _ |- _ => rename c0 into c end.
  fold (released did (now c) db) in *. set (db1 := released did (now c) db) in *.
  destruct (Best _) as [best|] eqn:Eb; [|yields_inv].
  destruct (chosen_candidate _ _ _ _ _ _ (pg_rows_Permutation _ _) Eb)
    as (gid & g & l & Ec & -> & Hg & Hl & Hf & Hsel).
  rewrite Ec in Hy. yields_inv. simpl in *.
  match goal with Hu : yields _ (usedHostAddrs _) _ _ _ |- _ => apply usedHostAddrs_yields in Hu as [-> ->] end.
  repeat match goal with p : (string * option string)%type |- _ => destruct p as [v4 v6] end.
  yields_inv.
  match goal with Hi : insert_lease _ _ _ _ _ _ _ _ = Ok _ |- _ =>
    apply insert_lease_Ok in Hi as (ip4 & ip6 & ? & ? & _ & _ & ? & ? & ->) end.
  exists did, uid, d, gid, g, l, v4, v6, ip4, ip6. cbn zeta. fold db1. splits; done.
Qed.

(** The one gateway a token is the token of. *)
Lemma only_row db h gid g :
  gateways db !! gid = Some g -> live_token h g = true ->
  (forall k g', gateways db !! k = Some g' -> g_agent_token_hash g' = Some h -> k = gid) ->
  head (pg_rows (select_rows (live_token h) (gateways db))) = Some (gid, g).
Proof.
  intros Hg Hl Honly. apply head_pg_rows_only; [by apply elem_of_select_rows|].
  intros [k g'] [Hk Hl']%elem_of_select_rows. unfold live_token in Hl'. to_prop.
  assert (k = gid) as -> by eauto. congruence.
Qed.

Lemma only_gateway db h gid g :
  gateways db !! gid = Some g -> live_token h g = true ->
  (forall k g', gateways db !! k = Some g' -> g_agent_token_hash g' = Some h -> k = gid) ->
  head (pg_rows (gateway_of_token h db)) = Some gid.
Proof.
  intros Hg Hl Honly. apply head_pg_rows_only.
  - apply list_elem_of_fmap. exists (gid, g). split; [done|]. by apply elem_of_select_rows.
  - intros k ([k' g'] & -> & [Hk Hl']%elem_of_select_rows)%list_elem_of_fmap. unfold live_token in Hl'. to_prop. eauto.
Qed.

End facts.
