(* ===== verification/Steps.v ===== *)
(** The store as a transition system: every operation, with whatever outcome of its
    statements, keeps the constraints of [Schema] and only lets the tables evolve. *)
From S2P Require Import Prelude Floats Model Selection GoStrings NetAddr Crypto Alloc Db Session StoreGateways StoreIdentity StoreConnections Schema Facts.

Section operations_sound.
Context `{Postgres} (db0 : DB).
Abbreviation keeps m := (preserves (sound db0) m).

Lemma keeps_stmt {A} (f : DB -> result StoreError (A * DB)) :
  (forall db a db', wf db -> f db = Ok (a, db') -> good db db') -> keeps (stmt f).
Proof.
  intros Hf. apply preserves_stmt. intros db a db' Hs Hdb. eapply sound_good; [done|].
  eapply Hf; [apply Hs|done].
Qed.

Lemma keeps_update {R} (t : Table R) p f :
  (forall db, wf db -> good db (put t (update_where (p db) f (get t db)) db)) -> keeps (update t p f).
Proof. intros Hf. apply keeps_stmt. intros db a db' Hwf [= <- <-]. auto. Qed.

Lemma good_refl db : wf db -> good db db.
Proof. by split. Qed.

Lemma keeps_update_row {R} (t : Table R) k p f :
  (forall db r, wf db -> get t db !! k = Some r -> good db (put t (<[k := f r]> (get t db)) db)) ->
  keeps (update_row t k p f).
Proof.
  intros Hf. apply keeps_stmt. intros db a db' Hwf. destruct (get t db !! k) as [r|] eqn:E.
  - destruct (p db r); intros [= <- <-]; eauto using good_refl.
  - intros [= <- <-]. by apply good_refl.
Qed.

Lemma keeps_insert_row {R} (t : Table R) k r ok :
  (forall db, wf db -> get t db !! k = None -> ok db = true -> good db (put t (<[k := r]> (get t db)) db)) ->
  keeps (insert_row t k r ok).
Proof.
  intros Hf. apply keeps_stmt. intros db a db' Hwf.
  destruct (get t db !! k) eqn:Ek; [done|]. destruct (ok db) eqn:Eo; [|done]. intros [= <- <-]. auto.
Qed.

Lemma good_upsert_location u code country db id db' :
  wf db -> upsert_location u code country db = Ok (id, db') -> good db db'.
Proof.
  intros Hwf. unfold upsert_location. destruct (find_row _ _) as [[k l]|] eqn:Ef.
  - apply find_row_Some in Ef as [Hk Hc]. to_prop. intros [= <- <-]. split.
    + apply wf_location_insert; [done|]. simpl. intros k' l' Hl' E.
      eapply (wf_codes _ Hwf); [exact Hl'|exact Hk|done|]. simpl. congruence.
    + apply evolves_locations, grows_insert; [apply _|]. intros l0 Hl. by simplify_eq.
  - destruct (locations db !! u) eqn:Eu; [done|]. intros [= <- <-]. split.
    + apply wf_location_insert; [done|]. simpl. intros k' l' Hl' E.
      pose proof (proj1 (find_row_None _ _) Ef k' l' Hl') as Hf. simpl in Hf. to_prop. congruence.
    + apply evolves_locations, grows_insert; [apply _|]. intros l0 Hl. by simplify_eq.
Qed.

Lemma registration_values_ok r v :
  registration_values r = Some v ->
  0 < reg_Capacity r < 2 ^ 31 /\ int4_opt (nilIfZero (reg_BandwidthMbps r)) = true /\
  int4 (reg_EndpointPort r) = true /\ stored pg_cidr v.1 /\ stored_opt pg_cidr v.2.
Proof.
  unfold registration_values. destruct (_ && _ && _ && _) eqn:E; [|done]. intros Hv. to_prop. splits; try done.
  - unfold int4 in *. to_prop. lia.
  - destruct (pg_cidr (reg_WGSubnetV4 r)) as [n4|] eqn:E4; [|done]. exists (reg_WGSubnetV4 r).
    destruct (nilIfEmpty (reg_WGSubnetV6 r)) as [t|]; [destruct (pg_cidr t); [|done]|]; by injection Hv as <-.
  - destruct (pg_cidr (reg_WGSubnetV4 r)) as [n4|]; [|done].
    destruct (nilIfEmpty (reg_WGSubnetV6 r)) as [t|]; [destruct (pg_cidr t) eqn:E6; [|done]|]; injection Hv as <-; intros x [= <-].
    by exists t.
Qed.

(** The row a registration writes, over one that fits or none. *)
Lemma registered_row_ok r lid h v old :
  registration_values r = Some v -> (forall g, old = Some g -> gateway_ok g) -> gateway_ok (registered_row r lid h v.1 v.2 old).
Proof.
  intros (Hc & Hb & Hp & H4 & H6)%registration_values_ok Hold. repeat split; try done; try apply Hc.
  destruct old as [g|]; [|done]. by destruct (Hold g eq_refl) as (_ & _ & _ & ? & _).
Qed.

Lemma good_upsert_gateway u lid r h db id db' :
  wf db -> upsert_gateway u lid r h db = Ok (id, db') -> good db db'.
Proof.
  intros Hwf. unfold upsert_gateway.
  destruct (registration_values r) as [[n4 n6]|] eqn:Ev; [|done].
  destruct (locations db !! lid) eqn:El; [|done].
  destruct (find_row _ _) as [[k g]|] eqn:Ef.
  - apply find_row_Some in Ef as [Hk Hn]. to_prop. intros [= <- <-]. split.
    + apply wf_gateway_insert; simpl; eauto.
      * intros k' g' Hg' E. eapply (wf_names _ Hwf); [exact Hg'|exact Hk|done|]. simpl. congruence.
      * apply (registered_row_ok _ _ _ (n4, n6)); [done|]. intros ? [= <-]. by apply (wf_gateways _ Hwf k).
    + apply evolves_gateways, grows_insert; [apply _|]. intros g0 Hg. by simplify_eq.
  - destruct (gateways db !! u) eqn:Eu; [done|]. intros [= <- <-]. split.
    + apply wf_gateway_insert; simpl; eauto.
      * intros k' g' Hg' E.
        pose proof (proj1 (find_row_None _ _) Ef k' g' Hg') as Hf. simpl in Hf. to_prop. congruence.
      * by apply (registered_row_ok _ _ _ (n4, n6)).
    + apply evolves_gateways, grows_insert; [apply _|]. intros g0 Hg. by simplify_eq.
Qed.

Lemma good_insert_device u uid r t db x db' :
  wf db -> insert_device u uid r t db = Ok (x, db') -> good db db'.
Proof.
  intros Hwf. unfold insert_device. destruct (ValidPlatform _) eqn:Ep; [|done]. simpl.
  destruct (devices db !! u) eqn:Eu; [done|]. destruct (find_row _ _) eqn:Ef; [done|].
  destruct (users db !! uid) eqn:Euid; [|done]. intros [= <- <-]. split.
  - apply wf_device_new; simpl; eauto.
  - apply evolves_devices, grows_insert; [apply _|]. intros d Hd. congruence.
Qed.

Lemma good_upsert_user u email disp t db x db' :
  wf db -> upsert_user u email disp t db = Ok (x, db') ->
  good db db' /\ is_Some (users db' !! usr_ID x).
Proof.
  intros Hwf. unfold upsert_user. destruct (find_row _ _) as [[k r]|] eqn:Ef.
  - apply find_row_Some in Ef as [Hk He]. unfold email_is in He. to_prop. intros [= <- <-]. split.
    + split.
      * apply wf_users_insert; [done|by apply (wf_user_rows _ Hwf k r)|]. simpl. intros k' u' Hu' E.
        eapply (wf_emails _ Hwf); [exact Hu'|exact Hk|done|]. simpl. congruence.
      * apply evolves_users, grows_insert; [apply _|]. intros u0 Hu0. by simplify_eq.
    + simpl. rewrite lookup_insert_eq. eauto.
  - destruct (users db !! u) eqn:Eu; [done|]. intros [= <- <-]. split.
    + split.
      * apply wf_users_insert; [done|by left|]. simpl. intros k' u' Hu' E.
        pose proof (proj1 (find_row_None _ _) Ef k' u' Hu') as Hf. unfold email_is in Hf. simpl in Hf.
        to_prop. congruence.
      * apply evolves_users, grows_insert; [apply _|]. intros u0 Hu0. congruence.
    + simpl. rewrite lookup_insert_eq. eauto.
Qed.

Lemma good_token_new u t db :
  wf db -> refresh_tokens db !! u = None -> token_ok (t_device_id t) (t_token_hash t) db = true ->
  good db (put RefreshTokens (<[u := t]> (refresh_tokens db)) db).
Proof.
  intros Hwf Hu Hok. split; [by apply wf_token_new|].
  apply evolves_tokens, grows_insert; [apply _|]. intros t0 Ht. congruence.
Qed.

Lemma keeps_newRefreshToken did ttl : keeps (newRefreshToken did ttl).
Proof.
  unfold newRefreshToken. apply preserves_bind; [auto with aevora|intros plain].
  apply preserves_bind; [auto with aevora|intros c]. apply preserves_bind; [auto with aevora|intros u].
  apply preserves_bind; [|auto with aevora].
  apply keeps_insert_row. intros db Hwf Hu Hok. by apply good_token_new.
Qed.

Lemma keeps_insertDevice userID uid r : keeps (insertDevice userID uid r).
Proof.
  unfold insertDevice. apply preserves_bind; [auto with aevora|intros c].
  apply preserves_bind; [auto with aevora|intros u]. apply preserves_bind; [|auto with aevora].
  apply keeps_stmt. intros db x db' Hwf. by apply good_insert_device.
Qed.

(** ** The operations one by one *)

Lemma keeps_RegisterGateway r : keeps (RegisterGateway r).
Proof.
  unfold RegisterGateway, RegisterGateway_tx. apply preserves_bind; [auto with aevora|intros plain].
  apply preserves_transaction. apply preserves_bind; [auto with aevora|intros u].
  apply preserves_bind; [|intros lid].
  { apply keeps_stmt. intros db x db' Hwf. by apply good_upsert_location. }
  apply preserves_bind; [auto with aevora|intros u']. apply preserves_bind; [|auto with aevora].
  apply keeps_stmt. intros db x db' Hwf. by apply good_upsert_gateway.
Qed.

Lemma keeps_Heartbeat h m : keeps (Heartbeat h m).
Proof.
  unfold Heartbeat. apply preserves_bind; [auto with aevora|intros c].
  apply preserves_bind; [|intros [g|]; auto with aevora].
  apply keeps_stmt. intros db x db' Hwf. unfold heartbeat_update.
  destruct (int4 _) eqn:Ei; [|done]. intros [= <- <-]. apply good_gateways_update; [done|by repeat split].
Qed.

Lemma keeps_DeregisterGateway h : keeps (DeregisterGateway h).
Proof.
  unfold DeregisterGateway. apply preserves_bind; [|intros n; auto with aevora].
  apply keeps_update. intros db Hwf. by apply good_gateways_update.
Qed.

Lemma keeps_MarkStaleUnhealthy ttl : keeps (MarkStaleUnhealthy ttl).
Proof.
  unfold MarkStaleUnhealthy. apply preserves_bind; [auto with aevora|intros c].
  apply keeps_update. intros db Hwf. by apply good_gateways_update.
Qed.

Lemma keeps_CreateDevice userID r ttl : keeps (CreateDevice userID r ttl).
Proof.
  unfold CreateDevice, CreateDevice_tx. apply preserves_transaction. apply preserves_bind; [auto with aevora|intros uid].
  apply preserves_bind; [apply keeps_insertDevice|intros d].
  apply preserves_bind; [apply keeps_newRefreshToken|auto with aevora].
Qed.

Lemma keeps_RevokeDevice userID deviceID : keeps (RevokeDevice userID deviceID).
Proof.
  unfold RevokeDevice. do 2 (apply preserves_bind; [auto with aevora|intros ?]).
  apply preserves_bind; [auto with aevora|intros c].
  apply preserves_bind; [|intros n].
  { apply keeps_update_row. intros db d Hwf Hd. apply (good_device_row _ _ d); [done..|by repeat split]. }
  destruct (n =? 0); [auto with aevora|].
  apply preserves_bind; [|intros _].
  { apply keeps_update. intros db Hwf. apply good_tokens_update; [done|by repeat split]. }
  apply preserves_bind; [|auto with aevora].
  apply keeps_update. intros db Hwf. apply good_leases_update; [done|]. intros l. by apply lease_rel_set_state.
Qed.

Lemma keeps_RefreshAccess plain : keeps (RefreshAccess plain).
Proof.
  unfold RefreshAccess. apply preserves_bind; [auto with aevora|intros c].
  apply preserves_bind; [auto with aevora|intros [[u d]|]; [|auto with aevora]].
  apply preserves_bind; [|auto with aevora]. apply preserves_try.
  apply keeps_update_row. intros db d' Hwf Hd. apply (good_device_row _ _ d'); [done..|by repeat split].
Qed.

Lemma keeps_CreateInvite code note e : keeps (CreateInvite code note e).
Proof.
  apply keeps_insert_row. intros db Hwf Hk _. split.
  - by apply wf_invite_insert.
  - apply evolves_invites, grows_insert; [apply _|]. intros r0 Hr0. simpl in *. congruence.
Qed.

Lemma keeps_SetPassword userID hash : keeps (SetPassword userID hash).
Proof.
  unfold SetPassword. apply preserves_bind; [auto with aevora|intros uid].
  apply preserves_bind; [|intros n; auto with aevora].
  apply keeps_update_row. intros db u Hwf Hu. simpl in Hu. split.
  - apply wf_users_insert; [done|by apply (wf_user_rows _ Hwf _ u Hu)|]. simpl. intros k' u' Hu' E.
    eapply (wf_emails _ Hwf); [exact Hu'|exact Hu|done|]. simpl. by rewrite E.
  - apply evolves_users, grows_insert; [apply _|]. intros u0 Hu0. simpl in *. simplify_eq. by repeat split.
Qed.

Lemma keeps_lease_update p f : (forall l, lease_rel l (f l)) -> keeps (update Leases p f).
Proof. intros Hf. apply keeps_update. intros db Hwf. by apply good_leases_update. Qed.

Lemma keeps_lease_row k p f : (forall l, lease_rel l (f l)) -> keeps (update_row Leases k p f).
Proof. intros Hf. apply keeps_update_row. intros db l Hwf Hl. by apply (good_lease_row _ _ l). Qed.

Lemma keeps_ReleaseConnection userID leaseID : keeps (ReleaseConnection userID leaseID).
Proof.
  unfold ReleaseConnection. do 2 (apply preserves_bind; [auto with aevora|intros ?]).
  apply preserves_bind; [auto with aevora|intros c].
  apply preserves_bind; [|intros n; auto with aevora].
  apply keeps_lease_row. intros l. by apply lease_rel_set_state.
Qed.

Lemma keeps_RenewConnection userID leaseID ttl : keeps (RenewConnection userID leaseID ttl).
Proof.
  unfold RenewConnection. do 2 (apply preserves_bind; [auto with aevora|intros ?]).
  apply preserves_bind; [auto with aevora|intros c].
  apply preserves_bind; [|intros n; auto with aevora].
  apply keeps_lease_row. intros l. apply lease_rel_extend.
Qed.

Lemma keeps_ExpireStaleLeases : keeps ExpireStaleLeases.
Proof.
  unfold ExpireStaleLeases. apply preserves_bind; [auto with aevora|intros c].
  apply keeps_lease_update. intros l. by apply lease_rel_set_state.
Qed.

Lemma keeps_ExpireLeasesOnUnhealthyGateways : keeps ExpireLeasesOnUnhealthyGateways.
Proof. apply keeps_lease_update. intros l. by apply lease_rel_set_state. Qed.

(** Within [Enroll] the invite is read and marked in one transaction. *)
Lemma keeps_Enroll `{!PostgresOrder} req ttl : keeps (Enroll req ttl).
Proof.
  unfold Enroll. apply preserves_transaction_ok. intros c db [[u d] plain] db' Hs Hy.
  eapply sound_good; [done|]. destruct Hs as [Hwf _].
  apply Enroll_yields in Hy as (i & u0 & db1 & db2 & t & Hi & Ho & Hu & Hd & Hdev & Ht & Hok & ->).
  destruct (good_upsert_user _ _ _ _ _ _ _ Hwf Hu) as [[Hwf1 Hev1] Husr].
  destruct (good_insert_device _ _ _ _ _ _ _ Hwf1 Hd) as [Hwf2 Hev2].
  apply upsert_user_Ok in Hu as (row & -> & _). apply insert_device_Ok in Hd as (_ & _ & _ & _ & ->).
  set (db2 := put Devices _ _) in *.
  set (db3 := put Invites (<[er_InviteCode req := use_invite (usr_ID u) (now c) i]> (invite_codes db)) db2) in *.
  assert (H3 : good db2 db3).
  { split.
    - apply (wf_invite_insert db2); [done|done|]. by intros x [= <-].
    - apply (evolves_invites db2). apply (grows_insert invite_rel (invite_codes db)). simpl.
      intros i0 Hi0. rewrite Hi in Hi0. injection Hi0 as <-.
      split; [done|]. unfold invite_open in Ho. by destruct (i_used_at i). }
  assert (H4 : good db3 (put RefreshTokens (<[t := mkTokenRow (dev_ID d) (HashToken plain)
      (now c + pg_interval ttl) None]> (refresh_tokens db)) db3)).
  { apply (good_token_new t _ db3); [apply H3|done|done]. }
  split; [apply H4|]. transitivity (put Users (<[usr_ID u:=row]> (users db)) db); [done|].
  transitivity db2; [done|]. transitivity db3; [apply H3|apply H4].
Qed.

Lemma good_released did t db : wf db -> good db (released did t db).
Proof. intros Hwf. apply good_leases_update; [done|]. intros l. by apply lease_rel_set_state. Qed.

Lemma released_inactive did t db k l :
  leases (released did t db) !! k = Some l -> is_active l = true -> le_device_id l <> did.
Proof.
  simpl. rewrite lookup_update_where. destruct (leases db !! k) as [l0|]; [|done]. simpl. intros [= <-].
  unfold active_of. destruct (bool_decide (le_device_id l0 = did)) eqn:E1; to_prop; simpl; [|done].
  unfold is_active. destruct (bool_decide (le_state l0 = Active)) eqn:E2; simpl; [done|by rewrite E2].
Qed.

Lemma lease_row_ok v4 v6 ip4 ip6 l :
  pg_inet v4 = Some ip4 -> inet_opt v6 = Some ip6 -> le_assigned_ip_v4 l = ip4 -> le_assigned_ip_v6 l = ip6 -> lease_ok l.
Proof.
  unfold inet_opt. intros H4 H6 <- <-. split; [by exists v4|]. intros x Ex. rewrite Ex in H6.
  destruct v6 as [t|]; [|done]. exists t. destruct (pg_inet t); [|done]. by injection H6 as ->.
Qed.

Lemma keeps_CreateConnection `{!PostgresOrder} userID deviceID country leaseTTL heartbeatTTL :
  keeps (CreateConnection userID deviceID country leaseTTL heartbeatTTL).
Proof.
  unfold CreateConnection. apply preserves_transaction_ok. intros c db conn db' Hs Hy.
  apply CreateConnection_yields in Hy.
  eapply sound_good; [done|]. destruct Hs as [Hwf _].
  destruct Hy as (did & uid & d & gid & g & l & v4 & v6 & ip4 & ip6 & _ & _ & Hd & _ & Hg & _ & _ & _ & _ & _
    & Hip4 & Hip6 & Hu & Hip & _ & ->).
  destruct (good_released did (now c) db Hwf) as [Hwf1 Hev1].
  set (db1 := released did (now c) db) in *. split.
  - apply wf_lease_new; simpl; eauto; [by eapply lease_row_ok|]. intros k l' Hl' Ha. by apply (released_inactive did (now c) db k).
  - transitivity db1; [done|]. apply evolves_leases, grows_insert; [apply _|]. intros l0 Hl0. simpl in *. congruence.
Qed.

End operations_sound.
