(* ===== verification/System.v ===== *)
(** The control plane over time: the operations the API and the reaper invoke, the
    executions made of them, and what holds along every execution. *)
From S2P Require Import Prelude Floats Model Selection GoStrings NetAddr Crypto Alloc Db Session StoreGateways StoreIdentity StoreConnections Schema Facts Steps.

(** One call of the store, with its arguments. *)
Inductive request :=
| RegisterGateway_ (r : GatewayRegistration)
| Heartbeat_ (tokenHash : string) (m : GatewayMetrics)
| DeregisterGateway_ (tokenHash : string)
| MarkStaleUnhealthy_ (ttl : Duration)
| Enroll_ (req : EnrollRequest) (refreshTTL : Duration)
| CreateDevice_ (userID : string) (r : DeviceRegistration) (refreshTTL : Duration)
| RevokeDevice_ (userID deviceID : string)
| RefreshAccess_ (refreshPlain : string)
| CreateInvite_ (code note : string) (expiresAt : option Time)
| SetPassword_ (userID passwordHash : string)
| CreateConnection_ (userID deviceID country : string) (leaseTTL heartbeatTTL : Duration)
| ReleaseConnection_ (userID leaseID : string)
| RenewConnection_ (userID leaseID : string) (leaseTTL : Duration)
| ExpireStaleLeases_
| ExpireLeasesOnUnhealthyGateways_
| GatewayPeers_ (tokenHash : string)
| ListDevices_ (userID : string)
| ListGateways_
| SelectableGateways_ (country : string) (ttl : Duration)
| ListLocations_
| FleetSnapshot_
| GetCredentialsByEmail_ (email : string).

Definition discard {A} (m : M A) : M () := let! _ := m in ret ().

Section system.
Context `{PostgresOrder}.

Definition serve (q : request) : M () :=
  match q with
  | RegisterGateway_ r => discard (RegisterGateway r)
  | Heartbeat_ h m => discard (Heartbeat h m)
  | DeregisterGateway_ h => DeregisterGateway h
  | MarkStaleUnhealthy_ ttl => discard (MarkStaleUnhealthy ttl)
  | Enroll_ req ttl => discard (Enroll req ttl)
  | CreateDevice_ u r ttl => discard (CreateDevice u r ttl)
  | RevokeDevice_ u d => RevokeDevice u d
  | RefreshAccess_ p => discard (RefreshAccess p)
  | CreateInvite_ code note e => CreateInvite code note e
  | SetPassword_ u h => SetPassword u h
  | CreateConnection_ u d country lt ht => discard (CreateConnection u d country lt ht)
  | ReleaseConnection_ u l => ReleaseConnection u l
  | RenewConnection_ u l ttl => discard (RenewConnection u l ttl)
  | ExpireStaleLeases_ => discard ExpireStaleLeases
  | ExpireLeasesOnUnhealthyGateways_ => discard ExpireLeasesOnUnhealthyGateways
  | GatewayPeers_ h => discard (GatewayPeers h)
  | ListDevices_ u => discard (ListDevices u)
  | ListGateways_ => discard ListGateways
  | SelectableGateways_ country ttl => discard (SelectableGateways country ttl)
  | ListLocations_ => discard ListLocations
  | FleetSnapshot_ => discard FleetSnapshot
  | GetCredentialsByEmail_ email => discard (GetCredentialsByEmail email)
  end.

(** An event: a call and whether it returned without error. *)
Definition event : Type := request * bool.

(** One call, at any clock, with any outcome of its statements and any random
    values. Calls do not overlap here; [Interleave] lets transactions overlap
    statement by statement. *)
Inductive step : DB -> event -> DB -> Prop :=
| step_serve q c s r s' : serve q c s = (r, s') -> step (s_db s) (q, is_ok r) (s_db s').

Inductive run : DB -> list event -> DB -> Prop :=
| run_nil db : run db [] db
| run_cons db e db1 tr db2 : step db e db1 -> run db1 tr db2 -> run db (e :: tr) db2.

Lemma preserves_discard {A} I (m : M A) : preserves I m -> preserves I (discard m).
Proof. intros Hm. apply preserves_bind; [done|]. intros a. apply preserves_ret. Qed.

Lemma serve_sound db0 q : preserves (sound db0) (serve q).
Proof.
  destruct q; cbn [serve]; try apply preserves_discard;
    first [ apply keeps_RegisterGateway | apply keeps_Heartbeat | apply keeps_DeregisterGateway
          | apply keeps_MarkStaleUnhealthy | apply keeps_Enroll | apply keeps_CreateDevice
          | apply keeps_RevokeDevice | apply keeps_RefreshAccess | apply keeps_CreateInvite
          | apply keeps_SetPassword | apply keeps_CreateConnection | apply keeps_ReleaseConnection
          | apply keeps_RenewConnection | apply keeps_ExpireStaleLeases
          | apply keeps_ExpireLeasesOnUnhealthyGateways | idtac ];
    try exact H0.
  - unfold GatewayPeers. auto 10 with aevora.
  - unfold ListDevices. auto 10 with aevora.
  - unfold ListGateways. auto with aevora.
  - unfold SelectableGateways. auto 10 with aevora.
  - unfold ListLocations. auto with aevora.
  - unfold FleetSnapshot. auto 10 with aevora.
  - unfold GetCredentialsByEmail. auto 10 with aevora.
Qed.

Lemma step_good db e db' : wf db -> step db e db' -> good db db'.
Proof.
  intros Hwf Hs. revert Hwf. destruct Hs as [q c s r s' Hm]. intros Hwf. apply (serve_sound (s_db s) q c s r s'); [|done].
  split; [done|reflexivity].
Qed.

Lemma run_good db tr db' : wf db -> run db tr db' -> good db db'.
Proof.
  intros Hwf Hrun. induction Hrun as [db|db e db1 tr db2 Hs Hr IH].
  - by split.
  - destruct (step_good _ _ _ Hwf Hs) as [Hwf1 Hev]. destruct (IH Hwf1) as [? ?].
    split; [done|]. by transitivity db1.
Qed.

Lemma run_app db1 tr1 db2 tr2 db3 : run db1 tr1 db2 -> run db2 tr2 db3 -> run db1 (tr1 ++ tr2) db3.
Proof.
  intros H1 H2. induction H1 as [db|db e db' tr db2 Hs Hr IH]; [done|].
  simpl. econstructor; [exact Hs|by apply IH].
Qed.

(** ** Running a script *)

(** A call with its clock, the outcomes of its statements and its random values. *)
Record call := mkCall {
  call_request : request;
  call_clock : Clock;
  call_faults : list fault;
  call_uuids : list string;
  call_rand : list (list Z)
}.

Definition exec_call (k : call) (db : DB) : event * DB :=
  let '(r, s') := serve (call_request k) (call_clock k)
                    (mkSession db (call_faults k) (call_uuids k) (call_rand k)) in
  ((call_request k, is_ok r), s_db s').

Fixpoint exec (ks : list call) (db : DB) : list event * DB :=
  match ks with
  | [] => ([], db)
  | k :: ks' =>
      let '(e, db1) := exec_call k db in
      let '(tr, db2) := exec ks' db1 in (e :: tr, db2)
  end.

Lemma exec_run ks db : run db (exec ks db).1 (exec ks db).2.
Proof.
  revert db. induction ks as [|k ks IH]; intros db; simpl; [constructor|].
  destruct (exec_call k db) as [e db1] eqn:E. specialize (IH db1).
  destruct (exec ks db1) as [tr db2]. simpl in *. econstructor; [|exact IH].
  unfold exec_call in E. destruct (serve _ _ _) as [r s'] eqn:Es. injection E as <- <-.
  by apply (step_serve _ _ _ _ _ Es).
Qed.

End system.
