(* ===== verification/Demo.v ===== *)
(** A small deployment, run step by step: the concrete tables the witnesses of the
    properties are evaluated on. *)
From S2P Require Import Prelude Floats Model Selection GoStrings NetAddr Crypto Alloc Db Session StoreGateways StoreIdentity StoreConnections Schema Facts Steps System.

#[local] Existing Instance demo_pg.

Definition at_time (t : Time) : Clock := mkClock t t.

(** A call at [t] without faults. *)
Definition fine (q : request) (t : Time) (uuids : list string) (rand : list (list Z)) : call :=
  mkCall q (at_time t) [] uuids rand.

Definition random_a : list Z := replicate 32 1.
Definition random_b : list Z := replicate 32 2.
Definition random_c : list Z := replicate 32 3.

(** The tokens and the hashes of the three random values. *)
Definition token_a : string := Eval vm_compute in b64url random_a.
Definition token_b : string := Eval vm_compute in b64url random_b.
Definition token_c : string := Eval vm_compute in b64url random_c.
Definition hash_a : string := Eval vm_compute in HashToken token_a.
Definition hash_b : string := Eval vm_compute in HashToken token_b.
Definition hash_c : string := Eval vm_compute in HashToken token_c.

Lemma hash_a_eq : HashToken token_a = hash_a. Proof. vm_compute. reflexivity. Qed.
Lemma hash_b_eq : HashToken token_b = hash_b. Proof. vm_compute. reflexivity. Qed.
Lemma hash_c_eq : HashToken token_c = hash_c. Proof. vm_compute. reflexivity. Qed.

Definition demo_registration (name net : string) : GatewayRegistration :=
  mkGatewayRegistration name "de" "Germany" "Frankfurt" "" "192.0.2.1" 51820 "gwkey" net "" 250 1000 None None.

Definition demo_enroll : EnrollRequest :=
  mkEnrollRequest "INVITE" "ana@example.org" "Ana" (mkDeviceRegistration "phone" "ios" "phonekey").

Definition TTL : Duration := 90 * Second.

Definition demo_script : list call := [
  fine (RegisterGateway_ (demo_registration "de-1" "10.7.50.0/24")) 1000 ["loc1"; "gw1"] [random_a];
  fine (Heartbeat_ hash_a (mkGatewayMetrics 0 Fzero 0 0)) 2000 [] [];
  fine (CreateInvite_ "INVITE" "for Ana" None) 3000 [] [];
  fine (Enroll_ demo_enroll Hour) 4000 ["user1"; "dev1"; "tok1"] [random_b];
  fine (CreateConnection_ "user1" "dev1" "de" Hour TTL) 5000 ["lease1"] []
].

Definition demo_trace : list event :=
  ((fun k => (call_request k, true)) <$> demo_script).

(** The tables the script leaves. *)
Definition demo_db : DB := Eval vm_compute in (exec demo_script empty_db).2.

(** Every call of the script succeeds. *)
Lemma demo_exec : exec demo_script empty_db = (demo_trace, demo_db).
Proof. vm_compute. reflexivity. Qed.

Lemma demo_run : run empty_db demo_trace demo_db.
Proof. pose proof (exec_run demo_script empty_db) as Hr. by rewrite demo_exec in Hr. Qed.

Lemma demo_wf : wf demo_db.
Proof. apply (run_good empty_db _ _ wf_empty demo_run). Qed.

(** The one lease. *)
Definition demo_lease_row : lease_row :=
  mkLeaseRow "gw1" "dev1" "phonekey" "10.7.50.2" None Active (5000 + Hour) None.

Lemma demo_leases : leases demo_db = {[ "lease1" := demo_lease_row ]}.
Proof. vm_compute. reflexivity. Qed.

Example demo_lease :
  leases demo_db !! "lease1" =
  Some (mkLeaseRow "gw1" "dev1" "phonekey" "10.7.50.2" None Active (5000 + Hour) None).
Proof. vm_compute. reflexivity. Qed.

Definition demo_gateway : gateway_row :=
  mkGatewayRow "loc1" "de-1" (Some "Frankfurt") None "gwkey" "192.0.2.1" 51820 "10.7.50.0/24" None 250 (Some 1000)
    None None GatewayHealthy 0 Fzero 0 0 (Some hash_a) (Some 2000).

Lemma demo_gateways : gateways demo_db = {[ "gw1" := demo_gateway ]}.
Proof. vm_compute. reflexivity. Qed.
