(* ===== verification/Seed.v ===== *)
(** Development data: [SeedDev] of [control-plane/internal/store/store.go] and the script it
    sends, [seed_dev.sql]. *)
From S2P Require Import Prelude Floats Model Selection GoStrings NetAddr Crypto Alloc Db Session StoreGateways StoreIdentity StoreConnections Schema Facts Steps Demo.

Section seed.
Context `{Postgres}.

(** [INSERT ... ON CONFLICT (c) DO NOTHING] of a row under a drawn key; [same] finds the row
    with its value of [c]. *)
Definition insert_new {R} (t : Table R) (same : R -> bool) (u : string) (r : R) (db : DB) : result StoreError DB :=
  match find_row same (get t db), get t db !! u with
  | Some _, _ => Ok db
  | None, Some _ => Err ErrDB
  | None, None => Ok (put t (<[u := r]> (get t db)) db)
  end.

(** One row after the other. *)
Fixpoint each {A} (f : A -> DB -> result StoreError DB) (l : list A) (db : DB) : result StoreError DB :=
  match l with
  | [] => Ok db
  | a :: l' => match f a db with Ok db' => each f l' db' | Err e => Err e | Panic => Panic end
  end.

Definition seed_locations : list (string * string) := [("de", "Germany"); ("sg", "Singapore"); ("us", "United States")].

Record seed_row := mkSeedRow {
  sd_loc : string; sd_name : string; sd_city : string; sd_public_key : string; sd_host : string;
  sd_subnet4 : string; sd_subnet6 : string; sd_capacity : Z; sd_active : Z
}.
Definition seed_gateways : list seed_row := [
  mkSeedRow "de" "de-fra-1" "Frankfurt" "DEV_PLACEHOLDER_PUBKEY_FRA1=" "192.0.2.11" "10.7.1.0/24" "fd07:0007:1::/64" 250 40;
  mkSeedRow "de" "de-fra-2" "Frankfurt" "DEV_PLACEHOLDER_PUBKEY_FRA2=" "192.0.2.12" "10.7.2.0/24" "fd07:0007:2::/64" 250 210;
  mkSeedRow "sg" "sg-sin-1" "Singapore" "DEV_PLACEHOLDER_PUBKEY_SIN1=" "192.0.2.21" "10.7.3.0/24" "fd07:0007:3::/64" 250 12
].

Definition seed_location (x : string * (string * string)) : DB -> result StoreError DB :=
  let '(u, (code, country)) := x in
  insert_new Locations (fun l => bool_decide (l_code l = code)) u (mkLocationRow code country true).

(** The columns the script leaves out have their defaults. *)
Definition seeded_row (t : Time) (lid net4 net6 : string) (v : seed_row) : gateway_row :=
  mkGatewayRow lid (sd_name v) (Some (sd_city v)) None (sd_public_key v) (sd_host v) 51820 net4 (Some net6) (sd_capacity v)
    None None None GatewayHealthy (sd_active v) Fzero 0 0 None (Some t).

Definition seed_gateway (t : Time) (x : string * (string * seed_row)) : DB -> result StoreError DB :=
  let '(u, (lid, v)) := x in fun db =>
  match pg_cidr (sd_subnet4 v), pg_cidr (sd_subnet6 v) with
  | Some net4, Some net6 => insert_new Gateways (fun g => bool_decide (g_name g = sd_name v)) u (seeded_row t lid net4 net6 v) db
  | _, _ => Err ErrDB
  end.

(** [... AS v JOIN locations l ON l.code = v.loc], the code being unique. *)
Definition seed_join (db : DB) : list (string * seed_row) :=
  omap (fun v => (fun kl => (kl.1, v)) <$> find_row (fun l => bool_decide (l_code l = sd_loc v)) (locations db)) seed_gateways.

(** The script: every row draws a key, also one that is left out. *)
Definition seed_script (us us' : list string) (t : Time) (db : DB) : result StoreError DB :=
  match each seed_location (zip us seed_locations) db with
  | Ok db1 => each (seed_gateway t) (zip us' (pg_rows (seed_join db1))) db1
  | Err e => Err e
  | Panic => Panic
  end.

Definition draw3 : M (list string) :=
  let! a := gen_random_uuid in let! b := gen_random_uuid in let! c := gen_random_uuid in ret [a; b; c].

(** A script without arguments goes to the server as one message, which it executes in one
    transaction of its own. *)
Definition SeedDev : M () :=
  let! c := get_clock in
  let! us := draw3 in
  let! us' := draw3 in
  stmt (fun db => match seed_script us us' (now c) db with Ok db' => Ok ((), db') | Err e => Err e | Panic => Panic end).

End seed.

(** ** What it adds *)

(** Rows are added, none is changed. *)
Record adds (db db' : DB) : Prop := {
  ad_locations : locations db ⊆ locations db';
  ad_gateways : gateways db ⊆ gateways db';
  ad_rest : (users db', invite_codes db', devices db', leases db', refresh_tokens db') =
            (users db, invite_codes db, devices db, leases db, refresh_tokens db)
}.

#[export] Instance adds_pre : PreOrder adds.
Proof.
  split; [by split|]. intros x y z [L1 G1 R1] [L2 G2 R2]. split; [by etrans|by etrans|congruence].
Qed.

Section seeding.
Context `{PostgresOrder}.

Lemma each_ind {A} (f : A -> DB -> result StoreError DB) (P : DB -> Prop) l db db' :
  (forall a d d', a ∈ l -> P d -> f a d = Ok d' -> P d') -> P db -> each f l db = Ok db' -> P db'.
Proof.
  revert db. induction l as [|a l IH]; intros db Hf Hp E; [by injection E as <-|]. cbn [each] in E.
  destruct (f a db) as [d1| |] eqn:E1; [|done..]. apply (IH d1); [|by eapply (Hf a); [left| |]|done].
  intros b d d' Hb. apply Hf. by right.
Qed.

Lemma insert_new_location u code country db db' :
  insert_new Locations (fun l => bool_decide (l_code l = code)) u (mkLocationRow code country true) db = Ok db' ->
  (wf db -> good db db') /\ adds db db' /\ exists k l, locations db' !! k = Some l /\ l_code l = code.
Proof.
  unfold insert_new. cbn [get Locations]. destruct (find_row _ _) as [[k l]|] eqn:Ef.
  - apply find_row_Some in Ef as [Hk Hc]. to_prop. intros [= <-]. split; [by intros; apply good_refl|]. split; [done|]. eauto.
  - destruct (locations db !! u) eqn:Eu; [done|]. intros [= <-].
    pose proof (proj1 (find_row_None _ _) Ef) as Hno. cbn in Hno. split; [intros Hwf; split|split; [split|]].
    + apply wf_location_insert; [done|]. intros k' l' Hl' E. specialize (Hno k' l' Hl'). to_prop. by destruct Hno.
    + apply evolves_locations, grows_insert; [apply _|]. intros l0 Hl0. congruence.
    + by apply insert_subseteq.
    + done.
    + done.
    + exists u. eexists. cbn. by rewrite lookup_insert_eq.
Qed.

Lemma insert_new_gateway u lid net4 net6 t v db db' :
  insert_new Gateways (fun g => bool_decide (g_name g = sd_name v)) u (seeded_row t lid net4 net6 v) db = Ok db' ->
  gateway_ok (seeded_row t lid net4 net6 v) -> is_Some (locations db !! lid) ->
  (wf db -> good db db') /\ adds db db' /\ exists k g, gateways db' !! k = Some g /\ g_name g = sd_name v.
Proof.
  unfold insert_new. cbn [get Gateways]. destruct (find_row _ _) as [[k g]|] eqn:Ef.
  - apply find_row_Some in Ef as [Hk Hc]. to_prop. intros [= <-] _ _. split; [by intros; apply good_refl|]. split; [done|]. eauto.
  - destruct (gateways db !! u) eqn:Eu; [done|]. intros [= <-] Hcap Hl.
    pose proof (proj1 (find_row_None _ _) Ef) as Hno. cbn in Hno. split; [intros Hwf; split|split; [split|]].
    + apply wf_gateway_insert; [done| |done|done]. intros k' g' Hg' E. specialize (Hno k' g' Hg'). to_prop. by destruct Hno.
    + apply evolves_gateways, grows_insert; [apply _|]. intros g0 Hg0. congruence.
    + done.
    + by apply insert_subseteq.
    + done.
    + exists u. eexists. cbn. by rewrite lookup_insert_eq.
Qed.

Lemma seeded_row_ok t lid net4 net6 v :
  v ∈ seed_gateways -> pg_cidr (sd_subnet4 v) = Some net4 -> pg_cidr (sd_subnet6 v) = Some net6 ->
  gateway_ok (seeded_row t lid net4 net6 v).
Proof.
  intros Hv H4 H6.
  assert (Hf : Forall (fun v => 0 < sd_capacity v < 2 ^ 31 /\ int4 (sd_active v) = true) seed_gateways) by (repeat constructor).
  destruct (proj1 (Forall_forall _ _) Hf v Hv) as [Hc Ha].
  unfold gateway_ok. splits; try done; [apply Hc..|by exists (sd_subnet4 v)|]. intros x [= <-]. by exists (sd_subnet6 v).
Qed.

Lemma elem_of_seed_join v lid db :
  (lid, v) ∈ pg_rows (seed_join db) <-> v ∈ seed_gateways /\ exists l, find_row (fun l => bool_decide (l_code l = sd_loc v)) (locations db) = Some (lid, l).
Proof.
  rewrite pg_rows_Permutation. unfold seed_join. rewrite list_elem_of_omap. split.
  - intros (v' & Hv & E). apply fmap_Some in E as ([k l] & Ef & [= -> ->]). eauto.
  - intros (Hv & l & Ef). exists v. split; [done|]. by rewrite Ef.
Qed.

(** The two parts keep the constraints and add rows. *)
Lemma seed_script_sound us us' t db db' :
  seed_script us us' t db = Ok db' -> (wf db -> good db db') /\ adds db db'.
Proof.
  unfold seed_script. destruct (each seed_location _ db) as [db1| |] eqn:E1; [|done..]. intros E2.
  assert (H1 : (wf db -> good db db1) /\ adds db db1).
  { eapply (each_ind seed_location (fun d => (wf db -> good db d) /\ adds db d)); [|split; [by intros; apply good_refl|done]|exact E1].
    intros [u [code country]] d d' _ [Hg Ha] E. apply insert_new_location in E as (Hg' & Ha' & _). split; [|by etrans].
    intros Hwf. destruct (Hg Hwf) as [Hw He]. destruct (Hg' Hw) as [Hw' He']. split; [done|by etrans]. }
  destruct H1 as [Hg1 Ha1].
  assert (H2 : ((wf db1 -> good db1 db') /\ adds db1 db') /\ locations db1 ⊆ locations db').
  { eapply (each_ind (seed_gateway t) (fun d => ((wf db1 -> good db1 d) /\ adds db1 d) /\ locations db1 ⊆ locations d));
      [|split; [split; [by intros; apply good_refl|done]|done]|exact E2].
    intros [u [lid v]] d d' Hin [[Hg Ha] Hl] E. apply elem_of_zip_r, elem_of_seed_join in Hin as (Hv & l & Ef).
    apply find_row_Some in Ef as [Ef _]. unfold seed_gateway in E.
    destruct (pg_cidr (sd_subnet4 v)) as [net4|] eqn:E4; [|done]. destruct (pg_cidr (sd_subnet6 v)) as [net6|] eqn:E6; [|done].
    apply insert_new_gateway in E as (Hg' & Ha' & _); [|by apply seeded_row_ok|].
    - split; [split; [|by etrans]|by etrans; [|apply Ha']].
      intros Hwf. destruct (Hg Hwf) as [Hw He]. destruct (Hg' Hw) as [Hw' He']. split; [done|by etrans].
    - exists l. by eapply lookup_weaken. }
  destruct H2 as [[Hg2 Ha2] _]. split; [|by etrans].
  intros Hwf. destruct (Hg1 Hwf) as [Hw He]. destruct (Hg2 Hw) as [Hw' He']. split; [done|by etrans].
Qed.

(** ** Doing it again *)

(** A row of the table satisfies [p]. *)
Definition has {R} (t : Table R) (p : R -> bool) (db : DB) : Prop := exists k r, get t db !! k = Some r /\ p r = true.

Lemma insert_new_again {R} (t : Table R) p u r db : has t p db -> insert_new t p u r db = Ok db.
Proof.
  intros (k & x & Hk & Hp). unfold insert_new. destruct (find_row p (get t db)) as [[]|] eqn:E; [done|].
  pose proof (proj1 (find_row_None _ _) E k x Hk). congruence.
Qed.

Lemma insert_new_has {R} (t : Table R) p u r db db' :
  (forall m d, get t (put t m d) = m) -> p r = true -> insert_new t p u r db = Ok db' -> has t p db'.
Proof.
  intros Ht Hr. unfold insert_new. destruct (find_row p (get t db)) as [[k x]|] eqn:E.
  - apply find_row_Some in E as [Hk Hp]. intros [= <-]. by exists k, x.
  - destruct (get t db !! u); [done|]. intros [= <-]. exists u, r. by rewrite Ht, lookup_insert_eq.
Qed.

Lemma each_all {A} (f : A -> DB -> result StoreError DB) (Q : A -> DB -> Prop) l db db' a :
  (forall a d d', f a d = Ok d' -> Q a d') -> (forall a b d d', Q a d -> f b d = Ok d' -> Q a d') ->
  each f l db = Ok db' -> a ∈ l -> Q a db'.
Proof.
  intros Hnew Hkeep. revert db. induction l as [|b l IH]; intros db E Hin; [by apply elem_of_nil in Hin|].
  cbn [each] in E. destruct (f b db) as [d1| |] eqn:E1; [|done..]. apply elem_of_cons in Hin as [->|Hin]; [|by apply (IH d1)].
  apply (each_ind f (Q b) l d1); [|by eapply Hnew|done]. intros a' d d' _. apply Hkeep.
Qed.

Lemma omap_length_le {A B} (f : A -> option B) l : (length (omap f l) <= length l)%nat.
Proof. induction l as [|a l IH]; [done|]. csimpl. destruct (f a); cbn [length]; lia. Qed.

Lemma each_same {A} (f : A -> DB -> result StoreError DB) l db : (forall a, a ∈ l -> f a db = Ok db) -> each f l db = Ok db.
Proof.
  induction l as [|a l IH]; intros Hf; [done|]. cbn [each]. rewrite Hf by left. apply IH. intros b Hb. apply Hf. by right.
Qed.

Lemma elem_of_zip_second {A B} (b : B) (l : list A) k : b ∈ k -> (length k <= length l)%nat -> exists a, (a, b) ∈ zip l k.
Proof.
  revert l. induction k as [|b' k IH]; intros [|a l] Hin Hl; cbn in Hl; [by apply elem_of_nil in Hin|by apply elem_of_nil in Hin|lia|].
  cbn [zip zip_with]. apply elem_of_cons in Hin as [->|Hin]; [exists a; left|].
  destruct (IH l Hin ltac:(lia)) as [a' Ha]. exists a'. by right.
Qed.

Lemma seed_location_does u code country db db' :
  seed_location (u, (code, country)) db = Ok db' -> has Locations (fun l => bool_decide (l_code l = code)) db' /\ adds db db'.
Proof.
  intros E. split; [|by apply insert_new_location in E as (_ & Ha & _)].
  apply (insert_new_has Locations _ u (mkLocationRow code country true) db); [done|by apply bool_decide_eq_true_2|done].
Qed.

(** The gateway and its networks. *)
Definition seeded (v : seed_row) (db : DB) : Prop :=
  has Gateways (fun g => bool_decide (g_name g = sd_name v)) db /\ is_Some (pg_cidr (sd_subnet4 v)) /\ is_Some (pg_cidr (sd_subnet6 v)).

Lemma seed_gateway_does t u lid v db db' : seed_gateway t (u, (lid, v)) db = Ok db' -> seeded v db'.
Proof.
  unfold seed_gateway. destruct (pg_cidr (sd_subnet4 v)) as [net4|] eqn:E4; [|done].
  destruct (pg_cidr (sd_subnet6 v)) as [net6|] eqn:E6; [|done]. intros E. split; [|by rewrite E4, E6].
  apply (insert_new_has Gateways _ u (seeded_row t lid net4 net6 v) db); [done|by apply bool_decide_eq_true_2|done].
Qed.

Lemma seed_gateway_locations t u lid v db db' : seed_gateway t (u, (lid, v)) db = Ok db' -> locations db' = locations db.
Proof.
  unfold seed_gateway. destruct (pg_cidr (sd_subnet4 v)) as [net4|]; [|done]. destruct (pg_cidr (sd_subnet6 v)) as [net6|]; [|done].
  unfold insert_new. destruct (find_row (fun g => bool_decide (g_name g = sd_name v)) (get Gateways db)); [by intros [= <-]|].
  destruct (get Gateways db !! u); [done|]. by intros [= <-].
Qed.

Lemma insert_new_keeps {R} (t : Table R) p u r db db' p' :
  (forall m d, get t (put t m d) = m) -> insert_new t p u r db = Ok db' -> has t p' db -> has t p' db'.
Proof.
  intros Ht. unfold insert_new. destruct (find_row p (get t db)); [by intros [= <-]|]. destruct (get t db !! u) eqn:Eu; [done|].
  intros [= <-] (k & x & Hk & Hp). exists k, x. rewrite Ht, lookup_insert_ne by congruence. done.
Qed.

(** The script run again, at any time and with any keys, finds its rows and adds none. *)
Lemma seed_script_again us us' t db db1 vs vs' t' :
  (length seed_locations <= length us)%nat -> (length seed_gateways <= length us')%nat ->
  seed_script us us' t db = Ok db1 -> seed_script vs vs' t' db1 = Ok db1.
Proof.
  intros Hus Hus'. unfold seed_script at 1. destruct (each seed_location _ db) as [d1| |] eqn:E1; [|done..]. intros E2.
  assert (Hloc : forall x, x ∈ seed_locations -> has Locations (fun l => bool_decide (l_code l = x.1)) d1).
  { intros x Hx. destruct (elem_of_zip_second x us _ Hx Hus) as [u Hu].
    apply (each_all seed_location (fun y d => has Locations (fun l => bool_decide (l_code l = y.2.1)) d) _ db d1 (u, x)) in E1; [done| | |done].
    - intros [u' [code country]] d d'. apply seed_location_does.
    - intros a [u' [code country]] d d' Ha E. by eapply insert_new_keeps. }
  assert (Hsame : locations db1 = locations d1).
  { eapply (each_ind (seed_gateway t) (fun d => locations d = locations d1)); [|done|exact E2].
    intros [u [lid v]] d d' _ Hd E. by rewrite (seed_gateway_locations _ _ _ _ _ _ E). }
  assert (Hgw : forall lid v, (lid, v) ∈ pg_rows (seed_join d1) -> seeded v db1).
  { intros lid v Hin. destruct (elem_of_zip_second (lid, v) us' _ Hin) as [u Hu].
    { rewrite pg_rows_Permutation. etrans; [apply omap_length_le|done]. }
    apply (each_all (seed_gateway t) (fun y d => seeded y.2.2 d) _ d1 db1 (u, (lid, v))) in E2; [done| | |done].
    - intros [u' [lid' v']] d d'. apply seed_gateway_does.
    - intros a [u' [lid' v']] d d' (Ha & H4 & H6) E. split; [|done]. unfold seed_gateway in E.
      destruct (pg_cidr (sd_subnet4 v')), (pg_cidr (sd_subnet6 v')); try done. by eapply insert_new_keeps. }
  unfold seed_script. rewrite each_same.
  - apply each_same. intros [u [lid v]] Hin. apply elem_of_zip_r in Hin.
    assert (Hin' : (lid, v) ∈ pg_rows (seed_join d1)) by (apply elem_of_seed_join; apply elem_of_seed_join in Hin; by rewrite <- Hsame).
    destruct (Hgw lid v Hin') as (Hhas & [net4 E4] & [net6 E6]). unfold seed_gateway. rewrite E4, E6. by apply insert_new_again.
  - intros [u [code country]] Hin. apply elem_of_zip_r in Hin. apply insert_new_again.
    destruct (Hloc _ Hin) as (k & l & Hk & Hl). exists k, l. cbn. by rewrite Hsame.
Qed.

(** [SeedDev] only adds rows, and done again it adds none: the development data is the same
    after every restart, and what has become of its gateways is kept. *)
Theorem SeedDev_idempotent c s s' :
  SeedDev c s = (Ok (), s') ->
  adds (s_db s) (s_db s') /\
  forall c2 u1 u2 u3 u4 u5 u6 us rs,
    SeedDev c2 (mkSession (s_db s') [] (u1 :: u2 :: u3 :: u4 :: u5 :: u6 :: us) rs) = (Ok (), mkSession (s_db s') [] us rs).
Proof.
  intros Hm. apply yields_run in Hm. unfold SeedDev, draw3 in Hm. yields_inv. simplify_eq.
  match goal with E : match seed_script ?a ?b ?t ?d with _ => _ end = _ |- _ =>
    destruct (seed_script a b t d) as [db'| |] eqn:Es; [|done..]; injection E as <- end.
  split; [by apply seed_script_sound in Es as [_ Ha]|]. intros c2 u1 u2 u3 u4 u5 u6 us rs. unfold SeedDev, draw3.
  do 3 (eapply bind_run; [reflexivity|]). rewrite stmt_fine. cbn [s_db].
  erewrite seed_script_again; [done| | |exact Es]; cbn; lia.
Qed.

Lemma keeps_SeedDev db0 : preserves (sound db0) SeedDev.
Proof.
  unfold SeedDev, draw3. apply preserves_bind; [auto with aevora|intros c].
  do 2 (apply preserves_bind; [repeat (apply preserves_bind; [auto with aevora|intros ?]); auto with aevora|intros ?]).
  apply keeps_stmt. intros db [] db' Hwf. destruct (seed_script _ _ _ _) eqn:E; [|done..]. intros [= <-].
  by apply seed_script_sound in E as [Hg _]; apply Hg.
Qed.

Lemma each_panics_not {A} (f : A -> DB -> result StoreError DB) l db : (forall a d, f a d <> Panic) -> each f l db <> Panic.
Proof.
  intros Hf. revert db. induction l as [|a l IH]; intros db; [done|]. cbn [each].
  destruct (f a db) eqn:E; [apply IH|done|by destruct (Hf a db)].
Qed.

Lemma insert_new_panics_not {R} (t : Table R) p u r db : insert_new t p u r db <> Panic.
Proof. unfold insert_new. destruct (find_row p _) as [[]|]; [done|]. by destruct (get t db !! u). Qed.

Lemma SeedDev_panics_not c s s' : SeedDev c s <> (Panic, s').
Proof.
  assert (Hs : forall us us' t db, seed_script us us' t db <> Panic).
  { intros us us' t db. unfold seed_script. destruct (each seed_location _ db) as [d| |] eqn:E; [|done|].
    - apply each_panics_not. intros [u [lid v]] d'. unfold seed_gateway.
      destruct (pg_cidr _); [|done]. destruct (pg_cidr _); [|done]. apply insert_new_panics_not.
    - exfalso. revert E. apply each_panics_not. intros [u [code country]] d. apply insert_new_panics_not. }
  destruct s as [db fs us rs]. unfold SeedDev, draw3, stmt, next_fault, gen_random_uuid, get_clock, bind, ret.
  do 6 (destruct us as [|? us]; cbn [s_uuids s_db s_faults s_rand]; [done|]).
  destruct fs as [|[] fs]; cbn [s_faults s_db with_db]; try done;
    match goal with |- context [seed_script ?a ?b ?t ?d] => destruct (seed_script a b t d) eqn:E; [done|done|by apply Hs in E] end.
Qed.

End seeding.

(** On empty tables: three locations, the last of them without a gateway. *)
#[local] Existing Instance demo_pg.

Example seed_empty :
  let '(r, s) := SeedDev (at_time 1000) (mkSession empty_db [] ["l1"; "l2"; "l3"; "g1"; "g2"; "g3"] []) in
  r = Ok () /\
  l_code <$> ([locations (s_db s) !! "l1"; locations (s_db s) !! "l2"; locations (s_db s) !! "l3"] ≫= option_list) = ["de"; "sg"; "us"] /\
  (fun g => (g_location_id g, g_name g)) <$> ([gateways (s_db s) !! "g1"; gateways (s_db s) !! "g2"; gateways (s_db s) !! "g3"] ≫= option_list)
  = [("l1", "de-fra-1"); ("l1", "de-fra-2"); ("l2", "sg-sin-1")].
Proof. vm_compute. done. Qed.
