(* ===== verification/Executions.v ===== *)
(** What holds along every execution of the store's operations, and what one pass of
    the reaper ([runReaper] of [cmd/aevora-controld/main.go]) leaves behind. *)
From S2P Require Import Prelude Floats Model Selection GoStrings NetAddr Crypto Alloc Db Session StoreGateways StoreIdentity StoreConnections Schema Facts Steps System Demo.

Section system.
Context `{PostgresOrder}.

(** ** Executions *)

(** C1: as long as one call ends before the next begins, whatever calls are made, in whatever
    order, with whatever statements failing or losing their replies, the tables satisfy
    every constraint of [wf]: a gateway never has two active leases of one address, a
    device never has two active leases, keys, names, emails and token hashes stay unique,
    and no row refers to a missing one. Calls that overlap are not covered: they can leave a
    device with two active leases ([Races.overlaps_break]); what they keep is in
    [Contention]. *)
Theorem reachable_wf tr db : run empty_db tr db -> wf db.
Proof. intros Hr. apply (run_good empty_db tr db); [apply wf_empty|done]. Qed.

(** Tables only evolve: no row disappears; a revoked device or token stays
    revoked, a lease that has ended is never active again and a lease never moves to
    another gateway, device or address; a redeemed invite never changes. *)
Theorem run_evolves db tr db' : wf db -> run db tr db' -> evolves db db'.
Proof. intros Hwf Hr. by apply (run_good db tr db'). Qed.

(** The event is a successful redemption of the invite. *)
Definition redeems (code : string) (e : event) : bool :=
  e.2 && match e.1 with Enroll_ req _ => bool_decide (er_InviteCode req = code) | _ => false end.

Definition invite_used (code : string) (db : DB) : Prop :=
  exists i, invite_codes db !! code = Some i /\ i_used_at i <> None.

Lemma redeems_step code db e db' :
  step db e db' -> redeems code e = true -> ~ invite_used code db /\ invite_used code db'.
Proof.
  intros Hs Hr. destruct Hs as [q c s r s' Hm]. unfold redeems in Hr. simpl in Hr.
  destruct r as [[]| |]; [|done..]. simpl in Hr. destruct q; try done. to_prop.
  simpl in Hm. apply yields_run in Hm. unfold discard in Hm. yields_inv. unfold Enroll in *. yields_inv.
  match goal with Hy : yields _ (Enroll_tx _ _) _ ?a _ |- _ => destruct a as [[u d] plain];
    apply Enroll_yields in Hy as (i & u0 & db1 & db2 & t & Hi & Ho & _ & _ & _ & _ & _ & Hdb) end.
  rewrite Hdb. split.
  - intros (i' & Hi' & Hu). simplify_eq. unfold invite_open in Ho. by destruct (i_used_at i).
  - exists (use_invite (usr_ID u) (now c) i). simpl. by rewrite lookup_insert_eq.
Qed.

Lemma used_invite_stays code db tr db' :
  wf db -> run db tr db' -> invite_used code db -> List.filter (redeems code) tr = [].
Proof.
  intros Hwf Hr. induction Hr as [db|db e db1 tr db2 Hs Hr IH]; intros Hu; [done|].
  destruct (step_good _ _ _ Hwf Hs) as [Hwf1 Hev]. simpl.
  destruct (redeems code e) eqn:E; [by destruct (redeems_step _ _ _ _ Hs E) as [Hno _]|].
  apply IH; [done|]. destruct Hu as (i & Hi & Hne). destruct (ev_invites _ _ Hev _ _ Hi) as (i' & Hi' & _ & Hsame).
  exists i. by rewrite (Hsame Hne) in Hi'.
Qed.

(** C14: an invite is redeemed at most once in any execution. *)
Theorem invite_redeemed_once code db tr db' :
  wf db -> run db tr db' -> (length (List.filter (redeems code) tr) <= 1)%nat.
Proof.
  intros Hwf Hr. induction Hr as [db|db e db1 tr db2 Hs Hr IH]; simpl; [lia|].
  destruct (step_good _ _ _ Hwf Hs) as [Hwf1 Hev].
  destruct (redeems code e) eqn:E; [|by apply IH].
  destruct (redeems_step _ _ _ _ Hs E) as [_ Hu].
  rewrite (used_invite_stays _ _ _ _ Hwf1 Hr Hu). simpl. lia.
Qed.

Definition device_revoked (did : string) (db : DB) : Prop :=
  exists d, devices db !! did = Some d /\ d_revoked_at d <> None.

(** A revoked device is out for good: along every execution that follows it
    stays revoked, no refresh token is exchanged for it, and no connection is
    created for it. *)
Theorem revoked_forever did db tr db' c :
  wf db -> device_revoked did db -> run db tr db' ->
  device_revoked did db' /\
  (forall plain uid did' db2, yields c (RefreshAccess plain) db' (uid, did') db2 -> did' <> did) /\
  (forall userID deviceID country lt ht conn db2, pg_uuid deviceID = Some did ->
     ~ yields c (CreateConnection userID deviceID country lt ht) db' conn db2).
Proof.
  intros Hwf (d & Hd & Hne) Hr. destruct (run_good _ _ _ Hwf Hr) as [_ Hev].
  destruct (ev_devices _ _ Hev _ _ Hd) as (d' & Hd' & _ & _ & _ & Hkeep). specialize (Hkeep Hne).
  splits.
  - by exists d'.
  - intros plain uid did' db2 Hy ->.
    apply RefreshAccess_yields in Hy as (k & x & d2 & _ & _ & _ & _ & _ & Hd2 & _ & Hlive). congruence.
  - intros userID deviceID country lt ht conn db2 Hdid Hy. unfold CreateConnection in Hy. yields_inv.
    apply CreateConnection_yields in Hy as (did2 & uid & d2 & gid & g & l & v4 & v6 & ip4 & ip6 & Hdid2 & _ & Hd2 & Ho & _).
    rewrite Hdid in Hdid2. injection Hdid2 as <-. rewrite Hd' in Hd2. injection Hd2 as <-.
    by rewrite owned_live_revoked in Ho.
Qed.

(** ** The reaper *)

(** One tick of [runReaper]: three sweeps and a snapshot, each with its own reading
    of the clock; an error of one is logged and does not stop the next. The result
    is what [metrics.UpdateFleet] is given, if the snapshot succeeds. *)
Definition reaper_tick (ttl : Duration) (c1 c2 c3 c4 : Clock) (s : session)
    : option (gmap string Z * Z) * session :=
  let '(_, s1) := MarkStaleUnhealthy ttl c1 s in
  let '(_, s2) := ExpireStaleLeases c2 s1 in
  let '(_, s3) := ExpireLeasesOnUnhealthyGateways c3 s2 in
  let '(r, s4) := FleetSnapshot c4 s3 in
  (match r with Ok m => Some m | _ => None end, s4).

(** The lease may go on: it has not expired and its gateway is healthy with a heartbeat
    that is recent enough. *)
Definition beating (t : Time) (ttl : Duration) (g : gateway_row) : bool :=
  bool_decide (g_status g = GatewayHealthy) && negb (stale t ttl g).

Definition swept (t1 t2 : Time) (ttl : Duration) (g : gateway_row) (l : lease_row) : lease_row :=
  if is_active l && ((le_expires_at l <? t2) || negb (beating t1 ttl g))
  then set_lease_state Expired None l else l.

Lemma reaper_tick_fine ttl c1 c2 c3 c4 db us rs :
  exists db',
    reaper_tick ttl c1 c2 c3 c4 (mkSession db [] us rs) =
      (Some (status_counts db', rows_affected is_active (leases db')), mkSession db' [] us rs) /\
    gateways db' = update_where (stale (now c1) ttl) (with_status GatewayUnhealthy) (gateways db) /\
    leases db' = update_where (stranded db') (set_lease_state Expired None)
                   (update_where (expired (now c2)) (set_lease_state Expired None) (leases db)) /\
    users db' = users db /\ invite_codes db' = invite_codes db /\ devices db' = devices db /\
    locations db' = locations db /\ refresh_tokens db' = refresh_tokens db.
Proof.
  unfold reaper_tick, MarkStaleUnhealthy, ExpireStaleLeases, ExpireLeasesOnUnhealthyGateways, FleetSnapshot.
  unfold bind at 1, get_clock at 1. rewrite update_fine.
  unfold bind at 1, get_clock at 1. rewrite !update_fine.
  unfold bind at 1. rewrite query_fine. unfold bind at 1. rewrite query_fine.
  eexists. split; [reflexivity|]. repeat split.
Qed.

(** C17: one pass of the reaper whose statements go through expires exactly the active
    leases that are past their expiry or whose gateway is not healthy or has not been
    heard of within the TTL, marks exactly the silent gateways unhealthy, touches
    nothing else, and reports the counts of the tables it leaves. *)
Theorem reaper_tick_sweeps ttl c1 c2 c3 c4 db us rs m s' :
  wf db -> reaper_tick ttl c1 c2 c3 c4 (mkSession db [] us rs) = (m, s') ->
  (forall k l, leases db !! k = Some l -> exists g, gateways db !! le_gateway_id l = Some g /\
     leases (s_db s') !! k = Some (swept (now c1) (now c2) ttl g l)) /\
  (forall k, leases db !! k = None -> leases (s_db s') !! k = None) /\
  (forall k, gateways (s_db s') !! k =
     (fun g => if stale (now c1) ttl g then with_status GatewayUnhealthy g else g) <$> gateways db !! k) /\
  devices (s_db s') = devices db /\ refresh_tokens (s_db s') = refresh_tokens db /\
  m = Some (status_counts (s_db s'), rows_affected is_active (leases (s_db s'))).
Proof.
  intros Hwf Hr. destruct (reaper_tick_fine ttl c1 c2 c3 c4 db us rs) as (db' & E & Hg & Hl & _ & _ & Hd & _ & Ht).
  rewrite Hr in E. injection E as -> ->. simpl. splits; try done.
  - intros k l Hk. destruct (wf_lease_gateway _ Hwf k l _ Hk eq_refl) as [g Hgid]. exists g. split; [done|].
    rewrite Hl, !lookup_update_where, Hk. simpl. f_equal.
    assert (Hst : forall l', le_gateway_id l' = le_gateway_id l ->
      stranded db' l' = is_active l' && negb (beating (now c1) ttl g)).
    { intros l' El. unfold stranded. rewrite El, Hg, lookup_update_where, Hgid. simpl. f_equal. f_equal.
      unfold beating. destruct (stale (now c1) ttl g); simpl; [by rewrite andb_false_r|by rewrite andb_true_r]. }
    unfold swept, expired. destruct (is_active l) eqn:Ea; simpl.
    + destruct (le_expires_at l <? now c2); simpl; rewrite ?Hst by done; simpl.
      * done.
      * by rewrite Ea.
    + by rewrite Hst, Ea.
  - intros k Hk. by rewrite Hl, !lookup_update_where, Hk.
  - intros k. by rewrite Hg, lookup_update_where.
Qed.

End system.

(** ** Witnesses *)

#[local] Existing Instance demo_pg.

(** Later: Ana's phone is revoked, and the same invite is tried again. *)
Definition demo_later : list call := [
  fine (RevokeDevice_ "user1" "dev1") 6000 [] [];
  fine (Enroll_ demo_enroll Hour) 7000 ["user2"; "dev2"; "tok2"] [random_c]
].

Lemma reachable_wf_witness : run empty_db demo_trace demo_db /\ wf demo_db.
Proof. split; [exact demo_run|apply (reachable_wf demo_trace), demo_run]. Defined.

(** The tables after, and after trying it all once more. *)
Definition later_db : DB := Eval vm_compute in (exec demo_later demo_db).2.
Definition later_trace : list event :=
  [(RevokeDevice_ "user1" "dev1", true); (Enroll_ demo_enroll Hour, false)].
Definition again_trace : list event :=
  [(RevokeDevice_ "user1" "dev1", false); (Enroll_ demo_enroll Hour, false)].

Lemma later_run : run demo_db later_trace later_db.
Proof.
  pose proof (exec_run demo_later demo_db) as Hr.
  assert (E : exec demo_later demo_db = (later_trace, later_db)) by (vm_compute; reflexivity). by rewrite E in Hr.
Qed.

Lemma again_run : run later_db again_trace later_db.
Proof.
  pose proof (exec_run demo_later later_db) as Hr.
  assert (E : exec demo_later later_db = (again_trace, later_db)) by (vm_compute; reflexivity). by rewrite E in Hr.
Qed.

Lemma run_evolves_witness : evolves demo_db later_db.
Proof. apply (run_evolves _ later_trace); [exact demo_wf|exact later_run]. Defined.

Lemma invite_redeemed_once_witness :
  List.filter (redeems "INVITE") (demo_trace ++ later_trace) = [(Enroll_ demo_enroll Hour, true)] /\
  (length (List.filter (redeems "INVITE") (demo_trace ++ later_trace)) <= 1)%nat.
Proof.
  split; [vm_compute; reflexivity|].
  apply (invite_redeemed_once "INVITE" empty_db _ later_db);
    [apply wf_empty|exact (run_app _ _ _ _ _ demo_run later_run)].
Defined.

Lemma revoked_forever_witness :
  device_revoked "dev1" later_db /\
  (forall plain uid did' db2, yields (at_time 9000) (RefreshAccess plain) later_db (uid, did') db2 -> did' <> "dev1").
Proof.
  assert (Hrev : device_revoked "dev1" later_db) by (eexists; split; [vm_compute; reflexivity|done]).
  destruct (revoked_forever "dev1" later_db again_trace later_db (at_time 9000)) as (H1 & H2 & _).
  - exact (proj1 (run_good _ _ _ demo_wf later_run)).
  - exact Hrev.
  - exact again_run.
  - split; [exact H1|exact H2].
Defined.

(** Two minutes later the gateway has been silent too long. *)
Definition demo_sweep : option (gmap string Z * Z) * session :=
  reaper_tick TTL (at_time (120 * Second)) (at_time (121 * Second)) (at_time (122 * Second))
    (at_time (123 * Second)) (mkSession demo_db [] [] []).

Lemma reaper_tick_sweeps_witness :
  demo_sweep.1 = Some (<["unhealthy" := 1]> ∅, 0) /\
  leases (s_db demo_sweep.2) !! "lease1" = set_lease_state Expired None <$> leases demo_db !! "lease1" /\
  devices (s_db demo_sweep.2) = devices demo_db.
Proof.
  split; [vm_compute; reflexivity|]. split; [vm_compute; reflexivity|].
  destruct (reaper_tick_sweeps TTL (at_time (120 * Second)) (at_time (121 * Second)) (at_time (122 * Second))
    (at_time (123 * Second)) demo_db [] [] demo_sweep.1 demo_sweep.2 demo_wf) as (_ & _ & _ & Hd & _).
  - apply surjective_pairing.
  - exact Hd.
Defined.
