(* ===== verification/Connections.v ===== *)
(** What the connection operations guarantee. *)
From S2P Require Import Prelude Floats Model Selection GoStrings NetAddr Crypto Alloc Db Session StoreGateways StoreIdentity StoreConnections Schema Facts Steps System Demo.

Section connect.
Context `{PostgresOrder}.

(** The run of [CreateConnection] without faults, as a function of the tables: the
    result and the tables left. *)
Definition connect (c : Clock) (did uid u country : string) (leaseTTL heartbeatTTL : Duration) (db : DB)
    : result StoreError Connection * DB :=
  match devices db !! did with
  | Some d =>
      if owned_live uid d then
        let db1 := released did (now c) db in
        match Best (cand_g <$> pg_rows (candidates (now c) heartbeatTTL country db1)) with
        | None => (Err ErrNoGatewayAvailable, db)
        | Some best =>
            let chosen := default zero_candidate
              (by_id (pg_rows (candidates (now c) heartbeatTTL country db1)) !! ID best) in
            let gid := ID (cand_g chosen) in
            match allocateHost (subnetV4 chosen) (subnetV6 chosen) (used_addrs gid db1) with
            | Ok (v4, v6) =>
                let expires := now c + pg_interval leaseTTL in
                match insert_lease u gid did (d_public_key d) v4 v6 expires db1 with
                | Ok (_, db2) => (Ok (connection u expires chosen v4 v6), db2)
                | Err e => (Err e, db)
                | Panic => (Panic, db)
                end
            | Err e => (Err e, db)
            | Panic => (Panic, db)
            end
        end
      else (Err ErrDeviceNotFound, db)
  | None => (Err ErrDeviceNotFound, db)
  end.

Lemma CreateConnection_calm userID deviceID country leaseTTL heartbeatTTL :
  calm (CreateConnection_tx userID deviceID country leaseTTL heartbeatTTL).
Proof. unfold CreateConnection_tx, usedHostAddrs. cbv zeta. typeclasses eauto 50 with aevora. Qed.

Lemma CreateConnection_tx_fine userID deviceID country leaseTTL heartbeatTTL c did uid db u us rs :
  pg_uuid deviceID = Some did -> pg_uuid userID = Some uid ->
  let '(r, db') := connect c did uid u country leaseTTL heartbeatTTL db in
  exists db2 us',
    CreateConnection_tx userID deviceID country leaseTTL heartbeatTTL c (mkSession db [] (u :: us) rs) =
      (r, mkSession db2 [] us' rs) /\ (if is_ok r then db2 = db' else db' = db).
Proof.
  intros Hdid Huid. unfold connect, CreateConnection_tx.
  rewrite (bind_fine _ _ _ _ _ _ (get_clock_fine _ _)).
  rewrite (bind_fine _ _ _ _ _ _ (uuid_param_fine _ _ _ _ Hdid)).
  rewrite (bind_fine _ _ _ _ _ _ (uuid_param_fine _ _ _ _ Huid)).
  rewrite (bind_fine _ _ _ _ _ _ (query_row_fine _ _ _ _ _)), device_key_option, head_pg_rows_option.
  destruct (devices db !! did) as [d|]; [|eexists _, _; split; [reflexivity|done]].
  destruct (owned_live uid d); [|by eexists _, _].
  rewrite (bind_fine _ _ _ _ _ _ (update_fine _ _ _ _ _ _ _)).
  fold (released did (now c) db). set (db1 := released did (now c) db).
  rewrite (bind_fine _ _ _ _ _ _ (query_all_fine _ _ _ _ _)).
  destruct (Best _) as [best|]; [|by eexists _, _]. cbv zeta.
  set (chosen := default _ _). set (gid := ID (cand_g chosen)).
  rewrite (bind_fine (query _) _ _ _ () _ (query_fine _ _ _ _ _)).
  rewrite (bind_fine _ _ _ _ _ _ (usedHostAddrs_fine _ _ _ _ _)).
  destruct (allocateHost _ _ _) as [[v4 v6]|e|]; [|by eexists _, _..].
  rewrite (bind_fine _ _ _ _ _ _ (eq_refl : of_result (Ok (v4, v6)) c _ = _)).
  rewrite (bind_fine _ _ _ _ _ _ (gen_random_uuid_fine _ _ _ _ _)).
  unfold bind at 1. rewrite stmt_fine.
  destruct (insert_lease _ _ _ _ _ _ _ _) as [[[] db2]|e|]; by eexists _, _.
Qed.

Lemma CreateConnection_fine userID deviceID country leaseTTL heartbeatTTL c did uid db u us rs :
  pg_uuid deviceID = Some did -> pg_uuid userID = Some uid ->
  let '(r, db') := connect c did uid u country leaseTTL heartbeatTTL db in
  exists us',
    CreateConnection userID deviceID country leaseTTL heartbeatTTL c (mkSession db [] (u :: us) rs) =
      (r, mkSession db' [] us' rs).
Proof.
  intros Hdid Huid.
  pose proof (CreateConnection_tx_fine userID deviceID country leaseTTL heartbeatTTL c did uid db u us rs Hdid Huid) as Htx.
  destruct (connect _ _ _ _ _ _ _ _) as [r db'] eqn:E. destruct Htx as (db2 & us' & Htx & Hdb).
  unfold CreateConnection. rewrite transaction_fine; [|intros r' s'; by apply CreateConnection_calm].
  rewrite Htx. exists us'. destruct r; simpl in Hdb; by subst.
Qed.

(** ** What a new connection is *)

Lemma lease_count_insert db u l gid :
  leases db !! u = None ->
  lease_count (put Leases (<[u := l]> (leases db)) db) gid =
  lease_count db gid + (if on_gateway gid l then 1 else 0).
Proof. intros Hu. unfold lease_count. by apply rows_affected_insert. Qed.

Lemma selectable_room db row :
  gateway_ok row.1.2 -> selectable (cand_g (scan_candidate db row)) = true <-> lease_count db row.1.1 < g_capacity row.1.2.
Proof.
  destruct row as [[gid g] l]. intros [Hcap _]. unfold selectable. simpl in *.
  replace (0 <? g_capacity g) with true by (symmetry; apply Z.ltb_lt; lia). simpl.
  destruct (Z.leb_spec (g_capacity g) (lease_count db gid)); split; intros; try done; lia.
Qed.

(** C3: a connection the server grants is for a live device of the caller; the
    device's other leases have been released; the gateway is the one [Best] picks
    among the healthy, recently heard gateways of an enabled location of the country;
    the address is the one [allocateHost] finds free there; exactly this lease is
    recorded and answered. It is then the only active lease of the device, and the
    gateway is not filled beyond its capacity. *)
Theorem CreateConnection_ok userID deviceID country leaseTTL heartbeatTTL c s conn s' :
  wf (s_db s) ->
  CreateConnection userID deviceID country leaseTTL heartbeatTTL c s = (Ok conn, s') ->
  connected c userID deviceID country leaseTTL heartbeatTTL (s_db s) conn (s_db s') /\
  exists l g, leases (s_db s') !! conn_ID conn = Some l /\ is_active l = true /\
    gateways (s_db s') !! le_gateway_id l = Some g /\
    (forall k l', leases (s_db s') !! k = Some l' -> is_active l' = true ->
       le_device_id l' = le_device_id l -> k = conn_ID conn) /\
    lease_count (s_db s') (le_gateway_id l) <= g_capacity g.
Proof.
  intros Hwf Hm. apply yields_run in Hm. unfold CreateConnection in Hm. apply yields_transaction in Hm.
  apply CreateConnection_yields in Hm as Hc. split; [done|].
  destruct Hc as (did & uid & d & gid & g & l & v4 & v6 & ip4 & ip6 & _ & _ & Hd & _ & Hg & _ & _ & Hsel & _ & _
    & _ & _ & Hu & Hip & _ & ->).
  set (db1 := released did (now c) (s_db s)) in *.
  apply selectable_room in Hsel; [|by apply (wf_gateways _ Hwf gid)]. simpl in Hsel.
  set (lr := mkLeaseRow gid did (d_public_key d) ip4 ip6 Active _ _).
  assert (Hcount := lease_count_insert db1 (conn_ID conn) lr gid Hu).
  exists lr, g. splits; [apply lookup_insert_eq|done..| |].
  - intros k l'. destruct (decide (k = conn_ID conn)) as [->|Hne]; [done|]. simpl.
    rewrite lookup_insert_ne by done. intros Hl' Ha Hdev.
    by destruct (released_inactive did (now c) (s_db s) k l' Hl' Ha).
  - change (le_gateway_id lr) with gid. rewrite Hcount. destruct (on_gateway _ _); lia.
Qed.

Lemma host_addr_ipv4 v : 0 <= v < 2 ^ 32 -> host_addr (ipv4_string (PutUint32 v)) = Some v.
Proof.
  intros Hv. destruct (ParseIP_Uint32 v Hv) as (ip & Hip & H4). unfold host_addr.
  rewrite Hip. simpl. rewrite H4. simpl. by apply Uint32_PutUint32.
Qed.

(** The text of a free address is in no active lease of the gateway. *)
Lemma free_not_taken `{!PostgresInet} db gid v ip4 :
  0 <= v < 2 ^ 32 -> v ∉ used_addrs gid db -> pg_host ip4 = ipv4_string (PutUint32 v) ->
  find_row (taken gid ip4) (leases db) = None.
Proof.
  intros Hv Hfree Hhost. apply find_row_None. intros k l Hl. apply not_true_is_false. intros Ht.
  unfold taken in Ht. to_prop. apply Hfree. unfold used_addrs.
  rewrite elem_of_list_to_set, list_elem_of_omap. exists (ipv4_string (PutUint32 v)).
  split; [|by apply host_addr_ipv4]. unfold active_hosts. apply list_elem_of_fmap.
  exists (k, l). simpl. split; [congruence|]. by apply elem_of_select_rows.
Qed.

Lemma candidates_int64 t ttl country db :
  wf db -> Z.of_nat (size (leases db)) < 2 ^ 63 -> Forall int64_fields (cand_g <$> candidates t ttl country db).
Proof.
  intros Hwf Hsize. apply Forall_fmap, Forall_forall. intros c Hc.
  apply elem_of_candidates in Hc as (id & g & l & -> & Hg & _ & _).
  destruct (wf_gateways _ Hwf id g Hg) as [Hcap Hbw]. unfold int64_fields. simpl.
  pose proof (rows_affected_size (on_gateway id) (leases db)).
  pose proof (rows_affected_nonneg (on_gateway id) (leases db)). unfold lease_count.
  assert (- 2 ^ 31 <= default 0 (g_bandwidth_mbps g) < 2 ^ 31).
  { destruct (g_bandwidth_mbps g) as [b|]; simpl in *; [|lia]. unfold int4 in Hbw. to_prop. lia. }
  splits; lia.
Qed.

(** [Best] over the rows of the candidate query, in the server's order. *)
Lemma no_candidate t ttl country db :
  wf db -> Z.of_nat (size (leases db)) < 2 ^ 63 ->
  Best (cand_g <$> pg_rows (candidates t ttl country db)) = None <->
  forall gid g l, gateways db !! gid = Some g -> locations db !! g_location_id g = Some l ->
    fresh t ttl country ((gid, g), l) = true -> g_capacity g <= lease_count db gid.
Proof.
  intros Hwf Hsize. pose proof (pg_rows_Permutation _ (candidates t ttl country db)) as Hp. split.
  - intros Hnone gid g l Hg Hl Hf.
    apply Best_None_selectable in Hnone.
    + rewrite Forall_fmap, Hp, Forall_forall in Hnone.
      assert (Hc : scan_candidate db ((gid, g), l) ∈ candidates t ttl country db)
        by (apply elem_of_candidates; eauto 10).
      specialize (Hnone _ Hc). destruct (Z.le_gt_cases (g_capacity g) (lease_count db gid)) as [|Hlt]; [done|].
      exfalso. assert (Hsel := proj2 (selectable_room db ((gid, g), l) (wf_gateways _ Hwf gid g Hg)) Hlt).
      simpl in *. congruence.
    + rewrite Forall_fmap, Hp, <- Forall_fmap. by apply candidates_int64.
  - intros Hall. destruct (Best _) as [best|] eqn:E; [|done].
    destruct (chosen_candidate _ _ _ _ _ _ Hp E) as (gid & g & l & _ & -> & Hg & Hl & Hf & Hsel).
    apply selectable_room in Hsel; [|by apply (wf_gateways _ Hwf gid)]. simpl in Hsel.
    specialize (Hall _ _ _ Hg Hl Hf). lia.
Qed.

(** ** A connection is granted whenever there is room *)

(** Every gateway of the registry has an IPv4 network with at least as many hosts as
    its capacity, and a v6 network, if any, whose addresses the server takes. *)
Definition roomy (db : DB) : Prop :=
  forall gid g, gateways db !! gid = Some g ->
    (exists base n, network (g_wg_subnet_v4 g) base n /\ g_capacity g <= host_limit n - 2) /\
    (forall n6 h, netV6_of (g_wg_subnet_v6 g) = Some n6 -> is_Some (pg_inet (host_v6 n6 h))).

(** Some gateway qualifies and has a free slot. *)
Definition available (t : Time) (ttl : Duration) (country : string) (db : DB) : Prop :=
  exists gid g l, gateways db !! gid = Some g /\ locations db !! g_location_id g = Some l /\
    fresh t ttl country ((gid, g), l) = true /\ lease_count db gid < g_capacity g.

Lemma insert_lease_succeeds `{!PostgresInet} u gid did pub v h n6o expires db :
  0 <= v < 2 ^ 32 -> v ∉ used_addrs gid db ->
  (forall n6, n6o = Some n6 -> is_Some (pg_inet (host_v6 n6 h))) ->
  is_Some (gateways db !! gid) -> is_Some (devices db !! did) -> leases db !! u = None ->
  exists db', insert_lease u gid did pub (ipv4_string (PutUint32 v)) ((fun n6 => host_v6 n6 h) <$> n6o)
                expires db = Ok ((), db').
Proof.
  intros Hv Hfree H6 [g Hg] [d Hd] Hu. unfold insert_lease.
  destruct (pg_inet_host (PutUint32 v)) as (ip4 & E4 & Hhost); [apply PutUint32_bytes|done|].
  rewrite E4. assert (E6 : exists ip6, inet_opt ((fun n6 => host_v6 n6 h) <$> n6o) = Some ip6).
  { destruct n6o as [n6|]; simpl; [|by eexists]. destruct (H6 n6 eq_refl) as [x ->]. by eexists. }
  destruct E6 as [ip6 ->]. rewrite Hg, Hd, Hu, (free_not_taken _ _ v) by done. by eexists.
Qed.

(** C7: with no statement failing, a live device of the caller, a new lease id, and a
    qualifying gateway with a free slot, [CreateConnection] grants a connection, provided
    the registry is [roomy]: every gateway has an IPv4 network with at least as many hosts
    as its capacity, and an IPv6 network, if any, whose addresses the server takes. Then it
    does not fail for want of an address, on the unique index, or by a panic. (Nothing in
    the code makes sure of that: a registration may bring a smaller network, whose
    addresses run out first, or an IPv6 network as the IPv4 one, on which the allocation
    panics, [Alloc.allocateHost_panics_iff].) *)
Theorem CreateConnection_succeeds `{!PostgresInet} userID deviceID country leaseTTL heartbeatTTL c did uid d db u us rs :
  wf db -> Z.of_nat (size (leases db)) < 2 ^ 63 -> roomy db ->
  pg_uuid deviceID = Some did -> pg_uuid userID = Some uid ->
  devices db !! did = Some d -> owned_live uid d = true -> leases db !! u = None ->
  available (now c) heartbeatTTL country (released did (now c) db) ->
  exists conn s',
    CreateConnection userID deviceID country leaseTTL heartbeatTTL c (mkSession db [] (u :: us) rs) = (Ok conn, s').
Proof.
  intros Hwf Hsize Hroomy Hdid Huid Hd Ho Hu Havail.
  pose proof (CreateConnection_fine userID deviceID country leaseTTL heartbeatTTL c did uid db u us rs Hdid Huid) as Hfine.
  enough (exists conn db', connect c did uid u country leaseTTL heartbeatTTL db = (Ok conn, db')) as (conn & db' & E).
  { rewrite E in Hfine. destruct Hfine as [us' Hrun]. eauto. }
  clear Hfine. unfold connect. rewrite Hd, Ho. cbv zeta.
  destruct (good_released did (now c) db Hwf) as [Hwf1 _]. set (db1 := released did (now c) db) in *.
  assert (Hsize1 : Z.of_nat (size (leases db1)) < 2 ^ 63).
  { unfold db1. simpl. unfold update_where. by rewrite map_size_fmap. }
  destruct (Best _) as [best|] eqn:Eb.
  2: { rewrite no_candidate in Eb by done. destruct Havail as (gid & g & l & Hg & Hl & Hf & Hlt).
       specialize (Eb gid g l Hg Hl Hf). lia. }
  destruct (chosen_candidate _ _ _ _ _ _ (pg_rows_Permutation _ _) Eb) as (gid & g & l & -> & -> & Hg & Hl & Hf & Hsel).
  apply selectable_room in Hsel; [|by apply (wf_gateways _ Hwf1 gid)]. simpl in Hsel |- *.
  destruct (Hroomy gid g Hg) as [(base & n & Hn & Hcap) H6].
  pose proof (size_used_addrs gid db1) as Hused.
  destruct (allocateHost_room (g_wg_subnet_v4 g) (g_wg_subnet_v6 g) (used_addrs gid db1) base n Hn) as (v4 & v6 & Ea); [lia|].
  pose proof (allocateHost_cases (g_wg_subnet_v4 g) (g_wg_subnet_v6 g) (used_addrs gid db1) base n Hn) as Hcases.
  rewrite Ea in *. destruct Hcases as (h & (Hh & Hfree & _) & -> & ->).
  destruct (network_bounds _ _ _ Hn) as (? & ? & ? & _).
  assert (Hu1 : leases db1 !! u = None) by (unfold db1; simpl; by rewrite lookup_update_where, Hu).
  destruct (insert_lease_succeeds u gid did (d_public_key d) (base + h) h (netV6_of (g_wg_subnet_v6 g))
    (now c + pg_interval leaseTTL) db1) as [db' ->]; eauto.
  unfold is_host in *. lia.
Qed.

Lemma allocateHost_err c4 c6 used e : allocateHost c4 c6 used = Err e -> e = ErrParse \/ e = ErrGatewayFull.
Proof.
  unfold allocateHost. destruct (ParseCIDR c4); [|intros [= <-]; auto].
  destruct (To4 _ ≫= _); [|done]. destruct (alloc_loop _ _ _ _ _); intros [= <-]; auto.
Qed.

Lemma insert_lease_err u gid did pub v4 v6 expires db e :
  insert_lease u gid did pub v4 v6 expires db = Err e -> e = ErrDB.
Proof. unfold insert_lease. repeat case_match; congruence. Qed.

(** C8: without faults, [CreateConnection] answers "device not found" exactly when the
    device is not a live one of the caller, and "no gateway available" exactly when
    it is and every qualifying gateway is full once the device's old leases are
    released; whenever it answers with an error the tables are as before. *)
Theorem CreateConnection_errors userID deviceID country leaseTTL heartbeatTTL c did uid db u us rs r s' :
  wf db -> Z.of_nat (size (leases db)) < 2 ^ 63 ->
  pg_uuid deviceID = Some did -> pg_uuid userID = Some uid ->
  CreateConnection userID deviceID country leaseTTL heartbeatTTL c (mkSession db [] (u :: us) rs) = (r, s') ->
  let live := exists d, devices db !! did = Some d /\ d_user_id d = uid /\ d_revoked_at d = None in
  (r = Err ErrDeviceNotFound <-> ~ live) /\
  (r = Err ErrNoGatewayAvailable <-> live /\ ~ available (now c) heartbeatTTL country (released did (now c) db)) /\
  (is_ok r = false -> s_db s' = db).
Proof.
  intros Hwf Hsize Hdid Huid Hm live.
  pose proof (CreateConnection_fine userID deviceID country leaseTTL heartbeatTTL c did uid db u us rs Hdid Huid) as Hfine.
  rewrite Hm in Hfine. unfold connect in Hfine.
  assert (Hlive : forall d, devices db !! did = Some d -> live <-> owned_live uid d = true).
  { intros d Hd. unfold live, owned_live, not_revoked. split.
    - intros (d' & Hd' & ? & ?). simplify_eq. by rewrite !bool_decide_true.
    - intros Ho. exists d. by to_prop. }
  destruct (devices db !! did) as [d|] eqn:Ed.
  2: { destruct Hfine as [us' E]. injection E as -> ->.
       assert (~ live) by (intros (d & Hd & _); done). split; [done|split; [|done]]. split; [done|by intros [? _]]. }
  specialize (Hlive d eq_refl). destruct (owned_live uid d) eqn:Eo.
  2: { destruct Hfine as [us' E]. injection E as -> ->.
       assert (~ live) by (by rewrite Hlive). split; [done|split; [|done]]. split; [done|by intros [? _]]. }
  assert (Hl : live) by by apply Hlive. clear Hlive.
  destruct (good_released did (now c) db Hwf) as [Hwf1 _]. set (db1 := released did (now c) db) in *.
  assert (Hsize1 : Z.of_nat (size (leases db1)) < 2 ^ 63).
  { unfold db1. simpl. unfold update_where. by rewrite map_size_fmap. }
  assert (Hnone := no_candidate (now c) heartbeatTTL country db1 Hwf1 Hsize1).
  cbv zeta in Hfine. destruct (Best _) as [best|] eqn:Eb.
  2: { destruct Hfine as [us' E]. injection E as -> ->. split; [by split; [|]|]. split; [|done].
       split; [|done]. intros _. split; [done|]. intros (gid & g & l & Hg & Hlo & Hf & Hlt).
       pose proof (proj1 Hnone eq_refl _ _ _ Hg Hlo Hf). lia. }
  assert (Hav : available (now c) heartbeatTTL country db1).
  { destruct (chosen_candidate _ _ _ _ _ _ (pg_rows_Permutation _ _) Eb) as (gid & g & l & _ & -> & Hg & Hlo & Hf & Hsel).
    apply selectable_room in Hsel; [|by apply (wf_gateways _ Hwf1 gid)]. by exists gid, g, l. }
  assert (Hr : (r <> Err ErrDeviceNotFound /\ r <> Err ErrNoGatewayAvailable) /\ (is_ok r = false -> s_db s' = db)).
  2: { destruct Hr as [[Hr1 Hr2] Hr3]. split; [split; [by intros ?|by intros ?]|]. split; [|done].
       split; [by intros ?|by intros [_ ?]]. }
  destruct (allocateHost _ _ _) as [[v4 v6]|e|] eqn:Ea.
  - destruct (insert_lease _ _ _ _ _ _ _ _) as [[[] db2]|e|] eqn:Ei; destruct Hfine as [us' E];
      injection E as -> ->; [done| |done].
    by apply insert_lease_err in Ei as ->.
  - destruct Hfine as [us' E]. injection E as -> ->. by apply allocateHost_err in Ea as [->| ->].
  - destruct Hfine as [us' E]. by injection E as -> ->.
Qed.

(** ** Serving a connection *)

(** C16: the peers an agent is told to keep are exactly the active, unexpired leases of
    the one gateway its token names, each with its device's key and host routes; no
    two of them have the same key, and asking changes nothing. *)
Theorem GatewayPeers_spec tokenHash c s peers s' :
  wf (s_db s) -> GatewayPeers tokenHash c s = (Ok peers, s') ->
  s_db s' = s_db s /\ NoDup (peer_PublicKey <$> peers) /\
  exists gid g, gateways (s_db s) !! gid = Some g /\ live_token tokenHash g = true /\
    forall p, p ∈ peers <-> exists k l, leases (s_db s) !! k = Some l /\ le_gateway_id l = gid /\
      is_active l = true /\ now c < le_expires_at l /\ p = peer_of l.
Proof.
  intros Hwf Hm. apply yields_run in Hm. unfold GatewayPeers in Hm. yields_inv.
  match type of Hm with yields ?c' _ _ _ _ => rename c' into c end.
  destruct (head _) as [gid|] eqn:Eh; [|yields_inv]. yields_inv.
  set (db := s_db s) in *. set (rows := select_rows (serving (now c) gid) (leases db)).
  assert (Hrows : pg_rows rows ≡ₚ rows) by apply pg_rows_Permutation. split; [done|]. split.
  - rewrite <- list_fmap_compose. apply (NoDup_fmap_key fst).
    { rewrite Hrows. apply NoDup_select_rows. }
    intros [k1 l1] [k2 l2]. rewrite !Hrows. unfold rows. rewrite !elem_of_select_rows. simpl.
    intros [Hk1 Hs1] [Hk2 Hs2] Hkey. unfold serving, on_gateway in *. to_prop. by apply (wf_lease_key db k1 k2 l1 l2).
  - apply head_pg_rows_elem in Eh. unfold gateway_of_token in Eh.
    apply list_elem_of_fmap in Eh as ([gid' g] & -> & Hg). apply elem_of_select_rows in Hg as [Hg Hlive].
    exists gid', g. split; [done|]. split; [done|]. intros p. rewrite list_elem_of_fmap. split.
    + intros ([k l] & -> & Hin). rewrite Hrows in Hin. apply elem_of_select_rows in Hin as [Hl Hs].
      unfold serving, on_gateway in Hs. to_prop. by exists k, l.
    + intros (k & l & Hl & Hgl & Ha & He & ->). exists (k, l). split; [done|]. rewrite Hrows.
      apply elem_of_select_rows. split; [done|]. unfold serving, on_gateway. simpl in Hgl.
      rewrite bool_decide_true, Ha by done. simpl. by apply Z.ltb_lt.
Qed.

Lemma serving_inactive t gid l : is_active l = false -> serving t gid l = false.
Proof. unfold serving, on_gateway. intros ->. by rewrite andb_false_r. Qed.

(** A connection that has ended, by release, expiry, failover or revocation, is over:
    along every execution that follows no agent is told to serve it, and it can
    neither be renewed nor released again. *)
Theorem ended_connection db tr db' lid l :
  wf db -> leases db !! lid = Some l -> is_active l = false -> run db tr db' ->
  exists l', leases db' !! lid = Some l' /\ le_device_id l' = le_device_id l /\ is_active l' = false /\
    (forall t gid, serving t gid l' = false) /\
    (forall c userID leaseID ttl e db2, pg_uuid leaseID = Some lid ->
       ~ yields c (RenewConnection userID leaseID ttl) db' e db2) /\
    (forall c userID leaseID x db2, pg_uuid leaseID = Some lid ->
       ~ yields c (ReleaseConnection userID leaseID) db' x db2).
Proof.
  intros Hwf Hl Ha Hr. destruct (run_good _ _ _ Hwf Hr) as [_ Hev].
  destruct (ev_leases _ _ Hev _ _ Hl) as (l' & Hl' & Hrel). exists l'.
  assert (Ha' : is_active l' = false).
  { destruct (is_active l') eqn:E; [|done]. by rewrite (lease_rel_active _ _ Hrel E) in Ha. }
  destruct Hrel as (_ & Hdev & _). split; [done|]. split; [done|]. split; [done|].
  split; [intros t gid; by apply serving_inactive|].
  assert (Hno : forall c p f n db2, (forall db, p db l' = false) ->
    yields c (update_row Leases lid p f) db' n db2 -> n = 0).
  { intros c p f n db2 Hp Hy. apply yields_update_row in Hy as [(r & Hr' & Hp' & _)|(_ & -> & _)]; [|done].
    simpl in Hr'. rewrite Hl' in Hr'. injection Hr' as <-. by rewrite Hp in Hp'. }
  assert (Hao : forall uid db, active_owned uid db l' = false) by (intros; unfold active_owned; by rewrite Ha').
  split.
  - intros c userID leaseID ttl e db2 Hid Hy. unfold RenewConnection in Hy. yields_inv. simplify_eq.
    match goal with Hu : yields _ (update_row _ _ _ _) _ _ _ |- _ => apply Hno in Hu; [|done]; subst end.
    simpl in Hy. yields_inv.
  - intros c userID leaseID x db2 Hid Hy. unfold ReleaseConnection in Hy. yields_inv. simplify_eq.
    match goal with Hu : yields _ (update_row _ _ _ _) _ _ _ |- _ => apply Hno in Hu; [|done]; subst end.
    simpl in Hy. yields_inv.
Qed.

(** A successful renewal is of an active lease of one of the caller's devices; it
    moves the expiry to the TTL from now and changes nothing else, so the reaper does
    not expire the connection before. *)
Theorem RenewConnection_ok userID leaseID leaseTTL c s e s' :
  RenewConnection userID leaseID leaseTTL c s = (Ok e, s') ->
  exists lid uid l d, pg_uuid leaseID = Some lid /\ pg_uuid userID = Some uid /\
    leases (s_db s) !! lid = Some l /\ is_active l = true /\
    devices (s_db s) !! le_device_id l = Some d /\ d_user_id d = uid /\
    e = now c + pg_interval leaseTTL /\
    s_db s' = put Leases (<[lid := extend e l]> (leases (s_db s))) (s_db s) /\
    forall t, t <= e -> expired t (extend e l) = false.
Proof.
  intros Hm. apply yields_run in Hm. unfold RenewConnection in Hm. yields_inv.
  match goal with Hu : yields _ (update_row _ _ _ _) _ _ _ |- _ =>
    apply yields_update_row in Hu as [(l & Hl & Hp & -> & Hdb)|(_ & -> & _)] end; simpl in Hm; yields_inv.
  unfold active_owned in Hp. to_prop. destruct (devices (s_db s) !! le_device_id l) as [d|] eqn:Ed; [|done].
  to_prop. eexists _, _, l, d. splits; try done; try eassumption.
  intros t Ht. unfold expired. apply andb_false_iff. right. simpl. by apply Z.ltb_ge.
Qed.

End connect.

(** ** Witnesses *)

#[local] Existing Instance demo_pg.

(** Ana's phone reconnects. *)
Definition reconnect : result StoreError Connection * session :=
  CreateConnection "user1" "dev1" "de" Hour TTL (at_time 6000) (mkSession demo_db [] ["lease2"] []).

Definition reconnected : Connection :=
  mkConnection "lease2" "de-1" "Germany" "Frankfurt" "192.0.2.1:51820" "gwkey" "10.7.50.2/32" None (6000 + Hour).

Lemma CreateConnection_ok_witness :
  reconnect.1 = Ok reconnected /\
  connected (at_time 6000) "user1" "dev1" "de" Hour TTL demo_db reconnected (s_db reconnect.2).
Proof.
  assert (E : reconnect.1 = Ok reconnected) by (vm_compute; reflexivity). split; [exact E|].
  refine (proj1 (CreateConnection_ok "user1" "dev1" "de" Hour TTL (at_time 6000) (mkSession demo_db [] ["lease2"] [])
    reconnected reconnect.2 demo_wf _)).
  rewrite <- E. apply surjective_pairing.
Defined.

Lemma demo_roomy : roomy demo_db.
Proof.
  intros gid g Hg. rewrite demo_gateways in Hg. apply lookup_singleton_Some in Hg as [<- <-]. split.
  - exists (addr_10_7_50 0), test_net. split; [exact test_network|]. vm_compute. discriminate.
  - intros n6 h. discriminate.
Qed.

Lemma CreateConnection_succeeds_witness :
  exists conn s', CreateConnection "user1" "dev1" "de" Hour TTL (at_time 6000)
    (mkSession demo_db [] ["lease2"] []) = (Ok conn, s').
Proof.
  apply (CreateConnection_succeeds "user1" "dev1" "de" Hour TTL (at_time 6000) "dev1" "user1"
    (mkDeviceRow "user1" "phone" "ios" "phonekey" 4000 None None) demo_db "lease2" [] []).
  - exact demo_wf.
  - vm_compute. reflexivity.
  - exact demo_roomy.
  - reflexivity.
  - reflexivity.
  - vm_compute. reflexivity.
  - reflexivity.
  - vm_compute. reflexivity.
  - exists "gw1", demo_gateway, (mkLocationRow "de" "Germany" true).
    repeat split; vm_compute; reflexivity.
Defined.

(** Nobody serves France. *)
Lemma CreateConnection_errors_witness :
  let r := CreateConnection "user1" "dev1" "fr" Hour TTL (at_time 6000) (mkSession demo_db [] ["lease2"] []) in
  r.1 = Err ErrNoGatewayAvailable /\ s_db r.2 = demo_db.
Proof.
  intros r. assert (E : r.1 = Err ErrNoGatewayAvailable) by (vm_compute; reflexivity). split; [exact E|].
  assert (Hsize : Z.of_nat (size (leases demo_db)) < 2 ^ 63) by (vm_compute; reflexivity).
  destruct (CreateConnection_errors "user1" "dev1" "fr" Hour TTL (at_time 6000) "dev1" "user1" demo_db "lease2" [] []
    r.1 r.2 demo_wf Hsize eq_refl eq_refl (surjective_pairing r)) as (_ & _ & Hdb).
  apply Hdb. rewrite E. reflexivity.
Defined.

Definition demo_peers : result StoreError (list Peer) * session :=
  GatewayPeers hash_a (at_time 6000) (mkSession demo_db [] [] []).

Lemma GatewayPeers_spec_witness :
  demo_peers.1 = Ok [mkPeer "phonekey" ["10.7.50.2/32"]] /\ s_db demo_peers.2 = demo_db.
Proof.
  assert (E : demo_peers.1 = Ok [mkPeer "phonekey" ["10.7.50.2/32"]]) by (vm_compute; reflexivity).
  split; [exact E|].
  refine (proj1 (GatewayPeers_spec hash_a (at_time 6000) (mkSession demo_db [] [] [])
    [mkPeer "phonekey" ["10.7.50.2/32"]] demo_peers.2 demo_wf _)).
  rewrite <- E. apply surjective_pairing.
Defined.

Definition demo_release : list call := [fine (ReleaseConnection_ "user1" "lease1") 6000 [] []].
Definition demo_released : DB := Eval vm_compute in (exec demo_release demo_db).2.

Lemma release_run : run demo_db [(ReleaseConnection_ "user1" "lease1", true)] demo_released.
Proof.
  pose proof (exec_run demo_release demo_db) as Hr.
  assert (E : exec demo_release demo_db = ([(ReleaseConnection_ "user1" "lease1", true)], demo_released))
    by (vm_compute; reflexivity).
  by rewrite E in Hr.
Qed.

Lemma ended_connection_witness :
  exists l', leases demo_released !! "lease1" = Some l' /\ is_active l' = false.
Proof.
  destruct (ended_connection demo_released [] demo_released "lease1"
    (mkLeaseRow "gw1" "dev1" "phonekey" "10.7.50.2" None Released (5000 + Hour) (Some 6000)))
    as (l' & Hl' & _ & Ha & _).
  - exact (proj1 (run_good _ _ _ demo_wf release_run)).
  - vm_compute. reflexivity.
  - reflexivity.
  - constructor.
  - exists l'. split; [exact Hl'|exact Ha].
Defined.

Definition demo_renewal : result StoreError Time * session :=
  RenewConnection "user1" "lease1" Hour (at_time 7000) (mkSession demo_db [] [] []).

Lemma RenewConnection_ok_witness :
  demo_renewal.1 = Ok (7000 + Hour) /\
  exists l, s_db demo_renewal.2 = put Leases (<["lease1" := extend (7000 + Hour) l]> (leases demo_db)) demo_db.
Proof.
  assert (E : demo_renewal.1 = Ok (7000 + Hour)) by (vm_compute; reflexivity). split; [exact E|].
  destruct (RenewConnection_ok "user1" "lease1" Hour (at_time 7000) (mkSession demo_db [] [] []) (7000 + Hour)
    demo_renewal.2) as (lid & uid & l & d & Hlid & _ & _ & _ & _ & _ & _ & Hdb & _).
  - rewrite <- E. apply surjective_pairing.
  - exists l. injection Hlid as <-. exact Hdb.
Defined.
