(* ===== verification/Identity.v ===== *)
(** What the identity operations guarantee: enrolment, sessions, revocation,
    passwords. *)
From S2P Require Import Prelude Floats Model Crypto Alloc Db Session StoreGateways StoreIdentity StoreConnections Schema Facts Steps System Demo.

Section identity.
Context `{PostgresOrder}.

(** ** Enrolment *)

(** C26: a successful enrolment consumed an open invite and did four things together:
    the user with that email (compared as [citext] does) exists, new and active or
    kept with its status and password; a device with a key no device had belongs to
    it; the invite is marked used by it; and one refresh token, of which only the
    hash is stored, is the device's. Nothing else has changed. *)
Theorem Enroll_ok req ttl c s u d plain s' :
  wf (s_db s) -> Enroll req ttl c s = (Ok (u, d, plain), s') ->
  exists i row t,
    invite_codes (s_db s) !! er_InviteCode req = Some i /\ invite_open (time_Now c) i = true /\
    invite_codes (s_db s') = <[er_InviteCode req := use_invite (usr_ID u) (now c) i]> (invite_codes (s_db s)) /\
    users (s_db s') = <[usr_ID u := row]> (users (s_db s)) /\
    pg_fold (u_email row) = pg_fold (er_Email req) /\
    match users (s_db s) !! usr_ID u with
    | Some old => u_status row = u_status old /\ u_password_hash row = u_password_hash old
    | None => u_status row = "active" /\ u_password_hash row = None
    end /\
    devices (s_db s) !! dev_ID d = None /\
    (forall k d0, devices (s_db s) !! k = Some d0 -> d_public_key d0 <> dr_PublicKey (er_Device req)) /\
    devices (s_db s') = <[dev_ID d := mkDeviceRow (usr_ID u) (dr_Name (er_Device req)) (dr_Platform (er_Device req))
                            (dr_PublicKey (er_Device req)) (now c) None None]> (devices (s_db s)) /\
    refresh_tokens (s_db s') = <[t := mkTokenRow (dev_ID d) (HashToken plain) (now c + pg_interval ttl) None]>
                                 (refresh_tokens (s_db s)) /\
    locations (s_db s') = locations (s_db s) /\ gateways (s_db s') = gateways (s_db s) /\
    leases (s_db s') = leases (s_db s).
Proof.
  intros Hwf Hm. apply yields_run in Hm. unfold Enroll in Hm. apply yields_transaction in Hm.
  apply Enroll_yields in Hm as (i & u0 & db1 & db2 & t & Hi & Ho & Hu & Hd & _ & _ & _ & ->).
  apply upsert_user_Ok in Hu as (row & -> & _ & Hrow).
  apply insert_device_Ok in Hd as (_ & Hnew & Hkey & _ & ->). simpl in *.
  exists i, row, t. splits; try done.
  - destruct (users (s_db s) !! usr_ID u); by destruct Hrow as [? ->].
  - destruct (users (s_db s) !! usr_ID u); by destruct Hrow as [? ->].
  - intros k d0 Hd0 E. pose proof (proj1 (find_row_None _ _) Hkey k d0 Hd0) as Hf. simpl in Hf. by to_prop.
Qed.

(** ** Sessions *)

(** The token may be exchanged at [t] for access as [uid] on the device [did]. *)
Definition session_of (t : Time) (plain uid did : string) (db : DB) : Prop :=
  exists k x d, refresh_tokens db !! k = Some x /\ t_token_hash x = HashToken plain /\
    t_revoked_at x = None /\ t < t_expires_at x /\ t_device_id x = did /\
    devices db !! did = Some d /\ d_user_id d = uid /\ d_revoked_at d = None.

Lemma elem_of_refreshable t plain uid did db :
  (uid, did) ∈ refreshable t (HashToken plain) db <-> session_of t plain uid did db.
Proof.
  unfold refreshable. rewrite list_elem_of_omap. split.
  - intros ([k x] & Hk & Hx). simpl in Hx. apply elem_of_map_to_list in Hk.
    destruct (_ && _) eqn:Ec; [|done]. to_prop.
    destruct (devices db !! t_device_id x) as [d|] eqn:Ed; [|done].
    destruct (not_revoked d) eqn:En; [|done]. unfold not_revoked in En. to_prop. simplify_eq.
    exists k, x, d. splits; done.
  - intros (k & x & d & Hk & Hh & Hr & He & Hdid & Hd & Hu & Hl). exists (k, x).
    split; [by apply elem_of_map_to_list|]. simpl. subst.
    rewrite Hd, !bool_decide_true by done. unfold not_revoked. rewrite bool_decide_true by done.
    apply Z.ltb_lt in He. by rewrite He.
Qed.

Lemma session_of_unique t plain uid did uid' did' db :
  wf db -> session_of t plain uid did db -> session_of t plain uid' did' db -> uid = uid' /\ did = did'.
Proof.
  intros Hwf (k & x & d & Hk & Hh & _ & _ & Hdid & Hd & Hu & _) (k' & x' & d' & Hk' & Hh' & _ & _ & Hdid' & Hd' & Hu' & _).
  assert (k = k') as <- by (apply (wf_hashes _ Hwf _ _ x x' (HashToken plain)); [done..|by rewrite Hh|by rewrite Hh']).
  by simplify_eq.
Qed.

Lemma RefreshAccess_fine plain c db us rs :
  exists r s', RefreshAccess plain c (mkSession db [] us rs) = (r, s') /\
    r = match head (pg_rows (refreshable (now c) (HashToken plain) db)) with
        | Some ud => Ok ud
        | None => Err ErrInvalidToken
        end.
Proof.
  unfold RefreshAccess. rewrite (bind_fine _ _ _ _ _ _ (get_clock_fine _ _)).
  rewrite (bind_fine _ _ _ _ _ _ (query_row_fine _ _ _ _ _)).
  destruct (head _) as [[u d]|]; [|by eexists _, _].
  unfold bind, try, update_row. rewrite stmt_fine. simpl.
  destruct (devices db !! d); by eexists _, _.
Qed.

(** Without faults a refresh token is exchanged exactly when it is the unrevoked,
    unexpired token of a device that is not revoked, and then for that device and
    its owner; any other token is invalid. *)
Theorem RefreshAccess_iff plain c db us rs r s' :
  wf db -> RefreshAccess plain c (mkSession db [] us rs) = (r, s') ->
  (forall uid did, r = Ok (uid, did) <-> session_of (now c) plain uid did db) /\
  (r = Err ErrInvalidToken <-> forall uid did, ~ session_of (now c) plain uid did db).
Proof.
  intros Hwf Hm. destruct (RefreshAccess_fine plain c db us rs) as (r' & s1 & E & Hr).
  rewrite Hm in E. injection E as <- <-.
  destruct (head _) as [[u d]|] eqn:Eh; subst r.
  - apply head_pg_rows_elem, elem_of_refreshable in Eh. split.
    + intros uid did. split; [by intros [= <- <-]|]. intros Hs.
      by destruct (session_of_unique _ _ _ _ _ _ _ Hwf Eh Hs) as [-> ->].
    + split; [done|]. intros Hno. by destruct (Hno _ _ Eh).
  - apply head_pg_rows_None in Eh.
    assert (Hno : forall uid did, ~ session_of (now c) plain uid did db).
    { intros uid did Hs. apply elem_of_refreshable in Hs. rewrite Eh in Hs. by apply elem_of_nil in Hs. }
    split; [|done]. intros uid did. split; [done|]. intros Hs. by destruct (Hno _ _ Hs).
Qed.

(** The refresh token an enrolment returns is exchanged for the user and device it
    created, until it expires. *)
Theorem Enroll_then_refresh req ttl c s u d plain s' c' us rs :
  wf (s_db s) -> Enroll req ttl c s = (Ok (u, d, plain), s') -> now c' < now c + pg_interval ttl ->
  (RefreshAccess plain c' (mkSession (s_db s') [] us rs)).1 = Ok (usr_ID u, dev_ID d).
Proof.
  intros Hwf Hm Ht.
  assert (Hwf' : wf (s_db s')).
  { apply (keeps_Enroll (s_db s) req ttl c s (Ok (u, d, plain)) s'); [by split|done]. }
  apply yields_run in Hm. unfold Enroll in Hm. apply yields_transaction in Hm.
  apply Enroll_yields in Hm as (i & u0 & db1 & db2 & t & _ & _ & _ & Hd & _ & _ & _ & Hdb).
  apply insert_device_Ok in Hd as (_ & _ & _ & _ & ->).
  assert (Hs : session_of (now c') plain (usr_ID u) (dev_ID d) (s_db s')).
  { rewrite Hdb. eexists t, _, _. simpl. rewrite !lookup_insert_eq. by splits. }
  destruct (RefreshAccess_fine plain c' (s_db s') us rs) as (r & s1 & -> & ->). simpl.
  destruct (head _) as [[u' d']|] eqn:Eh.
  - apply head_pg_rows_elem, elem_of_refreshable in Eh.
    by destruct (session_of_unique _ _ _ _ _ _ _ Hwf' Eh Hs) as [-> ->].
  - apply head_pg_rows_None in Eh. apply elem_of_refreshable in Hs. rewrite Eh in Hs.
    by apply elem_of_nil in Hs.
Qed.

(** ** Revocation *)

(** A revocation that succeeds is of a live device of the caller; afterwards the
    device is revoked, every refresh token of it is revoked and it has no active
    lease, so no token is exchanged for it and no agent serves it; other devices,
    tokens and leases are untouched. *)
Theorem RevokeDevice_ok userID deviceID c s x s' :
  RevokeDevice userID deviceID c s = (Ok x, s') ->
  exists did uid d, pg_uuid deviceID = Some did /\ pg_uuid userID = Some uid /\
    devices (s_db s) !! did = Some d /\ owned_live uid d = true /\
    devices (s_db s') = <[did := revoke_device (now c) d]> (devices (s_db s)) /\
    (forall k t, refresh_tokens (s_db s') !! k = Some t -> t_device_id t = did -> t_revoked_at t <> None) /\
    (forall k l, leases (s_db s') !! k = Some l -> le_device_id l = did -> is_active l = false) /\
    (forall t plain uid', ~ session_of t plain uid' did (s_db s')) /\
    (forall k t, refresh_tokens (s_db s) !! k = Some t -> t_device_id t <> did ->
       refresh_tokens (s_db s') !! k = Some t) /\
    (forall k l, leases (s_db s) !! k = Some l -> le_device_id l <> did -> leases (s_db s') !! k = Some l).
Proof.
  intros Hm. apply yields_run in Hm. unfold RevokeDevice in Hm. yields_inv.
  match type of Hm with yields ?c' _ _ _ _ => rename c' into c end.
  match goal with Hu : yields _ (update_row _ _ _ _) _ _ _ |- _ =>
    apply yields_update_row in Hu as [(d & Hd & Ho & -> & ->)|(_ & -> & ->)] end; simpl in Hm; yields_inv.
  match goal with Hu : pg_uuid deviceID = Some ?a |- _ => rename a into did end.
  match goal with Hu : pg_uuid userID = Some ?a |- _ => rename a into uid end.
  match goal with Hdb : s_db s' = _ |- _ => rewrite Hdb end. simpl in *.
  exists did, uid, d. splits; try done.
  - intros k t. rewrite lookup_update_where. destruct (refresh_tokens (s_db s) !! k) as [t0|]; [|done].
    simpl. intros [= <-]. unfold live_token_of. destruct (bool_decide (t_device_id t0 = did)) eqn:E1; to_prop; simpl.
    + destruct (bool_decide (t_revoked_at t0 = None)) eqn:E2; to_prop; by simpl.
    + by intros ?.
  - intros k l. rewrite lookup_update_where. destruct (leases (s_db s) !! k) as [l0|]; [|done].
    simpl. intros [= <-]. unfold active_of, is_active.
    destruct (bool_decide (le_device_id l0 = did)) eqn:E1; to_prop; simpl.
    + destruct (bool_decide (le_state l0 = Active)) eqn:E2; simpl; [done|by rewrite E2].
    + by intros ?.
  - intros t plain uid' (k & tk & d' & _ & _ & _ & _ & _ & Hd' & _ & Hl). simpl in Hd'.
    rewrite lookup_insert_eq in Hd'. by injection Hd' as <-.
  - intros k t Hk Hne. rewrite lookup_update_where, Hk. simpl. unfold live_token_of.
    by rewrite bool_decide_false by done.
  - intros k l Hk Hne. rewrite lookup_update_where, Hk. simpl. unfold active_of.
    by rewrite bool_decide_false by done.
Qed.

(** The statements of [RevokeDevice] when the last one does not reach the server. *)
Definition revoked_tables (did : string) (t : Time) (d : device_row) (db : DB) : DB :=
  put RefreshTokens (update_where (live_token_of did) (revoke_token t) (refresh_tokens db))
    (put Devices (<[did := revoke_device t d]> (devices db)) db).

Lemma RevokeDevice_lost_lease userID deviceID c did uid d db us rs :
  pg_uuid deviceID = Some did -> pg_uuid userID = Some uid ->
  devices db !! did = Some d -> owned_live uid d = true ->
  RevokeDevice userID deviceID c (mkSession db [Fine; Fine; Lost] us rs) =
    (Err ErrDB, mkSession (revoked_tables did (now c) d db) [] us rs).
Proof.
  intros Hdid Huid Hd Ho. unfold RevokeDevice.
  rewrite (bind_fine _ _ _ _ _ _ (uuid_param_fine _ _ _ _ Hdid)).
  rewrite (bind_fine _ _ _ _ _ _ (uuid_param_fine _ _ _ _ Huid)).
  rewrite (bind_fine _ _ _ _ _ _ (get_clock_fine _ _)).
  unfold update_row, update, stmt, bind, next_fault. simpl. by rewrite Hd, Ho.
Qed.

(** C27: revocation is three statements and not one transaction. When the connection to
    the server is lost before the third, the caller gets an error, the device is
    revoked, and its leases are untouched; trying again answers "not found" and still
    leaves them, and the owner's session can renew such a lease as long as it likes:
    the revoked device keeps its tunnel. *)
Theorem RevokeDevice_interrupted userID deviceID c did uid d db us rs :
  pg_uuid deviceID = Some did -> pg_uuid userID = Some uid ->
  devices db !! did = Some d -> owned_live uid d = true ->
  let '(r, s1) := RevokeDevice userID deviceID c (mkSession db [Fine; Fine; Lost] us rs) in
  r = Err ErrDB /\
  (exists d', devices (s_db s1) !! did = Some d' /\ d_revoked_at d' = Some (now c)) /\
  leases (s_db s1) = leases db /\
  (forall c2, RevokeDevice userID deviceID c2 s1 = (Err ErrNotFound, s1)) /\
  (forall c2 leaseID lid l ttl, pg_uuid leaseID = Some lid -> leases db !! lid = Some l ->
     is_active l = true -> le_device_id l = did ->
     (RenewConnection userID leaseID ttl c2 s1).1 = Ok (now c2 + pg_interval ttl)).
Proof.
  intros Hdid Huid Hd Ho. rewrite (RevokeDevice_lost_lease _ _ c did uid d) by done.
  split; [done|]. split; [|split; [done|split]].
  - exists (revoke_device (now c) d). simpl. by rewrite lookup_insert_eq.
  - intros c2. unfold RevokeDevice.
    rewrite (bind_fine _ _ _ _ _ _ (uuid_param_fine _ _ _ _ Hdid)).
    rewrite (bind_fine _ _ _ _ _ _ (uuid_param_fine _ _ _ _ Huid)).
    rewrite (bind_fine _ _ _ _ _ _ (get_clock_fine _ _)).
    unfold update_row. unfold bind at 1. rewrite stmt_fine. simpl. rewrite lookup_insert_eq.
    by rewrite owned_live_revoked.
  - intros c2 leaseID lid l ttl Hlid Hl Ha Hdev. unfold RenewConnection.
    rewrite (bind_fine _ _ _ _ _ _ (uuid_param_fine _ _ _ _ Hlid)).
    rewrite (bind_fine _ _ _ _ _ _ (uuid_param_fine _ _ _ _ Huid)).
    rewrite (bind_fine _ _ _ _ _ _ (get_clock_fine _ _)).
    unfold update_row. unfold bind at 1. rewrite stmt_fine. simpl. rewrite Hl.
    unfold active_owned. simpl. rewrite Ha, Hdev, lookup_insert_eq. simpl.
    unfold owned_live in Ho. apply andb_true_iff in Ho as [Ho _]. by rewrite Ho.
Qed.

(** ** Passwords *)

(** After a password is set, looking up the user's email, in any case the server
    takes for equal, yields that user with that hash. *)
Theorem SetPassword_roundtrip userID hash email uid u c c' db us rs us' rs' :
  wf db -> pg_uuid userID = Some uid -> users db !! uid = Some u -> pg_fold email = pg_fold (u_email u) ->
  let '(r, s1) := SetPassword userID hash c (mkSession db [] us rs) in
  r = Ok () /\
  (GetCredentialsByEmail email c' (mkSession (s_db s1) [] us' rs')).1 = Ok (uid, hash, u_status u).
Proof.
  intros Hwf Huid Hu Hem. unfold SetPassword.
  rewrite (bind_fine _ _ _ _ _ _ (uuid_param_fine _ _ _ _ Huid)).
  unfold update_row. unfold bind at 1. rewrite stmt_fine. simpl. rewrite Hu. split; [done|].
  unfold GetCredentialsByEmail. rewrite (bind_fine _ _ _ _ _ _ (query_row_fine _ _ _ _ _)). simpl.
  set (m := <[uid := set_password_hash hash u]> (users db)).
  destruct (head _) as [[k r]|] eqn:Eh.
  - apply head_pg_rows_elem, elem_of_select_rows in Eh as [Hk He]. unfold email_is in He. to_prop.
    assert (k = uid) as ->.
    { destruct (decide (k = uid)) as [|Hne]; [done|]. unfold m in Hk. rewrite lookup_insert_ne in Hk by done.
      apply (wf_emails _ Hwf k uid r u (pg_fold (u_email u))); [done|done| |done]. by rewrite He, Hem. }
    unfold m in Hk. rewrite lookup_insert_eq in Hk. by injection Hk as <-.
  - apply head_pg_rows_None in Eh. exfalso.
    assert (Hin : (uid, set_password_hash hash u) ∈ select_rows (email_is email) m).
    { apply elem_of_select_rows. split; [apply lookup_insert_eq|]. unfold email_is.
      apply bool_decide_eq_true. simpl. by rewrite Hem. }
    rewrite Eh in Hin. by apply elem_of_nil in Hin.
Qed.

End identity.

(** ** Witnesses *)

#[local] Existing Instance demo_pg.

(** The tables just before Ana enrols. *)
Definition before_enroll : DB := Eval vm_compute in (exec (take 3 demo_script) empty_db).2.

Lemma before_enroll_wf : wf before_enroll.
Proof.
  pose proof (exec_run (take 3 demo_script) empty_db) as Hr.
  assert (E : exec (take 3 demo_script) empty_db = (take 3 demo_trace, before_enroll)) by (vm_compute; reflexivity).
  rewrite E in Hr. apply (run_good empty_db _ _ wf_empty Hr).
Qed.

Definition enrolment : result StoreError (User * Device * string) * session :=
  Enroll demo_enroll Hour (at_time 4000) (mkSession before_enroll [] ["user1"; "dev1"; "tok1"] [random_b]).

Definition ana : User := mkUser "user1" "ana@example.org" "Ana" "active" 4000.
Definition phone : Device := mkDevice "dev1" "user1" "phone" "ios" "phonekey" 4000 None None.

Lemma enrolment_ok : enrolment = (Ok (ana, phone, token_b), enrolment.2).
Proof. vm_compute. reflexivity. Qed.

Lemma Enroll_ok_witness :
  enrolment.1 = Ok (ana, phone, token_b) /\
  exists i row t, invite_codes before_enroll !! "INVITE" = Some i /\
    users (s_db enrolment.2) = <["user1" := row]> (users before_enroll) /\
    refresh_tokens (s_db enrolment.2) =
      <[t := mkTokenRow "dev1" (HashToken token_b) (4000 + Hour) None]> (refresh_tokens before_enroll).
Proof.
  split; [rewrite enrolment_ok; reflexivity|].
  destruct (Enroll_ok demo_enroll Hour (at_time 4000)
    (mkSession before_enroll [] ["user1"; "dev1"; "tok1"] [random_b]) ana phone token_b enrolment.2
    before_enroll_wf enrolment_ok) as (i & row & t & Hi & _ & _ & Hu & _ & _ & _ & _ & _ & Ht & _).
  exists i, row, t. split; [exact Hi|]. split; [exact Hu|exact Ht].
Defined.

Definition demo_refresh : result StoreError (string * string) * session :=
  RefreshAccess token_b (at_time 9000) (mkSession demo_db [] [] []).

Lemma RefreshAccess_iff_witness :
  demo_refresh.1 = Ok ("user1", "dev1") /\ session_of 9000 token_b "user1" "dev1" demo_db.
Proof.
  assert (E : demo_refresh.1 = Ok ("user1", "dev1")) by (vm_compute; reflexivity). split; [exact E|].
  apply (proj1 (RefreshAccess_iff token_b (at_time 9000) demo_db [] [] demo_refresh.1 demo_refresh.2
    demo_wf (surjective_pairing _))). exact E.
Defined.

Lemma Enroll_then_refresh_witness :
  (RefreshAccess token_b (at_time 9000) (mkSession (s_db enrolment.2) [] [] [])).1 = Ok ("user1", "dev1").
Proof.
  apply (Enroll_then_refresh demo_enroll Hour (at_time 4000)
    (mkSession before_enroll [] ["user1"; "dev1"; "tok1"] [random_b]) ana phone token_b enrolment.2
    (at_time 9000) [] [] before_enroll_wf enrolment_ok).
  vm_compute. reflexivity.
Defined.

Definition demo_revocation : result StoreError () * session :=
  RevokeDevice "user1" "dev1" (at_time 8000) (mkSession demo_db [] [] []).

Lemma RevokeDevice_ok_witness :
  demo_revocation.1 = Ok () /\ forall t plain uid, ~ session_of t plain uid "dev1" (s_db demo_revocation.2).
Proof.
  assert (E : demo_revocation.1 = Ok ()) by (vm_compute; reflexivity). split; [exact E|].
  destruct (RevokeDevice_ok "user1" "dev1" (at_time 8000) (mkSession demo_db [] [] []) () demo_revocation.2)
    as (did & uid & d & Hdid & _ & _ & _ & _ & _ & _ & Hs & _).
  - rewrite <- E. apply surjective_pairing.
  - injection Hdid as <-. exact Hs.
Defined.

Lemma RevokeDevice_interrupted_witness :
  let s1 := (RevokeDevice "user1" "dev1" (at_time 8000) (mkSession demo_db [Fine; Fine; Lost] [] [])).2 in
  leases (s_db s1) = leases demo_db /\
  (RenewConnection "user1" "lease1" Hour (at_time 9000) s1).1 = Ok (9000 + Hour).
Proof.
  intros s1. pose proof (RevokeDevice_interrupted "user1" "dev1" (at_time 8000) "dev1" "user1"
    (mkDeviceRow "user1" "phone" "ios" "phonekey" 4000 None None) demo_db [] [] eq_refl eq_refl
    ltac:(vm_compute; reflexivity) eq_refl) as Hi.
  rewrite (surjective_pairing (RevokeDevice _ _ _ _)) in Hi. destruct Hi as (_ & _ & Hl & _ & Hrenew).
  split; [exact Hl|].
  apply (Hrenew (at_time 9000) "lease1" "lease1"
    (mkLeaseRow "gw1" "dev1" "phonekey" "10.7.50.2" None Active (5000 + Hour) None)).
  - reflexivity.
  - vm_compute. reflexivity.
  - reflexivity.
  - reflexivity.
Defined.

Lemma SetPassword_roundtrip_witness :
  let s1 := (SetPassword "user1" "argon" (at_time 8000) (mkSession demo_db [] [] [])).2 in
  (GetCredentialsByEmail "ana@example.org" (at_time 9000) (mkSession (s_db s1) [] [] [])).1 =
    Ok ("user1", "argon", "active").
Proof.
  intros s1. pose proof (SetPassword_roundtrip "user1" "argon" "ana@example.org" "user1"
    (mkUserRow "ana@example.org" (Some "Ana") "active" 4000 None) (at_time 8000) (at_time 9000) demo_db [] [] [] []
    demo_wf eq_refl ltac:(vm_compute; reflexivity) eq_refl) as Hp.
  rewrite (surjective_pairing (SetPassword _ _ _ _)) in Hp. exact (proj2 Hp).
Defined.
