(* ===== verification/Registry.v ===== *)
(** What the gateway registry guarantees: registration, node tokens, heartbeats, and
    the lists derived from the tables. *)
From S2P Require Import Prelude Floats Model Selection GoStrings NetAddr Crypto Alloc Db Session StoreGateways StoreIdentity StoreConnections Schema Facts Steps System Demo.

Section registry.
Context `{PostgresOrder}.

Lemma upsert_location_Ok u code country db id db' :
  upsert_location u code country db = Ok (id, db') ->
  db' = put Locations (<[id := mkLocationRow code country (from_option l_enabled true (locations db !! id))]>
                         (locations db)) db /\
  match locations db !! id with
  | Some l => l_code l = code
  | None => forall k l, locations db !! k = Some l -> l_code l <> code
  end.
Proof.
  unfold upsert_location. destruct (find_row _ _) as [[k l]|] eqn:Ef.
  - apply find_row_Some in Ef as [Hk Hc]. to_prop. intros [= <- <-]. by rewrite Hk.
  - destruct (locations db !! u) eqn:Eu; [done|]. intros [= <- <-]. rewrite Eu. split; [done|].
    intros k l Hl E. pose proof (proj1 (find_row_None _ _) Ef k l Hl) as Hf. simpl in Hf. by to_prop.
Qed.

Lemma upsert_gateway_Ok u lid r h db id db' :
  upsert_gateway u lid r h db = Ok (id, db') ->
  exists net4 net6, registration_values r = Some (net4, net6) /\
    db' = put Gateways (<[id := registered_row r lid h net4 net6 (gateways db !! id)]> (gateways db)) db /\
    match gateways db !! id with
    | Some old => g_name old = reg_Name r
    | None => forall k g, gateways db !! k = Some g -> g_name g <> reg_Name r
    end.
Proof.
  unfold upsert_gateway. destruct (registration_values r) as [[net4 net6]|]; [|done].
  destruct (locations db !! lid); [|done]. destruct (find_row _ _) as [[k g]|] eqn:Ef.
  - apply find_row_Some in Ef as [Hk Hn]. to_prop. intros [= <- <-]. exists net4, net6. by rewrite Hk.
  - destruct (gateways db !! u) eqn:Eu; [done|]. intros [= <- <-]. exists net4, net6. rewrite Eu.
    split; [done|]. split; [done|].
    intros k g Hg E. pose proof (proj1 (find_row_None _ _) Ef k g Hg) as Hf. simpl in Hf. by to_prop.
Qed.

(** C34: a successful registration leaves one gateway of that name: the existing row, or
    a new one, with the registration's data, status pending and the hash of the
    returned token; a row that existed keeps its metrics and last heartbeat; the
    location of that code is created enabled, or only renamed; all else is as it was. *)
Theorem RegisterGateway_ok r c s g tok s' :
  RegisterGateway r c s = (Ok (g, tok), s') ->
  exists net4 net6, registration_values r = Some (net4, net6) /\
    gateways (s_db s') =
      <[ID g := registered_row r (LocationID g) (HashToken tok) net4 net6 (gateways (s_db s) !! ID g)]>
        (gateways (s_db s)) /\
    match gateways (s_db s) !! ID g with
    | Some old => g_name old = reg_Name r
    | None => forall k g0, gateways (s_db s) !! k = Some g0 -> g_name g0 <> reg_Name r
    end /\
    locations (s_db s') =
      <[LocationID g := mkLocationRow (reg_CountryCode r) (reg_CountryName r)
          (from_option l_enabled true (locations (s_db s) !! LocationID g))]> (locations (s_db s)) /\
    match locations (s_db s) !! LocationID g with
    | Some l => l_code l = reg_CountryCode r
    | None => forall k l, locations (s_db s) !! k = Some l -> l_code l <> reg_CountryCode r
    end /\
    Name g = reg_Name r /\ Status g = GatewayPending /\
    leases (s_db s') = leases (s_db s) /\ devices (s_db s') = devices (s_db s) /\
    refresh_tokens (s_db s') = refresh_tokens (s_db s).
Proof.
  intros Hm. apply yields_run in Hm. unfold RegisterGateway, RegisterGateway_tx in Hm. yields_inv. simplify_eq.
  match goal with Hu : upsert_location _ _ _ _ = Ok _ |- _ => apply upsert_location_Ok in Hu as [-> Hloc] end.
  match goal with Hu : upsert_gateway _ _ _ _ _ = Ok _ |- _ =>
    apply upsert_gateway_Ok in Hu as (net4 & net6 & Hv & Hdb & Hgw) end.
  rewrite Hdb. simpl in *. exists net4, net6. splits; done.
Qed.

(** ** Node tokens *)

(** No gateway answers to the token. *)
Definition token_dead (h : string) (db : DB) : Prop :=
  forall k g, gateways db !! k = Some g -> live_token h g = false.

Lemma select_rows_nil {A} (p : A -> bool) (m : gmap string A) :
  (forall k r, m !! k = Some r -> p r = false) <-> select_rows p m = [].
Proof.
  split.
  - intros Hp. destruct (select_rows p m) as [|[k r] rows] eqn:E; [done|]. exfalso.
    assert (Hin : (k, r) ∈ select_rows p m) by (rewrite E; left).
    apply elem_of_select_rows in Hin as [Hk Hr]. by rewrite (Hp _ _ Hk) in Hr.
  - intros E k r Hk. apply not_true_is_false. intros Hr.
    assert (Hin : (k, r) ∈ select_rows p m) by by apply elem_of_select_rows.
    rewrite E in Hin. by apply elem_of_nil in Hin.
Qed.

Lemma Heartbeat_fine h m c db us rs :
  int4 (m_ActivePeers m) = true ->
  Heartbeat h m c (mkSession db [] us rs) =
  (match head (pg_rows (select_rows (live_token h) (gateways db))) with
   | Some (id, g) => Ok (named_gateway id (g_name g) GatewayHealthy)
   | None => Err ErrInvalidToken
   end, mkSession (put Gateways (update_where (live_token h) (beat (now c) m) (gateways db)) db) [] us rs).
Proof.
  intros Hi. unfold Heartbeat. rewrite (bind_fine _ _ _ _ _ _ (get_clock_fine _ _)).
  unfold bind at 1. rewrite stmt_fine. unfold heartbeat_update. rewrite Hi.
  by destruct (head _) as [[id g]|].
Qed.

(** Without faults a heartbeat with a token some gateway answers to succeeds and
    makes exactly the gateways that answer to it healthy, with the metrics sent and
    the heartbeat time now; with any other token it is refused and changes nothing.
    A disabled gateway is never brought back by it. *)
Theorem Heartbeat_spec h m c db us rs r s' :
  int4 (m_ActivePeers m) = true ->
  Heartbeat h m c (mkSession db [] us rs) = (r, s') ->
  (r = Err ErrInvalidToken <-> token_dead h db) /\
  (token_dead h db -> s_db s' = db) /\
  (forall k g, gateways db !! k = Some g ->
     gateways (s_db s') !! k = Some (if live_token h g then beat (now c) m g else g)) /\
  (forall k g, gateways db !! k = Some g -> g_status g = GatewayDisabled -> gateways (s_db s') !! k = Some g) /\
  (forall g, r = Ok g -> exists row, gateways db !! ID g = Some row /\ live_token h row = true /\
     Name g = g_name row /\ Status g = GatewayHealthy).
Proof.
  intros Hi Hm. rewrite Heartbeat_fine in Hm by done. injection Hm as <- <-. simpl. splits.
  - unfold token_dead. rewrite select_rows_nil. rewrite <- head_pg_rows_None.
    by destruct (head _) as [[id g]|].
  - intros Hdead. rewrite update_where_none by done. by destruct db.
  - intros k g Hg. by rewrite lookup_update_where, Hg.
  - intros k g Hg Hst. rewrite lookup_update_where, Hg. simpl. unfold live_token.
    rewrite Hst, (bool_decide_true (GatewayDisabled = GatewayDisabled)) by done. by rewrite andb_false_r.
  - intros g. destruct (head _) as [[id row]|] eqn:Eh; [|done]. intros [= <-].
    apply head_pg_rows_elem, elem_of_select_rows in Eh as [Hrow Hlive]. by exists row.
Qed.

(** ** One token, one gateway *)

(** A successful registration gives the gateway a token, and leaves the others theirs. *)
Lemma rotated r c s g tok s' :
  RegisterGateway r c s = (Ok (g, tok), s') ->
  exists row, gateways (s_db s') !! ID g = Some row /\ g_status row = GatewayPending /\
    g_agent_token_hash row = Some (HashToken tok) /\
    forall k, k <> ID g -> gateways (s_db s') !! k = gateways (s_db s) !! k.
Proof.
  intros Hm. apply yields_run in Hm. unfold RegisterGateway, RegisterGateway_tx in Hm. yields_inv. simplify_eq.
  match goal with Hu : upsert_location _ _ _ _ = Ok _ |- _ => apply upsert_location_Ok in Hu as [-> _] end.
  match goal with Hu : upsert_gateway _ _ _ _ _ = Ok _ |- _ =>
    apply upsert_gateway_Ok in Hu as (net4 & net6 & _ & Hdb & _) end.
  rewrite Hdb. cbn [ID registered_gateway put Gateways gateways]. eexists. split; [apply lookup_insert_eq|]. split; [done|]. split; [done|].
  intros k Hk. by rewrite lookup_insert_ne.
Qed.

Section token.
Context (h : string) (c : Clock) (db : DB) (us : list string) (rs : list (list Z)).
Abbreviation s := (mkSession db [] us rs).

Section refused.
Hypothesis nobody_has_it : forall k g, gateways db !! k = Some g -> g_agent_token_hash g <> Some h.

Lemma nobody_dead : token_dead h db.
Proof. intros k g Hg. unfold live_token. rewrite bool_decide_false; [done|]. by eapply nobody_has_it. Qed.

Lemma refused_Heartbeat m : int4 (m_ActivePeers m) = true -> Heartbeat h m c s = (Err ErrInvalidToken, s).
Proof.
  intros Hi. rewrite Heartbeat_fine by done.
  rewrite (proj2 (head_pg_rows_None _) (proj1 (select_rows_nil _ _) nobody_dead)), update_where_none by exact nobody_dead. by destruct db.
Qed.

Lemma refused_GatewayPeers : GatewayPeers h c s = (Err ErrInvalidToken, s).
Proof.
  unfold GatewayPeers. rewrite (bind_fine _ _ _ _ _ _ (get_clock_fine _ _)), (bind_fine _ _ _ _ _ _ (query_row_fine _ _ _ _ _)).
  rewrite (proj2 (head_pg_rows_None _)); [done|]. unfold gateway_of_token. by rewrite (proj1 (select_rows_nil _ _) nobody_dead).
Qed.

Lemma refused_Deregister : DeregisterGateway h c s = (Err ErrInvalidToken, s).
Proof.
  assert (Hp : forall k g, gateways db !! k = Some g -> bool_decide (g_agent_token_hash g = Some h) = false)
    by (intros k g Hg; apply bool_decide_eq_false; by eapply nobody_has_it).
  unfold DeregisterGateway, bind. rewrite update_fine. cbn [get Gateways]. rewrite (proj2 (rows_affected_zero _ _) Hp), update_where_none by exact Hp.
  by destruct db.
Qed.
End refused.

Section accepted.
Context (gid : string) (g : gateway_row).
Hypothesis has_it : gateways db !! gid = Some g.
Hypothesis live : live_token h g = true.
Hypothesis only : forall k g', gateways db !! k = Some g' -> g_agent_token_hash g' = Some h -> k = gid.

Lemma update_only p f :
  p g = true -> (forall k g', gateways db !! k = Some g' -> p g' = true -> g_agent_token_hash g' = Some h) ->
  update_where p f (gateways db) = <[gid := f g]> (gateways db).
Proof.
  intros Hg Hp. apply map_eq. intros k. rewrite lookup_update_where. destruct (decide (k = gid)) as [->|Hk].
  - rewrite has_it, lookup_insert_eq. cbn. by rewrite Hg.
  - rewrite lookup_insert_ne by done. destruct (gateways db !! k) as [g'|] eqn:E; [|done]. cbn.
    destruct (p g') eqn:Ep; [|done]. by destruct Hk; eapply only, Hp.
Qed.

Lemma accepted_Heartbeat m :
  int4 (m_ActivePeers m) = true ->
  exists x s3, Heartbeat h m c s = (Ok x, s3) /\ ID x = gid /\ gateways (s_db s3) = <[gid := beat (now c) m g]> (gateways db).
Proof.
  intros Hi. rewrite Heartbeat_fine by done. rewrite (only_row db h gid g) by done. do 2 eexists. split; [done|]. split; [done|].
  cbn. apply update_only; [done|]. intros k g' _ Hl. unfold live_token in Hl. by to_prop.
Qed.

Lemma accepted_GatewayPeers :
  exists ps, GatewayPeers h c s = (Ok ps, s) /\
    forall p, p ∈ ps <-> exists k l, leases db !! k = Some l /\ serving (now c) gid l = true /\ p = peer_of l.
Proof.
  unfold GatewayPeers. rewrite (bind_fine _ _ _ _ _ _ (get_clock_fine _ _)), (bind_fine _ _ _ _ _ _ (query_row_fine _ _ _ _ _)).
  rewrite (only_gateway db h gid g), (bind_fine _ _ _ _ _ _ (query_all_fine _ _ _ _ _)) by done.
  eexists. split; [done|]. intros p. rewrite list_elem_of_fmap. setoid_rewrite pg_rows_Permutation. split.
  - intros ([k l] & -> & [Hl Hs]%elem_of_select_rows). by exists k, l.
  - intros (k & l & Hl & Hs & ->). exists (k, l). split; [done|]. by apply elem_of_select_rows.
Qed.

Lemma accepted_Deregister :
  exists s3, DeregisterGateway h c s = (Ok (), s3) /\ gateways (s_db s3) = <[gid := with_status GatewayDisabled g]> (gateways db).
Proof.
  assert (Hg : bool_decide (g_agent_token_hash g = Some h) = true) by (unfold live_token in live; by to_prop; apply bool_decide_eq_true).
  unfold DeregisterGateway, bind. rewrite update_fine. cbn [get Gateways].
  assert (Hn : 0 < rows_affected (fun g => bool_decide (g_agent_token_hash g = Some h)) (gateways db)).
  { apply rows_affected_pos. by exists gid, g. }
  destruct (Z.eqb_spec (rows_affected (fun g => bool_decide (g_agent_token_hash g = Some h)) (gateways db)) 0); [lia|].
  eexists. split; [done|]. cbn. apply (update_only (fun g => bool_decide (g_agent_token_hash g = Some h))); [done|].
  intros k g' _ Hb. by to_prop.
Qed.
End accepted.
End token.

(** C35: registering again rotates the node token. Without faults, and provided the old hash
    is no other gateway's and the new one nobody's yet, right after a successful registration
    the token the gateway had is refused by heartbeats, peer queries and deregistration, which
    change nothing; and with the new one a heartbeat makes the gateway, pending until then,
    healthy, a peer query is answered with the peers of this gateway, and deregistration
    disables it. *)
Theorem token_rotation r c s g tok s' old h :
  RegisterGateway r c s = (Ok (g, tok), s') ->
  gateways (s_db s) !! ID g = Some old -> g_agent_token_hash old = Some h ->
  (forall k g0, gateways (s_db s) !! k = Some g0 -> g_agent_token_hash g0 = Some h -> k = ID g) ->
  (forall k g0, gateways (s_db s) !! k = Some g0 -> g_agent_token_hash g0 <> Some (HashToken tok)) ->
  exists row, gateways (s_db s') !! ID g = Some row /\ g_status row = GatewayPending /\
  forall c2 us rs, let s2 := mkSession (s_db s') [] us rs in
  (forall m, int4 (m_ActivePeers m) = true ->
     Heartbeat h m c2 s2 = (Err ErrInvalidToken, s2) /\
     exists x s3, Heartbeat (HashToken tok) m c2 s2 = (Ok x, s3) /\ ID x = ID g /\
       gateways (s_db s3) = <[ID g := beat (now c2) m row]> (gateways (s_db s'))) /\
  GatewayPeers h c2 s2 = (Err ErrInvalidToken, s2) /\
  (exists ps, GatewayPeers (HashToken tok) c2 s2 = (Ok ps, s2) /\
     forall p, p ∈ ps <-> exists k l, leases (s_db s') !! k = Some l /\ serving (now c2) (ID g) l = true /\ p = peer_of l) /\
  DeregisterGateway h c2 s2 = (Err ErrInvalidToken, s2) /\
  exists s3, DeregisterGateway (HashToken tok) c2 s2 = (Ok (), s3) /\
    gateways (s_db s3) = <[ID g := with_status GatewayDisabled row]> (gateways (s_db s')).
Proof.
  intros Hm Hold Hh Honly Hnew. destruct (rotated _ _ _ _ _ _ Hm) as (row & Hrow & Hst & Htok & Hothers).
  assert (Hne : HashToken tok <> h) by (intros E; apply (Hnew _ _ Hold); congruence).
  exists row. split; [done|]. split; [done|]. intros c2 us rs s2.
  assert (Hnone : forall k g0, gateways (s_db s') !! k = Some g0 -> g_agent_token_hash g0 <> Some h).
  { intros k g0 Hk E. destruct (decide (k = ID g)) as [->|Hk']; [congruence|].
    rewrite Hothers in Hk by done. by apply Hk', (Honly k g0). }
  assert (Hone : forall k g0, gateways (s_db s') !! k = Some g0 -> g_agent_token_hash g0 = Some (HashToken tok) -> k = ID g).
  { intros k g0 Hk E. destruct (decide (k = ID g)) as [|Hk']; [done|]. rewrite Hothers in Hk by done. by destruct (Hnew k g0). }
  assert (Hlive : live_token (HashToken tok) row = true) by (unfold live_token; by rewrite Htok, Hst, bool_decide_true).
  splits.
  - intros m Hi. split; [by apply refused_Heartbeat|]. by apply (accepted_Heartbeat _ _ _ _ _ _ row).
  - by apply refused_GatewayPeers.
  - by apply (accepted_GatewayPeers _ _ _ _ _ _ row).
  - by apply refused_Deregister.
  - by apply (accepted_Deregister _ _ _ _ _ _ row).
Qed.

(** ** The lists *)

(** The gateways the SQL of [SelectableGateways] selects are those that
    [model.Gateway.Online] calls online within the TTL, in an enabled location of the
    country and with a free slot by their own report (the TTL read back unchanged). *)
Theorem SelectableGateways_Online country ttl c s gs s' :
  pg_interval ttl = ttl -> - 2 ^ 63 <= ttl < 2 ^ 63 - 1 ->
  SelectableGateways country ttl c s = (Ok gs, s') ->
  s_db s' = s_db s /\
  forall g, g ∈ gs <-> exists id row l, gateways (s_db s) !! id = Some row /\
    locations (s_db s) !! g_location_id row = Some l /\ g = scanGateway ((id, row), l) /\
    LocationCode g = country /\ l_enabled l = true /\
    Online g (now c) ttl = true /\ ActivePeers g < Capacity g.
Proof.
  intros Hiv Httl Hm. apply yields_run in Hm. unfold SelectableGateways in Hm. yields_inv. split; [done|].
  match goal with |- context [pg_rows (List.filter (fun row => fresh (now ?c') _ _ _ && _) _)] => rename c' into c end.
  intros g. rewrite list_elem_of_fmap.
  assert (Honline : forall id row l, Online (scanGateway ((id, row), l)) (now c) ttl = true <->
    bool_decide (g_status row = GatewayHealthy) = true /\
    match g_last_heartbeat_at row with None => false | Some b => now c - pg_interval ttl <=? b end = true).
  { intros id row l. rewrite Online_spec, bool_decide_eq_true. simpl. rewrite Hiv.
    destruct (g_last_heartbeat_at row) as [b|].
    - rewrite Z.leb_le. unfold Sub. split.
      + intros (Hs & t & [= <-] & Ht). split; [done|]. lia.
      + intros (Hs & Hb). split; [done|]. exists b. split; [done|]. lia.
    - split; [by intros (_ & t & ? & _)|by intros [_ ?]]. }
  split.
  - intros ([[id row] l] & -> & Hin). rewrite (pg_rows_Permutation _ _) in Hin.
    apply list_elem_of_In, filter_In in Hin as [Hin Hf].
    apply list_elem_of_In, elem_of_join_locations in Hin as [Hrow Hl].
    unfold fresh in Hf. simpl in Hf. apply andb_true_iff in Hf as [Hf Hcap].
    apply andb_true_iff in Hf as [Hf Hbeat]. apply andb_true_iff in Hf as [Hf Hst]. to_prop.
    exists id, row, l. splits; try done. apply Honline. split; [by apply bool_decide_eq_true|done].
  - intros (id & row & l & Hrow & Hl & -> & Hcode & Hen & Hon & Hcap). exists ((id, row), l). split; [done|].
    rewrite (pg_rows_Permutation _ _). apply list_elem_of_In, filter_In. split.
    + by apply list_elem_of_In, elem_of_join_locations.
    + apply Honline in Hon as [Hst Hbeat]. unfold fresh. simpl in *.
      rewrite Hst, Hbeat, Hen, bool_decide_true by done. simpl. by apply Z.ltb_lt.
Qed.

(** The public list has every enabled location once; a location's healthy count
    never exceeds its gateway count, and it is available exactly when one of its
    gateways is healthy. *)
Theorem ListLocations_spec c s ls s' :
  ListLocations c s = (Ok ls, s') ->
  s_db s' = s_db s /\ NoDup (loc_ID <$> ls) /\
  (forall id, id ∈ loc_ID <$> ls <-> exists l, locations (s_db s) !! id = Some l /\ l_enabled l = true) /\
  forall x, x ∈ ls -> 0 <= loc_HealthyCount x <= loc_ServerCount x /\
    (Available x = true <-> exists k g, gateways (s_db s) !! k = Some g /\ g_location_id g = loc_ID x /\
                                        g_status g = GatewayHealthy).
Proof.
  intros Hm. apply yields_run in Hm. unfold ListLocations in Hm. yields_inv. simplify_eq. split; [done|].
  set (rows := select_rows l_enabled (locations (s_db s))).
  assert (Hp : merge_sort by_country (pg_rows rows) ≡ₚ rows).
  { rewrite merge_sort_Permutation. apply pg_rows_Permutation. }
  assert (Hids : loc_ID <$> (location_counts (s_db s) <$> merge_sort by_country (pg_rows rows)) ≡ₚ fst <$> rows).
  { rewrite Hp, <- list_fmap_compose. by apply reflexive_eq, list_fmap_ext. }
  splits.
  - rewrite Hids. apply NoDup_select_rows.
  - intros id. rewrite Hids, list_elem_of_fmap. split.
    + intros ([k l] & -> & Hin). apply elem_of_select_rows in Hin. eauto.
    + intros (l & Hl & He). exists (id, l). split; [done|]. by apply elem_of_select_rows.
  - intros x Hx. apply list_elem_of_fmap in Hx as ([id l] & -> & _). unfold Available. simpl.
    unfold count_gateways. split.
    + split; [apply rows_affected_nonneg|]. apply rows_affected_mono. intros k g _ Hb. by to_prop; apply bool_decide_eq_true.
    + rewrite Z.ltb_lt, rows_affected_pos. split.
      * intros (k & g & Hk & Hb). to_prop. by exists k, g.
      * intros (k & g & Hk & Hl & Hs). exists k, g. by rewrite !bool_decide_true.
Qed.

End registry.

(** ** Witnesses *)

#[local] Existing Instance demo_pg.

Definition rereg : result StoreError (Gateway * string) * session :=
  RegisterGateway (demo_registration "de-1" "10.8.0.0/16") (at_time 9000) (mkSession demo_db [] ["loc2"; "gw2"] [random_c]).

Definition rereg_gateway : Gateway :=
  mkGateway "gw1" "loc1" "de" "Germany" "de-1" "Frankfurt" "" "gwkey" "192.0.2.1" 51820 250 1000 None None
    GatewayPending 0 Fzero 0 0 None.

Lemma rereg_ok :
  RegisterGateway (demo_registration "de-1" "10.8.0.0/16") (at_time 9000) (mkSession demo_db [] ["loc2"; "gw2"] [random_c]) =
  (Ok (rereg_gateway, token_c), rereg.2).
Proof. vm_compute. reflexivity. Qed.

Lemma RegisterGateway_ok_witness :
  exists net4 net6, registration_values (demo_registration "de-1" "10.8.0.0/16") = Some (net4, net6) /\
    gateways (s_db rereg.2) =
      <["gw1" := registered_row (demo_registration "de-1" "10.8.0.0/16") "loc1" (HashToken token_c) net4 net6
                   (gateways demo_db !! "gw1")]> (gateways demo_db).
Proof.
  destruct (RegisterGateway_ok (demo_registration "de-1" "10.8.0.0/16") (at_time 9000)
    (mkSession demo_db [] ["loc2"; "gw2"] [random_c]) rereg_gateway token_c rereg.2 rereg_ok)
    as (net4 & net6 & Hv & Hg & _).
  exists net4, net6. split; [exact Hv|exact Hg].
Defined.

Definition demo_beat : result StoreError Gateway * session :=
  Heartbeat hash_a (mkGatewayMetrics 7 Fzero 1 2) (at_time 9000) (mkSession demo_db [] [] []).

Lemma Heartbeat_spec_witness :
  exists row, gateways demo_db !! "gw1" = Some row /\
    gateways (s_db demo_beat.2) !! "gw1" = Some (beat 9000 (mkGatewayMetrics 7 Fzero 1 2) row).
Proof.
  exists demo_gateway. split; [vm_compute; reflexivity|].
  destruct (Heartbeat_spec hash_a (mkGatewayMetrics 7 Fzero 1 2) (at_time 9000) demo_db [] []
    demo_beat.1 demo_beat.2 eq_refl (surjective_pairing _)) as (_ & _ & Hg & _).
  rewrite (Hg "gw1" demo_gateway); [|vm_compute; reflexivity].
  assert (E : live_token hash_a demo_gateway = true) by (vm_compute; reflexivity).
  rewrite E. reflexivity.
Defined.

Lemma token_rotation_witness :
  let s2 := mkSession (s_db rereg.2) [] [] [] in
  GatewayPeers hash_a (at_time 9500) s2 = (Err ErrInvalidToken, s2) /\
  DeregisterGateway hash_a (at_time 9500) s2 = (Err ErrInvalidToken, s2) /\
  exists x s3, Heartbeat (HashToken token_c) (mkGatewayMetrics 1 Fzero 0 0) (at_time 9500) s2 = (Ok x, s3) /\ ID x = "gw1" /\
    g_status <$> gateways (s_db s3) !! "gw1" = Some GatewayHealthy.
Proof.
  intros s2.
  destruct (token_rotation (demo_registration "de-1" "10.8.0.0/16") (at_time 9000)
    (mkSession demo_db [] ["loc2"; "gw2"] [random_c]) rereg_gateway token_c rereg.2 demo_gateway
    hash_a rereg_ok) as (row & _ & _ & H2).
  - vm_compute. reflexivity.
  - reflexivity.
  - intros k g0 Hg0 _. cbn [s_db] in Hg0. rewrite demo_gateways in Hg0. apply lookup_singleton_Some in Hg0 as [<- _]. reflexivity.
  - intros k g0 Hg0. cbn [s_db] in Hg0. rewrite demo_gateways in Hg0. apply lookup_singleton_Some in Hg0 as [_ <-].
    rewrite hash_c_eq. vm_compute. discriminate.
  - destruct (H2 (at_time 9500) [] []) as (Hb & Hp & _ & Hd & _). split; [exact Hp|]. split; [exact Hd|].
    destruct (Hb (mkGatewayMetrics 1 Fzero 0 0) eq_refl) as (_ & x & s3 & E & Hx & Hg). exists x, s3.
    split; [exact E|]. split; [exact Hx|]. change (ID rereg_gateway) with "gw1" in Hg. rewrite Hg, lookup_insert_eq. reflexivity.
Defined.

Definition demo_selectable : result StoreError (list Gateway) * session :=
  SelectableGateways "de" TTL (at_time 9000) (mkSession demo_db [] [] []).

Definition demo_seen : Gateway := scanGateway (("gw1", demo_gateway), mkLocationRow "de" "Germany" true).

Lemma SelectableGateways_Online_witness :
  demo_selectable.1 = Ok [demo_seen] /\ Online demo_seen 9000 TTL = true.
Proof.
  assert (E : demo_selectable.1 = Ok [demo_seen]) by (vm_compute; reflexivity). split; [exact E|].
  assert (Hiv : pg_interval TTL = TTL) by reflexivity.
  assert (Httl : - 2 ^ 63 <= TTL < 2 ^ 63 - 1) by (split; vm_compute; [discriminate|reflexivity]).
  destruct (SelectableGateways_Online "de" TTL (at_time 9000) (mkSession demo_db [] [] []) [demo_seen]
    demo_selectable.2 Hiv Httl) as [_ Hg].
  - rewrite <- E. apply surjective_pairing.
  - destruct (proj1 (Hg demo_seen) ltac:(left)) as (id & row & l & _ & _ & _ & _ & _ & Hon & _). exact Hon.
Defined.

Definition demo_list : result StoreError (list Location) * session :=
  ListLocations (at_time 9000) (mkSession demo_db [] [] []).

Lemma ListLocations_spec_witness :
  demo_list.1 = Ok [mkLocation "loc1" "de" "Germany" true 1 1] /\ s_db demo_list.2 = demo_db.
Proof.
  assert (E : demo_list.1 = Ok [mkLocation "loc1" "de" "Germany" true 1 1]) by (vm_compute; reflexivity).
  split; [exact E|].
  refine (proj1 (ListLocations_spec (at_time 9000) (mkSession demo_db [] [] [])
    [mkLocation "loc1" "de" "Germany" true 1 1] demo_list.2 _)).
  rewrite <- E. apply surjective_pairing.
Defined.
