(* ===== verification/Lifecycle.v ===== *)
(** How a connection ends: which calls can end it, that those which return have, and that
    nothing else does. *)
From S2P Require Import Prelude Floats Model Selection GoStrings NetAddr Crypto Alloc Db Session StoreGateways StoreIdentity StoreConnections Schema Facts Steps System Demo.

(** ** Operations of which no statement writes the leases *)

Section spares.
Context `{PostgresOrder}.

Definition spares {A} (m : M A) : Prop := forall L, preserves (fun db => leases db = L) m.
Definition elsewhere {R} (t : Table R) : Prop := forall m db, leases (put t m db) = leases db.

Lemma spares_stmt {A} (f : DB -> result StoreError (A * DB)) :
  (forall db a db', f db = Ok (a, db') -> leases db' = leases db) -> spares (stmt f).
Proof. intros Hf L. apply preserves_stmt. intros db a db' <-. apply Hf. Qed.

Lemma spares_update {R} (t : Table R) p f : elsewhere t -> spares (update t p f).
Proof. intros Ht. apply spares_stmt. intros db a db' [= _ <-]. apply Ht. Qed.

Lemma spares_update_row {R} (t : Table R) k p f : elsewhere t -> spares (update_row t k p f).
Proof.
  intros Ht. apply spares_stmt. intros db a db'. destruct (get t db !! k) as [r|]; [destruct (p db r)|]; intros [= _ <-]; done.
Qed.

Lemma spares_insert_row {R} (t : Table R) k r ok : elsewhere t -> spares (insert_row t k r ok).
Proof. intros Ht. apply spares_stmt. intros db a db'. destruct (get t db !! k), (ok db); intros [= _ <-]. apply Ht. Qed.

Lemma spares_upsert_location u code country : spares (stmt (upsert_location u code country)).
Proof.
  apply spares_stmt. intros db a db'. unfold upsert_location.
  destruct (find_row _ _) as [[k l]|]; [|destruct (locations db !! _)]; by intros [= _ <-].
Qed.

Lemma spares_upsert_gateway u lid r h : spares (stmt (upsert_gateway u lid r h)).
Proof.
  apply spares_stmt. intros db a db'. unfold upsert_gateway.
  destruct (registration_values r) as [[n4 n6]|]; [|done]. destruct (locations db !! lid); [|done].
  destruct (find_row _ _) as [[k g]|]; [|destruct (gateways db !! u)]; by intros [= _ <-].
Qed.

Lemma spares_heartbeat_update t h m : spares (stmt (heartbeat_update t h m)).
Proof. apply spares_stmt. intros db a db'. unfold heartbeat_update. destruct (int4 _); by intros [= _ <-]. Qed.

Lemma spares_upsert_user u email disp t : spares (stmt (upsert_user u email disp t)).
Proof. apply spares_stmt. intros db a db' (row & -> & _)%upsert_user_Ok. done. Qed.

Lemma spares_insert_device u uid r t : spares (stmt (insert_device u uid r t)).
Proof. apply spares_stmt. intros db a db' (_ & _ & _ & _ & ->)%insert_device_Ok. done. Qed.

End spares.

(** Walk through an operation. *)
Ltac spares_steps :=
  intros ?;
  repeat first
    [ progress (auto with aevora)
    | match goal with
      | |- preserves _ (discard _) => apply preserves_discard
      | |- preserves _ (transaction _) => apply preserves_transaction
      | |- preserves _ (try _) => apply preserves_try
      | |- preserves _ (update _ _ _) => by apply spares_update
      | |- preserves _ (update_row _ _ _ _) => by apply spares_update_row
      | |- preserves _ (insert_row _ _ _ _) => by apply spares_insert_row
      | |- preserves _ (stmt _) =>
          first [ apply spares_upsert_location | apply spares_upsert_gateway | apply spares_heartbeat_update
                | apply spares_upsert_user | apply spares_insert_device ]
      | |- preserves _ (bind _ _) => apply preserves_bind; [|intros ?]
      | |- preserves _ (match ?o with _ => _ end) => destruct o
      end ].

Section lifecycle.
Context `{PostgresOrder}.

(** The calls that write no lease. *)
Definition sparing (q : request) : bool :=
  match q with
  | ReleaseConnection_ _ _ | RenewConnection_ _ _ _ | RevokeDevice_ _ _ | CreateConnection_ _ _ _ _ _
  | ExpireStaleLeases_ | ExpireLeasesOnUnhealthyGateways_ => false
  | _ => true
  end.

Lemma serve_spares q : sparing q = true -> spares (serve q).
Proof.
  destruct q; try done; intros _; cbn [serve];
    unfold RegisterGateway, RegisterGateway_tx, Heartbeat, DeregisterGateway, MarkStaleUnhealthy, Enroll, Enroll_tx, CreateDevice, CreateDevice_tx, RefreshAccess,
      CreateInvite, SetPassword, GatewayPeers, ListDevices, ListGateways, SelectableGateways, ListLocations, FleetSnapshot,
      GetCredentialsByEmail, insertDevice, newRefreshToken; spares_steps.
Qed.

(** The user the caller names owns the device of the connection. *)
Definition owns (userID : string) (l : lease_row) (db : DB) : bool :=
  match devices db !! le_device_id l with
  | Some d => bool_decide (pg_uuid userID = Some (d_user_id d))
  | None => false
  end.

(** The call, served at [t], is one that ends the active connection [k]: its owner releases
    it, connects its device again or revokes the device, or the reaper finds it expired or
    its gateway not healthy. *)
Definition ends (q : request) (t : Time) (k : string) (l : lease_row) (db : DB) : bool :=
  match q with
  | ReleaseConnection_ userID leaseID => bool_decide (pg_uuid leaseID = Some k) && owns userID l db
  | RevokeDevice_ userID deviceID | CreateConnection_ userID deviceID _ _ _ =>
      bool_decide (pg_uuid deviceID = Some (le_device_id l)) && owns userID l db
  | ExpireStaleLeases_ => le_expires_at l <? t
  | ExpireLeasesOnUnhealthyGateways_ => stranded db l
  | _ => false
  end.

(** Connection [k] goes on: it is active, for the device and the key, on the gateway and at
    the addresses of [l]. *)
Definition goes_on (k : string) (l : lease_row) (db : DB) : Prop :=
  exists l', leases db !! k = Some l' /\ is_active l' = true /\ lease_rel l l'.

Context (k : string) (l : lease_row).
Hypothesis l_active : is_active l = true.

Lemma goes_on_same db : leases db !! k = Some l -> goes_on k l db.
Proof. exists l. splits; [done..|apply lease_rel_refl]. Qed.

Lemma update_keeps p f c s r s' :
  update Leases p f c s = (r, s') -> leases (s_db s) !! k = Some l -> p (s_db s) l = false -> leases (s_db s') !! k = Some l.
Proof.
  intros [[-> _]|(n & [= _ <-] & _)]%stmt_outcome Hl Hp; [done|]. cbn. by rewrite lookup_update_where, Hl; cbn; rewrite Hp.
Qed.

Lemma update_row_keeps k' p f c s r s' :
  update_row Leases k' p f c s = (r, s') -> leases (s_db s) !! k = Some l -> (k' = k -> p (s_db s) l = false) ->
  leases (s_db s') !! k = Some l.
Proof.
  intros [[-> _]|(n & E & _)]%stmt_outcome Hl Hp; [done|]. cbn [get Leases] in E.
  destruct (leases (s_db s) !! k') as [l'|] eqn:E'; [|by injection E as _ <-].
  destruct (p (s_db s) l') eqn:Ep; injection E as _ <-; [|done]. cbn. rewrite lookup_insert_ne; [done|].
  intros ->. rewrite Hl in E'. injection E' as <-. by rewrite Hp in Ep.
Qed.

Lemma not_owned uid u db : owns u l db = false -> pg_uuid u = Some uid -> active_owned uid db l = false.
Proof.
  unfold owns, active_owned. intros Ho Eu. rewrite l_active. cbn. destruct (devices db !! _) as [d|]; [|done].
  rewrite Eu in Ho. to_prop. apply bool_decide_eq_false_2. congruence.
Qed.

Lemma goes_on_Release u lid c s r s' :
  leases (s_db s) !! k = Some l -> bool_decide (pg_uuid lid = Some k) && owns u l (s_db s) = false ->
  ReleaseConnection u lid c s = (r, s') -> leases (s_db s') !! k = Some l.
Proof.
  intros Hl He. unfold ReleaseConnection, uuid_param, bind, of_result, get_clock.
  destruct (pg_uuid lid) as [k'|] eqn:Ek; [|by intros [= _ <-]]. destruct (pg_uuid u) as [uid|] eqn:Eu; [|by intros [= _ <-]].
  destruct (update_row Leases k' _ _ c s) as [rn s1] eqn:E. intros Hr.
  assert (s' = s1) as -> by (destruct rn as [n| |]; [destruct (n =? 0)|..]; by injection Hr).
  apply (update_row_keeps _ _ _ _ _ _ _ E Hl). intros ->. rewrite bool_decide_true in He by done. by apply (not_owned _ u).
Qed.

Lemma goes_on_Renew u lid ttl c s r s' :
  leases (s_db s) !! k = Some l -> RenewConnection u lid ttl c s = (r, s') -> goes_on k l (s_db s').
Proof.
  intros Hl. unfold RenewConnection, uuid_param, bind, of_result, get_clock.
  destruct (pg_uuid lid) as [k'|] eqn:Ek; [|intros [= _ <-]; by apply goes_on_same].
  destruct (pg_uuid u) as [uid|] eqn:Eu; [|intros [= _ <-]; by apply goes_on_same].
  destruct (update_row Leases k' _ _ c s) as [rn s1] eqn:E. intros Hr.
  assert (s' = s1) as -> by (destruct rn as [n| |]; [destruct (n =? 0)|..]; by injection Hr). clear Hr.
  apply stmt_outcome in E as [[-> _]|(n & E & _)]; [by apply goes_on_same|]. cbn [get Leases] in E.
  destruct (leases (s_db s) !! k') as [l'|] eqn:E'; [|injection E as _ <-; by apply goes_on_same].
  destruct (active_owned uid (s_db s) l'); injection E as _ <-; [|by apply goes_on_same].
  destruct (decide (k' = k)) as [->|Hne].
  - rewrite Hl in E'. injection E' as <-. eexists. cbn. rewrite lookup_insert_eq. splits; [done|done|apply lease_rel_extend].
  - apply goes_on_same. cbn. by rewrite lookup_insert_ne.
Qed.

Lemma goes_on_Revoke u did c s r s' :
  leases (s_db s) !! k = Some l -> bool_decide (pg_uuid did = Some (le_device_id l)) && owns u l (s_db s) = false ->
  RevokeDevice u did c s = (r, s') -> leases (s_db s') !! k = Some l.
Proof.
  intros Hl He. unfold RevokeDevice, uuid_param, bind, of_result, get_clock.
  destruct (pg_uuid did) as [x|] eqn:Ex; [|by intros [= _ <-]]. destruct (pg_uuid u) as [uid|] eqn:Eu; [|by intros [= _ <-]].
  destruct (update_row Devices x _ _ c s) as [rn s1] eqn:E1.
  assert (Hl1 : leases (s_db s1) !! k = Some l).
  { by rewrite (spares_update_row Devices x _ _ ltac:(done) _ c s rn s1 eq_refl E1). }
  destruct rn as [n| |]; [|by intros [= _ <-]..]. destruct (n =? 0) eqn:En; [by intros [= _ <-]|].
  destruct (update RefreshTokens _ _ c s1) as [rt s2] eqn:E2.
  assert (Hl2 : leases (s_db s2) !! k = Some l).
  { by rewrite (spares_update RefreshTokens _ _ ltac:(done) _ c s1 rt s2 eq_refl E2). }
  destruct rt as [nt| |]; [|by intros [= _ <-]..]. destruct (update Leases _ _ c s2) as [rl s3] eqn:E3. intros Hr.
  assert (s' = s3) as -> by (by destruct rl; injection Hr). apply (update_keeps _ _ _ _ _ _ E3 Hl2).
  apply yields_run, yields_update_row in E1 as [(d & Hd & Ho & _)|(_ & -> & _)]; [|done].
  unfold active_of. destruct (decide (le_device_id l = x)) as [Ed|Hne]; [|by rewrite bool_decide_false].
  exfalso. change (devices (s_db s) !! x = Some d) in Hd.
  rewrite Ed, bool_decide_true in He by done. unfold owns in He. rewrite Ed, Hd in He. unfold owned_live in Ho. to_prop.
  cbn in He. to_prop. congruence.
Qed.

Lemma goes_on_Connect u did country lt ht c s r s' :
  leases (s_db s) !! k = Some l -> bool_decide (pg_uuid did = Some (le_device_id l)) && owns u l (s_db s) = false ->
  CreateConnection u did country lt ht c s = (r, s') -> leases (s_db s') !! k = Some l.
Proof.
  intros Hl He [[-> _]|(conn & Hy & _)]%transaction_outcome; [done|].
  apply CreateConnection_yields in Hy as (x & uid & d & gid & g & lo & v4 & v6 & ip4 & ip6 & Ex & Eu & Hd & Ho & _ & _ & _ & _ & _ & _
    & _ & _ & Hnew & _ & _ & ->).
  assert (Hne : le_device_id l <> x).
  { intros Ed. rewrite Ex, Ed, bool_decide_true in He by done. unfold owns in He. rewrite Ed, Hd in He.
    unfold owned_live in Ho. to_prop. cbn in He. to_prop. congruence. }
  assert (Hl1 : leases (released x (now c) (s_db s)) !! k = Some l).
  { cbn. rewrite lookup_update_where, Hl. cbn. unfold active_of. by rewrite bool_decide_false. }
  cbn [put leases Leases]. rewrite lookup_insert_ne; [done|]. intros E. cbn in Hnew, Hl1. by rewrite E, Hl1 in Hnew.
Qed.

(** Whatever its statements meet, a call that is none of those that end it lets the
    connection go on. *)
Lemma serve_goes_on q c s r s' :
  leases (s_db s) !! k = Some l -> ends q (now c) k l (s_db s) = false -> serve q c s = (r, s') -> goes_on k l (s_db s').
Proof.
  intros Hl He E. destruct (sparing q) eqn:Hq.
  { apply goes_on_same. by rewrite (serve_spares q Hq (leases (s_db s)) c s r s' eq_refl E). }
  destruct q; try done; cbn [serve ends] in *; unfold discard, bind in E.
  - by apply goes_on_same, (goes_on_Revoke _ _ _ _ _ _ Hl He E).
  - destruct (CreateConnection _ _ _ _ _ c s) as [x s1] eqn:E1. assert (s' = s1) as -> by (by destruct x; injection E).
    by apply goes_on_same, (goes_on_Connect _ _ _ _ _ _ _ _ _ Hl He E1).
  - by apply goes_on_same, (goes_on_Release _ _ _ _ _ _ Hl He E).
  - destruct (RenewConnection _ _ _ c s) as [x s1] eqn:E1. assert (s' = s1) as -> by (by destruct x; injection E).
    by apply (goes_on_Renew _ _ _ _ _ _ _ Hl E1).
  - destruct (ExpireStaleLeases c s) as [x s1] eqn:E1. assert (s' = s1) as -> by (by destruct x; injection E).
    apply goes_on_same, (update_keeps _ _ _ _ _ _ E1 Hl). unfold expired. by rewrite l_active.
  - destruct (ExpireLeasesOnUnhealthyGateways c s) as [x s1] eqn:E1. assert (s' = s1) as -> by (by destruct x; injection E).
    by apply goes_on_same, (update_keeps _ _ _ _ _ _ E1 Hl).
Qed.

Lemma ended_by_update p f (m : gmap string lease_row) :
  m !! k = Some l -> p l = true -> (forall l', is_active (f l') = false) ->
  exists l', update_where p f m !! k = Some l' /\ is_active l' = false.
Proof. intros Hl Hp Hf. exists (f l). rewrite lookup_update_where, Hl. cbn. by rewrite Hp. Qed.

Lemma active_of_device did : le_device_id l = did -> active_of did l = true.
Proof. intros <-. unfold active_of. rewrite bool_decide_true by done. exact l_active. Qed.

(** A call that ends it has ended it when it returns without error. *)
Lemma serve_ends q c s u s' :
  leases (s_db s) !! k = Some l -> ends q (now c) k l (s_db s) = true -> serve q c s = (Ok u, s') ->
  exists l', leases (s_db s') !! k = Some l' /\ is_active l' = false.
Proof.
  intros Hl He E%yields_run. destruct q; try done; cbn [serve ends] in *; unfold discard in E; yields_inv.
  - apply andb_true_iff in He as [Hdid%bool_decide_eq_true _]. unfold RevokeDevice in E. yields_inv. simplify_eq.
    match goal with Hu : yields _ (update_row _ _ _ _) _ _ _ |- _ =>
      apply yields_update_row in Hu as [(d & _ & _ & -> & ->)|(_ & -> & _)]; [|by cbn in E; yields_inv] end.
    cbn in E. yields_inv. match goal with Edb : s_db s' = _ |- _ => rewrite Edb end. by apply ended_by_update; [|apply active_of_device|].
  - apply andb_true_iff in He as [Hdid%bool_decide_eq_true _]. 
    match goal with Hy : yields _ (CreateConnection _ _ _ _ _) _ ?a _ |- _ => unfold CreateConnection in Hy; yields_inv end.
    match goal with Hy : yields _ (CreateConnection_tx _ _ _ _ _) _ _ _ |- _ =>
      apply CreateConnection_yields in Hy as (y & uid & d & gid & g & lo & v4 & v6 & ip4 & ip6 & Ex & Eu & Hd & Ho & _ & _ & _ & _ & _ & _
        & _ & _ & Hnew & _ & _ & Edb) end.
    rewrite Hdid in Ex. injection Ex as <-.
    destruct (ended_by_update (active_of (le_device_id l)) (set_lease_state Released (Some (now c))) _ Hl) as (l' & Hl' & Ha);
      [by apply active_of_device|done|].
    rewrite Edb. exists l'. cbn [put leases Leases]. rewrite lookup_insert_ne; [done|].
    intros Ek. unfold released in Hnew. cbn [put leases Leases get] in Hnew, Hl'. by rewrite Ek, Hl' in Hnew.
  - apply andb_true_iff in He as [Hlid%bool_decide_eq_true _]. unfold ReleaseConnection in E. yields_inv. simplify_eq.
    match goal with Hu : yields _ (update_row _ _ _ _) _ _ _ |- _ =>
      apply yields_update_row in Hu as [(l' & Hl' & _ & -> & ->)|(_ & -> & _)]; [|by cbn in E; yields_inv] end.
    cbn in E. yields_inv. cbn in Hl'. rewrite Hl in Hl'. injection Hl' as <-.
    match goal with Edb : s_db s' = _ |- _ => rewrite Edb end. eexists. cbn. by rewrite lookup_insert_eq.
  - unfold ExpireStaleLeases in *. yields_inv.
    match goal with Edb : s_db s' = _ |- _ => rewrite Edb end.
    apply ended_by_update; [done| |done]. unfold expired. by rewrite l_active, He.
  - unfold ExpireLeasesOnUnhealthyGateways in *. yields_inv.
    match goal with Edb : s_db s' = _ |- _ => rewrite Edb end.
    by apply ended_by_update.
Qed.

End lifecycle.

Section scripts.
Context `{PostgresOrder}.

Lemma exec_app ks1 ks2 db : (exec (ks1 ++ ks2) db).2 = (exec ks2 (exec ks1 db).2).2.
Proof.
  revert db. induction ks1 as [|q ks1 IH]; intros db; [done|]. cbn [app exec].
  destruct (exec_call q db) as [e db1]. specialize (IH db1).
  destruct (exec (ks1 ++ ks2) db1), (exec ks1 db1). exact IH.
Qed.

Lemma exec_cons q ks db : (exec (q :: ks) db).2 = (exec ks (exec_call q db).2).2.
Proof. cbn [exec]. destruct (exec_call q db) as [e db1]. cbn [snd]. by destruct (exec ks db1). Qed.

(** The call ends connection [k], which is active in the tables it finds. *)
Definition ends_active (q : call) (k : string) (db : DB) : Prop :=
  exists l, leases db !! k = Some l /\ is_active l = true /\ ends (call_request q) (now (call_clock q)) k l db = true.

Lemma goes_on_or_ends ks db k l :
  leases db !! k = Some l -> is_active l = true ->
  goes_on k l (exec ks db).2 \/ exists ks1 q ks2, ks = ks1 ++ q :: ks2 /\ ends_active q k (exec ks1 db).2.
Proof.
  revert db l. induction ks as [|q ks IH]; intros db l Hl Ha; [left; by apply goes_on_same|].
  destruct (ends (call_request q) (now (call_clock q)) k l db) eqn:Ee.
  { right. exists [], q, ks. split; [done|]. by exists l. }
  assert (Hg : goes_on k l (exec_call q db).2).
  { unfold exec_call. destruct (serve _ _ _) as [r s'] eqn:Es. cbn [snd].
    exact (serve_goes_on k l Ha _ _ (mkSession db (call_faults q) (call_uuids q) (call_rand q)) _ _ Hl Ee Es). }
  destruct Hg as (l1 & Hl1 & Ha1 & Hr1). destruct (IH _ l1 Hl1 Ha1) as [(l2 & Hl2 & Ha2 & Hr2)|(ks1 & q' & ks2 & -> & He)].
  - left. rewrite exec_cons. exists l2. splits; [done|done|by etrans].
  - right. exists (q :: ks1), q', ks2. split; [done|]. by rewrite exec_cons.
Qed.

(** C15: a connection lasts until somebody ends it. Along every sequence of calls, whatever
    their statements meet, a connection that is active goes on, for the same device and key,
    on the same gateway, at the same addresses, unless one of the calls ends it: its owner's
    release of it, connection of its device or revocation of its device, or the reaper's when
    it has expired or its gateway is not healthy. Nobody else's call and no other failure
    does; and a call that ends it and returns without error has ended it for good. *)
Theorem connection_ends_for_a_reason ks db k l :
  wf db -> leases db !! k = Some l -> is_active l = true ->
  (goes_on k l (exec ks db).2 \/ exists ks1 q ks2, ks = ks1 ++ q :: ks2 /\ ends_active q k (exec ks1 db).2) /\
  (forall ks1 q ks2, ks = ks1 ++ q :: ks2 -> ends_active q k (exec ks1 db).2 -> (exec_call q (exec ks1 db).2).1.2 = true ->
     ~ goes_on k l (exec ks db).2).
Proof.
  intros Hwf Hl Ha. split; [by apply goes_on_or_ends|].
  intros ks1 q ks2 -> (l1 & Hl1 & Ha1 & He) Hok (l2 & Hl2 & Ha2 & _). rewrite exec_app, exec_cons in Hl2.
  set (db1 := (exec ks1 db).2) in *. unfold exec_call in Hok, Hl2.
  destruct (serve _ _ _) as [r s'] eqn:Es. cbn [fst snd] in Hok, Hl2. destruct r as [[]| |]; [|done..].
  destruct (serve_ends k l1 Ha1 _ _ (mkSession db1 (call_faults q) (call_uuids q) (call_rand q)) _ _ Hl1 He Es) as (l3 & Hl3 & Ha3).
  destruct (run_good _ _ _ Hwf (exec_run ks1 db)) as [Hwf1 _].
  destruct (step_good _ _ _ Hwf1 (step_serve _ _ (mkSession db1 (call_faults q) (call_uuids q) (call_rand q)) _ _ Es)) as [Hwf2 _].
  destruct (run_good _ _ _ Hwf2 (exec_run ks2 (s_db s'))) as [_ Hev].
  destruct (ev_leases _ _ Hev _ _ Hl3) as (l4 & Hl4 & Hrel). rewrite Hl2 in Hl4. injection Hl4 as <-.
  by rewrite (lease_rel_active _ _ Hrel Ha2) in Ha3.
Qed.

End scripts.

(** ** Witness *)

#[local] Existing Instance demo_pg.

(** Somebody else's release, two sweeps of the reaper, a renewal whose reply is lost, and the
    revocation of a device that is not there. *)
Definition demo_day : list call := [
  fine (ReleaseConnection_ "mallory" "lease1") 6000 [] [];
  fine ExpireStaleLeases_ 6001 [] [];
  fine ExpireLeasesOnUnhealthyGateways_ 6002 [] [];
  mkCall (RenewConnection_ "user1" "lease1" Hour) (at_time 6003) [Late] [] [];
  fine (RevokeDevice_ "user1" "dev2") 6004 [] []
].
Definition demo_goodbye : call := fine (ReleaseConnection_ "user1" "lease1") 7000 [] [].

Lemma connection_ends_for_a_reason_witness :
  let evening := demo_day ++ demo_goodbye :: [fine (RenewConnection_ "user1" "lease1" Hour) 8000 [] []] in
  (le_expires_at <$> leases (exec demo_day demo_db).2 !! "lease1") = Some (6003 + Hour) /\
  (goes_on "lease1" demo_lease_row (exec demo_day demo_db).2 \/
     exists ks1 q ks2, demo_day = ks1 ++ q :: ks2 /\ ends_active q "lease1" (exec ks1 demo_db).2) /\
  ~ goes_on "lease1" demo_lease_row (exec evening demo_db).2.
Proof.
  intros evening. assert (Hl : leases demo_db !! "lease1" = Some demo_lease_row) by (vm_compute; reflexivity).
  split; [vm_compute; reflexivity|]. split.
  - apply (connection_ends_for_a_reason demo_day demo_db "lease1" demo_lease_row demo_wf Hl eq_refl).
  - apply (connection_ends_for_a_reason evening demo_db "lease1" demo_lease_row demo_wf Hl eq_refl) with (1 := eq_refl).
    + eexists. splits; vm_compute; reflexivity.
    + vm_compute. reflexivity.
Defined.
