(* ===== verification/Interleave.v ===== *)
(** Transactions that overlap. The statements of several transactions run in any order, as
    PostgreSQL runs them at READ COMMITTED, the level [pool.Begin] starts them at: a
    statement sees what is committed when it runs and what its own transaction has done; a
    row a transaction has written or locked, and an entry it has added to a unique index, is
    waited for by the others until it ends; a statement that has waited looks again at the
    rows it found when it started, and at no others. *)
From S2P Require Import Prelude Model Alloc Db Session Schema.

(** What a transaction can hold: rows, and entries of unique indexes. *)
Inductive lock :=
| lease_lock (k : string) | gateway_lock (k : string) | invite_lock (k : string)
| user_lock (k : string) | device_lock (k : string) | token_lock (k : string) | location_lock (k : string)
| address_lock (gid ip : string) | email_lock (e : string) | key_lock (pk : string) | hash_lock (h : string)
| code_lock (code : string) | name_lock (name : string).

#[export] Instance lock_eq_dec : EqDecision lock.
Proof. solve_decision. Defined.

Definition lock_key (x : lock) : nat * string * string :=
  match x with
  | lease_lock k => (0%nat, k, EmptyString) | gateway_lock k => (1%nat, k, EmptyString)
  | invite_lock k => (2%nat, k, EmptyString) | user_lock k => (3%nat, k, EmptyString)
  | device_lock k => (4%nat, k, EmptyString) | token_lock k => (5%nat, k, EmptyString)
  | address_lock gid ip => (6%nat, gid, ip) | email_lock e => (7%nat, e, EmptyString)
  | key_lock pk => (8%nat, pk, EmptyString) | hash_lock h => (9%nat, h, EmptyString)
  | location_lock k => (10%nat, k, EmptyString) | code_lock c => (11%nat, c, EmptyString)
  | name_lock n => (12%nat, n, EmptyString)
  end.
Definition key_of_lock (c : nat * string * string) : lock :=
  match c with
  | (0%nat, k, _) => lease_lock k | (1%nat, k, _) => gateway_lock k | (2%nat, k, _) => invite_lock k
  | (3%nat, k, _) => user_lock k | (4%nat, k, _) => device_lock k | (5%nat, k, _) => token_lock k
  | (6%nat, gid, ip) => address_lock gid ip | (7%nat, e, _) => email_lock e
  | (8%nat, pk, _) => key_lock pk | (9%nat, h, _) => hash_lock h | (10%nat, k, _) => location_lock k
  | (11%nat, c, _) => code_lock c | (_, n, _) => name_lock n
  end.
#[export] Instance lock_countable : Countable lock.
Proof. refine (inj_countable' lock_key key_of_lock _). by intros []. Defined.

Abbreviation locks := (gset lock).

(** ** Transactions as sequences of statements *)

(** What a transaction hands back when it commits. *)
Inductive answer :=
| granted (conn : Connection)
| enrolled (x : User * Device * string)
| added (x : Device * string)
| registered (x : Gateway * string).

(** The statements that write or lock, by name. *)
Inductive statement :=
| UPDATE_leases
| INSERT_lease (u gid v4 : string)
| LOCK_gateway (gid : string)
| LOCK_invite (code : string)
| UPSERT_user
| INSERT_device
| UPDATE_invite
| INSERT_refresh_token
| UPSERT_location
| ENTER_name (name : string)      (* the two waits of the upsert of a gateway *)
| UPSERT_gateway.

(** The statements between [Begin] and [Commit], each with what the code does next. A [Write]
    first finds its rows; [act] runs once nobody else holds any of them, on the tables of
    that moment, and says what is held from then on and what is written. *)
Inductive prog : Type :=
| Stop (r : result StoreError answer)
| Select {B : Type} (f : DB -> B) (k : B -> prog)
| Draw (k : string -> prog)                     (* gen_random_uuid() *)
| Rand (k : list Z -> prog)                     (* rand.Read *)
| Write {B : Type} (st : statement) (rows : DB -> locks) (act : locks -> DB -> result StoreError (B * locks * (DB -> DB))) (k : B -> prog).

(** The statement a program is at, if it writes or locks. *)
Definition statement_of (p : prog) : option statement := match p with Write st _ _ _ => Some st | _ => None end.

(** The first wait of a statement that waits twice is no round trip to the server. *)
Definition round_trip (st : statement) : bool := match st with ENTER_name _ => false | _ => true end.
Definition within {A} (f : DB -> result StoreError (A * DB)) : M A := fun _ s =>
  match f (s_db s) with Ok (a, db') => (Ok a, with_db db' s) | Err e => (Err e, s) | Panic => (Panic, s) end.

(** The same statements one after the other, with nobody in between. *)
Fixpoint run_prog (p : prog) : M answer :=
  match p with
  | Stop r => of_result r
  | Select f k => let! b := query (fun db => Ok (f db)) in run_prog (k b)
  | Draw k => let! u := gen_random_uuid in run_prog (k u)
  | Rand k => let! b := rand_Read in run_prog (k b)
  | Write st rows act k =>
      let! b := (if round_trip st then stmt else within)
                  (fun db => match act (rows db) db with
                             | Ok (b, _, e) => Ok (b, e db)
                             | Err e => Err e
                             | Panic => Panic
                             end) in
      run_prog (k b)
  end.

(** ** The transactions of a system *)

Section system.
Context {job : Type} (program : job -> prog).

(** A running transaction: the rows its current statement waits for, what it holds, and what
    it has written. *)
Record tx := mkTx {
  tx_job : job;
  tx_prog : prog;
  tx_waits : option locks;
  tx_locks : locks;
  tx_effect : DB -> DB
}.

Record sys := mkSys {
  committed : DB;
  running : gmap nat tx;
  ended : list (job * answer)      (* what has committed, latest first *)
}.

Definition view (s : sys) (t : tx) : DB := tx_effect t (committed s).

(** Nobody but [i] holds any of [R]. *)
Definition available (i : nat) (R : locks) (s : sys) : bool :=
  bool_decide (map_Forall (fun j t => j = i \/ R ## tx_locks t) (running s)).

Definition with_tx (i : nat) (t : tx) (s : sys) : sys := mkSys (committed s) (<[i := t]> (running s)) (ended s).
Definition rolled_back (i : nat) (s : sys) : sys := mkSys (committed s) (delete i (running s)) (ended s).
Definition next (t : tx) (p : prog) (L : locks) (e : DB -> DB) : tx :=
  mkTx (tx_job t) p None (L ∪ tx_locks t) (fun db => e (tx_effect t db)).

(** What the scheduler, the server's generators and the network decide. *)
Inductive action :=
| begin_ (i : nat) (j : job)
| go (i : nat)
| draw (i : nat) (u : string)
| rand (i : nat) (b : list Z)
| break (i : nat).                (* a lost connection, a cancelled context, a deadlock *)

Definition proceed (i : nat) (t : tx) (s : sys) : option sys :=
  match tx_prog t with
  | Stop (Ok a) =>
      Some (mkSys (tx_effect t (committed s)) (delete i (running s)) ((tx_job t, a) :: ended s))
  | Stop _ => Some (rolled_back i s)
  | Select f k => Some (with_tx i (next t (k (f (view s t))) ∅ id) s)
  | Draw _ | Rand _ => None
  | Write _ rows act k =>
      match tx_waits t with
      | None => Some (with_tx i (mkTx (tx_job t) (tx_prog t) (Some (rows (view s t))) (tx_locks t) (tx_effect t)) s)
      | Some R =>
          if available i R s then
            Some (match act R (view s t) with
                  | Ok (b, L, e) => with_tx i (next t (k b) L e) s
                  | _ => rolled_back i s
                  end)
          else None
      end
  end.

Definition perform (a : action) (s : sys) : option sys :=
  match a with
  | begin_ i j =>
      match running s !! i with
      | None => Some (with_tx i (mkTx j (program j) None ∅ id) s)
      | Some _ => None
      end
  | go i => running s !! i ≫= fun t => proceed i t s
  | draw i u =>
      running s !! i ≫= fun t => match tx_prog t with Draw k => Some (with_tx i (next t (k u) ∅ id) s) | _ => None end
  | rand i b =>
      running s !! i ≫= fun t => match tx_prog t with Rand k => Some (with_tx i (next t (k b) ∅ id) s) | _ => None end
  | break i => running s !! i ≫= fun _ => Some (rolled_back i s)
  end.

Definition perform_all (as_ : list action) (s : sys) : option sys := foldl (fun s a => s ≫= perform a) (Some s) as_.

(** ** Everybody else *)

(** What the statements of the other operations do to the tables: leases end or are
    extended, and none is made; rows of gateways stay, under their names, and none is added;
    rows of invites stay, and a used invite does. *)
Record outside (db db' : DB) : Prop := {
  out_leases : narrows lease_rel (leases db) (leases db');
  out_gateways : grows gateway_id_rel (gateways db) (gateways db');
  out_names : narrows gateway_id_rel (gateways db) (gateways db');
  out_invites : grows invite_rel (invite_codes db) (invite_codes db')
}.

(** The row behind a lock. *)
Definition same_row (x : lock) (db db' : DB) : Prop :=
  match x with
  | lease_lock k => leases db' !! k = leases db !! k
  | gateway_lock k => gateways db' !! k = gateways db !! k
  | invite_lock k => invite_codes db' !! k = invite_codes db !! k
  | user_lock k => users db' !! k = users db !! k
  | device_lock k => devices db' !! k = devices db !! k
  | token_lock k => refresh_tokens db' !! k = refresh_tokens db !! k
  | location_lock k => locations db' !! k = locations db !! k
  | address_lock _ _ | email_lock _ | key_lock _ | hash_lock _ | code_lock _ | name_lock _ => True
  end.

Inductive step : sys -> sys -> Prop :=
| step_tx a s s' : perform a s = Some s' -> step s s'
| step_outside s db' :
    outside (committed s) db' ->
    (forall i t x, running s !! i = Some t -> x ∈ tx_locks t -> same_row x (committed s) db') ->
    step s (mkSys db' (running s) (ended s)).

Definition reachable (db : DB) : sys -> Prop := rtc step (mkSys db ∅ []).

Lemma perform_all_reachable as_ s s' : perform_all as_ s = Some s' -> rtc step s s'.
Proof.
  unfold perform_all. revert s. induction as_ as [|a as_ IH]; intros s; cbn [foldl].
  - by intros [= ->].
  - cbn [mbind option_bind]. destruct (perform a s) as [s1|] eqn:E.
    + intros Hs. eapply rtc_l; [by apply (step_tx a)|by apply IH].
    + intros Hs. exfalso. clear -Hs. induction as_ as [|a' as_ IH]; [done|by apply IH].
Qed.

End system.

Arguments mkTx {job} tx_job tx_prog tx_waits tx_locks tx_effect.
Arguments mkSys {job} committed running ended.
Arguments tx_job {job} _.
Arguments tx_prog {job} _.
Arguments tx_waits {job} _.
Arguments tx_locks {job} _.
Arguments tx_effect {job} _ _.
Arguments committed {job} _.
Arguments running {job} _.
Arguments ended {job} _.

Lemma narrows_trans {R} (rel : R -> R -> Prop) `{!Transitive rel} m1 m2 m3 :
  narrows rel m1 m2 -> narrows rel m2 m3 -> narrows rel m1 m3.
Proof.
  intros H1 H2 k r Hk. destruct (H2 _ _ Hk) as (r1 & Hk1 & ?). destruct (H1 _ _ Hk1) as (r0 & ? & ?).
  exists r0. split; [done|]. by transitivity r1.
Qed.

#[export] Instance outside_pre : PreOrder outside.
Proof.
  split.
  - intros db. split; [apply narrows_refl, lease_rel_refl|apply grows_refl, _|apply narrows_refl; done|apply grows_refl, _].
  - intros x y z [L1 G1 N1 I1] [L2 G2 N2 I2].
    split; [by eapply narrows_trans; [apply _|..]|by eapply grows_trans; [apply _|..]
           |by eapply narrows_trans; [apply _|..]|by eapply grows_trans; [apply _|..]].
Qed.
