(* ===== verification/Overlap.v ===== *)
(** The four transactions of the store, [CreateConnection], [Enroll], [CreateDevice] and
    [RegisterGateway], as sequences of statements, with the rows each statement waits for;
    run alone they are the transactions of [StoreConnections], [StoreIdentity] and
    [StoreGateways]. *)
From S2P Require Import Prelude Model Selection GoStrings NetAddr Crypto Alloc Db Session StoreGateways StoreIdentity StoreConnections Facts Interleave.

(** ** Statements *)

(** [f] on the rows with a key in [K]. *)
Definition update_keys {R} (K : gset string) (f : R -> R) (m : gmap string R) : gmap string R :=
  map_imap (fun k r => Some (if bool_decide (k ∈ K) then f r else r)) m.

(** The rows of [UPDATE leases ... WHERE p], and those of them that still satisfy [p]. *)
Definition leases_where (p : lease_row -> bool) (db : DB) : locks :=
  list_to_set ((fun kl => lease_lock kl.1) <$> select_rows p (leases db)).
Definition still (p : lease_row -> bool) (found : locks) (db : DB) : gset string :=
  list_to_set (fst <$> List.filter (fun kl => bool_decide (lease_lock kl.1 ∈ found)) (select_rows p (leases db))).

Definition Update_leases (p : lease_row -> bool) (f : lease_row -> lease_row) (k : prog) : prog :=
  Write UPDATE_leases (leases_where p)
    (fun found db =>
       let K := still p found db in
       Ok ((), set_map lease_lock K, fun d => put Leases (update_keys K f (leases d)) d))
    (fun _ => k).

(** The row of [t] under [k], as it is in [db]. *)
Definition copy_row {R} (t : Table R) (k : string) (db : DB) : DB -> DB :=
  match get t db !! k with
  | Some r => fun d => put t (<[k := r]> (get t d)) d
  | None => id
  end.

(** A statement that writes one row of [t] and waits for [rows], the row and the index
    entries it could collide with. *)
Definition Write_row {B R} (st : statement) (t : Table R) (rows : locks) (f : DB -> result StoreError (B * DB)) (key : B -> string)
    (lock_of : string -> lock) (k : B -> prog) : prog :=
  Write st (fun _ => rows)
    (fun found db => match f db with
                     | Ok (b, db') => Ok (b, {[lock_of (key b)]} ∪ found, copy_row t (key b) db')
                     | Err e => Err e
                     | Panic => Panic
                     end) k.

(** [SELECT 1 FROM gateways WHERE id = $1 FOR UPDATE] *)
Definition Lock_gateway (gid : string) (k : prog) : prog :=
  Write (LOCK_gateway gid) (fun db => match gateways db !! gid with Some _ => {[gateway_lock gid]} | None => ∅ end)
    (fun found _ => Ok ((), found, id)) (fun _ => k).

(** [SELECT ... FROM invite_codes WHERE code = $1 FOR UPDATE] *)
Definition Lock_invite `{Postgres} (code : string) (k : option invite_row -> prog) : prog :=
  Write (LOCK_invite code) (fun db => match invite_codes db !! code with Some _ => {[invite_lock code]} | None => ∅ end)
    (fun found db => Ok (if bool_decide (invite_lock code ∈ found) then head (pg_rows (find_invite code db)) else None,
                         found, id)) k.

Section programs.
Context `{Postgres}.

(** ** [CreateConnection] *)

Record connect_args := mkConnectArgs {
  ca_clock : Clock;
  ca_user : string;
  ca_device : string;
  ca_country : string;
  ca_leaseTTL : Duration;
  ca_heartbeatTTL : Duration
}.

Section connect.
Variable a : connect_args.
Abbreviation c := (ca_clock a).

Definition new_entries (u gid v4 : string) : locks :=
  {[lease_lock u]} ∪ match pg_inet v4 with Some ip => {[address_lock gid ip]} | None => ∅ end.

Definition connect_insert (did pub : string) (chosen : gwCandidate) (v4 : string) (v6 : option string) (u : string) : prog :=
  let gid := ID (cand_g chosen) in
  let expires := now c + pg_interval (ca_leaseTTL a) in
  Write_row (INSERT_lease u gid v4) Leases (new_entries u gid v4) (insert_lease u gid did pub v4 v6 expires) (fun _ => u) lease_lock
    (fun _ => Stop (Ok (granted (connection u expires chosen v4 v6)))).

Definition connect_draw (did pub : string) (chosen : gwCandidate) (v4 : string) (v6 : option string) : prog :=
  Draw (connect_insert did pub chosen v4 v6).

Definition connect_allocate (did pub : string) (chosen : gwCandidate) (used : gset Z) : prog :=
  match allocateHost (subnetV4 chosen) (subnetV6 chosen) used with
  | Ok (v4, v6) => connect_draw did pub chosen v4 v6
  | Err e => Stop (Err e)
  | Panic => Stop Panic
  end.

Definition connect_read (did pub : string) (chosen : gwCandidate) : prog :=
  Select (fun db => list_to_set (omap host_addr (pg_rows (active_hosts (ID (cand_g chosen)) db))))
    (connect_allocate did pub chosen).

Definition connect_lock (did pub : string) (chosen : gwCandidate) : prog :=
  Lock_gateway (ID (cand_g chosen)) (connect_read did pub chosen).

Definition connect_choose (did pub : string) (cs : list gwCandidate) : prog :=
  match Best (cand_g <$> cs) with
  | None => Stop (Err ErrNoGatewayAvailable)
  | Some best => connect_lock did pub (default zero_candidate (by_id cs !! ID best))
  end.

Definition connect_select (did pub : string) : prog :=
  Select (fun db => pg_rows (candidates (now c) (ca_heartbeatTTL a) (ca_country a) db)) (connect_choose did pub).

Definition connect_release (did pub : string) : prog :=
  Update_leases (active_of did) (set_lease_state Released (Some (now c))) (connect_select did pub).

Definition connect_owned (did : string) (row : option string) : prog :=
  match row with
  | None => Stop (Err ErrDeviceNotFound)
  | Some pub => connect_release did pub
  end.

Definition CreateConnection_prog : prog :=
  match pg_uuid (ca_device a), pg_uuid (ca_user a) with
  | Some did, Some uid => Select (fun db => head (pg_rows (device_key did uid db))) (connect_owned did)
  | _, _ => Stop (Err ErrDB)
  end.

End connect.

(** ** Devices and tokens *)

(** [insertDevice], of the user [userID], whom the server reads as [uid]. *)
Definition Insert_device (t : Time) (userID uid : string) (r : DeviceRegistration) (k : Device -> prog) : prog :=
  Draw (fun u =>
    Write_row INSERT_device Devices {[device_lock u; key_lock (dr_PublicKey r)]} (insert_device u uid r t) (fun _ => u) device_lock
      (fun _ => k (mkDevice u userID (dr_Name r) (dr_Platform r) (dr_PublicKey r) t None None))).

(** [newRefreshToken] *)
Definition Insert_token (t : Time) (ttl : Duration) (did : string) (k : string -> prog) : prog :=
  Rand (fun b =>
    let plain := b64url b in
    Draw (fun u =>
      Write_row INSERT_refresh_token RefreshTokens {[token_lock u; hash_lock (HashToken plain)]}
        (fun db => match refresh_tokens db !! u with
                   | Some _ => Err ErrDB
                   | None =>
                       if token_ok did (HashToken plain) db
                       then Ok ((), put RefreshTokens (<[u := mkTokenRow did (HashToken plain) (t + pg_interval ttl) None]>
                                                         (refresh_tokens db)) db)
                       else Err ErrDB
                   end)
        (fun _ => u) token_lock (fun _ => k plain))).

(** ** [Enroll] *)

Record enrol_args := mkEnrolArgs { ea_clock : Clock; ea_req : EnrollRequest; ea_refreshTTL : Duration }.

Section enrol.
Variable a : enrol_args.
Abbreviation c := (ea_clock a).
Abbreviation req := (ea_req a).

Definition enrol_token (u : User) (d : Device) : prog :=
  Insert_token (now c) (ea_refreshTTL a) (dev_ID d) (fun plain => Stop (Ok (enrolled (u, d, plain)))).

Definition enrol_use (u : User) (d : Device) : prog :=
  Write_row UPDATE_invite Invites {[invite_lock (er_InviteCode req)]}
    (fun db => match invite_codes db !! er_InviteCode req with
               | Some i => Ok (1, put Invites (<[er_InviteCode req := use_invite (usr_ID u) (now c) i]> (invite_codes db)) db)
               | None => Ok (0, db)
               end)
    (fun _ => er_InviteCode req) invite_lock (fun _ => enrol_token u d).

Definition enrol_device (u : User) : prog := Insert_device (now c) (usr_ID u) (usr_ID u) (er_Device req) (enrol_use u).

Definition enrol_user : prog :=
  Draw (fun k =>
    Write_row UPSERT_user Users {[user_lock k; email_lock (pg_fold (er_Email req))]}
      (upsert_user k (er_Email req) (nilIfEmpty (er_DisplayName req)) (now c)) usr_ID user_lock enrol_device).

Definition enrol_invite (row : option invite_row) : prog :=
  match row with
  | None => Stop (Err ErrInviteInvalid)
  | Some i => if invite_open (time_Now c) i then enrol_user else Stop (Err ErrInviteInvalid)
  end.

Definition Enroll_prog : prog := Lock_invite (er_InviteCode req) enrol_invite.

End enrol.

(** ** [CreateDevice] *)

Record add_args := mkAddArgs { da_clock : Clock; da_user : string; da_device : DeviceRegistration; da_refreshTTL : Duration }.

Definition CreateDevice_prog (a : add_args) : prog :=
  match pg_uuid (da_user a) with
  | Some uid =>
      Insert_device (now (da_clock a)) (da_user a) uid (da_device a) (fun d =>
        Insert_token (now (da_clock a)) (da_refreshTTL a) (dev_ID d) (fun plain => Stop (Ok (added (d, plain)))))
  | None => Stop (Err ErrDB)
  end.

(** ** [RegisterGateway] *)

(** The token has been drawn before [Begin]. *)
Record register_args := mkRegisterArgs { ra_clock : Clock; ra_reg : GatewayRegistration; ra_token : string }.

Section register.
Variable a : register_args.
Abbreviation r := (ra_reg a).

(** The rows with the name: one at most, as names are unique. *)
Definition gateways_named (name : string) (db : DB) : locks :=
  list_to_set ((fun kg => gateway_lock kg.1) <$> select_rows (fun g => bool_decide (g_name g = name)) (gateways db)).

(** [ON CONFLICT (name) DO UPDATE] waits for the entry of the name, while somebody else is
    adding it, and then for the row that has it. *)
Definition register_gateway (lid u : string) : prog :=
  Write UPSERT_gateway (fun db => {[gateway_lock u]} ∪ gateways_named (reg_Name r) db)
    (fun found db => match upsert_gateway u lid r (HashToken (ra_token a)) db with
                     | Ok (id, db') => Ok (id, {[gateway_lock id]} ∪ found, copy_row Gateways id db')
                     | Err e => Err e
                     | Panic => Panic
                     end)
    (fun id => Stop (Ok (registered (registered_gateway r lid id, ra_token a)))).

Definition register_name (lid u : string) : prog :=
  Write (ENTER_name (reg_Name r)) (fun _ => {[name_lock (reg_Name r)]}) (fun found _ => Ok ((), found, id))
    (fun _ => register_gateway lid u).

Definition register_draw (lid : string) : prog := Draw (register_name lid).

Definition register_location (u : string) : prog :=
  Write_row UPSERT_location Locations {[location_lock u; code_lock (reg_CountryCode r)]}
    (upsert_location u (reg_CountryCode r) (reg_CountryName r)) (fun id => id) location_lock register_draw.

Definition RegisterGateway_prog : prog := Draw register_location.

End register.

(** A transaction of one of these kinds. *)
Inductive job :=
| connecting (a : connect_args)
| enrolling (a : enrol_args)
| adding (a : add_args)
| registering (a : register_args).

Definition program (j : job) : prog :=
  match j with
  | connecting a => CreateConnection_prog a
  | enrolling a => Enroll_prog a
  | adding a => CreateDevice_prog a
  | registering a => RegisterGateway_prog a
  end.

(** The same job as the transaction of the store it is. *)
Definition alone (j : job) : Clock * M answer :=
  match j with
  | connecting a =>
      (ca_clock a, let! conn := CreateConnection_tx (ca_user a) (ca_device a) (ca_country a) (ca_leaseTTL a) (ca_heartbeatTTL a) in
                   ret (granted conn))
  | enrolling a => (ea_clock a, let! x := Enroll_tx (ea_req a) (ea_refreshTTL a) in ret (enrolled x))
  | adding a => (da_clock a, let! x := CreateDevice_tx (da_user a) (da_device a) (da_refreshTTL a) in ret (added x))
  | registering a => (ra_clock a, let! x := RegisterGateway_tx (ra_reg a) (ra_token a) in ret (registered x))
  end.

End programs.

(** ** Run alone *)

Lemma bind_bind {A B C} (m : M A) (k : A -> M B) (h : B -> M C) c s :
  bind (bind m k) h c s = bind m (fun a => bind (k a) h) c s.
Proof. unfold bind. by destruct (m c s) as [[]]. Qed.

Lemma bind_ext {A B} (m m' : M A) (k k' : A -> M B) c s :
  m c s = m' c s -> (forall a s', k a c s' = k' a c s') -> bind m k c s = bind m' k' c s.
Proof. intros Hm Hk. unfold bind. rewrite Hm. by destruct (m' c s) as [[]]. Qed.

Lemma bind_ret_l {A B} (a : A) (k : A -> M B) c s : bind (ret a) k c s = k a c s.
Proof. done. Qed.

Lemma bind_clock {B} (k : Clock -> M B) c s : bind get_clock k c s = k c c s.
Proof. done. Qed.

Lemma stmt_ext {A} (f f' : DB -> result StoreError (A * DB)) c s : (forall db, f db = f' db) -> stmt f c s = stmt f' c s.
Proof. intros Hf. unfold stmt. apply bind_ext; [done|]. intros flt s'. by rewrite Hf. Qed.

Lemma stmt_map {A B C} (g : A -> B) (f : DB -> result StoreError (A * DB)) (f' : DB -> result StoreError (B * DB)) (k : B -> M C) c s :
  (forall db, f' db = match f db with Ok (a, db') => Ok (g a, db') | Err e => Err e | Panic => Panic end) ->
  bind (stmt f') k c s = bind (stmt f) (fun a => k (g a)) c s.
Proof.
  intros Hf. unfold stmt, bind. destruct (next_fault c s) as [[flt|e|] s1]; [|done..].
  rewrite Hf. by destruct flt, (f (s_db s1)) as [[a db']| |].
Qed.

Lemma update_keys_where {R} (p : R -> bool) f (m : gmap string R) K :
  (forall k, k ∈ K <-> exists r, m !! k = Some r /\ p r = true) -> update_keys K f m = update_where p f m.
Proof.
  intros HK. apply map_eq. intros k. unfold update_keys. rewrite lookup_update_where, map_lookup_imap.
  destruct (m !! k) as [r|] eqn:E; [|done]. cbn. f_equal. destruct (p r) eqn:Ep.
  - rewrite bool_decide_true; [done|]. apply HK. eauto.
  - rewrite bool_decide_false; [done|]. rewrite HK. intros (r' & Hr & Hp). congruence.
Qed.

Lemma elem_of_leases_where p db k : lease_lock k ∈ leases_where p db <-> exists l, leases db !! k = Some l /\ p l = true.
Proof.
  unfold leases_where. rewrite elem_of_list_to_set, list_elem_of_fmap. split.
  - intros ([k' l] & [= ->] & Hin). apply elem_of_select_rows in Hin. eauto.
  - intros (l & Hl). exists (k, l). split; [done|]. by apply elem_of_select_rows.
Qed.

Lemma elem_of_still p found db k :
  k ∈ still p found db <-> lease_lock k ∈ found /\ exists l, leases db !! k = Some l /\ p l = true.
Proof.
  unfold still. rewrite elem_of_list_to_set, list_elem_of_fmap. split.
  - intros ([k' l] & -> & Hin). apply list_elem_of_In, filter_In in Hin as [Hin Hf]. cbn in *. to_prop.
    split; [done|]. apply list_elem_of_In, elem_of_select_rows in Hin. eauto.
  - intros (Hf & l & Hl). exists (k, l). split; [done|]. apply list_elem_of_In, filter_In. cbn. rewrite bool_decide_true by done.
    split; [|done]. by apply list_elem_of_In, elem_of_select_rows.
Qed.

Lemma copy_row_insert {R} (t : Table R) k r db :
  (forall m d, get t (put t m d) = m) -> copy_row t k (put t (<[k := r]> (get t db)) db) db = put t (<[k := r]> (get t db)) db.
Proof. intros Ht. unfold copy_row. rewrite Ht, lookup_insert_eq. done. Qed.

Lemma run_Select {A} (f : DB -> A) k (g : A -> M answer) (m : M answer) c s :
  m c s = bind (query (fun db => Ok (f db))) g c s ->
  (forall a s', run_prog (k a) c s' = g a c s') -> run_prog (Select f k) c s = m c s.
Proof. intros Hm Hk. cbn [run_prog]. rewrite Hm. by apply bind_ext. Qed.

(** The rows of a query, read through [h]. *)
Lemma run_Select_rows {A B} (f : DB -> A) (h : A -> B) k (g : A -> M answer) (m : M answer) c s :
  m c s = bind (query (fun db => Ok (f db))) g c s ->
  (forall a s', run_prog (k (h a)) c s' = g a c s') -> run_prog (Select (fun db => h (f db)) k) c s = m c s.
Proof.
  intros Hm Hk. cbn [run_prog]. rewrite Hm. unfold query.
  rewrite (stmt_map h (fun db => Ok (f db, db))) by done. by apply bind_ext.
Qed.

Lemma run_Draw k (g : string -> M answer) (m : M answer) c s :
  m c s = bind gen_random_uuid g c s ->
  (forall a s', run_prog (k a) c s' = g a c s') -> run_prog (Draw k) c s = m c s.
Proof. intros Hm Hk. cbn [run_prog]. rewrite Hm. by apply bind_ext. Qed.

Lemma run_Write_row {B R} st (t : Table R) rows (f f' : DB -> result StoreError (B * DB)) key lock_of k (g : B -> M answer) (m : M answer) c s :
  m c s = bind (stmt f') g c s ->
  (forall db, f db = f' db) ->
  (forall db b db', f db = Ok (b, db') -> copy_row t (key b) db' db = db') ->
  (forall b s', run_prog (k b) c s' = g b c s') -> round_trip st = true ->
  run_prog (Write_row st t rows f key lock_of k) c s = m c s.
Proof.
  intros Hm Hf Hcopy Hk Hst. unfold Write_row. cbn [run_prog]. rewrite Hst, Hm. apply bind_ext; [|done].
  apply stmt_ext. intros db. rewrite <- Hf. destruct (f db) as [[b db']| |] eqn:E; [|done..]. by rewrite (Hcopy db b db').
Qed.

Lemma run_Update_leases p f k (g : M answer) (m : M answer) c s :
  m c s = bind (update Leases (fun _ => p) f) (fun _ => g) c s ->
  (forall s', run_prog k c s' = g c s') -> run_prog (Update_leases p f k) c s = m c s.
Proof.
  intros Hm Hk. unfold Update_leases. cbn [run_prog]. rewrite Hm. unfold update.
  rewrite (stmt_map (fun _ => ()) (fun db => Ok (rows_affected p (get Leases db), put Leases (update_where p f (get Leases db)) db))).
  - by apply bind_ext.
  - intros db. do 3 f_equal. apply update_keys_where. intros k'. rewrite elem_of_still, elem_of_leases_where. split; [by intros [_ ?]|by intros ?].
Qed.

Section alone.
Context `{PostgresOrder}.

Lemma upsert_user_copy k email disp t db u db' :
  upsert_user k email disp t db = Ok (u, db') -> copy_row Users (usr_ID u) db' db = db'.
Proof. intros Hu. apply upsert_user_Ok in Hu as (row & -> & _). by apply copy_row_insert. Qed.

Lemma insert_device_copy k uid r t db x db' : insert_device k uid r t db = Ok (x, db') -> copy_row Devices k db' db = db'.
Proof. intros Hd. apply insert_device_Ok in Hd as (_ & _ & _ & _ & ->). by apply copy_row_insert. Qed.

Lemma insert_lease_copy u gid did pub v4 v6 expires db x db' :
  insert_lease u gid did pub v4 v6 expires db = Ok (x, db') -> copy_row Leases u db' db = db'.
Proof. intros Hi. apply insert_lease_Ok in Hi as (ip4 & ip6 & _ & _ & _ & _ & _ & _ & ->). by apply copy_row_insert. Qed.

Lemma bind_ok {A B} (a : A) (k : A -> M B) c s : bind (of_result (Ok a)) k c s = k a c s.
Proof. done. Qed.

Lemma run_connect a s :
  run_prog (CreateConnection_prog a) (ca_clock a) s = (alone (connecting a)).2 (ca_clock a) s.
Proof.
  cbn [alone snd]. unfold CreateConnection_tx, CreateConnection_prog. rewrite bind_bind, bind_clock. unfold uuid_param.
  rewrite bind_bind. destruct (pg_uuid (ca_device a)) as [did|]; [|done]. rewrite bind_ok, bind_bind.
  destruct (pg_uuid (ca_user a)) as [uid|]; [|done]. rewrite bind_ok.
  eapply run_Select; [by rewrite bind_bind|]. intros [pub|] s1; [|done]. cbv beta iota.
  eapply run_Update_leases; [by rewrite bind_bind|]. intros s2. cbv beta iota.
  eapply run_Select; [by rewrite bind_bind|]. intros cs s3. cbv beta iota. unfold connect_choose.
  destruct (Best _) as [best|]; [|done]. set (chosen := default zero_candidate _).
  unfold connect_lock, Lock_gateway. cbn [run_prog]. rewrite bind_bind. apply bind_ext; [by apply stmt_ext|]. intros _ s4.
  cbv beta iota. unfold usedHostAddrs.
  eapply (run_Select_rows (fun db => pg_rows (active_hosts (ID (cand_g chosen)) db)) (fun rows => list_to_set (omap host_addr rows)));
    [by rewrite !bind_bind|]. intros rows s5. cbv beta iota. rewrite bind_ret_l, bind_bind. unfold connect_allocate.
  destruct (allocateHost _ _ _) as [[v4 v6]| |]; [|done..]. rewrite bind_ok.
  eapply run_Draw; [by rewrite bind_bind|]. intros u s6. cbv beta iota zeta.
  eapply run_Write_row; [by rewrite bind_bind|done|intros db b db'; apply insert_lease_copy|done|done].
Qed.

Lemma run_Insert_device t userID uid r k (g : Device -> M answer) (m : M answer) c s :
  t = now c -> m c s = bind (insertDevice userID uid r) g c s ->
  (forall d s', run_prog (k d) c s' = g d c s') -> run_prog (Insert_device t userID uid r k) c s = m c s.
Proof.
  intros -> Hm Hk. rewrite Hm. unfold insertDevice, Insert_device. rewrite bind_bind, bind_clock.
  cbn [run_prog]. rewrite bind_bind. apply bind_ext; [done|]. intros u s1. rewrite bind_bind.
  eapply run_Write_row; [reflexivity|done|intros db b db'; apply insert_device_copy| |done]. intros [] s2. cbv beta iota zeta.
  rewrite bind_ret_l. apply Hk.
Qed.

Lemma run_Insert_token t ttl did k (g : string -> M answer) (m : M answer) c s :
  t = now c -> m c s = bind (newRefreshToken did ttl) g c s ->
  (forall plain s', run_prog (k plain) c s' = g plain c s') -> run_prog (Insert_token t ttl did k) c s = m c s.
Proof.
  intros -> Hm Hk. rewrite Hm. unfold newRefreshToken, GenerateToken, Insert_token. rewrite !bind_bind. cbn [run_prog].
  apply bind_ext; [done|]. intros b s1. cbv beta iota zeta. rewrite bind_ret_l, !bind_bind, bind_clock, bind_bind.
  apply bind_ext; [done|]. intros u s2. cbv beta iota. rewrite bind_bind.
  eapply run_Write_row; [reflexivity| | |intros [] s3; rewrite bind_ret_l; apply Hk|done].
  - intros db. cbn. destruct (refresh_tokens db !! u); [done|]. by destruct (token_ok _ _ _).
  - intros db x db'. destruct (refresh_tokens db !! u); [done|]. destruct (token_ok _ _ _); [|done].
    intros [= <- <-]. by apply (copy_row_insert RefreshTokens).
Qed.

Lemma run_enrol a s : run_prog (Enroll_prog a) (ea_clock a) s = (alone (enrolling a)).2 (ea_clock a) s.
Proof.
  cbn [alone snd]. unfold Enroll_tx, Enroll_prog, Lock_invite. rewrite bind_bind, bind_clock. cbn [run_prog].
  rewrite bind_bind. apply bind_ext.
  { apply stmt_ext. intros db. unfold find_invite. destruct (invite_codes db !! _) eqn:E.
    - by rewrite bool_decide_true by set_solver.
    - rewrite bool_decide_false by set_solver. by rewrite head_pg_rows_option. }
  intros [i|] s1; [|done]. unfold enrol_invite. destruct (invite_open _ _); [|done]. cbv beta iota.
  eapply run_Draw; [by rewrite bind_bind|]. intros k s2. cbv beta iota.
  eapply run_Write_row; [by rewrite bind_bind|done|intros db b db'; apply upsert_user_copy| |done]. intros u s3. cbv beta iota.
  eapply run_Insert_device; [done|by rewrite bind_bind|]. intros d s4. cbv beta iota. unfold enrol_use.
  eapply run_Write_row; [by rewrite bind_bind|by intros db; cbn; destruct (invite_codes db !! _)| | |done].
  { intros db b db'. destruct (invite_codes db !! _) eqn:E; intros [= <- <-]; [by apply (copy_row_insert Invites)|].
    unfold copy_row. cbn. by rewrite E. }
  intros n s6. cbv beta iota. by eapply run_Insert_token; [done|by rewrite bind_bind|].
Qed.

Lemma run_add a s : run_prog (CreateDevice_prog a) (da_clock a) s = (alone (adding a)).2 (da_clock a) s.
Proof.
  cbn [alone snd]. unfold CreateDevice_tx, CreateDevice_prog, uuid_param. rewrite bind_bind.
  destruct (pg_uuid (da_user a)) as [uid|]; [|done]. rewrite bind_ok.
  eapply run_Insert_device; [done|by rewrite bind_bind|]. intros d s1. cbv beta iota.
  by eapply run_Insert_token; [done|by rewrite bind_bind|].
Qed.

Lemma upsert_location_copy u code country db id db' :
  upsert_location u code country db = Ok (id, db') -> copy_row Locations id db' db = db'.
Proof.
  unfold upsert_location. destruct (find_row _ _) as [[k l]|]; [|destruct (locations db !! u); [done|]];
    intros [= <- <-]; by apply (copy_row_insert Locations).
Qed.

Lemma upsert_gateway_copy u lid r h db id db' :
  upsert_gateway u lid r h db = Ok (id, db') -> copy_row Gateways id db' db = db'.
Proof.
  unfold upsert_gateway. destruct (registration_values r) as [[n4 n6]|]; [|done]. destruct (locations db !! lid); [|done].
  destruct (find_row _ _) as [[k g]|]; [|destruct (gateways db !! u); [done|]];
    intros [= <- <-]; by apply (copy_row_insert Gateways).
Qed.

Lemma run_register a s : run_prog (RegisterGateway_prog a) (ra_clock a) s = (alone (registering a)).2 (ra_clock a) s.
Proof.
  cbn [alone snd]. unfold RegisterGateway_tx, RegisterGateway_prog.
  eapply run_Draw; [by rewrite bind_bind|]. intros u s1. cbv beta iota. unfold register_location.
  eapply run_Write_row; [by rewrite bind_bind|done|intros db b db'; apply upsert_location_copy| |done]. intros lid s2. cbv beta iota.
  eapply run_Draw; [by rewrite bind_bind|]. intros u' s3. cbv beta iota.
  unfold register_name, register_gateway. cbn [run_prog round_trip]. rewrite !bind_bind.
  unfold bind at 1, within. cbn [id]. replace (with_db (s_db s3) s3) with s3 by (by destruct s3).
  apply bind_ext; [|done]. apply stmt_ext. intros db.
  destruct (upsert_gateway _ _ _ _ _) as [[id db']| |] eqn:E; [|done..]. by rewrite (upsert_gateway_copy _ _ _ _ _ _ _ E).
Qed.

(** C12: the statements of [program] are those of the store: run with nobody in between, on any
    session, they return what the transaction's body returns and leave what it leaves. *)
Theorem program_alone j s : run_prog (program j) (alone j).1 s = (alone j).2 (alone j).1 s.
Proof. destruct j as [a|a|a|a]; [apply run_connect|apply run_enrol|apply run_add|apply run_register]. Qed.

End alone.
