(* ===== verification/Others.v ===== *)
(** What the other operations of the store do to the tables while transactions overlap: each
    is an [outside] step. *)
From S2P Require Import Prelude Model Selection GoStrings NetAddr Crypto Alloc Db Session StoreGateways StoreIdentity StoreConnections Schema Facts Steps System Interleave Overlap.

Section others.
Context `{PostgresOrder} (db0 : DB).
Abbreviation apart m := (preserves (outside db0) m).

Lemma apart_stmt {A} (f : DB -> result StoreError (A * DB)) :
  (forall db a db', f db = Ok (a, db') -> outside db db') -> apart (stmt f).
Proof. intros Hf. apply preserves_stmt. intros db a db' Ho Hdb. transitivity db; [done|by eapply Hf]. Qed.

Lemma outside_leases db m : narrows lease_rel (leases db) m -> outside db (put Leases m db).
Proof. intros Hm. destruct (reflexivity db : outside db db). by split. Qed.
Lemma outside_gateways db p f :
  (forall g, gateway_id_rel g (f g)) -> outside db (put Gateways (update_where p f (gateways db)) db).
Proof.
  intros Hf. destruct (reflexivity db : outside db db). split; [done| | |done]; cbn.
  - apply grows_update_where; [apply _|auto].
  - by apply narrows_update_where; [|auto].
Qed.
Lemma outside_invites db m : grows invite_rel (invite_codes db) m -> outside db (put Invites m db).
Proof. intros Hm. destruct (reflexivity db : outside db db). by split. Qed.
Lemma outside_users db m : outside db (put Users m db).
Proof. by destruct (reflexivity db : outside db db). Qed.
Lemma outside_devices db m : outside db (put Devices m db).
Proof. by destruct (reflexivity db : outside db db). Qed.
Lemma outside_locations db m : outside db (put Locations m db).
Proof. by destruct (reflexivity db : outside db db). Qed.
Lemma outside_tokens db m : outside db (put RefreshTokens m db).
Proof. by destruct (reflexivity db : outside db db). Qed.

Lemma apart_update {R} (t : Table R) p f :
  (forall db, outside db (put t (update_where (p db) f (get t db)) db)) -> apart (update t p f).
Proof. intros Hf. apply apart_stmt. intros db a db' [= <- <-]. auto. Qed.

Lemma apart_update_row {R} (t : Table R) k p f :
  (forall db r, get t db !! k = Some r -> outside db (put t (<[k := f r]> (get t db)) db)) -> apart (update_row t k p f).
Proof.
  intros Hf. apply apart_stmt. intros db a db'. destruct (get t db !! k) as [r|] eqn:E; [|by intros [= <- <-]].
  destruct (p db r); intros [= <- <-]; [auto|done].
Qed.

Lemma apart_insert_row {R} (t : Table R) k r ok :
  (forall db, get t db !! k = None -> outside db (put t (<[k := r]> (get t db)) db)) -> apart (insert_row t k r ok).
Proof.
  intros Hf. apply apart_stmt. intros db a db'. destruct (get t db !! k) eqn:Ek; [done|].
  destruct (ok db); [|done]. intros [= <- <-]. auto.
Qed.

Lemma apart_leases p f : (forall l, lease_rel l (f l)) -> apart (update Leases p f).
Proof. intros Hf. apply apart_update. intros db. apply outside_leases, narrows_update_where; auto using lease_rel_refl. Qed.

Lemma apart_lease_row k p f : (forall l, lease_rel l (f l)) -> apart (update_row Leases k p f).
Proof. intros Hf. apply apart_update_row. intros db l Hl. eapply outside_leases, narrows_insert; eauto using lease_rel_refl. Qed.

(** Statement by statement through an operation. *)
Ltac apart_steps :=
  repeat first
    [ progress (auto with aevora)
    | match goal with
      | |- preserves _ (update Leases _ _) => apply apart_leases; intros l; by repeat split
      | |- preserves _ (update_row Leases _ _ _) => apply apart_lease_row; intros l; by repeat split
      | |- preserves _ (update _ _ _) => apply apart_update; intros db
      | |- preserves _ (update_row _ _ _ _) => apply apart_update_row; intros db r Hr
      | |- preserves _ (insert_row _ _ _ _) => apply apart_insert_row; intros db Hr
      | |- preserves _ (transaction _) => apply preserves_transaction
      | |- preserves _ (try _) => apply preserves_try
      | |- preserves _ (bind _ _) => apply preserves_bind; [|intros ?]
      | |- preserves _ (match ?o with _ => _ end) => destruct o
      | |- outside _ (put Gateways (update_where _ _ _) _) => by apply outside_gateways
      end
    | apply outside_users | apply outside_devices | apply outside_locations | apply outside_tokens ].

Lemma apart_Heartbeat h m : apart (Heartbeat h m).
Proof.
  unfold Heartbeat. apart_steps. apply apart_stmt. intros db x db'. unfold heartbeat_update.
  destruct (int4 _); [|done]. intros [= <- <-]. by apply outside_gateways.
Qed.

Lemma apart_CreateInvite code note e : apart (CreateInvite code note e).
Proof.
  unfold CreateInvite. apply apart_insert_row. intros db Hr. apply outside_invites, grows_insert; [apply _|].
  intros r0 Hr0. cbn in *. congruence.
Qed.

(** The transactions; every other operation is statements on the pool. *)
Definition overlapping (q : request) : bool :=
  match q with
  | Enroll_ _ _ | CreateConnection_ _ _ _ _ _ | CreateDevice_ _ _ _ | RegisterGateway_ _ => true
  | _ => false
  end.

Lemma apart_serve q : overlapping q = false -> apart (serve q).
Proof.
  destruct q; try done; intros _; cbn [serve]; try apply preserves_discard;
    try first [ apply apart_Heartbeat | apply apart_CreateInvite ].
  - unfold DeregisterGateway. apart_steps.
  - unfold MarkStaleUnhealthy. apart_steps.
  - unfold RevokeDevice. apart_steps.
  - unfold RefreshAccess. apart_steps.
  - unfold SetPassword. apart_steps.
  - unfold ReleaseConnection. apart_steps.
  - unfold RenewConnection. apart_steps.
  - unfold ExpireStaleLeases. apart_steps.
  - unfold ExpireLeasesOnUnhealthyGateways. apart_steps.
  - unfold GatewayPeers. apart_steps.
  - unfold ListDevices. apart_steps.
  - unfold ListGateways. apart_steps.
  - unfold SelectableGateways. apart_steps.
  - unfold ListLocations. apart_steps.
  - unfold FleetSnapshot. apart_steps.
  - unfold GetCredentialsByEmail. apart_steps.
Qed.

End others.

(** Whatever its statements meet, it does to the tables what [outside] allows. *)
Lemma serve_outside `{PostgresOrder} q c s r s' :
  overlapping q = false -> serve q c s = (r, s') -> outside (s_db s) (s_db s').
Proof. intros Hq. exact (apart_serve (s_db s) q Hq c s r s' (reflexivity _)). Qed.
