(* ===== verification/Stages.v ===== *)
(** Where a transaction is between two of its statements, what it then
    holds and has written, and how one statement takes it from there to the next. *)
From S2P Require Import Prelude Model Selection GoStrings NetAddr Crypto Alloc Db Session StoreGateways StoreIdentity StoreConnections Schema Facts Steps System Connections Interleave Overlap Others.

(** ** Where a transaction is *)

Abbreviation tx := (@Interleave.tx job).
Abbreviation sys := (@Interleave.sys job).

(** The locks the invariant is about. *)
Definition guarded (x : lock) : bool :=
  match x with lease_lock _ | gateway_lock _ | invite_lock _ | name_lock _ => true | _ => false end.

(** What the tables of a transaction may go through while it runs: its rows stay, a new
    lease is on a gateway it has not locked, and no gateway gets a name it has entered. *)
Record foreign (mine : locks) (db db' : DB) : Prop := {
  fo_gateways : forall k, is_Some (gateways db !! k) -> is_Some (gateways db' !! k);
  fo_names : forall k g', gateways db' !! k = Some g' ->
    (exists g, gateways db !! k = Some g /\ gateway_id_rel g g') \/ name_lock (g_name g') ∉ mine;
  fo_invites : forall k, invite_lock k ∈ mine -> invite_codes db' !! k = invite_codes db !! k;
  fo_leases : forall k l', leases db' !! k = Some l' ->
    (exists l, leases db !! k = Some l /\ lease_rel l l') \/
    ((lease_lock k ∉ mine) /\ gateway_lock (le_gateway_id l') ∉ mine)
}.

Section stages.
Context `{PostgresOrder}.

(** The rows of [K] released, as step 1b does. *)
Definition releasing (K : gset string) (t : Time) (d : DB) : DB :=
  put Leases (update_keys K (set_lease_state Released (Some t)) (leases d)) d.

(** No active lease of the gateway has the address, but for rows of [K]. *)
Definition vacant (K : gset string) (gid ip : string) (db : DB) : Prop :=
  forall k l, leases db !! k = Some l -> taken gid ip l = true -> k ∈ K.

Definition address_free (K : gset string) (gid v4 : string) (db : DB) : Prop :=
  forall ip, pg_inet v4 = Some ip -> vacant K gid ip db.

Inductive connect_stage (a : connect_args) (db : DB) (t : tx) : Prop :=
| cs_failed r : tx_prog t = Stop r -> is_ok r = false -> connect_stage a db t
| cs_start : tx_prog t = CreateConnection_prog a -> (forall d, tx_effect t d = d) -> connect_stage a db t
| cs_release did pub :
    tx_prog t = connect_release a did pub -> (forall d, tx_effect t d = d) -> connect_stage a db t
| cs_select did pub K :
    tx_prog t = connect_select a did pub -> (forall d, tx_effect t d = releasing K (now (ca_clock a)) d) ->
    connect_stage a db t
| cs_lock did pub chosen K :
    tx_prog t = connect_lock a did pub chosen -> (forall d, tx_effect t d = releasing K (now (ca_clock a)) d) ->
    is_Some (gateways db !! ID (cand_g chosen)) ->
    (forall R, tx_waits t = Some R -> gateway_lock (ID (cand_g chosen)) ∈ R) -> connect_stage a db t
| cs_read did pub chosen K :
    tx_prog t = connect_read a did pub chosen -> (forall d, tx_effect t d = releasing K (now (ca_clock a)) d) ->
    gateway_lock (ID (cand_g chosen)) ∈ tx_locks t -> connect_stage a db t
| cs_draw did pub chosen v4 v6 K :
    tx_prog t = connect_draw a did pub chosen v4 v6 -> (forall d, tx_effect t d = releasing K (now (ca_clock a)) d) ->
    gateway_lock (ID (cand_g chosen)) ∈ tx_locks t -> address_free K (ID (cand_g chosen)) v4 db -> connect_stage a db t
| cs_insert did pub chosen v4 v6 u K :
    tx_prog t = connect_insert a did pub chosen v4 v6 u ->
    (forall d, tx_effect t d = releasing K (now (ca_clock a)) d) ->
    gateway_lock (ID (cand_g chosen)) ∈ tx_locks t -> address_free K (ID (cand_g chosen)) v4 db ->
    (forall R, tx_waits t = Some R -> R = new_entries u (ID (cand_g chosen)) v4) -> connect_stage a db t
| cs_done conn u l K :
    tx_prog t = Stop (Ok (granted conn)) ->
    (forall d, tx_effect t d = put Leases (<[u := l]> (leases (releasing K (now (ca_clock a)) d))) (releasing K (now (ca_clock a)) d)) ->
    gateway_lock (le_gateway_id l) ∈ tx_locks t -> lease_lock u ∈ tx_locks t -> leases db !! u = None ->
    is_active l = true -> vacant K (le_gateway_id l) (le_assigned_ip_v4 l) db -> connect_stage a db t.

(** An effect that leaves alone what the invariant is about. *)
Definition quiet (e : DB -> DB) : Prop :=
  forall d, leases (e d) = leases d /\ gateways (e d) = gateways d /\ invite_codes (e d) = invite_codes d.

(** An effect that marks the invite as used, and does nothing else to it. *)
Definition marks (code : string) (e : DB -> DB) : Prop :=
  exists i, i_used_at i <> None /\
    forall d, leases (e d) = leases d /\ gateways (e d) = gateways d /\ invite_codes (e d) = <[code := i]> (invite_codes d).

(** Nothing new is held but what was waited for, beyond [mine]. *)
Definition waited_for (mine found held : locks) : Prop := forall x, guarded x = true -> x ∈ held -> x ∈ found \/ x ∈ mine.

(** Statements that leave invites alone. *)
Inductive leaves : prog -> Prop :=
| lv_stop r : leaves (Stop r)
| lv_draw k : (forall u, leaves (k u)) -> leaves (Draw k)
| lv_rand k : (forall b, leaves (k b)) -> leaves (Rand k)
| lv_write {B} st rows act (k : B -> prog) :
    (forall found db b held e, act found db = Ok (b, held, e) -> waited_for ∅ found held /\ quiet e) ->
    (forall b, leaves (k b)) -> leaves (Write st rows act k).

(** Statements that, on an invite that is there, end in an error or mark it once. *)
Inductive redeems (code : string) : prog -> Prop :=
| rd_stop r : is_ok r = false -> redeems code (Stop r)
| rd_draw k : (forall u, redeems code (k u)) -> redeems code (Draw k)
| rd_rand k : (forall b, redeems code (k b)) -> redeems code (Rand k)
| rd_write {B} st rows act (k : B -> prog) :
    (forall found db b held e, act found db = Ok (b, held, e) -> waited_for {[invite_lock code]} found held /\ quiet e) ->
    (forall b, redeems code (k b)) -> redeems code (Write st rows act k)
| rd_mark {B} st rows act (k : B -> prog) :
    (forall found db b held e, is_Some (invite_codes db !! code) -> act found db = Ok (b, held, e) ->
       waited_for {[invite_lock code]} found held /\ marks code e) ->
    (forall b, leaves (k b)) -> redeems code (Write st rows act k).

Definition unused (code : string) (db : DB) : Prop := exists i, invite_codes db !! code = Some i /\ i_used_at i = None.

Inductive enrol_stage (code : string) (db : DB) (t : tx) : Prop :=
| es_failed r : tx_prog t = Stop r -> is_ok r = false -> enrol_stage code db t
| es_start a : tx_prog t = Enroll_prog a -> er_InviteCode (ea_req a) = code -> quiet (tx_effect t) -> enrol_stage code db t
| es_unused :
    redeems code (tx_prog t) -> invite_lock code ∈ tx_locks t -> unused code db -> quiet (tx_effect t) -> enrol_stage code db t
| es_used :
    leaves (tx_prog t) -> invite_lock code ∈ tx_locks t -> unused code db -> marks code (tx_effect t) -> enrol_stage code db t.

(** An effect that makes [g] the row of a gateway. *)
Definition puts_gateway (gid : string) (g : gateway_row) (e : DB -> DB) : Prop :=
  forall d, leases (e d) = leases d /\ gateways (e d) = <[gid := g]> (gateways d) /\ invite_codes (e d) = invite_codes d.

(** Nobody but [gid] has the name. *)
Definition only_named (name gid : string) (db : DB) : Prop :=
  forall k g, gateways db !! k = Some g -> g_name g = name -> k = gid.

Inductive register_stage (a : register_args) (db : DB) (t : tx) : Prop :=
| gs_failed r : tx_prog t = Stop r -> is_ok r = false -> register_stage a db t
| gs_start : tx_prog t = RegisterGateway_prog a -> quiet (tx_effect t) -> register_stage a db t
| gs_location u : tx_prog t = register_location a u -> quiet (tx_effect t) -> register_stage a db t
| gs_draw lid : tx_prog t = register_draw a lid -> quiet (tx_effect t) -> register_stage a db t
| gs_name lid u :
    tx_prog t = register_name a lid u -> quiet (tx_effect t) ->
    (forall R, tx_waits t = Some R -> name_lock (reg_Name (ra_reg a)) ∈ R) -> register_stage a db t
| gs_gateway lid u :
    tx_prog t = register_gateway a lid u -> quiet (tx_effect t) -> name_lock (reg_Name (ra_reg a)) ∈ tx_locks t ->
    (forall R, tx_waits t = Some R -> gateway_lock u ∈ R /\
       forall k g, gateways db !! k = Some g -> g_name g = reg_Name (ra_reg a) -> gateway_lock k ∈ R) ->
    register_stage a db t
| gs_done x gid g :
    tx_prog t = Stop (Ok (registered x)) -> puts_gateway gid g (tx_effect t) -> name_lock (g_name g) ∈ tx_locks t ->
    gateway_lock gid ∈ tx_locks t -> only_named (g_name g) gid db -> register_stage a db t.

Definition stage (db : DB) (t : tx) : Prop :=
  match tx_job t with
  | connecting a => connect_stage a db t
  | enrolling a => enrol_stage (er_InviteCode (ea_req a)) db t
  | adding a => leaves (tx_prog t) /\ quiet (tx_effect t)
  | registering a => register_stage a db t
  end.

(** ** Steps of other sessions *)

Lemma lease_rel_active_ip l l' x : lease_rel l l' -> active_ip l' = Some x -> active_ip l = Some x.
Proof.
  intros Hr. unfold active_ip. pose proof (lease_rel_active _ _ Hr) as Ha. destruct Hr as (-> & _ & _ & -> & _).
  destruct (is_active l'); [|done]. by rewrite Ha.
Qed.

Lemma vacant_foreign K gid ip mine db db' :
  foreign mine db db' -> gateway_lock gid ∈ mine -> vacant K gid ip db -> vacant K gid ip db'.
Proof.
  intros Hf Hm Hv k l' Hk Ht. destruct (fo_leases _ _ _ Hf k l' Hk) as [(l & Hl & Hr)|[_ Hg]].
  - apply (Hv k l Hl). unfold taken, on_gateway in *. to_prop. pose proof (lease_rel_active _ _ Hr) as Ha.
    destruct Hr as (Eg & _ & _ & Ei & _). rewrite Ha, <- Eg, <- Ei by done. rewrite !bool_decide_true by done. done.
  - unfold taken, on_gateway in Ht. to_prop. by subst.
Qed.

Lemma connect_foreign a db db' t :
  foreign (tx_locks t) db db' -> connect_stage a db t -> connect_stage a db' t.
Proof.
  intros Hf []; [by eapply cs_failed|by eapply cs_start|by eapply cs_release|by eapply cs_select| | | | |].
  - eapply cs_lock; [done..| |done]. by apply (fo_gateways _ _ _ Hf).
  - by eapply cs_read.
  - eapply cs_draw; [done..|]. intros ip Hip. eapply vacant_foreign; eauto.
  - eapply cs_insert; [done..| |done]. intros ip Hip. eapply vacant_foreign; eauto.
  - eapply cs_done; [done..| |done|by eapply vacant_foreign].
    destruct (leases db' !! u) as [l'|] eqn:E; [|done].
    destruct (fo_leases _ _ _ Hf u l' E) as [(l0 & Hl0 & _)|[Hu _]]; [congruence|done].
Qed.

Lemma enrol_foreign code db db' t :
  foreign (tx_locks t) db db' -> enrol_stage code db t -> enrol_stage code db' t.
Proof.
  intros Hf Hs. assert (Hu : invite_lock code ∈ tx_locks t -> unused code db -> unused code db').
  { intros Hl (i & Hi & Hn). exists i. by rewrite (fo_invites _ _ _ Hf). }
  destruct Hs; [by eapply es_failed|by eapply es_start|apply es_unused; auto|apply es_used; auto].
Qed.

Lemma register_foreign a db db' t :
  foreign (tx_locks t) db db' -> register_stage a db t -> register_stage a db' t.
Proof.
  intros Hf Hst. assert (Hnames : forall name (Q : string -> Prop), name_lock name ∈ tx_locks t ->
    (forall k g, gateways db !! k = Some g -> g_name g = name -> Q k) -> forall k g, gateways db' !! k = Some g -> g_name g = name -> Q k).
  { intros name Q Hn HQ k g' Hk Hg. destruct (fo_names _ _ _ Hf k g' Hk) as [(g & Hg0 & Hrel)|Hno].
    - apply (HQ k g Hg0). by rewrite <- Hrel.
    - by rewrite Hg in Hno. }
  destruct Hst as [r Hp Hr|Hp He|u Hp He|lid Hp He|lid u Hp He Hw|lid u Hp He Hn Hw|x gid g Hp He Hn Hg Ho];
    [by eapply gs_failed|by eapply gs_start|by eapply gs_location|by eapply gs_draw|by eapply gs_name| |].
  - eapply gs_gateway; [done..|]. intros R HR. destruct (Hw R HR) as [Hu HwR]. split; [done|].
    exact (Hnames _ (fun k => gateway_lock k ∈ R) Hn HwR).
  - eapply gs_done; [done..|]. exact (Hnames _ (fun k => k = gid) Hn Ho).
Qed.

Lemma stage_foreign db db' t : foreign (tx_locks t) db db' -> stage db t -> stage db' t.
Proof. intros Hf. unfold stage. destruct (tx_job t); eauto using connect_foreign, enrol_foreign, register_foreign. Qed.

(** ** [Enroll] redeems its invite *)

Lemma quiet_id : quiet id.
Proof. done. Qed.

Lemma quiet_comp e e' : quiet e -> quiet e' -> quiet (fun d => e (e' d)).
Proof. intros He He' d. destruct (He (e' d)) as (-> & -> & ->). apply He'. Qed.

Lemma marks_comp code e e' : marks code e -> quiet e' -> marks code (fun d => e (e' d)).
Proof.
  intros (i & Hi & He) He'. exists i. split; [done|]. intros d. destruct (He (e' d)) as (-> & -> & ->).
  by destruct (He' d) as (-> & -> & ->).
Qed.

Lemma quiet_after_marks code e e' : quiet e -> marks code e' -> marks code (fun d => e (e' d)).
Proof.
  intros He (i & Hi & He'). exists i. split; [done|]. intros d. destruct (He (e' d)) as (-> & -> & ->). apply He'.
Qed.

Lemma quiet_users k db : quiet (copy_row Users k db).
Proof. unfold copy_row. by destruct (get Users db !! k). Qed.
Lemma quiet_devices k db : quiet (copy_row Devices k db).
Proof. unfold copy_row. by destruct (get Devices db !! k). Qed.
Lemma quiet_locations k db : quiet (copy_row Locations k db).
Proof. unfold copy_row. by destruct (get Locations db !! k). Qed.
Lemma quiet_tokens k db : quiet (copy_row RefreshTokens k db).
Proof. unfold copy_row. by destruct (get RefreshTokens db !! k). Qed.

Lemma waited_row mine x (found : locks) : guarded x = false \/ x ∈ mine -> waited_for mine found ({[x]} ∪ found).
Proof. intros Hx y Hy [->%elem_of_singleton|]%elem_of_union; [|by left]. right. destruct Hx; [congruence|done]. Qed.

Lemma leaves_token t ttl did k : (forall plain, leaves (k plain)) -> leaves (Insert_token t ttl did k).
Proof.
  intros Hk. apply lv_rand. intros b. apply lv_draw. intros u. apply lv_write; [|intros _; apply Hk].
  intros found db x held e. destruct (refresh_tokens db !! u); [done|]. destruct (token_ok _ _ _); [|done]. intros [= <- <- <-].
  split; [apply waited_row; by left|apply quiet_tokens].
Qed.

Lemma leaves_add a : leaves (CreateDevice_prog a).
Proof.
  unfold CreateDevice_prog. destruct (pg_uuid (da_user a)) as [uid|]; [|apply lv_stop]. apply lv_draw. intros u. apply lv_write.
  - intros found db x held e. destruct (insert_device _ _ _ _ _) as [[x' db']| |]; [|done..]. intros [= <- <- <-].
    split; [apply waited_row; by left|apply quiet_devices].
  - intros _. apply leaves_token. intros plain. apply lv_stop.
Qed.

Lemma redeems_use a u d : redeems (er_InviteCode (ea_req a)) (enrol_use a u d).
Proof.
  apply rd_mark; [|intros _; apply leaves_token; intros plain; apply lv_stop]. intros found db x held e [i Hi]. rewrite Hi. intros [= <- <- <-].
  split; [apply waited_row; right; set_solver|]. unfold copy_row. cbn. rewrite lookup_insert_eq.
  by exists (use_invite (usr_ID u) (now (ea_clock a)) i).
Qed.

Lemma redeems_user a : redeems (er_InviteCode (ea_req a)) (enrol_user a).
Proof.
  apply rd_draw. intros k. apply rd_write.
  { intros found db u held e. destruct (upsert_user _ _ _ _ _) as [[u' db']| |]; [|done..]. intros [= <- <- <-].
    split; [apply waited_row; by left|apply quiet_users]. }
  intros u. apply rd_draw. intros k'. apply rd_write; [|intros _; apply redeems_use].
  intros found db x held e. destruct (insert_device _ _ _ _ _) as [[x' db']| |]; [|done..]. intros [= <- <- <-].
  split; [apply waited_row; by left|apply quiet_devices].
Qed.

(** ** One step of one transaction *)

Implicit Types (t : tx) (s : sys).

(** Nobody but [i] holds [x]. *)
Definition nobody (x : lock) (i : nat) (s : sys) : Prop :=
  forall j u, j <> i -> running s !! j = Some u -> x ∉ tx_locks u.

Lemma available_nobody i R s x : available i R s = true -> x ∈ R -> nobody x i s.
Proof.
  unfold available. intros Ha Hx j u Hj Hu. to_prop. destruct (Ha j u Hu) as [->|Hd]; [done|].
  intros Hin. by apply (Hd x).
Qed.

(** The transaction goes on, or is rolled back. *)
Definition settles (i : nat) (t : tx) (s s' : sys) : Prop :=
  s' = rolled_back i s \/
  exists t', s' = with_tx i t' s /\ tx_job t' = tx_job t /\ stage (committed s) t' /\
    forall x, guarded x = true -> x ∈ tx_locks t' -> x ∈ tx_locks t \/ nobody x i s.

Definition waiting (t : tx) (R : locks) : tx := mkTx (tx_job t) (tx_prog t) (Some R) (tx_locks t) (tx_effect t).

Lemma settles_waiting i t s R : stage (committed s) (waiting t R) -> settles i t s (with_tx i (waiting t R) s).
Proof. intros Hs. right. exists (waiting t R). splits; try done. intros x _ Hx. by left. Qed.

Lemma settles_next i t s p L e :
  stage (committed s) (next t p L e) -> (forall x, guarded x = true -> x ∈ L -> x ∈ tx_locks t \/ nobody x i s) ->
  settles i t s (with_tx i (next t p L e) s).
Proof.
  intros Hs HL. right. exists (next t p L e). splits; try done.
  cbn. intros x Hg [Hx|Hx]%elem_of_union; [by apply HL|by left].
Qed.

Lemma settles_silent i t s p e : stage (committed s) (next t p ∅ e) -> settles i t s (with_tx i (next t p ∅ e) s).
Proof. intros Hs. apply settles_next; [done|]. intros x _ Hx. set_solver. Qed.

Lemma proceed_failed i t s s' r :
  tx_prog t = Stop r -> is_ok r = false -> proceed i t s = Some s' -> settles i t s s'.
Proof. unfold proceed. intros -> Hr E. left. by destruct r; injection E as <-. Qed.

Lemma proceed_select {B} i t s s' (f : DB -> B) k :
  tx_prog t = Select f k -> proceed i t s = Some s' -> s' = with_tx i (next t (k (f (view s t))) ∅ id) s.
Proof. unfold proceed. intros -> E. by injection E as <-. Qed.

Lemma proceed_write {B} i t s s' st rows act (k : B -> prog) :
  tx_prog t = Write st rows act k -> proceed i t s = Some s' ->
  (tx_waits t = None /\ s' = with_tx i (waiting t (rows (view s t))) s) \/
  exists R, tx_waits t = Some R /\ (forall x, x ∈ R -> nobody x i s) /\
    (s' = rolled_back i s \/
     exists b L e, act R (view s t) = Ok (b, L, e) /\ s' = with_tx i (next t (k b) L e) s).
Proof.
  unfold proceed, waiting. intros Hp. rewrite Hp. destruct (tx_waits t) as [R|].
  - destruct (available i R s) eqn:Ha; [|done]. intros E. injection E as <-. right. exists R.
    splits; [done|intros x Hx; by eapply available_nobody|]. destruct (act R (view s t)) as [[[b L] e]| |]; eauto 10.
  - intros E. injection E as <-. by left.
Qed.

Lemma lookup_releasing K tm d k :
  leases (releasing K tm d) !! k =
  (fun l => if bool_decide (k ∈ K) then set_lease_state Released (Some tm) l else l) <$> leases d !! k.
Proof. unfold releasing. cbn. unfold update_keys. rewrite map_lookup_imap. by destruct (leases d !! k). Qed.

Lemma releasing_narrows K tm d : narrows lease_rel (leases d) (leases (releasing K tm d)).
Proof.
  intros k l'. rewrite lookup_releasing. destruct (leases d !! k) as [l|]; [|done]. intros [= <-]. exists l. split; [done|].
  destruct (bool_decide _); by repeat split.
Qed.

(** Vacant in the transaction's own tables is vacant but for the rows it has released. *)
Lemma vacant_view K tm d gid ip : find_row (taken gid ip) (leases (releasing K tm d)) = None <-> vacant K gid ip d.
Proof.
  rewrite find_row_None. split.
  - intros Hf k l Hl Ht. destruct (decide (k ∈ K)) as [|Hk]; [done|]. exfalso.
    specialize (Hf k l). rewrite lookup_releasing, Hl, bool_decide_false in Hf by done. by rewrite Hf in Ht.
  - intros Hv k l'. rewrite lookup_releasing. destruct (leases d !! k) as [l|] eqn:El; [|done]. intros [= <-].
    destruct (bool_decide (k ∈ K)) eqn:Ek; to_prop; [unfold taken, on_gateway; by destruct (bool_decide (le_gateway_id _ = gid))|].
    apply not_true_is_false. intros Ht. apply Ek. by apply (Hv k l).
Qed.

Lemma allocated_free `{!PostgresInet} K tm d gid c4 c6 v4 v6 :
  allocateHost c4 c6 (list_to_set (omap host_addr (pg_rows (active_hosts gid (releasing K tm d))))) = Ok (v4, v6) ->
  address_free K gid v4 d.
Proof.
  intros Ha ip Hip. apply allocateHost_unused in Ha as (v & Hv & Hfree & ->).
  apply (vacant_view K tm). apply (free_not_taken _ _ v); [done| |].
  - unfold used_addrs. intros Hin. apply Hfree. rewrite elem_of_list_to_set in *.
    by rewrite (pg_rows_Permutation _ (active_hosts gid (releasing K tm d))).
  - by apply pg_host_of_inet.
Qed.

Lemma view_eq t s e : (forall d, tx_effect t d = e d) -> view s t = e (committed s).
Proof. intros He. apply He. Qed.

Lemma insert_proceed a did pub chosen v4 v6 u K i t s s' :
  (forall t', tx_job t' = tx_job t -> connect_stage a (committed s) t' -> stage (committed s) t') ->
  tx_prog t = connect_insert a did pub chosen v4 v6 u ->
  (forall d, tx_effect t d = releasing K (now (ca_clock a)) d) ->
  gateway_lock (ID (cand_g chosen)) ∈ tx_locks t -> address_free K (ID (cand_g chosen)) v4 (committed s) ->
  (forall R, tx_waits t = Some R -> R = new_entries u (ID (cand_g chosen)) v4) ->
  proceed i t s = Some s' -> settles i t s s'.
Proof.
  intros Hstage Hp He Hl Hf Hw E.
  unfold connect_insert, Write_row in Hp.
  apply (proceed_write _ _ _ _ _ _ _ _ Hp) in E as [[_ ->]|(R & HwR & HR & [->|(b & L & e & Eact & ->)])]; [| by left|].
  - apply settles_waiting, Hstage; [done|]. apply (cs_insert _ _ _ did pub chosen v4 v6 u K); [done..|]. by intros R [= <-].
  - rewrite (view_eq _ _ _ He) in Eact. destruct (insert_lease _ _ _ _ _ _ _ _) as [[x db']| |] eqn:Ei; [|done..].
    injection Eact as _ <- <-. apply insert_lease_Ok in Ei as (ip4 & ip6 & E4 & E6 & _ & _ & Hu & Hip & ->).
    assert (HuR : lease_lock u ∈ R).
    { rewrite (Hw _ HwR). unfold new_entries. clear. set_solver. }
    apply settles_next.
    + apply Hstage; [done|]. eapply cs_done; [done| | | | | |].
      * intros d. cbn. unfold copy_row. cbn. rewrite lookup_insert_eq, He. done.
      * cbn. by apply elem_of_union_r.
      * cbn. clear. set_solver.
      * rewrite lookup_releasing in Hu. by destruct (leases (committed s) !! u).
      * done.
      * by apply (vacant_view _ (now (ca_clock a))).
    + intros y _ [->%elem_of_singleton|Hy]%elem_of_union; right; by apply HR.
Qed.

(** What a connecting transaction leaves when it commits. *)
Definition connects (a : connect_args) (t : tx) (s s' : sys) : Prop :=
  exists conn u l K,
    s' = mkSys (put Leases (<[u := l]> (leases (releasing K (now (ca_clock a)) (committed s)))) (releasing K (now (ca_clock a)) (committed s)))
           (running s') ((connecting a, granted conn) :: ended s) /\
    gateway_lock (le_gateway_id l) ∈ tx_locks t /\ lease_lock u ∈ tx_locks t /\ leases (committed s) !! u = None /\
    is_active l = true /\ vacant K (le_gateway_id l) (le_assigned_ip_v4 l) (committed s).

Lemma connect_proceed `{!PostgresInet} a i t s s' :
  connect_stage a (committed s) t -> tx_job t = connecting a -> proceed i t s = Some s' ->
  settles i t s s' \/ running s' = delete i (running s) /\ connects a t s s'.
Proof.
  intros Hst Hj E.
  assert (Hstage : forall t', tx_job t' = tx_job t -> connect_stage a (committed s) t' -> stage (committed s) t').
  { intros t' Ht'. unfold stage. by rewrite Ht', Hj. }
  destruct Hst as [r Hp Hr|Hp He|did pub Hp He|did pub K Hp He|did pub chosen K Hp He Hg Hw|did pub chosen K Hp He Hl
    |did pub chosen v4 v6 K Hp He Hl Hf|did pub chosen v4 v6 u K Hp He Hl Hf Hw|conn u l K Hp He Hl Hu Hn Ha Hv].
  - left. by eapply proceed_failed.
  - left. unfold CreateConnection_prog in Hp. destruct (pg_uuid (ca_device a)) as [did|]; [|by eapply proceed_failed].
    destruct (pg_uuid (ca_user a)) as [uid|]; [|by eapply proceed_failed].
    apply (proceed_select _ _ _ _ _ _ Hp) in E as ->. apply settles_silent, Hstage; [done|].
    destruct (head _) as [pub|]; [by eapply cs_release|by eapply cs_failed].
  - left. unfold connect_release, Update_leases in Hp.
    apply (proceed_write _ _ _ _ _ _ _ _ Hp) in E as [[_ ->]|(R & _ & HR & [->|(b & L & e & Eact & ->)])]; [| by left|].
    + apply settles_waiting, Hstage; [done|]. by eapply cs_release.
    + injection Eact as _ <- <-. apply settles_next.
      * apply Hstage; [done|]. eapply cs_select; [done|]. intros d. cbn. by rewrite He.
      * intros x _ (k & -> & Hk)%elem_of_map. right. apply HR. by apply elem_of_still in Hk as [? _].
  - left. apply (proceed_select _ _ _ _ _ _ Hp) in E as ->. apply settles_silent, Hstage; [done|].
    unfold connect_choose. destruct (Best _) as [best|] eqn:Eb; [|by eapply cs_failed].
    rewrite (view_eq _ _ _ He) in *.
    destruct (chosen_candidate _ _ _ _ _ _ (pg_rows_Permutation _ _) Eb) as (gid & g & l & -> & _ & Hg & _).
    eapply cs_lock; [done|done| |done]. cbn in *. eauto.
  - left. unfold connect_lock, Lock_gateway in Hp.
    apply (proceed_write _ _ _ _ _ _ _ _ Hp) in E as [[_ ->]|(R & HwR & HR & [->|(b & L & e & Eact & ->)])]; [| by left|].
    + apply settles_waiting, Hstage; [done|]. eapply cs_lock; [done..|]. cbn. intros R [= <-].
      rewrite (view_eq _ _ _ He). cbn. destruct Hg as [g ->]. set_solver.
    + injection Eact as _ <- <-. apply settles_next.
      * apply Hstage; [done|]. eapply cs_read; [done..|]. cbn. apply elem_of_union_l. by apply Hw.
      * intros x _ Hx. right. by apply HR.
  - left. apply (proceed_select _ _ _ _ _ _ Hp) in E as ->. apply settles_silent, Hstage; [done|].
    unfold connect_allocate. rewrite (view_eq _ _ _ He).
    destruct (allocateHost _ _ _) as [[v4 v6]| |] eqn:Ea; [|by eapply cs_failed..].
    eapply cs_draw; [done|done|cbn; set_solver|]. by eapply allocated_free.
  - unfold proceed in E. by rewrite Hp in E.
  - left. by eapply insert_proceed.
  - right. unfold proceed in E. rewrite Hp in E. injection E as <-. split; [done|].
    exists conn, u, l, K. rewrite Hj, He. by splits.
Qed.

Lemma quiet_view t s : quiet (tx_effect t) -> invite_codes (view s t) = invite_codes (committed s).
Proof. intros He. apply (He (committed s)). Qed.

Lemma enrol_next_unused code t s p L e :
  redeems code p -> invite_lock code ∈ tx_locks t -> unused code (committed s) -> quiet (tx_effect t) -> quiet e ->
  enrol_stage code (committed s) (next t p L e).
Proof. intros Hp Hl Hu Ht He. apply es_unused; cbn; [done|set_solver|done|by apply quiet_comp]. Qed.

Lemma enrol_next_used code t s p L e :
  leaves p -> invite_lock code ∈ tx_locks t -> unused code (committed s) -> marks code (fun d => e (tx_effect t d)) ->
  enrol_stage code (committed s) (next t p L e).
Proof. intros Hp Hl Hu He. apply es_used; cbn; [done|set_solver|done|done]. Qed.

(** What an enrolling transaction leaves when it commits. *)
Definition enrols (code : string) (t : tx) (s s' : sys) : Prop :=
  exists x, s' = mkSys (tx_effect t (committed s)) (running s') ((tx_job t, x) :: ended s) /\
    invite_lock code ∈ tx_locks t /\ unused code (committed s) /\ marks code (tx_effect t).

Lemma waited_settles mine i t s R L x :
  waited_for mine R L -> (forall y, y ∈ R -> nobody y i s) -> mine ⊆ tx_locks t -> guarded x = true -> x ∈ L ->
  x ∈ tx_locks t \/ nobody x i s.
Proof. intros Hw HR Hm Hg Hx. destruct (Hw x Hg Hx); [right; by apply HR|left; by apply Hm]. Qed.

Lemma enrol_start_proceed code i t s s' a :
  (forall t', tx_job t' = tx_job t -> enrol_stage code (committed s) t' -> stage (committed s) t') ->
  tx_prog t = Enroll_prog a -> er_InviteCode (ea_req a) = code -> quiet (tx_effect t) ->
  proceed i t s = Some s' -> settles i t s s'.
Proof.
  intros Hstage Hp Hc He E.
  unfold Enroll_prog, Lock_invite in Hp.
  apply (proceed_write _ _ _ _ _ _ _ _ Hp) in E as [[_ ->]|(R & HwR & HR & [->|(b & L & e & Eact & ->)])]; [| by left|].
  - apply settles_waiting, Hstage; [done|]. by eapply es_start.
  - injection Eact as <- <- <-. apply settles_next; [|intros x _ Hx; right; by apply HR].
    apply Hstage; [done|]. rewrite Hc. destruct (bool_decide _) eqn:Ef; to_prop; [|by eapply es_failed].
    unfold find_invite. rewrite head_pg_rows_option, quiet_view by done.
    destruct (invite_codes (committed s) !! code) as [v|] eqn:Ei; [|by eapply es_failed].
    cbn [enrol_invite]. destruct (invite_open _ v) eqn:Eo; [|by eapply es_failed].
    apply es_unused; [cbn; rewrite <- Hc; apply redeems_user|cbn; set_solver| |by apply quiet_comp].
    exists v. split; [done|]. unfold invite_open in Eo. by destruct (i_used_at v).
Qed.

Lemma enrol_proceed i t s s' a :
  tx_job t = enrolling a -> enrol_stage (er_InviteCode (ea_req a)) (committed s) t -> proceed i t s = Some s' ->
  settles i t s s' \/ running s' = delete i (running s) /\ enrols (er_InviteCode (ea_req a)) t s s'.
Proof.
  intros Hj Hst E. set (code := er_InviteCode (ea_req a)) in *.
  assert (Hstage : forall t', tx_job t' = tx_job t -> enrol_stage code (committed s) t' -> stage (committed s) t').
  { intros t' Ht'. unfold stage. by rewrite Ht', Hj. }
  destruct Hst as [r Hp Hr|a' Hp Hc He|Hp Hl Hu He|Hp Hl Hu He].
  - left. by eapply proceed_failed.
  - left. by eapply enrol_start_proceed.
  - left. remember (tx_prog t) as p eqn:Ep. symmetry in Ep. destruct Hp as [r Hr|k Hk|k Hk|B st rows act k Hact Hk|B st rows act k Hact Hk].
    + by eapply proceed_failed.
    + unfold proceed in E. by rewrite Ep in E.
    + unfold proceed in E. by rewrite Ep in E.
    + apply (proceed_write _ _ _ _ _ _ _ _ Ep) in E as [[_ ->]|(R & HwR & HR & [->|(b & L & e & Eact & ->)])]; [| by left|].
      * apply settles_waiting, Hstage; [done|]. apply es_unused; cbn; try done. rewrite Ep. by apply rd_write.
      * apply Hact in Eact as [HL Hq]. apply settles_next.
        -- by apply Hstage, enrol_next_unused.
        -- intros x Hg Hx. eapply waited_settles; [done..| |done|done]. by apply singleton_subseteq_l.
    + apply (proceed_write _ _ _ _ _ _ _ _ Ep) in E as [[_ ->]|(R & HwR & HR & [->|(b & L & e & Eact & ->)])]; [| by left|].
      * apply settles_waiting, Hstage; [done|]. apply es_unused; cbn; try done. rewrite Ep. by apply rd_mark.
      * apply Hact in Eact as [HL Hq].
        2: { rewrite quiet_view by done. destruct Hu as (v & -> & _). by eexists. }
        apply settles_next.
        -- apply Hstage; [done|]. apply enrol_next_used; try done. by apply marks_comp.
        -- intros x Hg Hx. eapply waited_settles; [done..| |done|done]. by apply singleton_subseteq_l.
  - remember (tx_prog t) as p eqn:Ep. symmetry in Ep. destruct Hp as [r|k Hk|k Hk|B st rows act k Hact Hk].
    + destruct r as [x|e|]; [|left; by eapply proceed_failed..].
      right. unfold proceed in E. rewrite Ep in E. injection E as <-. split; [done|]. by exists x.
    + unfold proceed in E. by rewrite Ep in E.
    + unfold proceed in E. by rewrite Ep in E.
    + left. apply (proceed_write _ _ _ _ _ _ _ _ Ep) in E as [[_ ->]|(R & HwR & HR & [->|(b & L & e & Eact & ->)])]; [| by left|].
      * apply settles_waiting, Hstage; [done|]. apply es_used; cbn; try done. rewrite Ep. by apply lv_write.
      * apply Hact in Eact as [HL Hq]. apply settles_next.
        -- apply Hstage; [done|]. apply enrol_next_used; try done. by apply quiet_after_marks.
        -- intros x Hg Hx. eapply waited_settles; [done..| |done|done]. apply empty_subseteq.
Qed.

(** What an adding transaction leaves when it commits. *)
Definition adds_device (t : tx) (s s' : sys) : Prop :=
  exists x, s' = mkSys (tx_effect t (committed s)) (running s') ((tx_job t, x) :: ended s) /\ quiet (tx_effect t).

Lemma add_proceed i t s s' a :
  tx_job t = adding a -> leaves (tx_prog t) -> quiet (tx_effect t) -> proceed i t s = Some s' ->
  settles i t s s' \/ running s' = delete i (running s) /\ adds_device t s s'.
Proof.
  intros Hj Hp He E.
  assert (Hstage : forall t', tx_job t' = tx_job t -> leaves (tx_prog t') -> quiet (tx_effect t') -> stage (committed s) t').
  { intros t' Ht'. unfold stage. by rewrite Ht', Hj. }
  remember (tx_prog t) as p eqn:Ep. symmetry in Ep. destruct Hp as [r|k Hk|k Hk|B st rows act k Hact Hk].
  - destruct r as [x|e|]; [|left; by eapply proceed_failed..].
    right. unfold proceed in E. rewrite Ep in E. injection E as <-. split; [done|]. by exists x.
  - unfold proceed in E. by rewrite Ep in E.
  - unfold proceed in E. by rewrite Ep in E.
  - left. apply (proceed_write _ _ _ _ _ _ _ _ Ep) in E as [[_ ->]|(R & HwR & HR & [->|(b & L & e & Eact & ->)])]; [| by left|].
    + apply settles_waiting, Hstage; [done| |done]. cbn. rewrite Ep. by apply lv_write.
    + apply Hact in Eact as [HL Hq]. apply settles_next.
      * apply Hstage; [done|apply Hk|]. cbn. by apply quiet_comp.
      * intros x Hg Hx. eapply waited_settles; [done..| |done|done]. apply empty_subseteq.
Qed.

(** What a registering transaction leaves when it commits. *)
Definition registers (t : tx) (s s' : sys) : Prop :=
  exists x gid g, s' = mkSys (tx_effect t (committed s)) (running s') ((tx_job t, x) :: ended s) /\
    puts_gateway gid g (tx_effect t) /\ name_lock (g_name g) ∈ tx_locks t /\ only_named (g_name g) gid (committed s).

Lemma elem_of_named name db k : gateway_lock k ∈ gateways_named name db <-> exists g, gateways db !! k = Some g /\ g_name g = name.
Proof.
  unfold gateways_named. rewrite elem_of_list_to_set, list_elem_of_fmap. split.
  - intros ([k' g] & [= ->] & [Hg Hn]%elem_of_select_rows). to_prop. eauto.
  - intros (g & Hg & Hn). exists (k, g). split; [done|]. apply elem_of_select_rows. split; [done|]. by apply bool_decide_eq_true.
Qed.

(** The upsert of a gateway writes one row under the name of the registration. *)
Lemma upsert_gateway_puts u lid r h db gid db' e :
  unique (fun g => Some (g_name g)) (gateways db) -> upsert_gateway u lid r h db = Ok (gid, db') -> quiet e ->
  exists g, puts_gateway gid g (fun d => copy_row Gateways gid db' (e d)) /\ g_name g = reg_Name r /\ only_named (reg_Name r) gid db /\
    (gid = u \/ exists g0, gateways db !! gid = Some g0 /\ g_name g0 = reg_Name r).
Proof.
  unfold upsert_gateway. destruct (registration_values r) as [[n4 n6]|]; [|done]. destruct (locations db !! lid); [|done]. intros Huniq Hu He.
  assert (Hputs : forall g m, db' = put Gateways (<[gid := g]> m) db -> puts_gateway gid g (fun d => copy_row Gateways gid db' (e d))).
  { intros g m -> d. unfold copy_row. cbn. rewrite lookup_insert_eq. cbn. destruct (He d) as (-> & -> & ->). done. }
  destruct (find_row _ _) as [[k g0]|] eqn:Ef; [|destruct (gateways db !! u); [done|]]; injection Hu as E1 E2; subst gid;
    eexists; (split; [eapply Hputs; symmetry; exact E2|split; [done|]]).
  - apply find_row_Some in Ef as [Hk Hn]. to_prop. split; [|right; eauto].
    intros k' g' Hk' Hn'. apply (Huniq k' k g' g0 (reg_Name r) Hk' Hk); cbn; congruence.
  - split; [|by left]. intros k g Hk Hn. pose proof (proj1 (find_row_None _ _) Ef k g Hk) as Hf. cbn in Hf. to_prop. done.
Qed.

Lemma register_gateway_proceed a lid u i t s s' :
  (forall t', tx_job t' = tx_job t -> register_stage a (committed s) t' -> stage (committed s) t') ->
  unique (fun g => Some (g_name g)) (gateways (committed s)) ->
  tx_prog t = register_gateway a lid u -> quiet (tx_effect t) -> name_lock (reg_Name (ra_reg a)) ∈ tx_locks t ->
  (forall R, tx_waits t = Some R -> gateway_lock u ∈ R /\
     forall k g, gateways (committed s) !! k = Some g -> g_name g = reg_Name (ra_reg a) -> gateway_lock k ∈ R) ->
  proceed i t s = Some s' -> settles i t s s'.
Proof.
  intros Hstage Huniq Hp He Hn Hw E. assert (Hview : gateways (view s t) = gateways (committed s)) by apply (He (committed s)).
  unfold register_gateway in Hp.
  apply (proceed_write _ _ _ _ _ _ _ _ Hp) in E as [[_ ->]|(R & HwR & HR & [->|(gid & L & e & Eact & ->)])]; [| by left|].
  - apply settles_waiting, Hstage; [done|]. apply (gs_gateway _ _ _ lid u); [done..|]. cbn. intros R [= <-].
    split; [by apply elem_of_union_l, elem_of_singleton|]. intros k g Hk Hg. apply elem_of_union_r, elem_of_named. rewrite Hview. eauto.
  - destruct (upsert_gateway _ _ _ _ _) as [[gid' db']| |] eqn:Eu; [|done..]. injection Eact as <- <- <-.
    destruct (upsert_gateway_puts _ _ _ _ _ _ _ (tx_effect t) ltac:(by rewrite Hview) Eu He) as (g & Hg & Hname & Honly & Hgid).
    destruct (Hw R HwR) as [HuR HnR].
    assert (HgR : gateway_lock gid' ∈ R).
    { destruct Hgid as [->|(g0 & Hg0 & Hn0)]; [done|]. rewrite Hview in Hg0. by apply (HnR gid' g0). }
    apply settles_next.
    + apply Hstage; [done|]. eapply gs_done; [done|exact Hg|rewrite Hname; cbn; by apply elem_of_union_r| |].
      * cbn. by apply elem_of_union_l, elem_of_union_l, elem_of_singleton.
      * intros k g' Hk Hk'. apply (Honly k g'); [by rewrite Hview|congruence].
    + intros x _ [->%elem_of_singleton|Hx]%elem_of_union; right; by apply HR.
Qed.

Lemma register_proceed i t s s' a :
  tx_job t = registering a -> unique (fun g => Some (g_name g)) (gateways (committed s)) ->
  register_stage a (committed s) t -> proceed i t s = Some s' ->
  settles i t s s' \/ running s' = delete i (running s) /\ registers t s s'.
Proof.
  intros Hj Huniq Hst E.
  assert (Hstage : forall t', tx_job t' = tx_job t -> register_stage a (committed s) t' -> stage (committed s) t').
  { intros t' Ht'. unfold stage. by rewrite Ht', Hj. }
  destruct Hst as [r Hp Hr|Hp He|u Hp He|lid Hp He|lid u Hp He Hw|lid u Hp He Hn Hw|x gid g Hp He Hn Hg Ho].
  - left. by eapply proceed_failed.
  - unfold proceed in E. by rewrite Hp in E.
  - left. unfold register_location, Write_row in Hp.
    apply (proceed_write _ _ _ _ _ _ _ _ Hp) in E as [[_ ->]|(R & _ & HR & [->|(lid & L & e & Eact & ->)])]; [| by left|].
    + apply settles_waiting, Hstage; [done|]. by eapply gs_location.
    + destruct (upsert_location _ _ _ _) as [[lid' db']| |]; [|done..]. injection Eact as <- <- <-. apply settles_next.
      * apply Hstage; [done|]. apply (gs_draw _ _ _ lid'); [done|]. cbn. apply quiet_comp; [apply quiet_locations|done].
      * intros x Hx [->%elem_of_singleton|Hin]%elem_of_union; [done|]. right. by apply HR.
  - unfold proceed in E. by rewrite Hp in E.
  - left. unfold register_name in Hp.
    apply (proceed_write _ _ _ _ _ _ _ _ Hp) in E as [[_ ->]|(R & HwR & HR & [->|([] & L & e & Eact & ->)])]; [| by left|].
    + apply settles_waiting, Hstage; [done|]. apply (gs_name _ _ _ lid u); [done..|]. cbn. intros R [= <-]. by apply elem_of_singleton.
    + injection Eact as <- <-. apply settles_next; [|intros x _ Hx; right; by apply HR].
      apply Hstage; [done|]. apply (gs_gateway _ _ _ lid u); [done|done| |done]. cbn. apply elem_of_union_l. by apply Hw.
  - left. by eapply register_gateway_proceed.
  - right. unfold proceed in E. rewrite Hp in E. injection E as <-. split; [done|]. by exists (registered x), gid, g.
Qed.

(** A value is drawn. *)
Inductive draws : prog -> prog -> Prop :=
| draws_uuid k u : draws (Draw k) (k u)
| draws_bytes k b : draws (Rand k) (k b).

Lemma redeems_drawn code p p' : redeems code p -> draws p p' -> redeems code p'.
Proof. intros Hp Hd. destruct Hd; by inversion Hp. Qed.

Lemma leaves_drawn p p' : leaves p -> draws p p' -> leaves p'.
Proof. intros Hp Hd. destruct Hd; by inversion Hp. Qed.

Lemma stage_drawn t s p : stage (committed s) t -> draws (tx_prog t) p -> stage (committed s) (next t p ∅ id).
Proof.
  unfold stage. cbn. destruct (tx_job t) as [a|a|a|a]; intros Hst Hd.
  - destruct Hst as [r Hp Hr|Hp He|did pub Hp He|did pub K Hp He|did pub chosen K Hp He Hg Hw|did pub chosen K Hp He Hl
      |did pub chosen v4 v6 K Hp He Hl Hf|did pub chosen v4 v6 x K Hp He Hl Hf Hw|conn x l K Hp He Hl Hu Hn Ha Hv];
      rewrite Hp in Hd; try by inversion Hd.
    + unfold CreateConnection_prog in Hd. destruct (pg_uuid (ca_device a)), (pg_uuid (ca_user a)); by inversion Hd.
    + inversion Hd as [k u Ek E|]. eapply cs_insert; [done|done|cbn; set_solver|done|done].
  - destruct Hst as [r Hp Hr|a' Hp Hc He|Hp Hl Hu He|Hp Hl Hu He].
    + rewrite Hp in Hd. by inversion Hd.
    + rewrite Hp in Hd. by inversion Hd.
    + apply enrol_next_unused; [by eapply redeems_drawn|done..].
    + apply enrol_next_used; [by eapply leaves_drawn|done..].
  - destruct Hst as [Hp He]. split; [by eapply leaves_drawn|done].
  - destruct Hst as [r Hp Hr|Hp He|u Hp He|lid Hp He|lid u Hp He Hw|lid u Hp He Hn Hw|x gid g Hp He Hn Hg Ho];
      rewrite Hp in Hd; inversion Hd as [k v Ek E|]; subst.
    + by eapply gs_location.
    + by eapply gs_name.
Qed.

End stages.
