(* ===== verification/Contention.v ===== *)
(** What overlapping transactions keep: no address is given out twice, no name becomes two
    gateways' and an invite is redeemed at most once, in every interleaving of the store's transactions and the
    statements of its other operations. *)
From S2P Require Import Prelude Model Selection GoStrings NetAddr Crypto Alloc Db Session StoreGateways StoreIdentity StoreConnections Schema Facts Steps System Connections Interleave Overlap Others Stages.

Section contention.
Context `{PostgresOrder}.
Implicit Types (t : tx) (s : sys).

(** ** The invariant *)

(** What has committed of the enrolments with an invite. *)
Definition redeemed (code : string) (s : sys) : list (job * answer) :=
  List.filter (fun ja => match ja.1 with
                         | enrolling a => bool_decide (er_InviteCode (ea_req a) = code)
                         | connecting _ | adding _ | registering _ => false
                         end) (ended s).

Record inv (s : sys) : Prop := {
  inv_unique : unique active_ip (leases (committed s));
  inv_names : unique (fun g => Some (g_name g)) (gateways (committed s));
  inv_stage : forall i t, running s !! i = Some t -> stage (committed s) t;
  inv_apart : forall i j t u x, i <> j -> running s !! i = Some t -> running s !! j = Some u ->
    guarded x = true -> x ∈ tx_locks t -> x ∉ tx_locks u;
  inv_once : forall code, redeemed code s = [] \/
    (length (redeemed code s) <= 1)%nat /\ exists i, invite_codes (committed s) !! code = Some i /\ i_used_at i <> None
}.

Lemma inv_settles i t s s' : inv s -> running s !! i = Some t -> settles i t s s' -> inv s'.
Proof.
  intros [Huniq Hnm Hst Hap Hon] Ht [->|(t' & -> & Hj & Hst' & Hl)].
  - split; cbn; [done|done| | |done].
    + intros j u (Hij & Hu)%lookup_delete_Some. eauto.
    + intros j1 j2 u1 u2 x Hne (_ & H1)%lookup_delete_Some (_ & H2)%lookup_delete_Some. eauto.
  - split; cbn; [done|done| | |done].
    + intros j u [(-> & <-)|(_ & Hu)]%lookup_insert_Some; eauto.
    + intros j1 j2 u1 u2 x Hne [(<- & <-)|(Hi1 & H1)]%lookup_insert_Some [(<- & <-)|(Hi2 & H2)]%lookup_insert_Some Hg Hx; [done| | |by eapply (Hap j1 j2)].
      * destruct (Hl x Hg Hx) as [Hx'|Hno]; [by eapply Hap|by eapply Hno].
      * intros Hx'. destruct (Hl x Hg Hx') as [Hx''|Hno]; [by eapply (Hap i j1)|by eapply Hno].
Qed.

Lemma inv_outside s db' :
  inv s -> outside (committed s) db' ->
  (forall i t x, running s !! i = Some t -> x ∈ tx_locks t -> same_row x (committed s) db') ->
  inv (mkSys db' (running s) (ended s)).
Proof.
  intros [Huniq Hnm Hst Hap Hon] [Hle Hga Hna Hin] Hrows. split; cbn; [| | |done|].
  - eapply unique_narrows; [exact lease_rel_active_ip|done|done].
  - apply (unique_narrows _ gateway_id_rel (gateways (committed s))); [|done..]. by intros g g' x ->.
  - intros i t Ht. eapply stage_foreign; [|by eapply Hst]. split.
    + intros k [g Hk]. destruct (Hga _ _ Hk) as (g' & Hk' & _). eauto.
    + intros k g' Hk. left. by apply Hna.
    + intros k Hk. exact (Hrows i t _ Ht Hk).
    + intros k l' Hl'. left. by apply Hle.
  - intros code. destruct (Hon code) as [?|(Hlen & v & Hv & Hu)]; [by left|right]. split; [done|].
    destruct (Hin _ _ Hv) as (v' & Hv' & _ & Hsame). exists v'. split; [done|]. by rewrite Hsame.
Qed.

Lemma inv_connects a i t s s' :
  inv s -> running s !! i = Some t -> running s' = delete i (running s) -> connects a t s s' -> inv s'.
Proof.
  intros [Huniq Hnm Hst Hap Hon] Ht Hrun (conn & u & l & K & Es & Hg & Hu & Hn & Ha & Hv). rewrite Es, Hrun. clear Es.
  set (db1 := releasing K (now (ca_clock a)) (committed s)). split; cbn; [| | | |done].
  - apply unique_insert; [|by apply (unique_narrows _ lease_rel (leases (committed s)));
      [intros r r' x; apply lease_rel_active_ip|apply releasing_narrows|]].
    intros k' l' x Hl' E1 E2. exfalso. unfold active_ip in E1, E2. rewrite Ha in E2. injection E2 as <-.
    destruct (is_active l') eqn:Ha'; [|done]. injection E1 as Eg Ei.
    assert (Hnone : find_row (taken (le_gateway_id l) (le_assigned_ip_v4 l)) (leases db1) = None) by (by apply vacant_view).
    pose proof (proj1 (find_row_None _ _) Hnone k' l' Hl') as Hf. unfold taken, on_gateway in Hf.
    by rewrite Ha', Eg, Ei, !bool_decide_true in Hf.
  - done.
  - intros j u' (Hij & Hj)%lookup_delete_Some. eapply stage_foreign; [|by eapply Hst].
    split; [done|intros k' g' Hk'; left; by exists g'|done|].
    cbn. intros k' l' [(<- & <-)|(Hk & Hl')]%lookup_insert_Some.
    + right. split; by eapply (Hap i j).
    + left. by apply (releasing_narrows K (now (ca_clock a))).
  - intros j1 j2 u1 u2 x Hne (_ & H1)%lookup_delete_Some (_ & H2)%lookup_delete_Some. eauto.
Qed.

Lemma inv_enrols a i t s s' :
  inv s -> running s !! i = Some t -> tx_job t = enrolling a -> running s' = delete i (running s) ->
  enrols (er_InviteCode (ea_req a)) t s s' -> inv s'.
Proof.
  intros [Huniq Hnm Hst Hap Hon] Ht Hj Hrun (x & Es & Hl & (v & Hv & Hun) & (v' & Hused & He)). rewrite Es, Hrun, Hj. clear Es.
  destruct (He (committed s)) as (El & Eg & Ei). set (code := er_InviteCode (ea_req a)) in *. split; cbn.
  - by rewrite El.
  - by rewrite Eg.
  - intros j u (Hij & Hu)%lookup_delete_Some. eapply stage_foreign; [|by eapply Hst]. split.
    + by rewrite Eg.
    + rewrite Eg. intros k g' Hk. left. by exists g'.
    + intros k Hk. rewrite Ei, lookup_insert_ne; [done|]. intros <-. by apply (Hap i j t u (invite_lock code)).
    + rewrite El. intros k l' Hl'. left. exists l'. by split.
  - intros j1 j2 u1 u2 y Hne (_ & H1)%lookup_delete_Some (_ & H2)%lookup_delete_Some. eauto.
  - intros code'. rewrite Ei. unfold redeemed. cbn. fold (redeemed code' s). destruct (decide (code = code')) as [<-|Hne].
    + rewrite bool_decide_true by done. rewrite lookup_insert_eq. right.
      destruct (Hon code) as [->|(_ & w & Hw & Hwu)]; [|congruence]. cbn. eauto.
    + rewrite bool_decide_false by done. rewrite lookup_insert_ne by done. apply Hon.
Qed.

(** Tables that differ in nothing a running transaction minds. *)
Lemma foreign_same mine db db' :
  leases db' = leases db -> gateways db' = gateways db -> invite_codes db' = invite_codes db -> foreign mine db db'.
Proof.
  intros El Eg Ei. split; rewrite ?El, ?Eg, ?Ei; [done|intros k g' Hk; left; by exists g'|done|intros k l' Hk; left; by exists l'].
Qed.

Lemma inv_adds a i t s s' :
  inv s -> running s !! i = Some t -> tx_job t = adding a -> running s' = delete i (running s) -> adds_device t s s' -> inv s'.
Proof.
  intros [Huniq Hnm Hst Hap Hon] Ht Hj Hrun (x & Es & He). rewrite Es, Hrun, Hj. clear Es.
  destruct (He (committed s)) as (El & Eg & Ei). split; cbn; [by rewrite El|by rewrite Eg| | |by rewrite Ei].
  - intros j u (Hij & Hu)%lookup_delete_Some. eapply stage_foreign; [by apply foreign_same|by eapply Hst].
  - intros j1 j2 u1 u2 y Hne (_ & H1)%lookup_delete_Some (_ & H2)%lookup_delete_Some. eauto.
Qed.

Lemma inv_registers a i t s s' :
  inv s -> running s !! i = Some t -> tx_job t = registering a -> running s' = delete i (running s) -> registers t s s' -> inv s'.
Proof.
  intros [Huniq Hnm Hst Hap Hon] Ht Hj Hrun (x & gid & g & Es & He & Hn & Ho). rewrite Es, Hrun, Hj. clear Es.
  destruct (He (committed s)) as (El & Eg & Ei). split; cbn; [by rewrite El| | | |by rewrite Ei].
  - rewrite Eg. apply unique_insert; [|done]. intros k' g' y Hg' [= E1] [= E2]. apply (Ho k' g' Hg'). congruence.
  - intros j u (Hij & Hu)%lookup_delete_Some. eapply stage_foreign; [|by eapply Hst]. split; rewrite ?El, ?Eg, ?Ei; [| |done|].
    + intros k. apply is_Some_insert.
    + intros k g' [(<- & <-)|(Hk & Hg')]%lookup_insert_Some; [right|left; by exists g'].
      by apply (Hap i j t u (name_lock (g_name g))).
    + intros k l' Hk. left. by exists l'.
  - intros j1 j2 u1 u2 y Hne (_ & H1)%lookup_delete_Some (_ & H2)%lookup_delete_Some. eauto.
Qed.

Lemma inv_step `{!PostgresInet} s s' : inv s -> step program s s' -> inv s'.
Proof.
  intros Hinv Hstep. destruct Hstep as [act s s' Hact|s db' Ho Hrows]; [|by apply inv_outside].
  destruct act as [i j|i|i u|i b|i]; cbn in Hact.
  - destruct (running s !! i) eqn:Ei; [done|]. injection Hact as <-. destruct Hinv as [Huniq Hnm Hst Hap Hon]. split; cbn; [done|done| | |done].
    + intros k t [(-> & <-)|(_ & Ht)]%lookup_insert_Some; [|eauto]. unfold stage. cbn.
      destruct j as [a|a|a|a]; [by eapply cs_start|by eapply es_start|split; [apply leaves_add|done]|by eapply gs_start].
    + intros j1 j2 t1 t2 x Hne [(<- & <-)|(Hi1 & Hu1)]%lookup_insert_Some [(<- & <-)|(Hi2 & Hu2)]%lookup_insert_Some Hg Hx;
        [done|by apply elem_of_empty in Hx|by apply not_elem_of_empty|by eapply (Hap j1 j2)].
  - destruct (running s !! i) as [t|] eqn:Et; [|done]. cbn in Hact. pose proof (inv_stage _ Hinv i t Et) as Hst.
    unfold stage in Hst. destruct (tx_job t) as [a|a|a|a] eqn:Ej.
    + destruct (connect_proceed a i t s s' Hst Ej Hact) as [Hs|[Hr Hc]]; [by eapply inv_settles|by eapply inv_connects].
    + destruct (enrol_proceed i t s s' a Ej Hst Hact) as [Hs|[Hr Hc]]; [by eapply inv_settles|by eapply inv_enrols].
    + destruct Hst as [Hp He]. destruct (add_proceed i t s s' a Ej Hp He Hact) as [Hs|[Hr Hc]]; [by eapply inv_settles|by eapply inv_adds].
    + destruct (register_proceed i t s s' a Ej (inv_names _ Hinv) Hst Hact) as [Hs|[Hr Hc]]; [by eapply inv_settles|by eapply inv_registers].
  - destruct (running s !! i) as [t|] eqn:Et; [|done]. cbn in Hact. destruct (tx_prog t) as [| |k| |] eqn:Ep; [done|done| |done|done].
    injection Hact as <-. eapply inv_settles; [done..|]. apply settles_silent, stage_drawn; [by eapply inv_stage|].
    rewrite Ep. constructor.
  - destruct (running s !! i) as [t|] eqn:Et; [|done]. cbn in Hact. destruct (tx_prog t) as [| | |k|] eqn:Ep; [done|done|done| |done].
    injection Hact as <-. eapply inv_settles; [done..|]. apply settles_silent, stage_drawn; [by eapply inv_stage|].
    rewrite Ep. constructor.
  - destruct (running s !! i) as [t|] eqn:Et; [|done]. injection Hact as <-. eapply inv_settles; [done..|]. by left.
Qed.

Lemma inv_reachable `{!PostgresInet} db s : wf db -> reachable program db s -> inv s.
Proof.
  intros Hwf Hr. assert (Hinv : inv (mkSys db ∅ [])).
  { split; cbn; [apply Hwf|apply Hwf|by intros i t Ht|by intros i j t u x _ Ht|by left]. }
  revert Hinv. unfold reachable in Hr. induction Hr as [|s1 s2 s3 Hs Hr IH]; [done|]. intros Hinv. by apply IH, (inv_step s1).
Qed.

(** C9: allocation is race-free. Whatever transactions overlap, and whatever the other
    operations do to the tables in between, no two active leases of a gateway have the same
    address; and the lease a connection inserts is never refused by the unique index that
    makes sure of it: it has waited for the gateway's row, and looked after that. *)
Theorem allocation_is_race_free `{!PostgresInet} db s :
  wf db -> reachable program db s ->
  unique active_ip (leases (committed s)) /\
  forall i t a u gid v4 ip,
    running s !! i = Some t -> tx_job t = connecting a -> statement_of (tx_prog t) = Some (INSERT_lease u gid v4) ->
    pg_inet v4 = Some ip -> find_row (taken gid ip) (leases (view s t)) = None.
Proof.
  intros Hwf Hr. apply inv_reachable in Hr as [Huniq _ Hst _ _]; [|done]. split; [done|].
  intros i t a u gid v4 ip Ht Hj Es Hip. specialize (Hst i t Ht). unfold stage in Hst. rewrite Hj in Hst.
  destruct Hst as [r Hp Hr|Hp He|did pub Hp He|did pub K Hp He|did pub chosen K Hp He Hg Hw|did pub chosen K Hp He Hl
    |did pub chosen v4' v6 K Hp He Hl Hf|did pub chosen v4' v6 x K Hp He Hl Hf Hw|conn x l K Hp He Hl Hu Hn Ha Hv];
    rewrite Hp in Es; try done.
  - unfold CreateConnection_prog in Es. by destruct (pg_uuid (ca_device a)), (pg_uuid (ca_user a)).
  - injection Es as -> <- <-. rewrite (view_eq _ _ _ He). apply vacant_view, Hf, Hip.
Qed.

(** C10: what overlaps does not happen twice. However enrolments overlap an invite is redeemed
    at most once: the row lock makes the second wait, and it then sees the invite used. And
    however registrations overlap no two gateways have the same name: the entry of the name
    makes the second wait, and it then updates the row the first has made. *)
Theorem overlapping_requests_repeat_nothing `{!PostgresInet} db s code :
  wf db -> reachable program db s ->
  (length (redeemed code s) <= 1)%nat /\ unique (fun g => Some (g_name g)) (gateways (committed s)).
Proof.
  intros Hwf Hr. apply inv_reachable in Hr as [_ Hnm _ _ Hon]; [|done]. split; [|done].
  by destruct (Hon code) as [->|[? _]]; [cbn; lia|].
Qed.

End contention.
