(* ===== verification/Progress.v ===== *)
(** Overlapping transactions do not deadlock: they ask for their locks in one order, so
    somebody can always go on. *)
From S2P Require Import Prelude Model Selection GoStrings NetAddr Crypto Alloc Db Session StoreGateways StoreIdentity StoreConnections Schema Facts Interleave Overlap Others Stages Contention.

(** ** The order of locks *)

(** [CreateConnection] asks for the device's leases, the gateway and an address of it;
    [Enroll] for the invite, the user, the device and the token, [CreateDevice] for the last
    two of them; [RegisterGateway] for the location, the name and the gateway. *)
Definition order (x : lock) : nat :=
  match x with
  | lease_lock _ | invite_lock _ | location_lock _ | code_lock _ => 1
  | name_lock _ => 2
  | gateway_lock _ | user_lock _ | email_lock _ => 3
  | address_lock _ _ | device_lock _ | key_lock _ => 4
  | token_lock _ | hash_lock _ => 6
  end.

(** The row under a key the transaction has drawn. *)
Definition is_new (st : statement) (x : lock) : Prop :=
  match st with INSERT_lease u _ _ => x = lease_lock u | _ => False end.

(** From here on a program waits only for locks it has in [H], or whose order is [b] at least
    and rises with every statement that waits. *)
Fixpoint ordered (b : nat) (H : locks) (p : prog) : Prop :=
  match p with
  | Stop _ => True
  | Select f k => forall x, ordered b H (k x)
  | Draw k => forall u, ordered b H (k u)
  | Rand k => forall r, ordered b H (k r)
  | Write st rows act k => exists b', (b <= b')%nat /\
      (forall d x, x ∈ rows d -> (x ∈ H /\ guarded x = true) \/ is_new st x \/ order x = b') /\
      forall found d r held e, act found d = Ok (r, held, e) ->
        (forall x, x ∈ held -> x ∈ found \/ (order x <= b')%nat) /\ ordered (S b') (held ∪ H) (k r)
  end.

(** A program ends within [n] steps, of which a statement that waits takes two. *)
Fixpoint lasts (n : nat) (p : prog) : Prop :=
  match p with
  | Stop _ => (1 <= n)%nat
  | Select f k => exists m, n = S m /\ forall x, lasts m (k x)
  | Draw k => exists m, n = S m /\ forall u, lasts m (k u)
  | Rand k => exists m, n = S m /\ forall r, lasts m (k r)
  | Write _ _ _ k => exists m, n = S (S m) /\ forall r, lasts m (k r)
  end.

Section programs.
Context `{Postgres}.

(** The one row of [Write_row]. *)
Lemma ordered_Write_row {B R} b b' L st (t : Table R) rows (f : DB -> result StoreError (B * DB)) key lock_of k :
  (b <= b')%nat -> (forall x, x ∈ rows -> (x ∈ L /\ guarded x = true) \/ is_new st x \/ order x = b') ->
  (forall d r d', f d = Ok (r, d') -> (order (lock_of (key r)) <= b')%nat) ->
  (forall d r d' found, f d = Ok (r, d') -> ordered (S b') (({[lock_of (key r)]} ∪ found) ∪ L) (k r)) ->
  ordered b L (Write_row st t rows f key lock_of k).
Proof.
  intros Hb Hrows Hkey Hk. exists b'. split; [done|]. split; [by intros _|]. intros found d r held e.
  destruct (f d) as [[r' d']| |] eqn:E; [|done..]. intros [= <- <- _]. split; [|by eapply Hk].
  intros x [->%elem_of_singleton|?]%elem_of_union; [right; by eapply Hkey|by left].
Qed.

Lemma ordered_connect a : ordered 1 ∅ (CreateConnection_prog a).
Proof.
  unfold CreateConnection_prog. destruct (pg_uuid (ca_device a)) as [did|], (pg_uuid (ca_user a)) as [uid|]; try done.
  intros [pub|]; [|done]. cbn [connect_owned]. exists 1%nat. split; [done|]. split.
  { intros d x Hx. right. right. unfold leases_where in Hx. rewrite elem_of_list_to_set, list_elem_of_fmap in Hx. by destruct Hx as ([k l] & -> & _). }
  intros found d [] held e [= <- _]. split.
  { intros x (k & -> & _)%elem_of_map. by right. }
  intros cs. unfold connect_choose. destruct (Best _) as [best|]; [|done]. set (chosen := default _ _).
  exists 3%nat. split; [lia|]. split.
  { intros d' x. destruct (gateways d' !! _); [|by intros ?%elem_of_empty]. intros ->%elem_of_singleton. by right; right. }
  intros found' d' [] held' e' [= <- _]. split; [by left|]. intros used. unfold connect_allocate.
  destruct (allocateHost _ _ _) as [[v4 v6]| |]; [|done..]. intros u.
  apply (ordered_Write_row _ 4); [lia| |intros; cbn; lia|done].
  unfold new_entries. intros x [->%elem_of_singleton|Hx]%elem_of_union; [by right; left|]. right; right.
  destruct (pg_inet v4); [by apply elem_of_singleton in Hx as ->|by apply elem_of_empty in Hx].
Qed.

Lemma ordered_Insert_device t user uid r k b L :
  (b <= 4)%nat -> (forall d L', L ⊆ L' -> ordered 5 L' (k d)) -> ordered b L (Insert_device t user uid r k).
Proof.
  intros Hb Hk u. apply (ordered_Write_row _ 4); [done| |done|intros; apply Hk; clear; set_solver].
  intros x [->%elem_of_singleton| ->%elem_of_singleton]%elem_of_union; by right; right.
Qed.

Lemma ordered_Insert_token t ttl did k b L :
  (b <= 6)%nat -> (forall plain L', ordered 7 L' (k plain)) -> ordered b L (Insert_token t ttl did k).
Proof.
  intros Hb Hk r u. apply (ordered_Write_row _ 6); [done| |done|intros; apply Hk].
  intros x [->%elem_of_singleton| ->%elem_of_singleton]%elem_of_union; by right; right.
Qed.

Lemma ordered_add a : ordered 1 ∅ (CreateDevice_prog a).
Proof.
  unfold CreateDevice_prog. destruct (pg_uuid (da_user a)); [|done]. apply ordered_Insert_device; [lia|].
  intros d L _. apply ordered_Insert_token; [lia|done].
Qed.

Lemma ordered_register a : ordered 1 ∅ (RegisterGateway_prog a).
Proof.
  intros u. apply (ordered_Write_row _ 1); [lia| |done|].
  { intros x [->%elem_of_singleton| ->%elem_of_singleton]%elem_of_union; by right; right. }
  intros d lid d1 found _ u'. exists 2%nat. split; [lia|]. split.
  { intros d' x ->%elem_of_singleton. by right; right. }
  intros found1 d2 [] held e [= <- _]. split; [by left|]. exists 3%nat. split; [lia|]. split.
  { intros d' x [->%elem_of_singleton|Hx]%elem_of_union; [by right; right|]. right; right.
    unfold gateways_named in Hx. rewrite elem_of_list_to_set, list_elem_of_fmap in Hx. by destruct Hx as ([k g] & -> & _). }
  intros found2 d3 gid held e'. destruct (upsert_gateway _ _ _ _ _) as [[gid' db']| |]; [|done..]. intros [= _ <- _]. split; [|done].
  intros x [->%elem_of_singleton|?]%elem_of_union; [by right|by left].
Qed.

Lemma ordered_enrol a : ordered 1 ∅ (Enroll_prog a).
Proof.
  exists 1%nat. split; [done|]. split.
  { intros d x. destruct (invite_codes d !! _); [|by intros ?%elem_of_empty]. intros ->%elem_of_singleton. by right; right. }
  intros found d row held e [= <- <- _]. split; [by left|].
  case_bool_decide as Hf; [|done]. destruct (head _) as [i|]; [|done]. cbn [enrol_invite].
  destruct (invite_open _ _); [|done]. intros k.
  apply (ordered_Write_row _ 3); [lia| |done|].
  { intros x [->%elem_of_singleton| ->%elem_of_singleton]%elem_of_union; by right; right. }
  intros d1 u d2 found1 _. apply ordered_Insert_device; [lia|]. intros x L HL.
  apply (ordered_Write_row _ 5); [lia| |cbn; lia|].
  { intros y ->%elem_of_singleton. left. split; [|done]. apply HL. clear -Hf. set_solver. }
  intros d5 y d6 found3 _. apply ordered_Insert_token; [lia|done].
Qed.

(** The longest transaction is an enrolment: four statements that wait, the lock of the
    invite, three ids, the token's bytes, and the commit. *)
Definition longest : nat := 15.

Lemma lasts_connect a : lasts longest (CreateConnection_prog a).
Proof.
  unfold CreateConnection_prog, longest. destruct (pg_uuid (ca_device a)), (pg_uuid (ca_user a)); try (cbn; lia).
  exists 14%nat. split; [done|]. intros [pub|]; [|cbn; lia]. exists 12%nat. split; [done|]. intros [].
  exists 11%nat. split; [done|]. intros cs. unfold connect_choose. destruct (Best _); [|cbn; lia].
  exists 9%nat. split; [done|]. intros []. exists 8%nat. split; [done|]. intros used. unfold connect_allocate.
  destruct (allocateHost _ _ _) as [[v4 v6]| |]; [|cbn; lia..]. exists 7%nat. split; [done|]. intros u.
  exists 5%nat. split; [done|]. intros x. cbn. lia.
Qed.

Lemma lasts_Insert_device t user uid r k n : (forall d, lasts n (k d)) -> lasts (S (S (S n))) (Insert_device t user uid r k).
Proof. intros Hk. eexists. split; [done|]. intros u. eexists. split; [done|]. intros []. apply Hk. Qed.

Lemma lasts_Insert_token t ttl did k n : (forall plain, lasts n (k plain)) -> lasts (S (S (S (S n)))) (Insert_token t ttl did k).
Proof. intros Hk. eexists. split; [done|]. intros b. eexists. split; [done|]. intros u. eexists. split; [done|]. intros []. apply Hk. Qed.

Lemma lasts_add a : lasts longest (CreateDevice_prog a).
Proof.
  unfold CreateDevice_prog, longest. destruct (pg_uuid (da_user a)); [|cbn; lia].
  apply lasts_Insert_device. intros d. apply lasts_Insert_token. intros plain. cbn. lia.
Qed.

Lemma lasts_register a : lasts longest (RegisterGateway_prog a).
Proof.
  unfold longest. exists 14%nat. split; [done|]. intros u. exists 12%nat. split; [done|]. intros lid.
  exists 11%nat. split; [done|]. intros u'. exists 9%nat. split; [done|]. intros []. exists 7%nat. split; [done|]. intros gid. cbn. lia.
Qed.

Lemma lasts_enrol a : lasts longest (Enroll_prog a).
Proof.
  unfold longest. exists 13%nat. split; [done|]. intros [i|]; [|cbn; lia]. cbn [enrol_invite].
  destruct (invite_open _ _); [|cbn; lia].
  exists 12%nat. split; [done|]. intros k. exists 10%nat. split; [done|]. intros u.
  apply lasts_Insert_device. intros x. exists 5%nat. split; [done|]. intros y.
  apply lasts_Insert_token. intros plain. cbn. lia.
Qed.

End programs.

(** ** What a running transaction holds and waits for *)

Section progress.
Context `{PostgresOrder}.
Implicit Types (t : tx) (s : sys).

(** The steps a transaction can still take. *)
Definition fits (n : nat) (t : tx) : Prop :=
  match tx_waits t with None => lasts n (tx_prog t) | Some _ => lasts (S n) (tx_prog t) end.

Record lawful (t : tx) : Prop := {
  lw_order : exists b L, (1 <= b)%nat /\ L ⊆ tx_locks t /\ (forall x, x ∈ tx_locks t -> (order x < b)%nat) /\ ordered b L (tx_prog t);
  lw_waits : forall R, tx_waits t = Some R -> match tx_prog t with Write _ rows _ _ => exists d, R = rows d | _ => False end;
  lw_steps : exists n, (n <= longest)%nat /\ fits n t
}.

(** A statement that does not wait. *)
Lemma lawful_next t p e :
  lawful t -> tx_waits t = None -> (forall b L, ordered b L (tx_prog t) -> ordered b L p) ->
  (forall n, lasts n (tx_prog t) -> exists m, n = S m /\ lasts m p) -> lawful (next t p ∅ e).
Proof.
  intros [(b & L & Hb & HL & Hx & Hp) _ (n & Hn & Hf)] Ew Hord Hlast. unfold fits in Hf. rewrite Ew in Hf. split; cbn; [|done|].
  - exists b, L. splits; [done|clear -HL; set_solver| |auto]. intros x [?%elem_of_empty|?]%elem_of_union; [done|auto].
  - destruct (Hlast n Hf) as (m & -> & Hm). exists m. split; [lia|done].
Qed.

Lemma lawful_write t st B rows (act : locks -> DB -> result StoreError (B * locks * (DB -> DB))) k R d r held e :
  lawful t -> tx_prog t = Write st rows act k -> tx_waits t = Some R -> act R d = Ok (r, held, e) -> lawful (next t (k r) held e).
Proof.
  intros [(b & L & Hb & HL & Hx & Hp) Hw (n & Hn & Hf)] Ep Ew Ea. rewrite Ep in Hp. cbn [ordered] in Hp.
  destruct Hp as (b' & Hbb & Hrows & Hact). specialize (Hw R Ew). rewrite Ep in Hw. destruct Hw as [d0 ->].
  destruct (Hact _ _ _ _ _ Ea) as [Hheld Hk]. split; cbn; [|done|].
  - exists (S b'), (held ∪ L). splits; [lia|by apply union_mono_l| |exact Hk].
    intros x [Hh|Ht]%elem_of_union; [|specialize (Hx x Ht); lia].
    destruct (Hheld x Hh) as [Hin|?]; [|lia]. destruct (Hrows d0 x Hin) as [[HxL _]|[Hnew| ->]]; [|..|lia].
    + specialize (Hx x (HL x HxL)). lia.
    + destruct st; cbn in Hnew; try done. subst. cbn. lia.
  - unfold fits in Hf. rewrite Ew, Ep in Hf. destruct Hf as (m & E & Hm). exists m. split; [lia|]. exact (Hm r).
Qed.

Definition all_lawful (s : sys) : Prop := map_Forall (fun _ t => lawful t) (running s).

Lemma lawful_with i t s : all_lawful s -> lawful t -> all_lawful (with_tx i t s).
Proof. intros Hs Ht. by apply map_Forall_insert_2. Qed.
Lemma lawful_without i s : all_lawful s -> all_lawful (rolled_back i s).
Proof. intros Hs. by apply map_Forall_delete. Qed.

Lemma lawful_start j : lawful (mkTx j (program j) None ∅ id).
Proof.
  split; cbn; [|done|].
  - exists 1%nat, ∅. splits; [done..|by intros x ?%elem_of_empty|].
    destruct j; [apply ordered_connect|apply ordered_enrol|apply ordered_add|apply ordered_register].
  - exists longest. split; [done|]. destruct j; [apply lasts_connect|apply lasts_enrol|apply lasts_add|apply lasts_register].
Qed.

Lemma waits_for_write t : lawful t -> statement_of (tx_prog t) = None -> tx_waits t = None.
Proof. intros [_ Hw _] Es. destruct (tx_waits t) as [R|]; [|done]. specialize (Hw R eq_refl). by destruct (tx_prog t). Qed.

Lemma lawful_draw t k u e : lawful t -> tx_prog t = Draw k -> lawful (next t (k u) ∅ e).
Proof.
  intros Hl Ep. apply lawful_next; [done|by apply waits_for_write; [|rewrite Ep]|by rewrite Ep; intros b L Hp; apply Hp|].
  rewrite Ep. intros n (m & -> & Hm). by exists m.
Qed.
Lemma lawful_rand t k r e : lawful t -> tx_prog t = Rand k -> lawful (next t (k r) ∅ e).
Proof.
  intros Hl Ep. apply lawful_next; [done|by apply waits_for_write; [|rewrite Ep]|by rewrite Ep; intros b L Hp; apply Hp|].
  rewrite Ep. intros n (m & -> & Hm). by exists m.
Qed.
Lemma lawful_select B t (f : DB -> B) k x e : lawful t -> tx_prog t = Select f k -> lawful (next t (k x) ∅ e).
Proof.
  intros Hl Ep. apply lawful_next; [done|by apply waits_for_write; [|rewrite Ep]|by rewrite Ep; intros b L Hp; apply Hp|].
  rewrite Ep. intros n (m & -> & Hm). by exists m.
Qed.

Lemma lawful_find t st B rows (act : locks -> DB -> result StoreError (B * locks * (DB -> DB))) k d :
  lawful t -> tx_prog t = Write st rows act k -> tx_waits t = None ->
  lawful (mkTx (tx_job t) (tx_prog t) (Some (rows d)) (tx_locks t) (tx_effect t)).
Proof.
  intros [Ho _ (n & Hn & Hf)] Ep Ew. split; cbn; [done|intros R [= <-]; rewrite Ep; eauto|].
  unfold fits in Hf. rewrite Ew, Ep in Hf. destruct Hf as (m & -> & Hm). exists (S m). split; [lia|]. unfold fits. cbn. rewrite Ep. by exists m.
Qed.

Lemma lawful_proceed i t s s' : all_lawful s -> running s !! i = Some t -> proceed i t s = Some s' -> all_lawful s'.
Proof.
  intros Hs Ht. pose proof (Hs i t Ht) as Hl. unfold proceed.
  destruct (tx_prog t) as [r|B f k|k|k|B st rows act k] eqn:Ep; [| |done|done|].
  - destruct r; intros [= <-]; by apply lawful_without.
  - intros [= <-]. apply lawful_with; [done|]. by apply (lawful_select B t f).
  - destruct (tx_waits t) as [R|] eqn:Ew.
    + destruct (available i R s); [|done]. intros [= <-].
      destruct (act R (view s t)) as [[[r held] e]| |] eqn:Ea; [|by apply lawful_without..].
      apply lawful_with; [done|]. by eapply lawful_write.
    + intros [= <-]. apply lawful_with; [done|]. rewrite <- Ep. by apply (lawful_find t st B rows act k).
Qed.

Lemma lawful_step s s' : all_lawful s -> step program s s' -> all_lawful s'.
Proof.
  intros Hs Hstep. destruct Hstep as [act s s' Hact|s db' Ho Hrows]; [|exact Hs].
  destruct act as [i j|i|i u|i r|i]; cbn in Hact.
  - destruct (running s !! i); [done|]. injection Hact as <-. apply lawful_with; [done|apply lawful_start].
  - destruct (running s !! i) as [t|] eqn:Et; [|done]. by eapply lawful_proceed.
  - destruct (running s !! i) as [t|] eqn:Et; [|done]. cbn in Hact. destruct (tx_prog t) as [| |k| |] eqn:Ep; try done.
    injection Hact as <-. apply lawful_with; [done|]. apply lawful_draw; [by apply (Hs i)|done].
  - destruct (running s !! i) as [t|] eqn:Et; [|done]. cbn in Hact. destruct (tx_prog t) as [| | |k|] eqn:Ep; try done.
    injection Hact as <-. apply lawful_with; [done|]. apply lawful_rand; [by apply (Hs i)|done].
  - destruct (running s !! i) as [t|] eqn:Et; [|done]. injection Hact as <-. by apply lawful_without.
Qed.

Lemma lawful_reachable db s : reachable program db s -> all_lawful s.
Proof.
  assert (Hi : all_lawful (mkSys db ∅ [])) by apply map_Forall_empty. revert Hi. unfold reachable.
  induction 2 as [|s1 s2 s3 Hs Hr IH]; [done|]. apply IH. by eapply lawful_step.
Qed.

(** ** Somebody can go on *)

(** A step of a transaction's own, which the scheduler can always take: not its end by force. *)
Definition own_action (a : @action job) : Prop := match a with go _ | draw _ _ | rand _ _ => True | begin_ _ _ | break _ => False end.
Definition can_go_on (s : sys) : Prop := exists a s', own_action a /\ perform program a s = Some s'.

(** A transaction that waits for what another one holds. *)
Definition waiting (i : nat) (t : tx) (s : sys) : Prop :=
  exists R, tx_waits t = Some R /\ (exists st, statement_of (tx_prog t) = Some st) /\
    exists j u x, j <> i /\ running s !! j = Some u /\ x ∈ R /\ x ∈ tx_locks u.

Lemma not_available i R s : available i R s = false -> exists j u x, j <> i /\ running s !! j = Some u /\ x ∈ R /\ x ∈ tx_locks u.
Proof.
  unfold available. intros Ha. apply bool_decide_eq_false in Ha.
  apply (map_not_Forall (M := gmap nat)) in Ha as (j & u & Hu & Hn); [|apply _].
  destruct (decide (j = i)) as [->|Hne]; [by destruct Hn; left|].
  destruct (set_choose_or_empty (R ∩ tx_locks u)) as [[x Hx]|He].
  - apply elem_of_intersection in Hx as [HR Hl]. by exists j, u, x.
  - destruct Hn. right. by apply disjoint_intersection.
Qed.

Lemma moves_or_waits i t s : running s !! i = Some t -> lawful t -> can_go_on s \/ waiting i t s.
Proof.
  intros Ht Hl. destruct (tx_prog t) as [r|B f k|k|k|B st rows act k] eqn:Ep.
  - left. exists (go i). cbn. rewrite Ht. cbn. unfold proceed. rewrite Ep. destruct r; eauto.
  - left. exists (go i). cbn. rewrite Ht. cbn. unfold proceed. rewrite Ep. eauto.
  - left. exists (draw i EmptyString). cbn. rewrite Ht. cbn. rewrite Ep. eauto.
  - left. exists (rand i []). cbn. rewrite Ht. cbn. rewrite Ep. eauto.
  - destruct (tx_waits t) as [R|] eqn:Ew.
    + destruct (available i R s) eqn:Ea.
      * left. exists (go i). cbn. rewrite Ht. cbn. unfold proceed. rewrite Ep, Ew, Ea. eauto.
      * right. exists R. split; [done|]. split; [rewrite Ep; by exists st|]. by apply not_available.
    + left. exists (go i). cbn. rewrite Ht. cbn. unfold proceed. rewrite Ep, Ew. eauto.
Qed.

(** The keys drawn for new leases are new: nobody else holds a row under one of them. *)
Definition new_keys (s : sys) : Prop := forall i j t u k gid v4,
  i <> j -> running s !! i = Some t -> running s !! j = Some u -> statement_of (tx_prog t) = Some (INSERT_lease k gid v4) ->
  lease_lock k ∉ tx_locks u.

(** A transaction that waits is waited for, if at all, for lesser locks than it waits for. *)
Lemma waits_higher i t s n :
  (forall i j t u x, i <> j -> running s !! i = Some t -> running s !! j = Some u -> guarded x = true -> x ∈ tx_locks t -> x ∉ tx_locks u) ->
  new_keys s -> running s !! i = Some t -> lawful t -> waiting i t s ->
  n = 0%nat \/ (exists y, y ∈ tx_locks t /\ (n <= order y)%nat) ->
  exists j u x, running s !! j = Some u /\ x ∈ tx_locks u /\ (S n <= order x)%nat.
Proof.
  intros Hap Hnew Ht [(b & L & Hb & HL & Hx & Hp) Hw _] (R & Ew & [st Est] & j & u & x & Hne & Hu & HxR & Hxu) Hn.
  exists j, u, x. split; [done|]. split; [done|].
  assert (Hnb : (n < b)%nat) by (destruct Hn as [->|(y & Hy & Hny)]; [lia|specialize (Hx y Hy); lia]).
  specialize (Hw R Ew). destruct (tx_prog t) as [| | | |B st' rows act k] eqn:Ep; try done. injection Est as <-.
  destruct Hw as [d ->]. destruct Hp as (b' & Hbb & Hrows & _). destruct (Hrows d x HxR) as [[HxL Hg]|[Hi|Ho]]; [..|lia]; exfalso.
  - exact (Hap i j t u x (not_eq_sym Hne) Ht Hu Hg (HL x HxL) Hxu).
  - destruct st'; cbn in Hi; try done. subst x.
    apply (Hnew i j t u u0 gid v4 (not_eq_sym Hne) Ht Hu); [by rewrite Ep|done].
Qed.

(** ** Nobody goes on for ever *)

(** The action is a step of transaction [i]. *)
Definition moves_of (i : nat) (a : @action job) : bool :=
  match a with go j | draw j _ | rand j _ => bool_decide (j = i) | begin_ _ _ | break _ => false end.

(** What is left of transaction [i], if it still runs. *)
Definition remains (i n : nat) (s : sys) : Prop := match running s !! i with Some t => fits n t | None => True end.

Lemma remains_with i n t s : fits n t -> remains i n (with_tx i t s).
Proof. unfold remains, with_tx. cbn. by rewrite lookup_insert_eq. Qed.
Lemma remains_without i n s : remains i n (rolled_back i s).
Proof. unfold remains, rolled_back. cbn. by rewrite lookup_delete_eq. Qed.

Lemma proceed_shortens i t s s' n :
  lawful t -> fits n t -> proceed i t s = Some s' -> exists m, n = S m /\ remains i m s'.
Proof.
  intros Hl Hf. pose proof (waits_for_write t Hl) as Hnw. unfold proceed, fits in *.
  destruct (tx_prog t) as [r|B f k|k|k|B st rows act k] eqn:Ep; [| |done|done|].
  - rewrite Hnw in Hf by done. destruct n as [|m]; [cbn in Hf; lia|]. intros Hs. exists m. split; [done|].
    destruct r; injection Hs as <-; unfold remains; cbn; by rewrite lookup_delete_eq.
  - rewrite Hnw in Hf by done. destruct Hf as (m & -> & Hm). intros [= <-]. exists m. split; [done|]. apply remains_with. exact (Hm _).
  - destruct (tx_waits t) as [R|] eqn:Ew; destruct Hf as (m & E & Hm).
    + destruct (available i R s); [|done]. intros [= <-]. exists m. split; [lia|].
      destruct (act R (view s t)) as [[[r held] e]| |]; [|apply remains_without..]. apply remains_with. exact (Hm r).
    + intros [= <-]. exists (S m). split; [done|]. apply remains_with. cbn. by exists m.
Qed.

Lemma own_shortens a i s s' n :
  all_lawful s -> own_action a -> perform program a s = Some s' -> remains i n s ->
  if moves_of i a then exists m, n = S m /\ remains i m s' else remains i n s'.
Proof.
  intros Hs Ho Hact Hr.
  assert (Hother : forall j t, j <> i -> remains i n (with_tx j t s)).
  { intros j t Hne. unfold remains, with_tx. cbn. by rewrite lookup_insert_ne. }
  assert (Hgone : forall j db es, j <> i -> remains i n (mkSys db (delete j (running s)) es)).
  { intros j db es Hne. unfold remains. cbn. by rewrite lookup_delete_ne. }
  destruct a as [j jb|j|j u|j r|j]; try done; cbn in Hact; destruct (running s !! j) as [t|] eqn:Et; try done; cbn in Hact;
    cbn [moves_of]; case_bool_decide as Hij.
  - subst j. unfold remains in Hr. rewrite Et in Hr. apply (proceed_shortens i t s s' n); [by apply (Hs i)|done|done].
  - unfold proceed in Hact. destruct (tx_prog t) as [[]|B f k|k|k|B st rows act k]; try done;
      try (injection Hact as <-; by apply Hgone || by apply Hother).
    destruct (tx_waits t) as [R|]; [|injection Hact as <-; by apply Hother].
    destruct (available j R s); [|done]. injection Hact as <-. destruct (act R (view s t)) as [[[]]| |]; [by apply Hother|by apply Hgone..].
  - subst j. unfold remains in Hr. rewrite Et in Hr. pose proof (waits_for_write t (Hs i t Et)) as Hnw. unfold fits in Hr.
    destruct (tx_prog t) as [| |k| |]; try done. injection Hact as <-. rewrite Hnw in Hr by done. destruct Hr as (m & -> & Hm).
    exists m. split; [done|]. apply remains_with. exact (Hm u).
  - destruct (tx_prog t); try done. injection Hact as <-. by apply Hother.
  - subst j. unfold remains in Hr. rewrite Et in Hr. pose proof (waits_for_write t (Hs i t Et)) as Hnw. unfold fits in Hr.
    destruct (tx_prog t) as [| | |k|]; try done. injection Hact as <-. rewrite Hnw in Hr by done. destruct Hr as (m & -> & Hm).
    exists m. split; [done|]. apply remains_with. exact (Hm r).
  - destruct (tx_prog t); try done. injection Hact as <-. by apply Hother.
Qed.

Lemma own_steps_bound as_ : forall i s s' n,
  all_lawful s -> Forall own_action as_ -> perform_all program as_ s = Some s' -> remains i n s ->
  (length (List.filter (moves_of i) as_) <= n)%nat.
Proof.
  induction as_ as [|a as_ IH]; intros i s s' n Hs Ho Hp Hr; [cbn; lia|]. apply Forall_cons in Ho as [Ho Hos].
  unfold perform_all in Hp. cbn [foldl mbind option_bind] in Hp. destruct (perform program a s) as [s1|] eqn:E.
  - assert (Hs1 : all_lawful s1) by (apply (lawful_step s); [done|by apply (step_tx program a)]).
    pose proof (own_shortens a i s s1 n Hs Ho E Hr) as Hr1. cbn [List.filter]. destruct (moves_of i a).
    + destruct Hr1 as (m & -> & Hm). specialize (IH i s1 s' m Hs1 Hos Hp Hm). cbn [length]. lia.
    + by apply (IH i s1 s').
  - exfalso. clear -Hp. induction as_ as [|a' as_ IH]; [done|by apply IH].
Qed.

(** C11: overlapping transactions end. Whatever has happened, as long as a transaction runs one of
    them can take its next step: they do not wait for each other in a circle, so PostgreSQL has
    none to end for a deadlock; that the ids drawn for leases are new is all that is asked. And
    no transaction takes more than fifteen more steps, however they are scheduled. *)
Theorem overlapping_transactions_end `{!PostgresInet} db s :
  wf db -> reachable program db s ->
  (new_keys s -> running s <> ∅ -> can_go_on s) /\
  forall as_ s' i, Forall own_action as_ -> perform_all program as_ s = Some s' ->
    (length (List.filter (moves_of i) as_) <= longest)%nat.
Proof.
  intros Hwf Hr. pose proof (lawful_reachable _ _ Hr) as Hl.
  apply inv_reachable in Hr as [_ _ _ Hap _]; [|done]. split.
  - intros Hnew Hrun.
    assert (Hn : forall n, can_go_on s \/ exists i t x, running s !! i = Some t /\ x ∈ tx_locks t /\ (S n <= order x)%nat).
    { induction n as [|n [IH|(i & t & x & Ht & Hx & Hox)]]; [|by left|].
      - apply map_choose in Hrun as (i & t & Ht). destruct (moves_or_waits i t s Ht (Hl i t Ht)) as [?|Hw]; [by left|right].
        by apply (waits_higher i t s 0 Hap Hnew Ht (Hl i t Ht) Hw); left.
      - destruct (moves_or_waits i t s Ht (Hl i t Ht)) as [?|Hw]; [by left|right].
        apply (waits_higher i t s (S n) Hap Hnew Ht (Hl i t Ht) Hw). right. by exists x. }
    destruct (Hn 6%nat) as [?|(i & t & x & _ & _ & Hx)]; [done|]. destruct x; cbn in Hx; lia.
  - intros as_ s' i Ho Hp. unfold remains in *. destruct (running s !! i) as [t|] eqn:Et.
    + destruct (lw_steps t (Hl i t Et)) as (n & Hn & Hf). etrans; [|exact Hn].
      apply (own_steps_bound as_ i s s' n Hl Ho Hp). unfold remains. by rewrite Et.
    + apply (own_steps_bound as_ i s s' longest Hl Ho Hp). unfold remains. by rewrite Et.
Qed.

End progress.
