(* ===== verification/Races.v ===== *)
(** What overlapping transactions do not keep: executions of the demonstration's deployment,
    statement by statement. *)
From S2P Require Import Prelude Floats Model Alloc Db Session StoreGateways StoreIdentity StoreConnections Schema Facts Steps System Demo Interleave Overlap Others Stages Contention Progress.

#[local] Existing Instance demo_pg.

(** A request for a connection. *)
Definition connects_at (t : Time) (device : string) : job :=
  connecting (mkConnectArgs (at_time t) "user1" device "de" Hour TTL).

(** A registration of a gateway, with its key and its network. *)
Definition registers_at (t : Time) (name code key subnet token : string) : job :=
  registering (mkRegisterArgs (at_time t)
    (mkGatewayRegistration name code "Germany" "" "" "192.0.2.9" 51820 key subnet "" 1 0 None None) token).

Definition moves (i n : nat) : list (@action job) := repeat (go i) n.

(** From the candidate query to the commit, waiting for nobody. *)
Definition choose_and_commit (i : nat) (u : string) : list (@action job) := moves i 4 ++ [draw i u] ++ moves i 3.

(** A registration from its first id to its commit, waiting for nobody. *)
Definition register_and_commit (i : nat) (location gateway : string) : list (@action job) :=
  [draw i location] ++ moves i 2 ++ [draw i gateway] ++ moves i 5.

(** The system after some actions; the same system when one of them is not possible. *)
Definition after (as_ : list action) (s : sys) : sys := default s (perform_all program as_ s).
Definition possible (as_ : list action) (s : sys) : bool := bool_decide (is_Some (perform_all program as_ s)).
Definition idle (db : DB) : sys := mkSys db ∅ [].

Lemma after_steps as_ s : possible as_ s = true -> rtc (step program) s (after as_ s).
Proof. unfold possible, after. intros Hp. to_prop. destruct Hp as [s' E]. rewrite E. by apply (perform_all_reachable _ as_). Qed.

(** The phone asks twice, because its first request took too long. The second statement 1b
    starts while the first transaction is running, and waits for the lease both release. *)
Definition asked_twice : list action :=
  [begin_ 1 (connects_at 6000 "dev1"); begin_ 2 (connects_at 6001 "dev1")] ++
  moves 1 3 ++ moves 2 2 ++ choose_and_commit 1 "lease2" ++ moves 2 1 ++ choose_and_commit 2 "lease3".

(** A gateway for one, and two devices that ask for it. *)
Definition small_script : list call := [
  fine (RegisterGateway_ (mkGatewayRegistration "de-1" "de" "Germany" "" "" "192.0.2.1" 51820 "gwkey" "10.7.50.0/24" "" 1 0 None None))
    1000 ["loc1"; "gw1"] [random_a];
  fine (Heartbeat_ hash_a (mkGatewayMetrics 0 Fzero 0 0)) 2000 [] [];
  fine (CreateInvite_ "INVITE" "" None) 3000 [] [];
  fine (Enroll_ demo_enroll Hour) 4000 ["user1"; "dev1"; "tok1"] [random_b];
  fine (CreateDevice_ "user1" (mkDeviceRegistration "laptop" "linux" "laptopkey") Hour) 4500 ["dev2"; "tok2"] [random_c]
].
Definition small_db : DB := Eval vm_compute in (exec small_script empty_db).2.

(** Both count the gateway's leases before either has inserted one. *)
Definition counted_before : list action :=
  [begin_ 1 (connects_at 6000 "dev1"); begin_ 2 (connects_at 6001 "dev2")] ++
  moves 1 4 ++ moves 2 4 ++ drop 1 (choose_and_commit 1 "lease1") ++ drop 1 (choose_and_commit 2 "lease2").

(** Another request served in between, with the ids and the random bytes it draws. *)
Definition meanwhile (q : request) (c : Clock) (us : list string) (bs : list (list Z)) (s : sys) : sys :=
  mkSys (s_db (serve q c (mkSession (committed s) [] us bs)).2) (running s) (ended s).

(** The phone is revoked after the transaction has looked at it. *)
Definition looked : sys := after [begin_ 1 (connects_at 6000 "dev1"); go 1] (idle demo_db).
Definition revoked : sys := meanwhile (RevokeDevice_ "user1" "dev1") (at_time 6001) [] [] looked.
Definition too_late : list action := moves 1 2 ++ choose_and_commit 1 "lease2".

(** The gateway is registered again, with a new key and another network, after the
    transaction has read the candidates and before it has locked the one it chose. *)
Definition registered_between : list action :=
  [begin_ 1 (connects_at 6000 "dev1")] ++ moves 1 4 ++
  [begin_ 2 (registers_at 6001 "de-1" "de" "newkey" "10.8.0.0/24" token_b)] ++ register_and_commit 2 "loc2" "gw2" ++
  drop 1 (choose_and_commit 1 "lease1").

Lemma small_wf : wf small_db.
Proof.
  pose proof (exec_run small_script empty_db) as Hr. change (exec small_script empty_db).2 with (exec small_script empty_db).2 in Hr.
  apply run_good in Hr as [Hwf _]; [|exact wf_empty]. assert (E : (exec small_script empty_db).2 = small_db) by (vm_compute; reflexivity).
  by rewrite E in Hwf.
Qed.

Definition twice : sys := after asked_twice (idle demo_db).
Definition full : sys := after counted_before (idle small_db).
Definition late : sys := after too_late revoked.
Definition stale_grant : sys := after registered_between (idle small_db).

Lemma twice_reachable : reachable program demo_db twice.
Proof. apply (after_steps asked_twice (idle demo_db)). vm_compute. reflexivity. Qed.

Lemma full_reachable : reachable program small_db full.
Proof. apply (after_steps counted_before (idle small_db)). vm_compute. reflexivity. Qed.

(** A running transaction that holds nothing delays nobody. *)
Lemma step_by q c us bs s :
  overlapping q = false -> bool_decide (map_Forall (fun _ t => tx_locks t = ∅) (running s)) = true ->
  step program s (meanwhile q c us bs s).
Proof.
  intros Hq Hl. to_prop. unfold meanwhile.
  destruct (serve q c (mkSession (committed s) [] us bs)) as [r s'] eqn:E. apply step_outside.
  - by apply (serve_outside _ _ _ _ _ Hq E).
  - intros i t x Ht. rewrite (Hl i t Ht). by intros ?%elem_of_empty.
Qed.

Lemma late_reachable : reachable program demo_db late.
Proof.
  unfold reachable. etrans; [apply (after_steps [begin_ 1 (connects_at 6000 "dev1"); go 1] (idle demo_db)); vm_compute; reflexivity|].
  apply (rtc_l _ _ revoked); [|apply (after_steps too_late revoked); vm_compute; reflexivity].
  apply (step_by (RevokeDevice_ "user1" "dev1") (at_time 6001) [] [] looked); [done|vm_compute; reflexivity].
Qed.

Lemma stale_grant_reachable : reachable program small_db stale_grant.
Proof. apply (after_steps registered_between (idle small_db)). vm_compute. reflexivity. Qed.

(** C13: what the row locks do not save. From well-formed tables, overlapping requests leave a
    device with two active connections; more active connections on a gateway than it has
    capacity for; an active connection, which its owner can renew, on a device that was
    revoked before the connection was recorded; and a grant that names a public key its
    gateway has not any more, since a registration came between the choice and the lock. *)
Theorem overlaps_break :
  (exists db s, wf db /\ reachable program db s /\ running s = ∅ /\ ~ unique active_device (leases (committed s))) /\
  (exists db s gid g, wf db /\ reachable program db s /\ running s = ∅ /\ lease_count db gid = 0 /\
     gateways (committed s) !! gid = Some g /\ g_capacity g < lease_count (committed s) gid) /\
  (exists db s k l d, wf db /\ reachable program db s /\ running s = ∅ /\
     leases (committed s) !! k = Some l /\ is_active l = true /\
     devices (committed s) !! le_device_id l = Some d /\ d_revoked_at d <> None /\
     is_ok (RenewConnection (d_user_id d) k Hour (at_time 7000) (mkSession (committed s) [] [] [])).1 = true) /\
  (exists db s j conn l g, wf db /\ reachable program db s /\ running s = ∅ /\ head (ended s) = Some (j, granted conn) /\
     leases (committed s) !! conn_ID conn = Some l /\ is_active l = true /\
     gateways (committed s) !! le_gateway_id l = Some g /\ g_status g <> GatewayHealthy /\
     conn_GatewayPublicKey conn <> g_public_key g).
Proof.
  splits.
  - exists demo_db, twice. splits; [apply demo_wf|apply twice_reachable|vm_compute; reflexivity|].
    intros Hu.
    pose (lease ip t := mkLeaseRow "gw1" "dev1" "phonekey" ip None Active (t + Hour) None).
    specialize (Hu "lease2" "lease3" (lease "10.7.50.2" 6000) (lease "10.7.50.3" 6001) "dev1").
    discriminate Hu; vm_compute; reflexivity.
  - exists small_db, full, "gw1". eexists. splits; [apply small_wf|apply full_reachable|vm_compute; reflexivity..].
  - exists demo_db, late, "lease2". do 2 eexists.
    splits; [apply demo_wf|apply late_reachable|vm_compute; reflexivity|vm_compute; reflexivity|vm_compute; reflexivity
      |vm_compute; reflexivity|discriminate|vm_compute; reflexivity].
  - exists small_db, stale_grant. do 4 eexists.
    splits; [apply small_wf|apply stale_grant_reachable|vm_compute; reflexivity|vm_compute; reflexivity|vm_compute; reflexivity
      |vm_compute; reflexivity|vm_compute; reflexivity|discriminate|discriminate].
Qed.

(** ** Instances of the properties of overlapping transactions *)

(** Both requests are about to insert: the first holds the gateway's row, the second waits. *)
Definition inserting : sys :=
  after ([begin_ 1 (connects_at 6000 "dev1"); begin_ 2 (connects_at 6001 "dev2")] ++ moves 1 4 ++ moves 2 5 ++ moves 1 3 ++ [draw 1 "lease1"])
    (idle small_db).

Lemma inserting_reachable : reachable program small_db inserting.
Proof.
  apply (after_steps ([begin_ 1 (connects_at 6000 "dev1"); begin_ 2 (connects_at 6001 "dev2")] ++ moves 1 4 ++ moves 2 5 ++ moves 1 3 ++ [draw 1 "lease1"])
           (idle small_db)).
  vm_compute. reflexivity.
Qed.

Lemma allocation_is_race_free_witness :
  wf small_db /\ reachable program small_db inserting /\ unique active_ip (leases (committed inserting)) /\
  exists t, running inserting !! 1%nat = Some t /\ find_row (taken "gw1" "10.7.50.2") (leases (view inserting t)) = None.
Proof.
  split; [exact small_wf|]. split; [exact inserting_reachable|].
  destruct (allocation_is_race_free small_db inserting small_wf inserting_reachable) as [Hu Hi]. split; [exact Hu|].
  assert (Es : (fun t => (tx_job t, statement_of (tx_prog t))) <$> running inserting !! 1%nat =
    Some (connects_at 6000 "dev1", Some (INSERT_lease "lease1" "gw1" "10.7.50.2"))) by (vm_compute; reflexivity).
  destruct (running inserting !! 1%nat) as [t|] eqn:Et; [|discriminate Es]. cbn [fmap option_fmap option_map] in Es.
  injection Es as Ej Es. exists t. split; [reflexivity|]. exact (Hi 1%nat t _ _ _ _ "10.7.50.2" Et Ej Es eq_refl).
Defined.

(** There, too, somebody can go on: the second waits for the row the first holds, and for no more. *)
Lemma overlapping_transactions_end_witness :
  wf small_db /\ reachable program small_db inserting /\ can_go_on inserting /\
  (length (List.filter (moves_of 1) (moves 1 3 ++ moves 2 1)) <= longest)%nat /\ possible (moves 1 3 ++ moves 2 1) inserting = true.
Proof.
  split; [exact small_wf|]. split; [exact inserting_reachable|].
  destruct (overlapping_transactions_end small_db inserting small_wf inserting_reachable) as [Hgo Hend].
  assert (Es : (fun t => (statement_of (tx_prog t), tx_locks t)) <$> running inserting =
    {[ 1%nat := (Some (INSERT_lease "lease1" "gw1" "10.7.50.2"), {[gateway_lock "gw1"]}); 2%nat := (Some (LOCK_gateway "gw1"), ∅) ]})
    by (vm_compute; reflexivity).
  assert (Hp : possible (moves 1 3 ++ moves 2 1) inserting = true) by (vm_compute; reflexivity).
  assert (Esize : size (running inserting) = 2%nat) by (vm_compute; reflexivity).
  split; [apply Hgo|split; [|exact Hp]].
  - intros i j t u k gid v4 Hne Ht Hu Hst.
    assert (Hu' : ((fun t => (statement_of (tx_prog t), tx_locks t)) <$> running inserting) !! j = Some (statement_of (tx_prog u), tx_locks u))
      by (by rewrite lookup_fmap, Hu).
    rewrite Es in Hu'. apply lookup_insert_Some in Hu' as [(_ & [= _ <-])|(_ & (_ & [= _ <-])%lookup_singleton_Some)];
      [by intros ?%elem_of_singleton|by intros ?%elem_of_empty].
  - intros Hr. apply (f_equal size) in Hr. rewrite map_size_empty, Esize in Hr. discriminate Hr.
  - pose proof Hp as Hp'. unfold possible in Hp'. to_prop. destruct Hp' as [s' Es'].
    apply (Hend (moves 1 3 ++ moves 2 1) s' 1%nat); [repeat constructor|exact Es'].
Defined.

(** Two enrolments with one invite: the second has started to wait when the first marks it. *)
Definition enrols_at (t : Time) (email key : string) : job :=
  enrolling (mkEnrolArgs (at_time t) (mkEnrollRequest "INVITE" email "" (mkDeviceRegistration "phone" "ios" key)) Hour).

Definition invited_db : DB := Eval vm_compute in (exec (take 3 demo_script) empty_db).2.

Lemma invited_wf : wf invited_db.
Proof.
  pose proof (exec_run (take 3 demo_script) empty_db) as Hr. apply run_good in Hr as [Hwf _]; [|exact wf_empty].
  assert (E : (exec (take 3 demo_script) empty_db).2 = invited_db) by (vm_compute; reflexivity). by rewrite E in Hwf.
Qed.

Definition both_enrol : list action :=
  [begin_ 1 (enrols_at 4000 "ana@example.org" "phonekey"); begin_ 2 (enrols_at 4001 "bob@example.org" "otherkey")] ++
  moves 1 2 ++ moves 2 1 ++ [draw 1 "user1"] ++ moves 1 2 ++ [draw 1 "dev1"] ++ moves 1 4 ++
  [rand 1 random_b; draw 1 "tok1"] ++ moves 1 3 ++ moves 2 2.

Definition enrolled_once : sys := after both_enrol (idle invited_db).

Lemma enrolled_once_reachable : reachable program invited_db enrolled_once.
Proof. apply (after_steps both_enrol (idle invited_db)). vm_compute. reflexivity. Qed.

(** Two registrations of one gateway follow, from two countries: the second has looked for the
    name when the first has entered it, waits, and updates the first one's row. *)
Definition both_register : list action :=
  [begin_ 1 (registers_at 5000 "fr-1" "fr" "onekey" "10.9.0.0/24" token_a); begin_ 2 (registers_at 5001 "fr-1" "gf" "twokey" "10.9.0.0/24" token_b)] ++
  [draw 1 "loc2"; draw 2 "loc3"] ++ moves 1 2 ++ moves 2 2 ++ [draw 1 "gw2"; draw 2 "gw3"] ++
  moves 1 2 ++ moves 2 1 ++ moves 1 3 ++ moves 2 4.

Definition registered_once : sys := after both_register enrolled_once.

Lemma registered_once_reachable : reachable program invited_db registered_once.
Proof.
  unfold reachable. etrans; [exact enrolled_once_reachable|]. apply (after_steps both_register enrolled_once). vm_compute. reflexivity.
Qed.

Lemma overlapping_requests_repeat_nothing_witness :
  wf invited_db /\ reachable program invited_db registered_once /\ running registered_once = ∅ /\
  length (redeemed "INVITE" registered_once) = 1%nat /\ length (ended registered_once) = 3%nat /\
  g_public_key <$> gateways (committed registered_once) !! "gw2" = Some "twokey" /\
  gateways (committed registered_once) !! "gw3" = None /\
  (length (redeemed "INVITE" registered_once) <= 1)%nat /\ unique (fun g => Some (g_name g)) (gateways (committed registered_once)).
Proof.
  split; [exact invited_wf|]. split; [exact registered_once_reachable|]. do 5 (split; [vm_compute; reflexivity|]).
  exact (overlapping_requests_repeat_nothing invited_db registered_once "INVITE" invited_wf registered_once_reachable).
Defined.

(** The phone's transaction, run alone on the deployment, grants it a connection. *)
Lemma program_alone_witness :
  let j := connects_at 6000 "dev1" in
  let s := mkSession demo_db [] ["lease2"] [] in
  run_prog (program j) (alone j).1 s = (alone j).2 (alone j).1 s /\
  is_ok (run_prog (program j) (alone j).1 s).1 = true.
Proof. split; [apply program_alone|vm_compute; reflexivity]. Defined.
