(* ===== verification/Api.v ===== *)
(** The HTTP surface of the control plane: [control-plane/internal/api/*.go]. A handler
    reads a request, calls the store in the monad [M] of its operations, and returns the
    reply with the counters of [internal/metrics/metrics.go] it increments. *)
From S2P Require Import Prelude Floats Model GoStrings NetAddr Crypto Json GoTime Jwt Password Ratelimit Alloc Db Session StoreGateways StoreIdentity StoreConnections Http.

(** ** The store the handlers see *)

(** [type Store interface] *)
Class Store := {
  st_ListLocations : M (list Location);
  st_RegisterGateway : GatewayRegistration -> M (Gateway * string);
  st_Heartbeat : string -> GatewayMetrics -> M Gateway;
  st_DeregisterGateway : string -> M ();
  st_ListGateways : M (list Gateway);
  st_Enroll : EnrollRequest -> Duration -> M (User * Device * string);
  st_CreateDevice : string -> DeviceRegistration -> Duration -> M (Device * string);
  st_ListDevices : string -> M (list Device);
  st_RevokeDevice : string -> string -> M ();
  st_RefreshAccess : string -> M (string * string);
  st_CreateInvite : string -> string -> option Time -> M ();
  st_SetPassword : string -> string -> M ();
  st_GetCredentialsByEmail : string -> M (string * string * string);
  st_CreateConnection : string -> string -> string -> Duration -> Duration -> M Connection;
  st_ReleaseConnection : string -> string -> M ();
  st_RenewConnection : string -> string -> Duration -> M Time;
  st_GatewayPeers : string -> M (list Peer)
}.

Record ServerConfig := mkServerConfig {
  EnrollmentSecret : string;
  AdminToken : string;
  HeartbeatTTL : Duration;
  JWTSecret : string;
  AccessTTL : Duration;
  RefreshTTL : Duration;
  LeaseTTL : Duration;
  ClientDNS : list string;      (* never nil: the configuration has a default *)
  ProbePort : Z;
  AuthRatePerMin : Z;
  AuthBurst : Z;
  TrustProxy : bool
}.

(** The counters of [metrics]: name and label. *)
Inductive metric := connections_total (result : string) | auth_total (result : string).

Definition ConnCreated : metric := connections_total "created".
Definition ConnFailed (reason : string) : metric := connections_total reason.
Definition Auth (result : string) : metric := auth_total result.

Definition Response : Type := Reply * list metric.
Definition reply (r : Reply) : M Response := ret (r, []).
Definition counted (m : metric) (r : Reply) : M Response := ret (r, [m]).

(** ** Request bodies *)

Definition kB16 : nat := Z.to_nat (2 ^ 14).
Definition kB64 : nat := Z.to_nat (2 ^ 16).

Definition str : Decoder string * string := (d_string, EmptyString).
Definition int : Decoder Z * Z := (d_int, 0).
Definition flt : Decoder float64 * float64 := (d_float, Fzero).
Definition flt_ptr : Decoder (option float64) * option float64 := (d_float_ptr, None).
Definition inside {A} (k : string) (d : Decoder A * A) : Decoder A * A := (at_key k d.1, d.2).

Notation "d & k ':=' e" := (with_field d (at_key k (fst e)) (snd e)) (at level 51, left associativity, k at level 0, e at level 10).

Record loginRequest := mkLoginRequest { lr_Email : string; lr_Password : string }.
Definition decode_login : Struct loginRequest := new mkLoginRequest & "email" := str & "password" := str.

Definition decode_set_password : Struct string := new id & "password" := str.

Definition decode_refresh : Struct string := new id & "refresh_token" := str.

Definition decode_device : Struct DeviceRegistration :=
  new mkDeviceRegistration & "name" := str & "platform" := str & "public_key" := str.

(** [device] is a struct inside the struct. *)
Definition decode_enroll : Struct EnrollRequest :=
  new (fun code email name dn dp dk => mkEnrollRequest code email name (mkDeviceRegistration dn dp dk))
    & "invite_code" := str & "email" := str & "display_name" := str
    & "device" := (inside "name" str) & "device" := (inside "platform" str)
    & "device" := (inside "public_key" str).

Record inviteCreateRequest := mkInviteCreateRequest { ir_Note : string; ir_TTL : string }.
Definition decode_invite : Struct inviteCreateRequest := new mkInviteCreateRequest & "note" := str & "ttl" := str.

Record connectRequest := mkConnectRequest { cr_CountryCode : string; cr_DeviceID : string }.
Definition decode_connect : Struct connectRequest := new mkConnectRequest & "country_code" := str & "device_id" := str.

Definition decode_registration : Struct GatewayRegistration :=
  new mkGatewayRegistration & "name" := str & "country_code" := str & "country_name" := str & "city" := str
    & "region" := str & "endpoint_host" := str & "endpoint_port" := int & "public_key" := str
    & "wg_subnet_v4" := str & "wg_subnet_v6" := str & "capacity" := int & "bandwidth_mbps" := int
    & "latitude" := flt_ptr & "longitude" := flt_ptr.

Definition decode_metrics : Struct GatewayMetrics :=
  new mkGatewayMetrics & "active_peers" := int & "cpu_pct" := flt & "rx_bps" := int & "tx_bps" := int.

Definition set_port (p : Z) (r : GatewayRegistration) : GatewayRegistration :=
  mkGatewayRegistration (reg_Name r) (reg_CountryCode r) (reg_CountryName r) (reg_City r) (reg_Region r)
    (reg_EndpointHost r) p (reg_PublicKey r) (reg_WGSubnetV4 r) (reg_WGSubnetV6 r) (reg_Capacity r)
    (reg_BandwidthMbps r) (reg_Latitude r) (reg_Longitude r).

Definition validateEnroll (r : EnrollRequest) : option string :=
  if bool_decide (er_InviteCode r = EmptyString) then Some "invite_code is required"
  else if negb (has_char "@" (er_Email r)) then Some "a valid email is required"
  else if bool_decide (dr_Name (er_Device r) = EmptyString) then Some "device.name is required"
  else if negb (ValidPlatform (dr_Platform (er_Device r)))
  then Some "device.platform must be one of ios, macos, android, windows, linux, cli"
  else if bool_decide (dr_PublicKey (er_Device r) = EmptyString) then Some "device.public_key is required"
  else None.

Definition validateRegistration (r : GatewayRegistration) : option string :=
  if bool_decide (reg_Name r = EmptyString) then Some "name is required"
  else if bool_decide (reg_CountryCode r = EmptyString) then Some "country_code is required"
  else if bool_decide (reg_CountryName r = EmptyString) then Some "country_name is required"
  else if bool_decide (reg_EndpointHost r = EmptyString) then Some "endpoint_host is required"
  else if bool_decide (reg_PublicKey r = EmptyString) then Some "public_key is required"
  else if bool_decide (reg_WGSubnetV4 r = EmptyString) then Some "wg_subnet_v4 is required"
  else if reg_Capacity r <=? 0 then Some "capacity must be > 0"
  else None.

(** The checks of [handleDeviceCreate]. *)
Definition validateDevice (r : DeviceRegistration) : option string :=
  if bool_decide (dr_Name r = EmptyString) then Some "name is required"
  else if negb (ValidPlatform (dr_Platform r))
  then Some "platform must be one of ios, macos, android, windows, linux, cli"
  else if bool_decide (dr_PublicKey r = EmptyString) then Some "public_key is required"
  else None.

(** ** Reply bodies *)

Definition locationDTO (l : Location) : json :=
  JObj [("code", JStr (loc_Code l)); ("country", JStr (loc_CountryName l)); ("available", JBool (Available l));
        ("servers", JNum (Itoa (loc_ServerCount l)))].

Record tokenResponse := mkTokenResponse {
  tr_AccessToken : string;
  tr_TokenType : string;
  tr_ExpiresIn : Z;
  tr_RefreshToken : string;
  tr_UserID : string;
  tr_DeviceID : string
}.

Definition tokenResponse_json (t : tokenResponse) : json :=
  JObj (str_field_opt "access_token" (tr_AccessToken t) ++ str_field "token_type" (tr_TokenType t) ++
        int_field_opt "expires_in" (tr_ExpiresIn t) ++ str_field_opt "refresh_token" (tr_RefreshToken t) ++
        str_field_opt "user_id" (tr_UserID t) ++ str_field_opt "device_id" (tr_DeviceID t)).

Record deviceDTO := mkDeviceDTO {
  dd_ID : string;
  dd_Name : string;
  dd_Platform : string;
  dd_PublicKey : string;
  dd_CreatedAt : string;
  dd_LastSeenAt : option string;
  dd_Revoked : bool
}.

Definition deviceDTO_json (d : deviceDTO) : json :=
  JObj (str_field "id" (dd_ID d) ++ str_field "name" (dd_Name d) ++ str_field "platform" (dd_Platform d) ++
        str_field "public_key" (dd_PublicKey d) ++ str_field "created_at" (dd_CreatedAt d) ++
        ptr_field_opt "last_seen_at" (dd_LastSeenAt d) ++ [("revoked", JBool (dd_Revoked d))]).

Definition toDeviceDTO (d : Device) : deviceDTO := {|
  dd_ID := dev_ID d;
  dd_Name := dev_Name d;
  dd_Platform := dev_Platform d;
  dd_PublicKey := dev_PublicKey d;
  dd_CreatedAt := FormatRFC3339 (dev_CreatedAt d);
  dd_LastSeenAt := FormatRFC3339 <$> dev_LastSeenAt d;
  dd_Revoked := bool_decide (is_Some (dev_RevokedAt d))
|}.

Definition gatewayProbeAddr (assignedIP : string) (port : Z) : string :=
  let host := match Cut "/" assignedIP with Some (h, _) => h | None => assignedIP end in
  match ParseIP host ≫= To4 with
  | Some [a; b; c; _] => JoinHostPort (ipv4_string [a; b; c; 1]) (Itoa port)
  | _ => EmptyString
  end.

Definition connectionResponse (cfg : ServerConfig) (conn : Connection) : json :=
  JObj (str_field "connection_id" (conn_ID conn) ++
        [("server", JObj (str_field "name" (conn_GatewayName conn) ++ str_field "country" (conn_Country conn) ++
            str_field_opt "city" (conn_City conn) ++ str_field "endpoint" (conn_Endpoint conn) ++
            str_field "public_key" (conn_GatewayPublicKey conn)))] ++
        str_field "assigned_ip" (conn_AssignedIPv4 conn) ++ ptr_field_opt "assigned_ip6" (conn_AssignedIPv6 conn) ++
        [("dns", strings_json (ClientDNS cfg)); ("allowed_ips", strings_json ["0.0.0.0/0"; "::/0"])] ++
        int_field "persistent_keepalive" 25 ++ str_field "expires_at" (FormatRFC3339 (conn_ExpiresAt conn)) ++
        str_field_opt "probe_addr" (gatewayProbeAddr (conn_AssignedIPv4 conn) (ProbePort cfg))).

Definition peer_json (p : Model.Peer) : json :=
  JObj [("public_key", JStr (peer_PublicKey p)); ("allowed_ips", strings_json (peer_AllowedIPs p))].

Definition endpoint (host : string) (port : Z) : string :=
  JoinHostPort host (Itoa (if port =? 0 then 51820 else port)).

(** A number field; [None] when the float has no text. *)
Definition float_field (k : string) (f : float64) : option (list (string * json)) :=
  (fun t => [(k, JNum t)]) <$> FormatFloat f.
Definition float_ptr_field (k : string) (f : option float64) : option (list (string * json)) :=
  match f with Some f => float_field k f | None => Some [] end.

Record gatewayDTO := mkGatewayDTO {
  gd_ID : string;
  gd_Name : string;
  gd_Country : string;
  gd_CountryCode : string;
  gd_City : string;
  gd_Region : string;
  gd_Endpoint : string;
  gd_PublicKey : string;
  gd_Status : string;
  gd_Online : bool;
  gd_Capacity : Z;
  gd_ActivePeers : Z;
  gd_CPUPct : float64;
  gd_RxBps : Z;
  gd_TxBps : Z;
  gd_BandwidthMbps : Z;
  gd_Latitude : option float64;
  gd_Longitude : option float64;
  gd_LastHeartbeatAt : option string
}.

Definition gatewayDTO_json (g : gatewayDTO) : option json :=
  match float_field "cpu_pct" (gd_CPUPct g), float_ptr_field "latitude" (gd_Latitude g),
        float_ptr_field "longitude" (gd_Longitude g) with
  | Some cpu, Some lat, Some lon =>
      Some (JObj (str_field "id" (gd_ID g) ++ str_field "name" (gd_Name g) ++ str_field "country" (gd_Country g) ++
        str_field "country_code" (gd_CountryCode g) ++ str_field_opt "city" (gd_City g) ++
        str_field_opt "region" (gd_Region g) ++ str_field "endpoint" (gd_Endpoint g) ++
        str_field "public_key" (gd_PublicKey g) ++ str_field "status" (gd_Status g) ++
        [("online", JBool (gd_Online g))] ++ int_field "capacity" (gd_Capacity g) ++
        int_field "active_peers" (gd_ActivePeers g) ++ cpu ++ int_field "rx_bps" (gd_RxBps g) ++
        int_field "tx_bps" (gd_TxBps g) ++ int_field_opt "bandwidth_mbps" (gd_BandwidthMbps g) ++ lat ++ lon ++
        ptr_field_opt "last_heartbeat_at" (gd_LastHeartbeatAt g)))
  | _, _, _ => None
  end.

Definition toGatewayDTO (g : Gateway) (now : Time) (ttl : Duration) : gatewayDTO := {|
  gd_ID := ID g;
  gd_Name := Name g;
  gd_Country := CountryName g;
  gd_CountryCode := LocationCode g;
  gd_City := City g;
  gd_Region := Region g;
  gd_Endpoint := endpoint (EndpointHost g) (EndpointPort g);
  gd_PublicKey := PublicKey g;
  gd_Status := status_string (Status g);
  gd_Online := Online g now ttl;
  gd_Capacity := Capacity g;
  gd_ActivePeers := ActivePeers g;
  gd_CPUPct := CPUPct g;
  gd_RxBps := RxBps g;
  gd_TxBps := TxBps g;
  gd_BandwidthMbps := BandwidthMbps g;
  gd_Latitude := Latitude g;
  gd_Longitude := Longitude g;
  gd_LastHeartbeatAt := FormatRFC3339 <$> LastHeartbeatAt g
|}.

(** ** Handlers *)

Section handlers.
Context `{Store} `{Argon2} (cfg : ServerConfig).

Definition empty (s : string) : bool := bool_decide (s = EmptyString).

(** A call whose error the handler looks at. *)
Definition on_result {A} (m : M A) (ok : A -> M Response) (err : StoreError -> M Response) : M Response :=
  let! r := try m in
  match r with Ok a => ok a | Err e => err e | Panic => of_result Panic end.

Definition issueAccess (userID : string) (c : Clock) : result token_error string :=
  IssueJWT (JWTSecret cfg) userID (AccessTTL cfg) (time_Now c).

(** The user of a request, or the reply that refuses it. *)
Definition authUser (r : Request) (c : Clock) : Reply + string :=
  if empty (JWTSecret cfg) then inl (writeError StatusServiceUnavailable "authentication is disabled")
  else
    let tok := bearerToken r in
    if empty tok then inl (writeError StatusUnauthorized "missing access token")
    else match ParseJWT (JWTSecret cfg) tok (time_Now c) with
         | (claims, None) => inr (Subject claims)
         | (_, Some _) => inl (writeError StatusUnauthorized "invalid or expired token")
         end.

Definition with_user (r : Request) (k : string -> M Response) : M Response :=
  let! c := get_clock in
  match authUser r c with inl refused => reply refused | inr userID => k userID end.

Definition badJSON : M Response := reply (writeError StatusBadRequest "invalid JSON body").

Definition handleHealth (r : Request) : M Response :=
  reply (writeJSON StatusOK (Some (JObj [("status", JStr "ok")]))).

Definition handleLocations (r : Request) : M Response :=
  on_result st_ListLocations
    (fun locs => reply (writeJSON StatusOK (Some (JObj [("locations", JArr (locationDTO <$> locs))]))))
    (fun _ => reply (writeError StatusInternalServerError "could not list locations")).

(** A reply that carries a new access token, or the error of issuing one. *)
Definition with_access (userID : string) (ms : list metric) (k : string -> Reply) : M Response :=
  let! c := get_clock in
  match issueAccess userID c with
  | Ok access => ret (k access, ms)
  | _ => ret (writeError StatusInternalServerError "could not issue token", ms)
  end.

Definition handleLogin (r : Request) : M Response :=
  if empty (JWTSecret cfg) then reply (writeError StatusServiceUnavailable "authentication is disabled")
  else match DecodeStruct decode_login kB16 (rq_Body r) with
  | (_, false) => badJSON
  | (req, true) =>
      let email := TrimSpace (lr_Email req) in
      if empty email || empty (lr_Password req)
      then reply (writeError StatusBadRequest "email and password are required")
      else
        on_result (st_GetCredentialsByEmail email)
          (fun '(userID, hash, st) =>
            if empty hash then counted (Auth "failure") (writeError StatusUnauthorized "invalid credentials")
            else if negb (bool_decide (st = "active")) then reply (writeError StatusForbidden "account is not active")
            else match VerifyPassword (lr_Password req) hash with
                 | Panic => of_result Panic
                 | Err _ => counted (Auth "failure") (writeError StatusUnauthorized "invalid credentials")
                 | Ok _ =>
                     with_access userID [Auth "success"] (fun access =>
                       writeJSON StatusOK (Some (tokenResponse_json
                         (mkTokenResponse access "Bearer" (whole_seconds (AccessTTL cfg)) "" userID ""))))
                 end)
          (fun e => match e with
                    | ErrNotFound => counted (Auth "failure") (writeError StatusUnauthorized "invalid credentials")
                    | _ => reply (writeError StatusInternalServerError "login failed")
                    end)
  end.

Definition handleSetPassword (r : Request) : M Response :=
  with_user r (fun userID =>
    match DecodeStruct decode_set_password kB16 (rq_Body r) with
    | (_, false) => badJSON
    | (password, true) =>
        if (String.length password <? 8)%nat
        then reply (writeError StatusBadRequest "password must be at least 8 characters")
        else
          on_result (HashPassword password)
            (fun hash => on_result (st_SetPassword userID hash)
              (fun _ => reply (WriteHeader StatusNoContent))
              (fun e => match e with
                        | ErrNotFound => reply (writeError StatusNotFound "user not found")
                        | _ => reply (writeError StatusInternalServerError "could not set password")
                        end))
            (fun _ => reply (writeError StatusInternalServerError "could not set password"))
    end).

Definition handleEnroll (r : Request) : M Response :=
  if empty (JWTSecret cfg) then reply (writeError StatusServiceUnavailable "authentication is disabled")
  else match DecodeStruct decode_enroll kB64 (rq_Body r) with
  | (_, false) => badJSON
  | (req, true) =>
      match validateEnroll req with
      | Some msg => reply (writeError StatusBadRequest msg)
      | None =>
          on_result (st_Enroll req (RefreshTTL cfg))
            (fun '(user, device, refresh) =>
              with_access (usr_ID user) [] (fun access =>
                writeJSON StatusCreated (Some (tokenResponse_json
                  (mkTokenResponse access "Bearer" (whole_seconds (AccessTTL cfg)) refresh (usr_ID user) (dev_ID device))))))
            (fun e => match e with
                      | ErrInviteInvalid => reply (writeError StatusForbidden "invite is invalid, expired, or already used")
                      | ErrDeviceKeyTaken => reply (writeError StatusConflict "device public key already registered")
                      | _ => reply (writeError StatusInternalServerError "enrollment failed")
                      end)
      end
  end.

Definition handleRefresh (r : Request) : M Response :=
  if empty (JWTSecret cfg) then reply (writeError StatusServiceUnavailable "authentication is disabled")
  else match DecodeStruct decode_refresh kB16 (rq_Body r) with
  | (_, false) => reply (writeError StatusBadRequest "refresh_token is required")
  | (refresh, true) =>
      if empty refresh then reply (writeError StatusBadRequest "refresh_token is required")
      else
        on_result (st_RefreshAccess refresh)
          (fun '(userID, _) =>
            with_access userID [] (fun access =>
              writeJSON StatusOK (Some (tokenResponse_json
                (mkTokenResponse access "Bearer" (whole_seconds (AccessTTL cfg)) "" "" "")))))
          (fun e => match e with
                    | ErrInvalidToken => reply (writeError StatusUnauthorized "invalid or expired refresh token")
                    | _ => reply (writeError StatusInternalServerError "refresh failed")
                    end)
  end.

Definition handleDeviceList (r : Request) : M Response :=
  with_user r (fun userID =>
    on_result (st_ListDevices userID)
      (fun devs => reply (writeJSON StatusOK (Some (JObj [("devices", JArr ((fun d => deviceDTO_json (toDeviceDTO d)) <$> devs))]))))
      (fun _ => reply (writeError StatusInternalServerError "could not list devices"))).

Definition handleDeviceCreate (r : Request) : M Response :=
  with_user r (fun userID =>
    match DecodeStruct decode_device kB16 (rq_Body r) with
    | (_, false) => badJSON
    | (reg, true) =>
        match validateDevice reg with
        | Some msg => reply (writeError StatusBadRequest msg)
        | None =>
            on_result (st_CreateDevice userID reg (RefreshTTL cfg))
              (fun '(dev, refresh) => reply (writeJSON StatusCreated (Some (tokenResponse_json
                (mkTokenResponse "" "Bearer" 0 refresh "" (dev_ID dev))))))
              (fun e => match e with
                        | ErrDeviceKeyTaken => reply (writeError StatusConflict "device public key already registered")
                        | _ => reply (writeError StatusInternalServerError "could not register device")
                        end)
        end
    end).

Definition handleDeviceRevoke (deviceID : string) (r : Request) : M Response :=
  with_user r (fun userID =>
    on_result (st_RevokeDevice userID deviceID)
      (fun _ => reply (WriteHeader StatusNoContent))
      (fun e => match e with
                | ErrNotFound => reply (writeError StatusNotFound "device not found")
                | _ => reply (writeError StatusInternalServerError "could not revoke device")
                end)).

(** Admin endpoints: not there without an admin token. *)
Definition admin (r : Request) (k : M Response) : M Response :=
  if empty (AdminToken cfg) then reply NotFound
  else if negb (constEq (bearerToken r) (AdminToken cfg))
  then reply (writeError StatusUnauthorized "invalid admin token")
  else k.

(** [Some None]: no expiry was asked for; [None]: the text is not a duration. *)
Definition invite_expiry (ttl : string) (now : Time) : option (option Time) :=
  if empty ttl then Some None
  else match ParseDuration ttl with Some d => Some (Some (now + d)) | None => None end.

Definition handleInviteCreate (r : Request) : M Response :=
  admin r (
    let req := (DecodeStruct decode_invite kB16 (rq_Body r)).1 in
    let! c := get_clock in
    match invite_expiry (ir_TTL req) (time_Now c) with
    | None => reply (writeError StatusBadRequest "ttl must be a Go duration, e.g. 168h")
    | Some expiresAt =>
        on_result GenerateToken
          (fun code =>
            on_result (st_CreateInvite code (ir_Note req) expiresAt)
              (fun _ => reply (writeJSON StatusCreated (Some (JObj
                (str_field "code" code ++ ptr_field_opt "expires_at" (FormatRFC3339 <$> expiresAt))))))
              (fun _ => reply (writeError StatusInternalServerError "could not create invite")))
          (fun _ => reply (writeError StatusInternalServerError "could not generate invite"))
    end).

Definition handleConnectionCreate (r : Request) : M Response :=
  with_user r (fun userID =>
    match DecodeStruct decode_connect kB16 (rq_Body r) with
    | (_, false) => badJSON
    | (req, true) =>
        if empty (cr_CountryCode req) || empty (cr_DeviceID req)
        then reply (writeError StatusBadRequest "country_code and device_id are required")
        else
          on_result (st_CreateConnection userID (cr_DeviceID req) (cr_CountryCode req) (LeaseTTL cfg) (HeartbeatTTL cfg))
            (fun conn => counted ConnCreated (writeJSON StatusCreated (Some (connectionResponse cfg conn))))
            (fun e => match e with
                      | ErrDeviceNotFound => reply (writeError StatusNotFound "device not found or revoked")
                      | ErrNoGatewayAvailable =>
                          counted (ConnFailed "no_gateway")
                            (writeError StatusServiceUnavailable "no healthy gateway available in that location")
                      | ErrGatewayFull =>
                          counted (ConnFailed "no_gateway")
                            (writeError StatusServiceUnavailable "selected gateway is at capacity, try again")
                      | _ => counted (ConnFailed "error")
                               (writeError StatusInternalServerError "could not create connection")
                      end)
    end).

Definition handleConnectionDelete (id : string) (r : Request) : M Response :=
  with_user r (fun userID =>
    on_result (st_ReleaseConnection userID id)
      (fun _ => reply (WriteHeader StatusNoContent))
      (fun e => match e with
                | ErrNotFound => reply (writeError StatusNotFound "connection not found")
                | _ => reply (writeError StatusInternalServerError "could not release connection")
                end)).

(** The body is read for its samples, which are not used. *)
Definition handleConnectionStats (id : string) (r : Request) : M Response :=
  with_user r (fun userID =>
    on_result (st_RenewConnection userID id (LeaseTTL cfg))
      (fun expiresAt => reply (writeJSON StatusOK (Some (JObj (str_field "expires_at" (FormatRFC3339 expiresAt))))))
      (fun e => match e with
                | ErrNotFound => reply (writeError StatusNotFound "connection not found")
                | _ => reply (writeError StatusInternalServerError "could not renew connection")
                end)).

(** Agent endpoints: the node token, by its hash. *)
Definition with_node (r : Request) (k : string -> M Response) : M Response :=
  let token := bearerToken r in
  if empty token then reply (writeError StatusUnauthorized "missing node token") else k (HashToken token).

Definition node_error (msg : string) (e : StoreError) : M Response :=
  match e with
  | ErrInvalidToken => reply (writeError StatusUnauthorized "invalid node token")
  | _ => reply (writeError StatusInternalServerError msg)
  end.

Definition handleGatewayPeers (r : Request) : M Response :=
  with_node r (fun h =>
    on_result (st_GatewayPeers h)
      (fun peers => reply (writeJSON StatusOK (Some (JObj [("peers", JArr (peer_json <$> peers))]))))
      (node_error "could not list peers")).

Definition handleGatewayRegister (r : Request) : M Response :=
  if empty (EnrollmentSecret cfg)
  then reply (writeError StatusServiceUnavailable "gateway registration is disabled")
  else if negb (constEq (bearerToken r) (EnrollmentSecret cfg))
  then reply (writeError StatusUnauthorized "invalid enrollment secret")
  else match DecodeStruct decode_registration kB64 (rq_Body r) with
  | (_, false) => badJSON
  | (reg, true) =>
      match validateRegistration reg with
      | Some msg => reply (writeError StatusBadRequest msg)
      | None =>
          let reg := if reg_EndpointPort reg =? 0 then set_port 51820 reg else reg in
          on_result (st_RegisterGateway reg)
            (fun '(gw, token) => reply (writeJSON StatusCreated (Some (JObj
              (str_field "id" (ID gw) ++ str_field "name" (Name gw) ++ str_field "node_token" token ++
               str_field "status" (status_string (Status gw)))))))
            (fun _ => reply (writeError StatusInternalServerError "could not register gateway"))
      end
  end.

Definition handleGatewayHeartbeat (r : Request) : M Response :=
  with_node r (fun h =>
    match DecodeStruct decode_metrics kB16 (rq_Body r) with
    | (_, false) => badJSON
    | (m, true) =>
        on_result (st_Heartbeat h m)
          (fun gw => reply (writeJSON StatusOK (Some (JObj
            (str_field "gateway_id" (ID gw) ++ str_field "status" (status_string (Status gw)))))))
          (node_error "heartbeat failed")
    end).

Definition handleGatewayDeregister (r : Request) : M Response :=
  with_node r (fun h =>
    on_result (st_DeregisterGateway h)
      (fun _ => reply (WriteHeader StatusNoContent))
      (node_error "deregister failed")).

Definition handleGatewayList (r : Request) : M Response :=
  admin r (
    on_result st_ListGateways
      (fun gws =>
        let! c := get_clock in
        reply (writeJSON StatusOK
          ((fun out => JObj [("gateways", JArr out)]) <$>
             mapM (fun g => gatewayDTO_json (toGatewayDTO g (time_Now c) (HeartbeatTTL cfg))) gws)))
      (fun _ => reply (writeError StatusInternalServerError "could not list gateways"))).

End handlers.

(** ** Routing *)

(** A segment of a pattern: itself, or [{id}]. *)
Inductive segment := Lit (s : string) | Id.

Record pattern := mkPattern {
  pt_Method : string;
  pt_Path : list segment;
  pt_limited : bool;                       (* wrapped in rateLimited *)
  pt_handle : string -> Request -> M Response   (* of the path value "id" *)
}.

(** The path value ([""] without one) when the path matches. *)
Fixpoint match_path (ps : list segment) (path : list string) : option string :=
  match ps, path with
  | [], [] => Some EmptyString
  | Lit s :: ps', w :: path' => if bool_decide (s = w) then match_path ps' path' else None
  | Id :: ps', w :: path' =>
      if bool_decide (w = EmptyString) then None
      else match match_path ps' path' with Some _ => Some w | None => None end
  | _, _ => None
  end.

(** A pattern for GET also takes HEAD. *)
Definition match_method (p m : string) : bool := bool_decide (p = m) || (bool_decide (p = "GET") && bool_decide (m = "HEAD")).

Section server.
Context `{Store} `{Argon2} `{Rate} (cfg : ServerConfig).
(** The reply of the metrics page ([promhttp.Handler]). *)
Context (metrics_page : Request -> Reply).

Definition any (h : Request -> M Response) : string -> Request -> M Response := fun _ => h.

(** [Handler]: the patterns given to [mux.HandleFunc]. *)
Definition patterns : list pattern := [
  mkPattern "GET" [Lit "healthz"] false (any handleHealth);
  mkPattern "GET" [Lit "metrics"] false (any (fun r => reply (metrics_page r)));
  mkPattern "GET" [Lit "v1"; Lit "locations"] false (any handleLocations);
  mkPattern "POST" [Lit "v1"; Lit "enroll"] true (any (handleEnroll cfg));
  mkPattern "POST" [Lit "v1"; Lit "auth"; Lit "login"] true (any (handleLogin cfg));
  mkPattern "POST" [Lit "v1"; Lit "auth"; Lit "refresh"] true (any (handleRefresh cfg));
  mkPattern "POST" [Lit "v1"; Lit "auth"; Lit "password"] false (any (handleSetPassword cfg));
  mkPattern "GET" [Lit "v1"; Lit "devices"] false (any (handleDeviceList cfg));
  mkPattern "POST" [Lit "v1"; Lit "devices"] false (any (handleDeviceCreate cfg));
  mkPattern "DELETE" [Lit "v1"; Lit "devices"; Id] false (handleDeviceRevoke cfg);
  mkPattern "POST" [Lit "v1"; Lit "invites"] false (any (handleInviteCreate cfg));
  mkPattern "POST" [Lit "v1"; Lit "connections"] false (any (handleConnectionCreate cfg));
  mkPattern "DELETE" [Lit "v1"; Lit "connections"; Id] false (handleConnectionDelete cfg);
  mkPattern "POST" [Lit "v1"; Lit "connections"; Id; Lit "stats"] false (handleConnectionStats cfg);
  mkPattern "POST" [Lit "v1"; Lit "gateways"; Lit "register"] false (any (handleGatewayRegister cfg));
  mkPattern "POST" [Lit "v1"; Lit "gateways"; Lit "heartbeat"] false (any handleGatewayHeartbeat);
  mkPattern "POST" [Lit "v1"; Lit "gateways"; Lit "deregister"] false (any handleGatewayDeregister);
  mkPattern "GET" [Lit "v1"; Lit "gateways"; Lit "peers"] false (any handleGatewayPeers);
  mkPattern "GET" [Lit "v1"; Lit "gateways"] false (any (handleGatewayList cfg))
].

(** The pattern a request is for, with its path value; or the mux's own reply. *)
Definition route (r : Request) : Reply + (pattern * string) :=
  let here := omap (fun p => pair p <$> match_path (pt_Path p) (rq_Path r)) patterns in
  match List.find (fun pv => match_method (pt_Method pv.1) (rq_Method r)) here with
  | Some pv => inr pv
  | None =>
      match here with
      | [] => inl NotFound
      | _ => inl (mkReply StatusMethodNotAllowed (Text ("Method Not Allowed" +:+ newline)))
      end
  end.

(** [recoverer]: a panic becomes a 500. No handler fails ([ApiRules.replies]), so the
    other branch is for the type only. *)
Definition recoverer (m : M Response) (c : Clock) (s : session) : Response * session :=
  match m c s with
  | (Ok r, s') => (r, s')
  | (Panic, s') | (Err _, s') => ((writeError StatusInternalServerError "internal error", []), s')
  end.

(** [NewServer]'s limiter. *)
Definition NewServer : Limiter :=
  let perMin := if AuthRatePerMin cfg <=? 0 then 10 else AuthRatePerMin cfg in
  let b := if AuthBurst cfg <=? 0 then 5 else AuthBurst cfg in
  New perMin b.

(** [rateLimited]: the verdict of the client's bucket, and the limiter after it. *)
Definition rateLimited (p : pattern) (r : Request) (c : Clock) (l : Limiter) : bool * Limiter :=
  if pt_limited p then Allow (clientIP (TrustProxy cfg) r) (time_Now c) l else (true, l).

(** One request: the reply, the counters, the limiter and the session after it. *)
Definition ServeHTTP (r : Request) (c : Clock) (l : Limiter) (s : session) : Response * Limiter * session :=
  match route r with
  | inl own => ((own, []), l, s)
  | inr (p, id) =>
      let '(ok, l') := rateLimited p r c l in
      if ok then let '(resp, s') := recoverer (pt_handle p id r) c s in (resp, l', s')
      else ((writeError StatusTooManyRequests "too many requests", []), l', s)
  end.

End server.

(** The store of the control plane. *)
Definition pg_store `{Postgres} : Store := {|
  st_ListLocations := ListLocations;
  st_RegisterGateway := RegisterGateway;
  st_Heartbeat := Heartbeat;
  st_DeregisterGateway := DeregisterGateway;
  st_ListGateways := ListGateways;
  st_Enroll := Enroll;
  st_CreateDevice := CreateDevice;
  st_ListDevices := ListDevices;
  st_RevokeDevice := RevokeDevice;
  st_RefreshAccess := RefreshAccess;
  st_CreateInvite := CreateInvite;
  st_SetPassword := SetPassword;
  st_GetCredentialsByEmail := GetCredentialsByEmail;
  st_CreateConnection := CreateConnection;
  st_ReleaseConnection := ReleaseConnection;
  st_RenewConnection := RenewConnection;
  st_GatewayPeers := GatewayPeers
|}.
