(* ===== verification/ApiDemo.v ===== *)
(** Requests to the deployment of [Demo], for the witnesses of the API's properties. *)
From S2P Require Import Prelude Floats Model GoStrings NetAddr Crypto Json GoTime Jwt Password Ratelimit Db Session System Demo Http Api.

#[local] Existing Instances demo_pg pg_store toy_argon2 toy_rate.

Lemma triple_eq {A B C} (x : A * B * C) : x = (x.1.1, x.1.2, x.2).
Proof. by destruct x as [[]]. Qed.

Lemma triple_from {A B C} (x : A * B * C) p b : x.1 = (p, b) -> x = (p, b, x.2).
Proof. destruct x. cbn. by intros ->. Qed.

Definition demo_cfg : ServerConfig := {|
  EnrollmentSecret := "fleet-secret";
  AdminToken := "admin-token";
  HeartbeatTTL := TTL;
  JWTSecret := "jwt-secret";
  AccessTTL := 15 * Minute;
  RefreshTTL := 720 * Hour;
  LeaseTTL := Hour;
  ClientDNS := ["9.9.9.9"];
  ProbePort := 51821;
  AuthRatePerMin := 0;
  AuthBurst := 0;
  TrustProxy := false
|}.

Definition plain_page (r : Request) : Reply := mkReply StatusOK (Text "# metrics").

(** An access token of [user1], issued at [t]. *)
Definition access (t : Time) : string := match IssueJWT "jwt-secret" "user1" (15 * Minute) t with Ok x => x | _ => EmptyString end.
Definition access_token : string := Eval vm_compute in access 6000.

Lemma access_token_eq : IssueJWT "jwt-secret" "user1" (15 * Minute) 6000 = Ok access_token.
Proof. vm_compute. reflexivity. Qed.

Definition post (path : list string) (token : string) (v : json) : Request :=
  mkRequest "POST" path "198.51.100.7:40000" ("Bearer " +:+ token) "" (print v).

Definition connect_request : Request :=
  post ["v1"; "connections"] access_token (JObj [("country_code", JStr "de"); ("device_id", JStr "dev1")]).

Definition peers_request : Request :=
  mkRequest "GET" ["v1"; "gateways"; "peers"] "192.0.2.1:40000" ("Bearer " +:+ token_a) "" "".

(** The session of one request: fresh ids and random bytes. *)
Definition demo_session : session := mkSession demo_db [] ["lease2"; "id2"; "id3"] [random_c].

Definition connect_served : Response * Limiter * session :=
  ServeHTTP demo_cfg plain_page connect_request (at_time 6000) (NewServer demo_cfg) demo_session.

Definition connect_reply : Reply := Eval vm_compute in connect_served.1.1.1.

Lemma connect_served_def :
  connect_served = ServeHTTP demo_cfg plain_page connect_request (at_time 6000) (NewServer demo_cfg) demo_session.
Proof. done. Qed.

Lemma connect_served_eq :
  ServeHTTP demo_cfg plain_page connect_request (at_time 6000) (NewServer demo_cfg) demo_session =
  ((connect_reply, [ConnCreated]), NewServer demo_cfg, connect_served.2).
Proof. rewrite <- connect_served_def. apply triple_from. vm_compute. reflexivity. Qed.

(** The tables just before Ana enrols, and her request. *)
Definition invited_db : DB := Eval vm_compute in (exec (take 3 demo_script) empty_db).2.

Definition enroll_request : Request :=
  post ["v1"; "enroll"] "" (JObj [("invite_code", JStr "INVITE"); ("email", JStr "ana@example.org");
    ("device", JObj [("name", JStr "phone"); ("platform", JStr "ios"); ("public_key", JStr "phonekey")])]).

Definition enroll_served : Response * Limiter * session :=
  ServeHTTP demo_cfg plain_page enroll_request (at_time 6000) (NewServer demo_cfg)
    (mkSession invited_db [] ["user1"; "dev1"; "tok1"] [random_b]).

Definition enroll_reply : Reply := Eval vm_compute in enroll_served.1.1.1.

Lemma enroll_served_def :
  enroll_served = ServeHTTP demo_cfg plain_page enroll_request (at_time 6000) (NewServer demo_cfg)
    (mkSession invited_db [] ["user1"; "dev1"; "tok1"] [random_b]).
Proof. done. Qed.

Lemma enroll_served_eq :
  ServeHTTP demo_cfg plain_page enroll_request (at_time 6000) (NewServer demo_cfg)
    (mkSession invited_db [] ["user1"; "dev1"; "tok1"] [random_b]) =
  ((enroll_reply, []), enroll_served.1.2, enroll_served.2).
Proof.
  rewrite <- enroll_served_def. assert (E : enroll_served.1.1 = (enroll_reply, [])) by (vm_compute; reflexivity).
  rewrite <- E. apply triple_eq.
Qed.

(** A suspended account with a password, and an attempt to log in to it. *)
Definition suspended_hash : string := Eval vm_compute in
  match HashPassword "hunter22" (at_time 0) salted with (Ok h, _) => h | _ => EmptyString end.

Definition suspended_db : DB :=
  put Users {[ "user1" := mkUserRow "ana@example.org" None "suspended" 0 (Some suspended_hash) ]} empty_db.

Definition login_request : Request :=
  post ["v1"; "auth"; "login"] "" (JObj [("email", JStr "ana@example.org"); ("password", JStr "wrong")]).

Definition login_session : session := mkSession suspended_db [] [] [].

Definition login_served : Response * Limiter * session :=
  ServeHTTP demo_cfg plain_page login_request (at_time 6000) (NewServer demo_cfg) login_session.

Lemma login_served_eq :
  ServeHTTP demo_cfg plain_page login_request (at_time 6000) (NewServer demo_cfg) login_session =
  (login_served.1.1, login_served.1.2, login_served.2).
Proof. unfold login_served. apply triple_eq. Qed.
