(* ===== verification/ApiRules.v ===== *)
(** Reasoning about handlers: what a handler does to the tables ([performs]), what it
    replies ([replies]) and what it does not depend on ([same]), each with a rule per way of
    composing one. *)
From S2P Require Import Prelude Floats Model GoStrings NetAddr Crypto Json JsonFacts JsonFloats GoTime Jwt Password Ratelimit Alloc Db Session StoreGateways StoreIdentity StoreConnections Schema System Http Api.

(** ** Effects on the tables *)

Section effects.
Context `{PostgresOrder} (c : Clock).

Definition quiet {A} (m : M A) : Prop := forall s r s', m c s = (r, s') -> s_db s' = s_db s.

(** At most one call of the store, and only one that [allowed] admits. *)
Definition performs {A} (allowed : request -> Prop) (m : M A) : Prop := forall s r s', m c s = (r, s') ->
  exists tr, run (s_db s) tr (s_db s') /\ (length tr <= 1)%nat /\ Forall (fun e => allowed e.1) tr.

(** [m] is the call [q] of the system. *)
Definition serves {A} (q : request) (m : M A) : Prop := forall s, (serve q c s).2 = (m c s).2.

Lemma quiet_ret {A} (a : A) : quiet (ret a).
Proof. by intros s r s' [= <- <-]. Qed.

Lemma quiet_of_result {A} (x : result StoreError A) : quiet (of_result x).
Proof. by intros s r s' [= <- <-]. Qed.

Lemma quiet_get_clock : quiet get_clock.
Proof. by intros s r s' [= <- <-]. Qed.

Lemma quiet_rand_Read : quiet rand_Read.
Proof. intros s r s' Hm. unfold rand_Read in Hm. destruct (s_rand s); by injection Hm as <- <-. Qed.

Lemma quiet_bind {A B} (m : M A) (k : A -> M B) : quiet m -> (forall a, quiet (k a)) -> quiet (bind m k).
Proof.
  intros Hm Hk s r s'. unfold bind. destruct (m c s) as [[a|e|] s1] eqn:E; [|intros [= <- <-]; eauto..].
  intros E'. rewrite (Hk _ _ _ _ E'). eauto.
Qed.

Lemma quiet_try {A} (m : M A) : quiet m -> quiet (try m).
Proof. intros Hm s r s'. unfold try. destruct (m c s) as [[a|e|] s1] eqn:E; intros [= <- <-]; eauto. Qed.

Lemma quiet_performs {A} allowed (m : M A) : quiet m -> performs allowed m.
Proof. intros Hm s r s' E. exists []. rewrite (Hm _ _ _ E). split; [constructor|]. split; [simpl; lia|constructor]. Qed.

Lemma performs_bind_quiet {A B} allowed (m : M A) (k : A -> M B) :
  quiet m -> (forall a, performs allowed (k a)) -> performs allowed (bind m k).
Proof.
  intros Hm Hk s r s'. unfold bind. destruct (m c s) as [[a|e|] s1] eqn:E; pose proof (Hm _ _ _ E) as Hdb.
  - rewrite <- Hdb. apply Hk.
  - intros [= <- <-]. exists []. rewrite Hdb. split; [constructor|]. split; [simpl; lia|constructor].
  - intros [= <- <-]. exists []. rewrite Hdb. split; [constructor|]. split; [simpl; lia|constructor].
Qed.

Lemma performs_bind {A B} allowed (m : M A) (k : A -> M B) :
  performs allowed m -> (forall a, quiet (k a)) -> performs allowed (bind m k).
Proof.
  intros Hm Hk s r s'. unfold bind. destruct (m c s) as [[a|e|] s1] eqn:E; [|intros [= <- <-]; eauto..].
  intros E'. rewrite (Hk _ _ _ _ E'). eauto.
Qed.

Lemma performs_try {A} allowed (m : M A) : performs allowed m -> performs allowed (try m).
Proof. intros Hm s r s'. unfold try. destruct (m c s) as [[a|e|] s1] eqn:E; intros [= <- <-]; eauto. Qed.

Lemma serves_performs {A} (allowed : request -> Prop) q (m : M A) : serves q m -> allowed q -> performs allowed m.
Proof.
  intros Hq Ha s r s' E. specialize (Hq s). rewrite E in Hq. cbn [snd] in Hq.
  destruct (serve q c s) as [r' s1] eqn:Es. cbn [snd] in Hq. subst s1.
  exists [(q, is_ok r')]. split; [|split; [simpl; lia|by repeat constructor]].
  eapply run_cons; [exact (step_serve q c s r' s' Es)|constructor].
Qed.

Lemma serves_discard {A} q (m : M A) : serve q = discard m -> serves q m.
Proof. intros E s. rewrite E. unfold discard, bind. by destruct (m c s) as [[] ?]. Qed.

Lemma serves_same q (m : M ()) : serve q = m -> serves q m.
Proof. intros E s. by rewrite E. Qed.

Lemma performs_on_result {A} allowed (m : M A) ok err :
  performs allowed m -> (forall a, quiet (ok a)) -> (forall e, quiet (err e)) -> performs allowed (on_result m ok err).
Proof.
  intros Hm Hok Herr. apply performs_bind; [by apply performs_try|].
  intros [a|e|]; [apply Hok|apply Herr|apply quiet_of_result].
Qed.

Lemma performs_on_result_quiet {A} allowed (m : M A) ok err :
  quiet m -> (forall a, performs allowed (ok a)) -> (forall e, performs allowed (err e)) -> performs allowed (on_result m ok err).
Proof.
  intros Hm Hok Herr. apply performs_bind_quiet; [by apply quiet_try|].
  intros [a|e|]; [apply Hok|apply Herr|apply quiet_performs, quiet_of_result].
Qed.

Lemma quiet_reply r : quiet (reply r).
Proof. apply quiet_ret. Qed.

Lemma quiet_counted m r : quiet (counted m r).
Proof. apply quiet_ret. Qed.

Lemma quiet_with_access cfg u ms k : quiet (with_access cfg u ms k).
Proof.
  apply quiet_bind; [apply quiet_get_clock|]. intros c'. destruct (issueAccess cfg u c'); apply quiet_ret.
Qed.

Lemma quiet_GenerateToken : quiet GenerateToken.
Proof. apply quiet_bind; [apply quiet_rand_Read|]. intros. apply quiet_ret. Qed.

Lemma quiet_HashPassword `{Argon2} p : quiet (HashPassword p).
Proof.
  apply quiet_bind; [apply quiet_rand_Read|]. intros b. cbv zeta. case_match; [apply quiet_ret|apply quiet_of_result].
Qed.

End effects.

#[export] Hint Resolve quiet_ret quiet_of_result quiet_get_clock quiet_reply quiet_counted quiet_with_access
  quiet_GenerateToken quiet_HashPassword : aevora.
#[export] Hint Extern 1 (quiet _ (match ?x with _ => _ end)) => destruct x : aevora.
#[export] Hint Extern 1 (quiet _ (if ?x then _ else _)) => destruct x : aevora.

(** ** Replies *)

(** Whatever the store answers, the handler replies something that satisfies [P], or
    panics: it never fails. *)
Definition replies (P : Response -> Prop) (m : M Response) : Prop := forall c s r s', m c s = (r, s') ->
  match r with Ok x => P x | Err _ => False | Panic => True end.

Section replies.
Context (P : Response -> Prop).

Lemma replies_ret x : P x -> replies P (ret x).
Proof. by intros Hx c s r s' [= <- <-]. Qed.

Lemma replies_panic : replies P (of_result Panic).
Proof. by intros c s r s' [= <- <-]. Qed.

Lemma replies_get_clock k : (forall c, replies P (k c)) -> replies P (bind get_clock k).
Proof. intros Hk c s r s' E. exact (Hk c c s r s' E). Qed.

Lemma replies_on_result {A} (m : M A) ok err :
  (forall a, replies P (ok a)) -> (forall e, replies P (err e)) -> replies P (on_result m ok err).
Proof.
  intros Hok Herr c s r s'. unfold on_result, bind, try.
  destruct (m c s) as [[a|e|] s1]; [apply Hok|apply Herr|by intros [= <- <-]].
Qed.

End replies.

(** ** Two stores *)

(** What the store answers a call with. *)
Definition answer_to (q : request) : Type :=
  match q with
  | RegisterGateway_ _ => (Gateway * string)%type
  | Heartbeat_ _ _ => Gateway
  | Enroll_ _ _ => (User * Device * string)%type
  | CreateDevice_ _ _ _ => (Device * string)%type
  | RefreshAccess_ _ => (string * string)%type
  | CreateConnection_ _ _ _ _ _ => Connection
  | RenewConnection_ _ _ _ => Time
  | GatewayPeers_ _ => list Peer
  | ListDevices_ _ => list Device
  | ListGateways_ => list Gateway
  | ListLocations_ => list Location
  | GetCredentialsByEmail_ _ => (string * string * string)%type
  | _ => unit
  end.

(** A call of the interface; the others are not the handlers'. *)
Definition asks (st : Store) (q : request) : M (answer_to q) :=
  match q with
  | RegisterGateway_ r => st_RegisterGateway r
  | Heartbeat_ h m => st_Heartbeat h m
  | DeregisterGateway_ h => st_DeregisterGateway h
  | Enroll_ r ttl => st_Enroll r ttl
  | CreateDevice_ u r ttl => st_CreateDevice u r ttl
  | RevokeDevice_ u d => st_RevokeDevice u d
  | RefreshAccess_ t => st_RefreshAccess t
  | CreateInvite_ code note e => st_CreateInvite code note e
  | SetPassword_ u h => st_SetPassword u h
  | CreateConnection_ u d country lt ht => st_CreateConnection u d country lt ht
  | ReleaseConnection_ u l => st_ReleaseConnection u l
  | RenewConnection_ u l ttl => st_RenewConnection u l ttl
  | GatewayPeers_ h => st_GatewayPeers h
  | ListDevices_ u => st_ListDevices u
  | ListGateways_ => st_ListGateways
  | ListLocations_ => st_ListLocations
  | GetCredentialsByEmail_ e => st_GetCredentialsByEmail e
  | MarkStaleUnhealthy_ _ | ExpireStaleLeases_ | ExpireLeasesOnUnhealthyGateways_
  | SelectableGateways_ _ _ | FleetSnapshot_ => ret ()
  end.

Section same.
Context (c : Clock).

(** The same result and the same session after it. *)
Definition same {A} (m m' : M A) : Prop := forall s, m c s = m' c s.

(** Two stores that answer the calls [allowed] admits alike, and the others anyhow. *)
Definition agree (allowed : request -> Prop) (st st' : Store) : Prop :=
  forall q, allowed q -> same (asks st q) (asks st' q).

#[export] Instance same_equivalence {A} : Equivalence (@same A).
Proof. split; [by intros m s|by intros m m' Hm s|]. intros m1 m2 m3 H1 H2 s. by rewrite H1. Qed.

Lemma same_bind {A B} (m m' : M A) (k k' : A -> M B) : same m m' -> (forall a, same (k a) (k' a)) -> same (bind m k) (bind m' k').
Proof. intros Hm Hk s. unfold bind. rewrite Hm. destruct (m' c s) as [[a|e|] s1]; [apply Hk|done..]. Qed.

Lemma same_on_result {A} (m m' : M A) ok ok' err err' :
  same m m' -> (forall a, same (ok a) (ok' a)) -> (forall e, same (err e) (err' e)) ->
  same (on_result m ok err) (on_result m' ok' err').
Proof.
  intros Hm Hok Herr. unfold on_result. apply same_bind; [|by intros [a|e|]].
  intros s. unfold try. by rewrite Hm.
Qed.

Lemma same_recoverer m m' s : same m m' -> recoverer m c s = recoverer m' c s.
Proof. intros Hm. unfold recoverer. by rewrite Hm. Qed.

End same.

(** ** Routing *)

(** Tables of patterns that answer the request alike. *)
Definition same_pattern (c : Clock) (r : Request) (p p' : pattern) : Prop :=
  pt_Method p = pt_Method p' /\ pt_Path p = pt_Path p' /\ pt_limited p = pt_limited p' /\
  forall id, same c (pt_handle p id r) (pt_handle p' id r).

Section routing.
Context `{Store} `{Argon2} (cfg : ServerConfig) (metrics_page : Request -> Reply).

(** The pattern a request is routed to is one of the table. *)
Lemma route_pattern r p id : route cfg metrics_page r = inr (p, id) ->
  p ∈ patterns cfg metrics_page /\ match_method (pt_Method p) (rq_Method r) = true /\
  match_path (pt_Path p) (rq_Path r) = Some id.
Proof.
  unfold route. set (here := omap _ _). destruct (List.find _ here) as [pv|] eqn:E; [|by destruct here].
  intros [= ->]. apply List.find_some in E as [Hin Hm]. apply list_elem_of_In, list_elem_of_omap in Hin as (q & Hq & E).
  destruct (match_path (pt_Path q) (rq_Path r)) as [w|] eqn:Ew; [|done]. injection E as -> ->. done.
Qed.

End routing.

(** Two servers with tables that answer the request alike answer it alike. *)
Section two_servers.
Context (st st' : Store) `{Argon2} `{Rate} (cfg : ServerConfig) (metrics_page : Request -> Reply) (c : Clock) (r : Request).

Lemma same_here ps ps' :
  Forall2 (same_pattern c r) ps ps' ->
  Forall2 (fun pv pv' => same_pattern c r pv.1 pv'.1 /\ pv.2 = pv'.2)
    (omap (fun p => pair p <$> match_path (pt_Path p) (rq_Path r)) ps)
    (omap (fun p => pair p <$> match_path (pt_Path p) (rq_Path r)) ps').
Proof.
  intros Hps. induction Hps as [|p p' ps ps' Hp Hps IH]; [constructor|]. destruct (Hp) as (_ & Ep & _). cbn. rewrite <- Ep.
  destruct (match_path _ _) as [w|]; [|exact IH]. by constructor.
Qed.

Lemma same_find (hs hs' : list (pattern * string)) :
  Forall2 (fun pv pv' => same_pattern c r pv.1 pv'.1 /\ pv.2 = pv'.2) hs hs' ->
  let f pv := match_method (pt_Method pv.1) (rq_Method r) in
  option_Forall2 (fun pv pv' => same_pattern c r pv.1 pv'.1 /\ pv.2 = pv'.2) (List.find f hs) (List.find f hs').
Proof.
  intros Hhs f. induction Hhs as [|pv pv' hs hs' Hp Hhs IH]; [constructor|]. destruct (Hp) as ((Em & _) & _). cbn [List.find].
  unfold f at 1 3. rewrite <- Em. destruct (match_method _ _); [by constructor|exact IH].
Qed.

Lemma same_ServeHTTP l s :
  Forall2 (same_pattern c r) (patterns (H := st) cfg metrics_page) (patterns (H := st') cfg metrics_page) ->
  ServeHTTP (H := st) cfg metrics_page r c l s = ServeHTTP (H := st') cfg metrics_page r c l s.
Proof.
  intros Hps. pose proof (same_here _ _ Hps) as Hhs. unfold ServeHTTP, route. cbv zeta.
  pose proof (same_find _ _ Hhs) as Hfind. cbv zeta in Hfind. revert Hfind.
  generalize (patterns (H := st) cfg metrics_page) (patterns (H := st') cfg metrics_page) Hhs. clear. intros ps ps' Hhs Hfind.
  destruct Hfind as [[p id] [p' id'] [(_ & _ & El & Hm) Eid]|].
  - cbn [fst snd] in *. subst id'. unfold rateLimited. rewrite <- El.
    destruct (if pt_limited p then _ else _) as [[] l']; [|done]. by rewrite (same_recoverer c _ _ s (Hm id)).
  - by destruct Hhs.
Qed.

End two_servers.
