(* ===== verification/ApiSafety.v ===== *)
(** What a request can do to the tables, what it can learn from them, and with which
    credentials. *)
From S2P Require Import Prelude Floats Model GoStrings NetAddr Crypto Json JsonFacts JsonFloats GoTime Jwt Password Ratelimit Alloc Db Session StoreGateways StoreIdentity StoreConnections Schema System Demo Http Api ApiDemo ApiRules.

Section safety.
Context `{PostgresOrder} `{Argon2} `{Rate} (cfg : ServerConfig) (metrics_page : Request -> Reply).

#[local] Existing Instance pg_store.

(** The request carries an unexpired access token of the user. *)
Definition speaks_for (r : Request) (c : Clock) (userID : string) : Prop :=
  JWTSecret cfg <> EmptyString /\ bearerToken r <> EmptyString /\
  exists claims, ParseJWT (JWTSecret cfg) (bearerToken r) (time_Now c) = (claims, None) /\ Subject claims = userID.

(** The request carries the node token with the hash. *)
Definition node_token (r : Request) (h : string) : Prop := bearerToken r <> EmptyString /\ h = HashToken (bearerToken r).

(** The request carries the secret, and one is configured. *)
Definition secret_token (r : Request) (secret : string) : Prop := secret <> EmptyString /\ bearerToken r = secret.

(** The calls of the store a request may lead to. *)
Definition authorised (r : Request) (c : Clock) (q : request) : Prop :=
  match q with
  | CreateDevice_ u _ _ | RevokeDevice_ u _ | SetPassword_ u _ | CreateConnection_ u _ _ _ _
  | ReleaseConnection_ u _ | RenewConnection_ u _ _ | ListDevices_ u => speaks_for r c u
  | Heartbeat_ h _ | DeregisterGateway_ h | GatewayPeers_ h => node_token r h
  | RegisterGateway_ reg => secret_token r (EnrollmentSecret cfg) /\ validateRegistration reg = None
  | CreateInvite_ _ _ _ | ListGateways_ => secret_token r (AdminToken cfg)
  | Enroll_ req _ => JWTSecret cfg <> EmptyString /\ validateEnroll req = None
  | RefreshAccess_ _ | GetCredentialsByEmail_ _ => JWTSecret cfg <> EmptyString
  | ListLocations_ => True
  | MarkStaleUnhealthy_ _ | ExpireStaleLeases_ | ExpireLeasesOnUnhealthyGateways_
  | SelectableGateways_ _ _ | FleetSnapshot_ => False
  end.

Lemma not_empty s : empty s = false -> s <> EmptyString.
Proof. unfold empty. by rewrite bool_decide_eq_false. Qed.

(** Credentials first: what a handler does for a user, a node, an administrator. *)
Lemma performs_with_user c r k :
  (forall u, speaks_for r c u -> performs c (authorised r c) (k u)) ->
  performs c (authorised r c) (with_user cfg r k).
Proof.
  intros Hk. unfold with_user. intros s res s'. cbn [bind get_clock]. revert s res s'.
  change (performs c (authorised r c) (match authUser cfg r c with inl refused => reply refused | inr userID => k userID end)).
  unfold authUser. destruct (empty (JWTSecret cfg)) eqn:E1; [apply quiet_performs, quiet_reply|].
  destruct (empty (bearerToken r)) eqn:E2; [apply quiet_performs, quiet_reply|].
  destruct (ParseJWT _ _ _) as [claims [e|]] eqn:E3; [apply quiet_performs, quiet_reply|].
  apply Hk. split; [by apply not_empty|]. split; [by apply not_empty|]. eauto.
Qed.

Lemma performs_with_node c r k :
  (forall h, node_token r h -> performs c (authorised r c) (k h)) ->
  performs c (authorised r c) (with_node r k).
Proof.
  intros Hk. unfold with_node. destruct (empty (bearerToken r)) eqn:E; [apply quiet_performs, quiet_reply|].
  apply Hk. split; [by apply not_empty|done].
Qed.

Lemma performs_admin c r k :
  (secret_token r (AdminToken cfg) -> performs c (authorised r c) k) ->
  performs c (authorised r c) (admin cfg r k).
Proof.
  intros Hk. unfold admin. destruct (empty (AdminToken cfg)) eqn:E1; [apply quiet_performs, quiet_reply|].
  unfold constEq. case_bool_decide as E2; cbn [negb]; [|apply quiet_performs, quiet_reply].
  apply Hk. split; [by apply not_empty|done].
Qed.

(** One store call [q], after which nothing touches the tables. *)
Ltac one_call q :=
  apply performs_on_result;
    [apply (serves_performs _ _ q); [first [apply serves_discard; reflexivity | apply serves_same; reflexivity]|]
    |intros; repeat case_match; auto with aevora
    |intros; unfold node_error; repeat case_match; auto with aevora].

Ltac refused := apply quiet_performs; unfold badJSON; auto with aevora.

Lemma performs_Enroll c r : performs c (authorised r c) (handleEnroll cfg r).
Proof.
  unfold handleEnroll. destruct (empty (JWTSecret cfg)) eqn:E; [refused|]. apply not_empty in E.
  destruct (DecodeStruct _ _ _) as [req []]; [|refused].
  destruct (validateEnroll req) as [msg|] eqn:Ev; [refused|]. one_call (Enroll_ req (RefreshTTL cfg)). done.
Qed.

Lemma performs_Login c r : performs c (authorised r c) (handleLogin cfg r).
Proof.
  unfold handleLogin. destruct (empty (JWTSecret cfg)) eqn:E; [refused|]. apply not_empty in E.
  destruct (DecodeStruct _ _ _) as [req []]; [|refused]. cbv zeta. destruct (_ || _); [refused|].
  one_call (GetCredentialsByEmail_ (TrimSpace (lr_Email req))). done.
Qed.

Lemma performs_Refresh c r : performs c (authorised r c) (handleRefresh cfg r).
Proof.
  unfold handleRefresh. destruct (empty (JWTSecret cfg)) eqn:E; [refused|]. apply not_empty in E.
  destruct (DecodeStruct _ _ _) as [tok []]; [|refused]. destruct (empty tok); [refused|].
  one_call (RefreshAccess_ tok). done.
Qed.

Lemma performs_SetPassword c r : performs c (authorised r c) (handleSetPassword cfg r).
Proof.
  apply performs_with_user. intros u Hu. destruct (DecodeStruct _ _ _) as [pw []]; [|refused].
  destruct (_ <? _)%nat; [refused|].
  apply performs_on_result_quiet; [auto with aevora| |intros; refused].
  intros hash. one_call (SetPassword_ u hash). done.
Qed.

Lemma performs_DeviceList c r : performs c (authorised r c) (handleDeviceList cfg r).
Proof. apply performs_with_user. intros u Hu. one_call (ListDevices_ u). done. Qed.

Lemma performs_DeviceCreate c r : performs c (authorised r c) (handleDeviceCreate cfg r).
Proof.
  apply performs_with_user. intros u Hu. destruct (DecodeStruct _ _ _) as [reg []]; [|refused].
  destruct (validateDevice reg); [refused|]. one_call (CreateDevice_ u reg (RefreshTTL cfg)). done.
Qed.

Lemma performs_DeviceRevoke c id r : performs c (authorised r c) (handleDeviceRevoke cfg id r).
Proof. apply performs_with_user. intros u Hu. one_call (RevokeDevice_ u id). done. Qed.

Lemma performs_InviteCreate c r : performs c (authorised r c) (handleInviteCreate cfg r).
Proof.
  apply performs_admin. intros Ha. cbv zeta. apply performs_bind_quiet; [auto with aevora|]. intros c'.
  destruct (invite_expiry _ _) as [e|]; [|refused].
  apply performs_on_result_quiet; [auto with aevora| |intros; refused].
  intros code. one_call (CreateInvite_ code (ir_Note (DecodeStruct decode_invite kB16 (rq_Body r)).1) e). done.
Qed.

Lemma performs_ConnectionCreate c r : performs c (authorised r c) (handleConnectionCreate cfg r).
Proof.
  apply performs_with_user. intros u Hu. destruct (DecodeStruct _ _ _) as [req []]; [|refused].
  destruct (_ || _); [refused|].
  one_call (CreateConnection_ u (cr_DeviceID req) (cr_CountryCode req) (LeaseTTL cfg) (HeartbeatTTL cfg)). done.
Qed.

Lemma performs_ConnectionDelete c id r : performs c (authorised r c) (handleConnectionDelete cfg id r).
Proof. apply performs_with_user. intros u Hu. one_call (ReleaseConnection_ u id). done. Qed.

Lemma performs_ConnectionStats c id r : performs c (authorised r c) (handleConnectionStats cfg id r).
Proof. apply performs_with_user. intros u Hu. one_call (RenewConnection_ u id (LeaseTTL cfg)). done. Qed.

Lemma performs_GatewayPeers c r : performs c (authorised r c) (handleGatewayPeers r).
Proof. apply performs_with_node. intros h Hh. one_call (GatewayPeers_ h). done. Qed.

Lemma performs_GatewayRegister c r : performs c (authorised r c) (handleGatewayRegister cfg r).
Proof.
  unfold handleGatewayRegister. destruct (empty (EnrollmentSecret cfg)) eqn:E; [refused|]. apply not_empty in E.
  unfold constEq. case_bool_decide as E2; cbn [negb]; [|refused].
  destruct (DecodeStruct _ _ _) as [reg []]; [|refused].
  destruct (validateRegistration reg) as [msg|] eqn:Ev; [refused|]. cbv zeta.
  one_call (RegisterGateway_ (if reg_EndpointPort reg =? 0 then set_port 51820 reg else reg)).
  split; [done|]. by destruct (_ =? _).
Qed.

Lemma performs_GatewayHeartbeat c r : performs c (authorised r c) (handleGatewayHeartbeat r).
Proof.
  apply performs_with_node. intros h Hh. destruct (DecodeStruct _ _ _) as [m []]; [|refused].
  one_call (Heartbeat_ h m). done.
Qed.

Lemma performs_GatewayDeregister c r : performs c (authorised r c) (handleGatewayDeregister r).
Proof. apply performs_with_node. intros h Hh. one_call (DeregisterGateway_ h). done. Qed.

Lemma quiet_fleet c gws :
  quiet c (bind get_clock (fun c => reply (writeJSON StatusOK
    ((fun out => JObj [("gateways", JArr out)]) <$> mapM (fun g => gatewayDTO_json (toGatewayDTO g (time_Now c) (HeartbeatTTL cfg))) gws)))).
Proof. apply quiet_bind; auto with aevora. Qed.

Lemma performs_GatewayList c r : performs c (authorised r c) (handleGatewayList cfg r).
Proof.
  apply performs_admin. intros Ha. apply performs_on_result;
    [apply (serves_performs _ _ ListGateways_); [by apply serves_discard|done]|intros; apply quiet_fleet|auto with aevora].
Qed.

Lemma performs_Locations c r : performs c (authorised r c) (handleLocations r).
Proof. one_call ListLocations_. done. Qed.

Lemma performs_patterns c r id :
  Forall (fun p => performs c (authorised r c) (pt_handle p id r)) (patterns cfg metrics_page).
Proof.
  unfold patterns. repeat apply Forall_cons_2; try apply Forall_nil_2; cbn [pt_handle]; unfold any;
    auto using performs_Enroll, performs_Login, performs_Refresh, performs_SetPassword, performs_DeviceList,
      performs_DeviceCreate, performs_DeviceRevoke, performs_InviteCreate, performs_ConnectionCreate,
      performs_ConnectionDelete, performs_ConnectionStats, performs_GatewayPeers, performs_GatewayRegister,
      performs_GatewayHeartbeat, performs_GatewayDeregister, performs_GatewayList, performs_Locations;
    apply quiet_performs, quiet_reply.
Qed.

(** A request is answered without a handler, and touches nothing, or by the handler of
    its pattern. *)
Lemma ServeHTTP_cases r c l s resp l' s' :
  ServeHTTP cfg metrics_page r c l s = (resp, l', s') ->
  s' = s \/ exists p id res, p ∈ patterns cfg metrics_page /\ pt_handle p id r c s = (res, s').
Proof.
  unfold ServeHTTP. destruct (route _ _ r) as [own|[p id]] eqn:Er; [intros [= <- <- <-]; by left|].
  destruct (rateLimited cfg p r c l) as [[] l1]; [|intros [= <- <- <-]; by left].
  unfold recoverer. destruct (pt_handle p id r c s) as [res s1] eqn:Em. intros E. right. exists p, id, res.
  split; [by apply (route_pattern _ _ _ _ _ Er)|]. destruct res; by injection E as <- <- <-.
Qed.

Lemma ServeHTTP_run r c l s resp l' s' :
  ServeHTTP cfg metrics_page r c l s = (resp, l', s') ->
  exists tr, run (s_db s) tr (s_db s') /\ (length tr <= 1)%nat /\ Forall (fun e => authorised r c e.1) tr.
Proof.
  intros [->|(p & id & res & Hp & Em)]%ServeHTTP_cases.
  - exists []. split; [constructor|]. split; [simpl; lia|constructor].
  - pose proof (performs_patterns c r id) as Hf. rewrite Forall_forall in Hf. by apply (Hf p Hp _ _ _ Em).
Qed.

(** ** What a request depends on *)

Section blind.
Context (st : Store) (c : Clock) (r : Request) (Hag : agree c (authorised r c) pg_store st).

Lemma same_with_user k k' :
  (forall u, speaks_for r c u -> same c (k u) (k' u)) -> same c (with_user cfg r k) (with_user cfg r k').
Proof.
  intros Hk s. unfold with_user. cbn [bind get_clock]. unfold authUser.
  destruct (empty (JWTSecret cfg)) eqn:E1; [done|]. destruct (empty (bearerToken r)) eqn:E2; [done|].
  destruct (ParseJWT _ _ _) as [claims [e|]] eqn:E3; [done|].
  apply Hk. split; [by apply not_empty|]. split; [by apply not_empty|]. eauto.
Qed.

Lemma same_with_node k k' : (forall h, node_token r h -> same c (k h) (k' h)) -> same c (with_node r k) (with_node r k').
Proof.
  intros Hk. unfold with_node. destruct (empty (bearerToken r)) eqn:E; [done|]. apply Hk. split; [by apply not_empty|done].
Qed.

Lemma same_admin k k' : (secret_token r (AdminToken cfg) -> same c k k') -> same c (admin cfg r k) (admin cfg r k').
Proof.
  intros Hk. unfold admin. destruct (empty (AdminToken cfg)) eqn:E1; [done|].
  unfold constEq. case_bool_decide as E2; cbn [negb]; [|done]. apply Hk. split; [by apply not_empty|done].
Qed.

(** A call both stores answer alike, and then the same. *)
Ltac asks_same q := apply same_on_result; [apply (Hag q); try done|done|done].

Lemma same_Enroll : same c (handleEnroll (H := pg_store) cfg r) (handleEnroll (H := st) cfg r).
Proof.
  unfold handleEnroll. destruct (empty (JWTSecret cfg)) eqn:E; [done|]. apply not_empty in E.
  destruct (DecodeStruct _ _ _) as [req []]; [|done].
  destruct (validateEnroll req) as [msg|] eqn:Ev; [done|]. asks_same (Enroll_ req (RefreshTTL cfg)).
Qed.

Lemma same_Login : same c (handleLogin (H := pg_store) cfg r) (handleLogin (H := st) cfg r).
Proof.
  unfold handleLogin. destruct (empty (JWTSecret cfg)) eqn:E; [done|]. apply not_empty in E.
  destruct (DecodeStruct _ _ _) as [req []]; [|done]. cbv zeta. destruct (_ || _); [done|].
  asks_same (GetCredentialsByEmail_ (TrimSpace (lr_Email req))).
Qed.

Lemma same_Refresh : same c (handleRefresh (H := pg_store) cfg r) (handleRefresh (H := st) cfg r).
Proof.
  unfold handleRefresh. destruct (empty (JWTSecret cfg)) eqn:E; [done|]. apply not_empty in E.
  destruct (DecodeStruct _ _ _) as [tok []]; [|done]. destruct (empty tok); [done|]. asks_same (RefreshAccess_ tok).
Qed.

Lemma same_SetPassword : same c (handleSetPassword (H := pg_store) cfg r) (handleSetPassword (H := st) cfg r).
Proof.
  apply same_with_user. intros u Hu. destruct (DecodeStruct _ _ _) as [pw []]; [|done].
  destruct (_ <? _)%nat; [done|]. apply same_on_result; [done| |done]. intros hash. asks_same (SetPassword_ u hash).
Qed.

Lemma same_DeviceCreate : same c (handleDeviceCreate (H := pg_store) cfg r) (handleDeviceCreate (H := st) cfg r).
Proof.
  apply same_with_user. intros u Hu. destruct (DecodeStruct _ _ _) as [reg []]; [|done].
  destruct (validateDevice reg); [done|]. asks_same (CreateDevice_ u reg (RefreshTTL cfg)).
Qed.

Lemma same_InviteCreate : same c (handleInviteCreate (H := pg_store) cfg r) (handleInviteCreate (H := st) cfg r).
Proof.
  apply same_admin. intros Ha. cbv zeta. apply same_bind; [done|]. intros c'.
  destruct (invite_expiry _ _) as [e|]; [|done]. apply same_on_result; [done| |done]. intros code.
  asks_same (CreateInvite_ code (ir_Note (DecodeStruct decode_invite kB16 (rq_Body r)).1) e).
Qed.

Lemma same_ConnectionCreate : same c (handleConnectionCreate (H := pg_store) cfg r) (handleConnectionCreate (H := st) cfg r).
Proof.
  apply same_with_user. intros u Hu. destruct (DecodeStruct _ _ _) as [req []]; [|done]. destruct (_ || _); [done|].
  asks_same (CreateConnection_ u (cr_DeviceID req) (cr_CountryCode req) (LeaseTTL cfg) (HeartbeatTTL cfg)).
Qed.

Lemma same_GatewayRegister : same c (handleGatewayRegister (H := pg_store) cfg r) (handleGatewayRegister (H := st) cfg r).
Proof.
  unfold handleGatewayRegister. destruct (empty (EnrollmentSecret cfg)) eqn:E; [done|]. apply not_empty in E.
  unfold constEq. case_bool_decide as E2; cbn [negb]; [|done]. destruct (DecodeStruct _ _ _) as [reg []]; [|done].
  destruct (validateRegistration reg) as [msg|] eqn:Ev; [done|]. cbv zeta.
  apply same_on_result; [|done|done]. apply (Hag (RegisterGateway_ _)). split; [done|]. by destruct (_ =? _).
Qed.

Lemma same_GatewayHeartbeat : same c (handleGatewayHeartbeat (H := pg_store) r) (handleGatewayHeartbeat (H := st) r).
Proof.
  apply same_with_node. intros h Hh. destruct (DecodeStruct _ _ _) as [m []]; [|done]. asks_same (Heartbeat_ h m).
Qed.

Lemma same_row method path limited (h h' : string -> Request -> M Response) :
  (forall id, same c (h id r) (h' id r)) -> same_pattern c r (mkPattern method path limited h) (mkPattern method path limited h').
Proof. by split. Qed.

Lemma same_patterns :
  Forall2 (same_pattern c r) (patterns (H := pg_store) cfg metrics_page) (patterns (H := st) cfg metrics_page).
Proof.
  unfold patterns. repeat (apply List.Forall2_cons; [apply same_row; intros id; unfold any|]); [..|apply List.Forall2_nil].
  - reflexivity.
  - reflexivity.
  - asks_same ListLocations_.
  - exact same_Enroll.
  - exact same_Login.
  - exact same_Refresh.
  - exact same_SetPassword.
  - apply same_with_user. intros u Hu. asks_same (ListDevices_ u).
  - exact same_DeviceCreate.
  - apply same_with_user. intros u Hu. asks_same (RevokeDevice_ u id).
  - exact same_InviteCreate.
  - exact same_ConnectionCreate.
  - apply same_with_user. intros u Hu. asks_same (ReleaseConnection_ u id).
  - apply same_with_user. intros u Hu. asks_same (RenewConnection_ u id (LeaseTTL cfg)).
  - exact same_GatewayRegister.
  - exact same_GatewayHeartbeat.
  - apply same_with_node. intros h Hh. asks_same (DeregisterGateway_ h).
  - apply same_with_node. intros h Hh. asks_same (GatewayPeers_ h).
  - apply same_admin. intros Ha. asks_same ListGateways_.
Qed.

End blind.

(** C18: a request, whatever it is and whatever the database does, runs at most one
    operation of the store, and only one its credentials and its checked body allow: a
    user's own operations with an unexpired access token of the user, a node's with its
    token, registration with the enrollment secret, invites and the fleet view with the
    admin token, and the unauthenticated ones. That goes for reads too: over any other
    store that answers the allowed calls alike, and the others in whatever way, the server
    gives the same reply, counts the same and leaves the same behind. *)
Theorem request_authorised r c l s resp l' s' :
  ServeHTTP cfg metrics_page r c l s = (resp, l', s') ->
  (exists tr, run (s_db s) tr (s_db s') /\ (length tr <= 1)%nat /\ Forall (fun e => authorised r c e.1) tr) /\
  (forall st : Store, agree c (authorised r c) pg_store st -> ServeHTTP (H := st) cfg metrics_page r c l s = (resp, l', s')).
Proof.
  intros E. split; [by eapply ServeHTTP_run|]. intros st Hag. rewrite <- E. symmetry.
  apply same_ServeHTTP, same_patterns, Hag.
Qed.

(** Requests in a sequence, at any clocks and with any outcomes of their statements, and
    what runs between them. *)
Inductive serves_requests : DB -> DB -> Prop :=
| no_more db : serves_requests db db
| one_request r c l s resp l' s' db' :
    ServeHTTP cfg metrics_page r c l s = (resp, l', s') -> serves_requests (s_db s') db' ->
    serves_requests (s_db s) db'
| background db tr db1 db' : run db tr db1 -> serves_requests db1 db' -> serves_requests db db'.

Lemma ServeHTTP_good r c l s resp l' s' :
  wf (s_db s) -> ServeHTTP cfg metrics_page r c l s = (resp, l', s') -> good (s_db s) (s_db s').
Proof.
  intros Hwf (tr & Htr & _)%ServeHTTP_run. by apply (run_good _ tr).
Qed.

(** They are an execution of the store. *)
Lemma serves_requests_run db db' : serves_requests db db' -> exists tr, run db tr db'.
Proof.
  intros Hs. induction Hs as [db|r c l s resp l' s' db' E Hs [tr' IH]|db tr db1 db' Hr Hs [tr' IH]].
  - exists []. constructor.
  - apply ServeHTTP_run in E as (tr & Htr & _). exists (tr ++ tr'). by apply (run_app _ _ (s_db s')).
  - exists (tr ++ tr'). by apply (run_app _ _ db1).
Qed.

(** However the API is used, and whatever the reaper does between requests, the tables
    stay well formed: the schema's constraints and the ones only the code enforces hold, and
    no row goes back in its life cycle. *)
Theorem api_keeps_tables_well_formed db db' : wf db -> serves_requests db db' -> good db db'.
Proof. intros Hwf [tr Hr]%serves_requests_run. by apply (run_good _ tr). Qed.

End safety.

(** ** Witnesses *)

#[local] Existing Instances demo_pg toy_argon2 toy_rate.

(** Nobody is an administrator at the request for a connection: whatever the store would say
    of its gateways does not matter to it. *)
Definition keeps_gateways : Store := {|
  st_ListLocations := ListLocations; st_RegisterGateway := RegisterGateway; st_Heartbeat := Heartbeat;
  st_DeregisterGateway := DeregisterGateway; st_ListGateways := of_result Panic; st_Enroll := Enroll;
  st_CreateDevice := CreateDevice; st_ListDevices := ListDevices; st_RevokeDevice := RevokeDevice;
  st_RefreshAccess := RefreshAccess; st_CreateInvite _ _ _ := of_result Panic; st_SetPassword := SetPassword;
  st_GetCredentialsByEmail := GetCredentialsByEmail; st_CreateConnection := CreateConnection;
  st_ReleaseConnection := ReleaseConnection; st_RenewConnection := RenewConnection; st_GatewayPeers := GatewayPeers
|}.

Lemma keeps_gateways_agree : agree (at_time 6000) (authorised demo_cfg connect_request (at_time 6000)) pg_store keeps_gateways.
Proof. intros q Hq s. destruct q; try reflexivity; destruct Hq as [_ Hq]; vm_compute in Hq; discriminate Hq. Qed.

Lemma request_authorised_witness :
  (exists tr, run demo_db tr (s_db connect_served.2) /\ (length tr <= 1)%nat /\
    Forall (fun e => authorised demo_cfg connect_request (at_time 6000) e.1) tr) /\
  ServeHTTP (H := keeps_gateways) demo_cfg plain_page connect_request (at_time 6000) (NewServer demo_cfg) demo_session =
    ((connect_reply, [ConnCreated]), NewServer demo_cfg, connect_served.2).
Proof.
  destruct (request_authorised demo_cfg plain_page connect_request (at_time 6000) (NewServer demo_cfg) demo_session
    (connect_reply, [ConnCreated]) (NewServer demo_cfg) connect_served.2 connect_served_eq) as [Ht Hst].
  split; [exact Ht|exact (Hst keeps_gateways keeps_gateways_agree)].
Defined.

Lemma api_keeps_tables_well_formed_witness : good demo_db (s_db connect_served.2).
Proof.
  apply (api_keeps_tables_well_formed demo_cfg plain_page demo_db (s_db connect_served.2) demo_wf).
  exact (one_request demo_cfg plain_page connect_request (at_time 6000) (NewServer demo_cfg) demo_session
    _ _ connect_served.2 _ connect_served_eq (no_more demo_cfg plain_page _)).
Defined.
