(* ===== verification/ApiReplies.v ===== *)
(** What a request is answered: every reply is well formed, no handler fails, and the
    replies of the operations clients rely on. *)
From S2P Require Import Prelude Floats Model GoStrings NetAddr Crypto Json JsonFacts JsonFloats GoTime Jwt Password Ratelimit Alloc Db Session StoreGateways StoreIdentity StoreConnections System Demo Http Api ApiDemo ApiRules.

(** ** Bodies with text *)

(** A value [print] writes and [parse] reads back. *)
Definition readable (v : json) : Prop := numeric v /\ nesting v <= 10.

Lemma readable_parse v : readable v -> parse (body_text (Json v)) = Some (valid_json v).
Proof.
  intros [Hn Hd]. unfold parse. cbn [body_text].
  rewrite parse_prefix_print by (done || unfold max_depth; lia). done.
Qed.

(** Members and elements, [n] levels deep. *)
Definition shallow (n : Z) (v : json) : Prop := numeric v /\ nesting v <= n.
Definition members_ok (n : Z) (l : list (string * json)) : Prop := Forall (fun kv => shallow n kv.2) l.

Lemma shallow_str n s : 0 <= n -> shallow n (JStr s).
Proof. by split. Qed.
Lemma shallow_bool n b : 0 <= n -> shallow n (JBool b).
Proof. by split. Qed.
Lemma shallow_int n z : 0 <= n -> shallow n (JNum (Itoa z)).
Proof. split; [apply Itoa_number|done]. Qed.

Lemma shallow_obj n l : 0 <= n -> members_ok n l -> shallow (n + 1) (JObj l).
Proof.
  intros Hn Hl. unfold shallow. cbn [numeric nesting].
  induction Hl as [|kv l [Hkv Hd] Hl [IHn IHd]]; cbn [fold_right] in *; split; auto; lia.
Qed.

Lemma shallow_arr n l : 0 <= n -> Forall (shallow n) l -> shallow (n + 1) (JArr l).
Proof.
  intros Hn Hl. unfold shallow. cbn [numeric nesting].
  induction Hl as [|v l [Hv Hd] Hl [IHn IHd]]; cbn [fold_right] in *; split; auto; lia.
Qed.

Lemma shallow_weaken n m v : n <= m -> shallow n v -> shallow m v.
Proof. intros Hnm [? ?]. split; [done|lia]. Qed.

Lemma shallow_strings n l : 0 <= n -> shallow (n + 1) (strings_json l).
Proof. intros Hn. apply shallow_arr; [done|]. apply Forall_fmap, Forall_true. intros s. by apply shallow_str. Qed.

Lemma members_str n k v : 0 <= n -> members_ok n (str_field k v).
Proof. intros. repeat constructor. done. Qed.
Lemma members_int n k v : 0 <= n -> members_ok n (int_field k v).
Proof. intros. constructor; [by apply shallow_int|constructor]. Qed.
Lemma members_str_opt n k v : 0 <= n -> members_ok n (str_field_opt k v).
Proof. intros. unfold str_field_opt. case_bool_decide; [constructor|by apply members_str]. Qed.
Lemma members_int_opt n k v : 0 <= n -> members_ok n (int_field_opt k v).
Proof. intros. unfold int_field_opt. destruct (v =? 0); [constructor|by apply members_int]. Qed.
Lemma members_ptr_opt n k v : 0 <= n -> members_ok n (ptr_field_opt k v).
Proof. intros. destruct v; [by apply members_str|constructor]. Qed.
Lemma members_app n l1 l2 : members_ok n l1 -> members_ok n l2 -> members_ok n (l1 ++ l2).
Proof. intros. by apply Forall_app. Qed.
Lemma members_cons n k v l : shallow n v -> members_ok n l -> members_ok n ((k, v) :: l).
Proof. intros. by constructor. Qed.
Lemma members_nil n : members_ok n [].
Proof. constructor. Qed.

Lemma members_float n k f l : 0 <= n -> float_field k f = Some l -> members_ok n l.
Proof.
  intros Hn. unfold float_field. destruct (FormatFloat f) as [t|] eqn:E; [|done]. intros [= <-].
  apply members_cons; [|constructor]. split; [by apply FormatFloat_number in E|done].
Qed.
Lemma members_float_ptr n k f l : 0 <= n -> float_ptr_field k f = Some l -> members_ok n l.
Proof. intros Hn. destruct f as [f|]; [by apply members_float|]. intros [= <-]. constructor. Qed.

Create HintDb replies.
#[export] Hint Resolve shallow_str shallow_bool shallow_int shallow_strings members_str members_int members_str_opt
  members_int_opt members_ptr_opt members_app members_cons members_nil : replies.
#[export] Hint Extern 1 (0 <= _) => lia : replies.

Lemma shallow_obj0 l : members_ok 0 l -> shallow 1 (JObj l).
Proof. apply (shallow_obj 0). lia. Qed.
Lemma shallow_obj1 l : members_ok 1 l -> shallow 2 (JObj l).
Proof. apply (shallow_obj 1). lia. Qed.

Lemma shallow_location l : shallow 1 (locationDTO l).
Proof. apply shallow_obj0. auto 10 with replies. Qed.
Lemma shallow_device d : shallow 1 (deviceDTO_json d).
Proof. apply shallow_obj0. auto 20 with replies. Qed.
Lemma shallow_token t : shallow 1 (tokenResponse_json t).
Proof. apply shallow_obj0. auto 20 with replies. Qed.
Lemma shallow_peer p : shallow 2 (peer_json p).
Proof. apply shallow_obj1. repeat apply members_cons; [auto with replies|apply (shallow_strings 0); lia|constructor]. Qed.

Lemma shallow_connection cfg conn : shallow 3 (connectionResponse cfg conn).
Proof.
  apply (shallow_obj 2); [lia|]. unfold connectionResponse.
  repeat (apply members_app || apply members_cons); auto with replies.
  - apply shallow_obj1. repeat apply members_app; auto with replies.
  - apply (shallow_strings 1). lia.
  - apply (shallow_strings 1). lia.
Qed.

Lemma shallow_gateway g v : gatewayDTO_json g = Some v -> shallow 1 v.
Proof.
  unfold gatewayDTO_json. destruct (float_field _ _) as [cpu|] eqn:E1; [|done].
  destruct (float_ptr_field _ (gd_Latitude g)) as [lat|] eqn:E2; [|done].
  destruct (float_ptr_field _ (gd_Longitude g)) as [lon|] eqn:E3; [|done]. intros [= <-].
  apply shallow_obj0. repeat (apply members_app || apply members_cons); auto with replies.
  - by eapply members_float.
  - by eapply members_float_ptr.
  - by eapply members_float_ptr.
Qed.

Lemma shallow_gateways gws now ttl out :
  mapM (fun g => gatewayDTO_json (toGatewayDTO g now ttl)) gws = Some out -> Forall (shallow 1) out.
Proof. intros E. apply mapM_Some in E. induction E; constructor; eauto using shallow_gateway. Qed.

(** A list of DTOs under one name. *)
Lemma readable_list n k l : 0 <= n <= 8 -> Forall (shallow n) l -> readable (JObj [(k, JArr l)]).
Proof.
  intros Hn Hl. apply (shallow_weaken (n + 1 + 1)); [lia|]. apply shallow_obj; [lia|].
  apply members_cons; [|constructor]. apply shallow_arr; [lia|done].
Qed.

Lemma readable_flat l : members_ok 0 l -> readable (JObj l).
Proof. intros Hl. apply (shallow_weaken 1); [lia|]. by apply shallow_obj0. Qed.

(** ** Well-formed replies *)

Definition codes : list Z := [200; 201; 204; 400; 401; 403; 404; 405; 409; 429; 500; 503].

(** An error carries a message; a success carries a value or nothing. *)
Definition reply_ok (r : Reply) : Prop :=
  status r ∈ codes /\
  match content r with
  | Json v => readable v /\ ((400 <=? status r) = true -> exists msg, v = JObj [("error", JStr msg)])
  | Text _ => True
  | NoBody => (400 <=? status r) = false
  end.

Definition response_ok (x : Response) : Prop := reply_ok x.1.

Lemma error_ok code msg : code ∈ codes -> reply_ok (writeError code msg).
Proof. intros Hc. split; [done|]. split; [|eauto]. apply readable_flat. auto with replies. Qed.

Lemma json_ok code v : code ∈ codes -> (400 <=? code) = false -> readable v -> reply_ok (writeJSON code (Some v)).
Proof. intros Hc Hs Hv. split; [done|]. split; [done|]. cbn [status writeJSON]. by rewrite Hs. Qed.

Lemma replies_reply r : reply_ok r -> replies response_ok (reply r).
Proof. intros. by apply replies_ret. Qed.

Lemma replies_counted m r : reply_ok r -> replies response_ok (counted m r).
Proof. intros. by apply replies_ret. Qed.

Lemma replies_error code msg : code ∈ codes -> replies response_ok (reply (writeError code msg)).
Proof. intros. by apply replies_reply, error_ok. Qed.

Lemma replies_counted_error m code msg : code ∈ codes -> replies response_ok (counted m (writeError code msg)).
Proof. intros. by apply replies_counted, error_ok. Qed.

Ltac in_codes := apply (bool_decide_eq_true_1 _); reflexivity.

(** Through a handler to its replies; refusals and errors are closed, successes left. *)
Ltac responses :=
  repeat (intros; match goal with
  | |- replies _ (on_result _ _ _) => apply replies_on_result
  | |- replies _ (bind get_clock _) => apply replies_get_clock
  | |- replies _ (of_result Panic) => apply replies_panic
  | |- replies _ badJSON => apply replies_error; in_codes
  | |- replies _ (reply (writeError _ _)) => apply replies_error; in_codes
  | |- replies _ (counted _ (writeError _ _)) => apply replies_counted_error; in_codes
  | |- replies _ (ret (writeError _ _, _)) => apply replies_ret, error_ok; in_codes
  | |- replies _ (node_error _ _) => unfold node_error
  | |- replies _ (if ?b then _ else _) => destruct b
  | |- replies _ (match ?x with _ => _ end) => destruct x
  | |- replies _ (let _ := _ in _) => cbv zeta
  end); intros.

Section all_replies.
Context `{Store} `{Argon2} `{Rate} (cfg : ServerConfig) (metrics_page : Request -> Reply).

Lemma replies_with_user r k : (forall u, replies response_ok (k u)) -> replies response_ok (with_user cfg r k).
Proof.
  intros Hk. unfold with_user. apply replies_get_clock. intros c. unfold authUser.
  destruct (empty (JWTSecret cfg)); [responses|]. destruct (empty (bearerToken r)); [responses|].
  destruct (ParseJWT _ _ _) as [claims [e|]]; [responses|apply Hk].
Qed.

Lemma replies_with_node r k : (forall h, replies response_ok (k h)) -> replies response_ok (with_node r k).
Proof. intros Hk. unfold with_node. cbv zeta. destruct (empty (bearerToken r)); [responses|apply Hk]. Qed.

Lemma replies_admin r k : replies response_ok k -> replies response_ok (admin cfg r k).
Proof.
  intros Hk. unfold admin. destruct (empty (AdminToken cfg)).
  - apply replies_reply. split; [in_codes|done].
  - destruct (negb _); [responses|done].
Qed.

Lemma replies_with_access u ms code f :
  code ∈ codes -> (400 <=? code) = false ->
  replies response_ok (with_access cfg u ms (fun access => writeJSON code (Some (tokenResponse_json (f access))))).
Proof.
  intros Hc Hs. unfold with_access. responses. apply replies_ret, json_ok; [done..|].
  apply (shallow_weaken 1); [lia|]. apply shallow_token.
Qed.

Lemma no_content_ok : reply_ok (WriteHeader StatusNoContent).
Proof. split; [in_codes|done]. Qed.

Lemma replies_patterns r id :
  (forall r, reply_ok (metrics_page r)) ->
  Forall (fun p => replies response_ok (pt_handle p id r)) (patterns cfg metrics_page).
Proof.
  intros Hpage. unfold patterns.
  repeat apply Forall_cons_2; try apply Forall_nil_2; cbn [pt_handle]; unfold any.
  - apply replies_reply, json_ok; [in_codes|done|]. apply readable_flat. auto with replies.
  - apply replies_reply, Hpage.
  - unfold handleLocations. responses. apply replies_reply, json_ok; [in_codes|done|].
    apply (readable_list 1); [lia|]. apply Forall_fmap, Forall_true. intros. apply shallow_location.
  - unfold handleEnroll. responses. apply replies_with_access; [in_codes|done].
  - unfold handleLogin. responses. apply replies_with_access; [in_codes|done].
  - unfold handleRefresh. responses. apply replies_with_access; [in_codes|done].
  - apply replies_with_user. responses. apply replies_reply, no_content_ok.
  - apply replies_with_user. responses. apply replies_reply, json_ok; [in_codes|done|].
    apply (readable_list 1); [lia|]. apply Forall_fmap, Forall_true. intros. apply shallow_device.
  - apply replies_with_user. responses. apply replies_reply, json_ok; [in_codes|done|].
    apply (shallow_weaken 1); [lia|]. apply shallow_token.
  - apply replies_with_user. responses. apply replies_reply, no_content_ok.
  - apply replies_admin. responses. apply replies_reply, json_ok; [in_codes|done|].
    apply readable_flat. auto with replies.
  - apply replies_with_user. responses. apply replies_counted, json_ok; [in_codes|done|].
    apply (shallow_weaken 3); [lia|]. apply shallow_connection.
  - apply replies_with_user. responses. apply replies_reply, no_content_ok.
  - apply replies_with_user. responses. apply replies_reply, json_ok; [in_codes|done|].
    apply readable_flat. auto with replies.
  - unfold handleGatewayRegister. responses. apply replies_reply, json_ok; [in_codes|done|].
    apply readable_flat. auto 10 with replies.
  - apply replies_with_node. responses. apply replies_reply, json_ok; [in_codes|done|].
    apply readable_flat. auto with replies.
  - apply replies_with_node. responses. apply replies_reply, no_content_ok.
  - apply replies_with_node. responses. apply replies_reply, json_ok; [in_codes|done|].
    apply (readable_list 2); [lia|]. apply Forall_fmap, Forall_true. intros. apply shallow_peer.
  - apply replies_admin. responses. apply replies_reply.
    destruct (mapM _ _) as [out|] eqn:E; [|split; [in_codes|done]].
    apply json_ok; [in_codes|done|]. apply (readable_list 1); [lia|]. by eapply shallow_gateways.
Qed.

Lemma route_own_ok r own : route cfg metrics_page r = inl own -> reply_ok own.
Proof.
  unfold route. destruct (List.find _ _); [done|]. destruct (omap _ _); intros [= <-]; (split; [in_codes|done]).
Qed.

(** C19: every request gets one well-formed reply, whatever the store answers and however
    its statements end: a status the clients know, and a body that reads back as the value
    the handler wrote; an error status comes with a message and nothing else, or is the
    mux's own text. *)
Theorem every_reply_well_formed r c l s resp l' s' :
  (forall r, reply_ok (metrics_page r)) ->
  ServeHTTP cfg metrics_page r c l s = (resp, l', s') ->
  status resp.1 ∈ codes /\
  (forall v, content resp.1 = Json v -> parse (body_text (content resp.1)) = Some (valid_json v)) /\
  (400 <= status resp.1 ->
     (exists t, content resp.1 = Text t) \/ exists msg, content resp.1 = Json (JObj [("error", JStr msg)])).
Proof.
  intros Hpage E. assert (Hok : response_ok resp).
  { revert E. unfold ServeHTTP. destruct (route _ _ r) as [own|[p id]] eqn:Er.
    - intros Eq. injection Eq as <- _ _. exact (route_own_ok _ _ Er).
    - destruct (rateLimited cfg p r c l) as [[] l1].
      + unfold recoverer. destruct (pt_handle p id r c s) as [res s1] eqn:Em.
        destruct (route_pattern _ _ _ _ _ Er) as [Hp _].
        pose proof (replies_patterns r id Hpage) as Hf. rewrite Forall_forall in Hf.
        pose proof (Hf p Hp _ _ _ _ Em) as Hres.
        destruct res as [x|e|]; [|destruct Hres|]; intros Eq; injection Eq as <- _ _; [exact Hres|].
        apply error_ok. in_codes.
      + intros Eq. injection Eq as <- _ _. apply error_ok. in_codes. }
  destruct Hok as [Hc Hb]. split; [done|]. destruct (content resp.1) as [|t|v] eqn:Ec.
  - split; [done|]. intros Hs. apply Z.leb_le in Hs. congruence.
  - split; [done|]. eauto.
  - destruct Hb as [Hv He]. split.
    + intros v' [= <-]. by apply readable_parse.
    + intros Hs. apply Z.leb_le in Hs. destruct (He Hs) as [msg ->]. eauto.
Qed.

End all_replies.

Lemma every_reply_well_formed_witness :
  status connect_reply ∈ codes /\
  forall v, content connect_reply = Json v -> parse (body_text (content connect_reply)) = Some (valid_json v).
Proof.
  assert (Hpage : forall r, reply_ok (plain_page r)) by (intros r; split; [in_codes|done]).
  destruct (every_reply_well_formed (H := @pg_store demo_pg) (H0 := toy_argon2) (H1 := toy_rate) demo_cfg plain_page
    connect_request (at_time 6000) (NewServer demo_cfg) demo_session (connect_reply, [ConnCreated])
    (NewServer demo_cfg) connect_served.2 Hpage connect_served_eq) as (Hs & Hv & _).
  split; [exact Hs|exact Hv].
Defined.
