(* ===== verification/ApiFlows.v ===== *)
(** What a client and a gateway get out of the API together: a connection that was
    granted is served to its gateway, and a token that was granted opens the API. *)
From S2P Require Import Prelude Floats Model Selection GoStrings NetAddr Crypto Json JsonFacts GoTime Jwt Password Ratelimit Alloc Db Session StoreGateways StoreIdentity StoreConnections Schema Facts System Demo Http Api ApiDemo ApiRules ApiSafety.

Section flows.
Context `{PostgresOrder} `{Argon2} `{Rate} (cfg : ServerConfig) (metrics_page : Request -> Reply).

#[local] Existing Instance pg_store.

(** ** Requests to one handler *)

Definition is_request (method : string) (path : list string) (r : Request) : Prop :=
  rq_Method r = method /\ rq_Path r = path.

Lemma serve_handler p id r c l s :
  route cfg metrics_page r = inr (p, id) -> pt_limited p = false ->
  ServeHTTP cfg metrics_page r c l s = let '(resp, s') := recoverer (pt_handle p id r) c s in (resp, l, s').
Proof. intros Hr Hl. unfold ServeHTTP, rateLimited. by rewrite Hr, Hl. Qed.

(** Behind the limiter, a reply that is not 429 is the handler's. *)
Lemma serve_limited p id r c l s resp l' s' :
  route cfg metrics_page r = inr (p, id) -> ServeHTTP cfg metrics_page r c l s = (resp, l', s') ->
  status resp.1 <> StatusTooManyRequests -> recoverer (pt_handle p id r) c s = (resp, s').
Proof.
  intros Hr. unfold ServeHTTP. rewrite Hr. destruct (rateLimited cfg p r c l) as [[] l1].
  - destruct (recoverer _ _ _) as [x s1]. intros E _. by injection E as <- _ <-.
  - intros E Hs. injection E as <- _ _. by destruct Hs.
Qed.

Lemma recoverer_Ok m c s x s' : m c s = (Ok x, s') -> recoverer m c s = (x, s').
Proof. unfold recoverer. by intros ->. Qed.

(** A reply other than 500 is what the handler returned. *)
Lemma recoverer_inv m c s x s' :
  recoverer m c s = (x, s') -> status x.1 <> StatusInternalServerError -> m c s = (Ok x, s').
Proof.
  unfold recoverer. destruct (m c s) as [[y|e|] s1]; intros E Hs; injection E as <- <-; [done|by destruct Hs..].
Qed.

Lemma route_to method path r :
  is_request method path r ->
  route cfg metrics_page r = route cfg metrics_page (mkRequest method path "" "" "" "").
Proof. intros [Hm Hp]. unfold route. cbn [rq_Method rq_Path]. by rewrite Hm, Hp. Qed.

Definition POST_connections := is_request "POST" ["v1"; "connections"].
Definition GET_peers := is_request "GET" ["v1"; "gateways"; "peers"].
Definition POST_enroll := is_request "POST" ["v1"; "enroll"].

Lemma route_connections r : POST_connections r ->
  route cfg metrics_page r =
  inr (mkPattern "POST" [Lit "v1"; Lit "connections"] false (any (handleConnectionCreate cfg)), EmptyString).
Proof. intros Hr. rewrite (route_to _ _ r Hr). reflexivity. Qed.

Lemma route_peers r : GET_peers r ->
  route cfg metrics_page r =
  inr (mkPattern "GET" [Lit "v1"; Lit "gateways"; Lit "peers"] false (any handleGatewayPeers), EmptyString).
Proof. intros Hr. rewrite (route_to _ _ r Hr). reflexivity. Qed.

Lemma route_enroll r : POST_enroll r ->
  route cfg metrics_page r =
  inr (mkPattern "POST" [Lit "v1"; Lit "enroll"] true (any (handleEnroll cfg)), EmptyString).
Proof. intros Hr. rewrite (route_to _ _ r Hr). reflexivity. Qed.

(** ** Running a handler *)

Lemma on_result_inv {A} (m : M A) ok err c s x s' :
  on_result m ok err c s = (Ok x, s') ->
  exists r s1, m c s = (r, s1) /\
    match r with Ok a => ok a c s1 = (Ok x, s') | Err e => err e c s1 = (Ok x, s') | Panic => False end.
Proof.
  unfold on_result, bind, try. destruct (m c s) as [[a|e|] s1]; intros E; [exists (Ok a)|exists (Err e)|done]; eauto.
Qed.

Lemma on_result_Ok {A} (m : M A) ok err c s a s1 :
  m c s = (Ok a, s1) -> on_result m ok err c s = ok a c s1.
Proof. unfold on_result, bind, try. by intros ->. Qed.

Lemma with_user_inv r k c s x s' :
  with_user cfg r k c s = (Ok x, s') -> status x.1 <> StatusUnauthorized -> status x.1 <> StatusServiceUnavailable ->
  exists u, speaks_for cfg r c u /\ k u c s = (Ok x, s').
Proof.
  unfold with_user. cbn [bind get_clock]. unfold authUser.
  destruct (empty (JWTSecret cfg)) eqn:E1; [intros E _ Hs; injection E as <- _; by destruct Hs|].
  destruct (empty (bearerToken r)) eqn:E2; [intros E Hs _; injection E as <- _; by destruct Hs|].
  destruct (ParseJWT _ _ _) as [claims [e|]] eqn:E3; [intros E Hs _; injection E as <- _; by destruct Hs|].
  intros E _ _. exists (Subject claims). split; [|done].
  split; [by apply not_empty|]. split; [by apply not_empty|]. eauto.
Qed.

(** ** A granted connection *)

(** What a 201 to POST /v1/connections comes from. *)
Lemma connection_granted r c l s resp l' s' :
  POST_connections r -> ServeHTTP cfg metrics_page r c l s = (resp, l', s') -> status resp.1 = StatusCreated ->
  exists u req conn, speaks_for cfg r c u /\ DecodeStruct decode_connect kB16 (rq_Body r) = (req, true) /\
    CreateConnection u (cr_DeviceID req) (cr_CountryCode req) (LeaseTTL cfg) (HeartbeatTTL cfg) c s = (Ok conn, s') /\
    resp = (writeJSON StatusCreated (Some (connectionResponse cfg conn)), [ConnCreated]).
Proof.
  intros Hr E Hs. rewrite (serve_handler _ _ _ _ _ _ (route_connections r Hr) eq_refl) in E.
  destruct (recoverer _ _ _) as [x s1] eqn:Er. injection E as -> _ ->.
  apply recoverer_inv in Er; [|by rewrite Hs]. cbn [pt_handle any] in Er. unfold any, handleConnectionCreate in Er.
  apply with_user_inv in Er as (u & Hu & Er); [|by rewrite Hs..].
  destruct (DecodeStruct _ _ _) as [req []] eqn:Ed; [|by injection Er as <- _].
  destruct (_ || _); [by injection Er as <- _|].
  apply on_result_inv in Er as (res & s1 & Ec & Er). destruct res as [conn|e|]; [|exfalso|done].
  - injection Er as <- <-. by exists u, req, conn.
  - destruct e; injection Er as <- _; done.
Qed.

(** The peers request of a node, when the statements go through. *)
Lemma peers_fine r c l db us rs gid :
  GET_peers r -> bearerToken r <> EmptyString ->
  head (pg_rows (gateway_of_token (HashToken (bearerToken r)) db)) = Some gid ->
  ServeHTTP cfg metrics_page r c l (mkSession db [] us rs) =
  ((writeJSON StatusOK (Some (JObj [("peers", JArr (peer_json <$>
      ((fun kl => peer_of kl.2) <$> pg_rows (select_rows (serving (now c) gid) (leases db)))))])), []),
   l, mkSession db [] us rs).
Proof.
  intros Hr Ht Hg. rewrite (serve_handler _ _ _ _ _ _ (route_peers r Hr) eq_refl).
  cbn [pt_handle any]. unfold any, handleGatewayPeers, with_node, empty. cbv zeta. rewrite bool_decide_false by done.
  set (ps := (fun kl => peer_of kl.2) <$> _).
  assert (Ep : GatewayPeers (HashToken (bearerToken r)) c (mkSession db [] us rs) = (Ok ps, mkSession db [] us rs)).
  { unfold GatewayPeers. rewrite (bind_fine _ _ _ _ _ _ (get_clock_fine _ _)).
    rewrite (bind_fine _ _ _ _ _ _ (query_row_fine _ _ _ _ _)), Hg.
    by rewrite (bind_fine _ _ _ _ _ _ (query_all_fine _ _ _ _ _)). }
  erewrite recoverer_Ok; [|rewrite (on_result_Ok _ _ _ _ _ _ _ Ep); reflexivity]. reflexivity.
Qed.

(** The members of the reply to a connection that the client configures its tunnel with. *)
Definition tells (reply : json) (id key ip : string) (ip6 : option string) (expires : Time) : Prop :=
  exists fs server, reply = JObj fs /\ ("connection_id", JStr id) ∈ fs /\ ("assigned_ip", JStr ip) ∈ fs /\
    ("expires_at", JStr (FormatRFC3339 expires)) ∈ fs /\ ("server", JObj server) ∈ fs /\ ("public_key", JStr key) ∈ server /\
    match ip6 with Some x => ("assigned_ip6", JStr x) ∈ fs | None => True end.

Lemma connectionResponse_tells conn :
  tells (connectionResponse cfg conn) (conn_ID conn) (conn_GatewayPublicKey conn) (conn_AssignedIPv4 conn) (conn_AssignedIPv6 conn) (conn_ExpiresAt conn).
Proof.
  unfold tells, connectionResponse. do 2 eexists. split; [reflexivity|].
  assert (Hhere : forall k v (fs : list (string * json)), (k, JStr v) ∈ str_field k v ++ fs) by (intros k v fs; apply elem_of_app; left; left).
  assert (Hnext : forall x (fs gs : list (string * json)), x ∈ gs -> x ∈ fs ++ gs) by (intros x fs gs Hx; apply elem_of_app; by right).
  splits.
  - apply Hhere.
  - do 2 apply Hnext. apply Hhere.
  - do 6 apply Hnext. apply Hhere.
  - apply Hnext, elem_of_app. left. left.
  - do 4 apply Hnext. left.
  - destruct (conn_AssignedIPv6 conn) as [x|]; [|done]. do 3 apply Hnext. apply elem_of_app. left. left.
Qed.

(** C20: a client that is granted a connection is served. Behind a 201 is an active lease for
    the device the request names, which is live and the caller's, and the reply has the id,
    the expiry and the IPv4 address of the lease (and a text of its IPv6 address, if any) and
    the public key of its gateway. From then on, whatever further requests are served one
    after the other, and whatever the background does in between, as long as that lease is
    active and has not expired, its gateway, asking for its peers with a live token only it
    has, is told the device's key with the address in the reply. *)
Theorem granted_connection_is_served `{!PostgresInet} r c l s resp l' s' :
  wf (s_db s) -> POST_connections r ->
  ServeHTTP cfg metrics_page r c l s = (resp, l', s') -> status resp.1 = StatusCreated ->
  exists u req body id ip v6 lr d g, speaks_for cfg r c u /\ DecodeStruct decode_connect kB16 (rq_Body r) = (req, true) /\
    content resp.1 = Json body /\
    tells body id (g_public_key g) ip ((fun x => x +:+ "/128") <$> v6) (le_expires_at lr) /\
    leases (s_db s') !! id = Some lr /\ le_state lr = Active /\ inet_opt v6 = Some (le_assigned_ip_v6 lr) /\
    pg_uuid (cr_DeviceID req) = Some (le_device_id lr) /\ devices (s_db s') !! le_device_id lr = Some d /\
    pg_uuid u = Some (d_user_id d) /\ d_revoked_at d = None /\
    gateways (s_db s') !! le_gateway_id lr = Some g /\
    peer_PublicKey (peer_of lr) = d_public_key d /\ head (peer_AllowedIPs (peer_of lr)) = Some ip /\
    forall db lr2 g2 r2 c2 l2 us rs,
      serves_requests cfg metrics_page (s_db s') db ->
      leases db !! id = Some lr2 -> le_state lr2 = Active -> now c2 < le_expires_at lr2 ->
      GET_peers r2 -> bearerToken r2 <> EmptyString ->
      gateways db !! le_gateway_id lr = Some g2 -> live_token (HashToken (bearerToken r2)) g2 = true ->
      (forall gid g', gateways db !! gid = Some g' -> g_agent_token_hash g' = Some (HashToken (bearerToken r2)) ->
         gid = le_gateway_id lr) ->
      exists ps, ServeHTTP cfg metrics_page r2 c2 l2 (mkSession db [] us rs) =
          ((writeJSON StatusOK (Some (JObj [("peers", JArr (peer_json <$> ps))])), []), l2, mkSession db [] us rs) /\
        peer_of lr ∈ ps.
Proof.
  intros Hwf Hr E Hs. destruct (ServeHTTP_good _ _ _ _ _ _ _ _ _ Hwf E) as [Hwf' _].
  destruct (connection_granted _ _ _ _ _ _ _ Hr E Hs) as (u & req & conn & Hu & Hreq & Ec & ->).
  pose proof (connectionResponse_tells conn) as Htells.
  apply yields_run, yields_transaction, CreateConnection_yields in Ec.
  destruct Ec as (did & uid & d & gid & g & loc & v4 & v6 & ip4 & ip6 & Hdid & Huid & Hd & Ho & Hg & _ & _ & _ & _ & Ha & Hip4 & Hip6 & _ & _ & Econn & Edb).
  set (lr := mkLeaseRow gid did (d_public_key d) ip4 ip6 Active (now c + pg_interval (LeaseTTL cfg)) None) in *.
  assert (Hl : leases (s_db s') !! conn_ID conn = Some lr) by (rewrite Edb; apply lookup_insert_eq).
  unfold owned_live, not_revoked in Ho. to_prop.
  exists u, req, (connectionResponse cfg conn), (conn_ID conn), (v4 +:+ "/32"), v6, lr, d, g.
  splits; try done; try (by rewrite Edb); [by rewrite Econn in Htells |- *|congruence| |].
  - cbn. apply allocateHost_unused in Ha as (v & _ & _ & ->). by rewrite (pg_host_of_inet _ _ Hip4).
  - intros db lr2 g2 r2 c2 l2 us rs Hrun Hl2 Ha2 Hexp Hr2 Ht Hg2 Hlive Honly.
    apply serves_requests_run in Hrun as [tr Htr]. destruct (run_good _ _ _ Hwf' Htr) as [_ Hev].
    destruct (ev_leases _ _ Hev _ _ Hl) as (lr2' & Hl2' & Hrel). rewrite Hl2 in Hl2'. injection Hl2' as <-.
    destruct Hrel as (Eg & _ & Ek & E4 & E6 & _).
    eexists. split; [apply peers_fine; [done..|]; by apply (only_gateway db _ gid g2)|]. apply list_elem_of_fmap.
    exists (conn_ID conn, lr2). split; [unfold peer_of; cbn [snd]; by rewrite Ek, E4, E6|].
    rewrite pg_rows_Permutation. apply elem_of_select_rows. split; [done|].
    unfold serving, on_gateway, is_active. rewrite Eg, !bool_decide_true by done. by apply Z.ltb_lt.
Qed.

(** ** A granted access token *)

Lemma with_access_inv u ms k c s x s' :
  with_access cfg u ms k c s = (Ok x, s') -> status x.1 <> StatusInternalServerError ->
  exists tok, IssueJWT (JWTSecret cfg) u (AccessTTL cfg) (time_Now c) = Ok tok /\ x = (k tok, ms) /\ s' = s.
Proof.
  unfold with_access. cbn [bind get_clock]. unfold issueAccess.
  destruct (IssueJWT _ _ _ _) as [tok|e|]; intros E Hs; injection E as <- <-; [by exists tok|by destruct Hs..].
Qed.

(** A token signed here for a user is the user's credential until it expires. *)
Lemma issued_token_speaks u c tok r2 c2 :
  JWTSecret cfg <> EmptyString ->
  - 2 ^ 63 <= Unix (time_Now c) < 2 ^ 63 -> - 2 ^ 63 <= Unix (time_Now c + AccessTTL cfg) < 2 ^ 63 ->
  IssueJWT (JWTSecret cfg) u (AccessTTL cfg) (time_Now c) = Ok tok ->
  bearerToken r2 = tok -> Unix (time_Now c2) < Unix (time_Now c + AccessTTL cfg) ->
  authUser cfg r2 c2 = inr (to_valid u).
Proof.
  intros Hs Hn He Htok Hb Hlt. unfold authUser, empty. rewrite bool_decide_false by done. cbv zeta.
  apply IssueJWT_signed in Htok. rewrite Hb, Htok. rewrite bool_decide_false.
  2: { unfold signed_token. intros E. apply (f_equal String.length) in E. rewrite !length_app_string in E.
       change (String.length ".") with 1%nat in E. change (String.length EmptyString) with 0%nat in E. lia. }
  rewrite ParseJWT_signed by done. rewrite (proj2 (Z.leb_gt _ _)) by done. by rewrite andb_false_r.
Qed.

(** C21: enrolling works out for the client: a 201 carries an access token for a user and a
    device that are now in the tables, the invite is used up, and any request that presents
    the token before it expires is authenticated as that user. *)
Theorem enrolled_client_is_authenticated r c l s resp l' s' :
  POST_enroll r ->
  ServeHTTP cfg metrics_page r c l s = (resp, l', s') -> status resp.1 = StatusCreated ->
  - 2 ^ 63 <= Unix (time_Now c) < 2 ^ 63 -> - 2 ^ 63 <= Unix (time_Now c + AccessTTL cfg) < 2 ^ 63 ->
  exists t req i, content resp.1 = Json (tokenResponse_json t) /\
    DecodeStruct decode_enroll kB64 (rq_Body r) = (req, true) /\
    invite_codes (s_db s) !! er_InviteCode req = Some i /\ invite_open (time_Now c) i = true /\
    invite_codes (s_db s') !! er_InviteCode req = Some (use_invite (tr_UserID t) (now c) i) /\
    is_Some (users (s_db s') !! tr_UserID t) /\ is_Some (devices (s_db s') !! tr_DeviceID t) /\
    forall r2 c2, bearerToken r2 = tr_AccessToken t -> Unix (time_Now c2) < Unix (time_Now c + AccessTTL cfg) ->
      authUser cfg r2 c2 = inr (to_valid (tr_UserID t)).
Proof.
  intros Hr E Hs Hn He. apply (serve_limited _ _ _ _ _ _ _ _ _ (route_enroll r Hr)) in E; [|by rewrite Hs].
  apply recoverer_inv in E; [|by rewrite Hs]. cbn [pt_handle any] in E. unfold any, handleEnroll in E.
  destruct (empty (JWTSecret cfg)) eqn:Esec; [by injection E as <- _|]. apply not_empty in Esec.
  destruct (DecodeStruct _ _ _) as [req []] eqn:Ed; [|by injection E as <- _].
  destruct (validateEnroll req) eqn:Ev; [by injection E as <- _|].
  apply on_result_inv in E as (res & s1 & Ec & E). destruct res as [[[u d] plain]|e|]; [| |done].
  2: { exfalso. destruct e; injection E as <- _; done. }
  apply with_access_inv in E as (tok & Htok & -> & ->); [|by rewrite Hs].
  apply yields_run, yields_transaction, Enroll_yields in Ec as (i & u0 & db1 & db2 & t & Hi & Ho & Hu & Hd & _ & _ & _ & Edb).
  apply upsert_user_Ok in Hu as (row & -> & _ & _). apply insert_device_Ok in Hd as (_ & _ & _ & _ & ->).
  exists (mkTokenResponse tok "Bearer" (whole_seconds (AccessTTL cfg)) plain (usr_ID u) (dev_ID d)), req, i.
  rewrite Edb. cbn -[lookup is_Some authUser bearerToken]. splits; try done.
  - by rewrite lookup_insert_eq.
  - rewrite lookup_insert_eq. eauto.
  - rewrite lookup_insert_eq. eauto.
  - intros r2 c2 Hb Hlt. by apply (issued_token_speaks (usr_ID u) c tok r2 c2).
Qed.

(** A wrong password is answered differently for a suspended account: 403 whatever the
    password, where an active account and an unknown address get the same 401. *)
Theorem suspended_account_shows p r c l s resp l' s' req uid hash st :
  is_request "POST" ["v1"; "auth"; "login"] r -> JWTSecret cfg <> EmptyString ->
  DecodeStruct decode_login kB16 (rq_Body r) = (req, true) ->
  TrimSpace (lr_Email req) <> EmptyString -> lr_Password req = p -> p <> EmptyString ->
  GetCredentialsByEmail (TrimSpace (lr_Email req)) c s = (Ok (uid, hash, st), s') ->
  hash <> EmptyString -> VerifyPassword p hash = Err ErrPasswordMismatch ->
  ServeHTTP cfg metrics_page r c l s = (resp, l', s') -> status resp.1 <> StatusTooManyRequests ->
  status resp.1 = if bool_decide (st = "active") then StatusUnauthorized else StatusForbidden.
Proof.
  intros Hr Hsec Hd He Hp Hpne Hc Hh Hv E Hs.
  assert (Hroute : route cfg metrics_page r =
    inr (mkPattern "POST" [Lit "v1"; Lit "auth"; Lit "login"] true (any (handleLogin cfg)), EmptyString))
    by (rewrite (route_to _ _ r Hr); reflexivity).
  apply (serve_limited _ _ _ _ _ _ _ _ _ Hroute) in E; [|done]. cbn [pt_handle any] in E.
  unfold recoverer, any, handleLogin, empty in E. rewrite bool_decide_false, Hd in E by done. cbv zeta in E.
  rewrite Hp, !bool_decide_false in E by done. cbn [orb] in E.
  erewrite on_result_Ok in E by exact Hc. cbn beta iota in E. rewrite bool_decide_false in E by done.
  unfold counted, reply, ret in E.
  case_bool_decide; cbn [negb] in E; [rewrite Hv in E|]; cbv beta iota in E; by injection E as <-.
Qed.

End flows.

(** ** Witnesses *)

#[local] Existing Instances demo_pg toy_argon2 toy_rate.

Definition granted_lease : lease_row := mkLeaseRow "gw1" "dev1" "phonekey" "10.7.50.2" None Active (6000 + Hour) None.

Lemma granted_connection_is_served_witness :
  leases (s_db connect_served.2) !! "lease2" = Some granted_lease /\
  head (peer_AllowedIPs (peer_of granted_lease)) = Some "10.7.50.2/32" /\
  exists ps, ServeHTTP (H := pg_store) demo_cfg plain_page peers_request (at_time 7000) (NewServer demo_cfg)
      (mkSession (s_db connect_served.2) [] [] []) =
    ((writeJSON StatusOK (Some (JObj [("peers", JArr (peer_json <$> ps))])), []), NewServer demo_cfg,
     mkSession (s_db connect_served.2) [] [] []) /\
    mkPeer "phonekey" ["10.7.50.2/32"] ∈ ps.
Proof.
  destruct (granted_connection_is_served demo_cfg plain_page connect_request (at_time 6000) (NewServer demo_cfg)
    demo_session (connect_reply, [ConnCreated]) (NewServer demo_cfg) connect_served.2 demo_wf
    ltac:(by split) connect_served_eq eq_refl)
    as (u & req & body & id & ip & v6 & lr & d & g & _ & _ & Hcontent & Htells & Hl & _ & _ & _ & _ & _ & _ & _ & _ & Hip & Hserve).
  assert (Hid : id = "lease2").
  { destruct Htells as (fs & server & -> & Hin & _). injection Hcontent as <-.
    match type of Hin with _ ∈ ?fs => assert (Hf : Forall (fun kv => kv.1 = "connection_id" -> kv.2 = JStr "lease2") fs) end.
    { repeat (apply List.Forall_cons; [intros Hk; cbn [fst] in Hk; first [discriminate Hk|exact eq_refl]|]). apply List.Forall_nil. }
    rewrite Forall_forall in Hf. specialize (Hf _ Hin eq_refl). cbn [snd] in Hf. congruence. }
  subst id.
  assert (El : leases (s_db connect_served.2) !! "lease2" = Some granted_lease) by (vm_compute; reflexivity).
  rewrite El in Hl. injection Hl as <-.
  assert (Eg : gateways (s_db connect_served.2) = {[ "gw1" := demo_gateway ]}) by (vm_compute; reflexivity).
  split; [exact El|]. split; [vm_compute; reflexivity|].
  destruct (Hserve (s_db connect_served.2) granted_lease demo_gateway peers_request (at_time 7000) (NewServer demo_cfg) [] [])
    as (ps & Hps & Hin).
  - apply no_more.
  - exact El.
  - reflexivity.
  - vm_compute. reflexivity.
  - by split.
  - vm_compute. discriminate.
  - rewrite Eg. reflexivity.
  - vm_compute. reflexivity.
  - intros gid g' Hk _. rewrite Eg in Hk. by apply lookup_singleton_Some in Hk as [<- _].
  - exists ps. split; [exact Hps|exact Hin].
Defined.

Lemma enrolled_client_is_authenticated_witness :
  exists t, content enroll_reply = Json (tokenResponse_json t) /\ tr_UserID t = "user1" /\
    forall r2 c2, bearerToken r2 = tr_AccessToken t -> Unix (time_Now c2) < 900 ->
      authUser demo_cfg r2 c2 = inr "user1".
Proof.
  destruct (enrolled_client_is_authenticated demo_cfg plain_page enroll_request (at_time 6000) (NewServer demo_cfg)
    (mkSession invited_db [] ["user1"; "dev1"; "tok1"] [random_b]) (enroll_reply, []) enroll_served.1.2 enroll_served.2
    ltac:(by split) enroll_served_eq eq_refl ltac:(by vm_compute) ltac:(by vm_compute))
    as (t & req & i & Hc & _ & _ & _ & _ & _ & _ & Hauth).
  assert (Hu : tr_UserID t = "user1").
  { destruct t as [a ty e rf u d]. revert Hc. unfold tokenResponse_json, str_field_opt, int_field_opt, str_field. simpl.
    repeat case_match; try done; intros Hc; by simplify_eq. }
  exists t. split; [exact Hc|]. split; [exact Hu|]. intros r2 c2 Hb Ht.
  rewrite (Hauth r2 c2 Hb Ht), Hu. vm_compute. reflexivity.
Defined.

Lemma suspended_account_shows_witness : status login_served.1.1.1 = StatusForbidden.
Proof.
  assert (Hd : DecodeStruct decode_login kB16 (rq_Body login_request) = (mkLoginRequest "ana@example.org" "wrong", true))
    by (vm_compute; reflexivity).
  assert (Hc : GetCredentialsByEmail (TrimSpace "ana@example.org") (at_time 6000) login_session =
    (Ok ("user1", suspended_hash, "suspended"), login_session)) by (vm_compute; reflexivity).
  refine (suspended_account_shows demo_cfg plain_page "wrong" login_request (at_time 6000) (NewServer demo_cfg) login_session
    login_served.1.1 login_served.1.2 login_served.2 (mkLoginRequest "ana@example.org" "wrong") "user1" suspended_hash "suspended"
    _ _ Hd _ eq_refl _ Hc _ _ login_served_eq _);
    [by split|by vm_compute|by vm_compute|done|by vm_compute|vm_compute; reflexivity|by vm_compute].
Defined.
