(* ===== verification/AgentCodec.v ===== *)
(** The messages between the agent and the control plane: what one side marshals is what
    the other side's struct holds after decoding. *)
From S2P Require Import Prelude Floats Model GoStrings NetAddr Json JsonFacts JsonFloats GoTime Http Reconcile Wireguard Sysload Agent Db Session StoreConnections Api ApiReplies.

(** ** Lengths of numbers *)

Lemma dec_val_length d acc n :
  all_digits d = true -> dec_val acc d = Some n -> 0 <= acc -> acc * 10 ^ Z.of_nat (String.length d) <= n.
Proof.
  revert acc. induction d as [|c d IH]; intros acc Hd Hv Ha; [injection Hv as ->; cbn; lia|].
  cbn [all_digits dec_val] in *. apply andb_true_iff in Hd as [Hc Hd]. rewrite Hc in Hv.
  assert (0 <= digit_val c) by (unfold is_digit, digit_val in *; to_prop; lia).
  specialize (IH _ Hd Hv ltac:(lia)). cbn [String.length]. rewrite Nat2Z.inj_succ, Z.pow_succ_r by lia.
  assert (0 < 10 ^ Z.of_nat (String.length d)) by lia. nia.
Qed.

Lemma decimal_length n d k : decimal n d -> n < 10 ^ k -> 0 <= k -> Z.of_nat (String.length d) <= k.
Proof.
  intros (Hd & Hv & Hz) Hn Hk. destruct d as [|c d]; [done|]. pose proof (all_digits_head _ _ Hd) as Hc.
  cbn [all_digits dec_val] in *. apply andb_true_iff in Hd as [_ Hd]. rewrite Hc in Hv.
  assert (Hc1 : 1 <= digit_val c) by (unfold is_digit, digit_val, code in *; to_prop; lia).
  apply dec_val_length in Hv; [|done|lia]. cbn [String.length]. rewrite Nat2Z.inj_succ.
  destruct (Z.le_gt_cases (Z.succ (Z.of_nat (String.length d))) k) as [|Hgt]; [done|]. exfalso.
  assert (10 ^ k <= 10 ^ Z.of_nat (String.length d)) by (apply Z.pow_le_mono_r; lia). nia.
Qed.

Lemma Itoa_length z : - 2 ^ 63 <= z <= 2 ^ 63 -> Z.of_nat (String.length (Itoa z)) <= 20.
Proof.
  intros Hz. destruct (Itoa_cases z) as [[_ ->]|[[Hp Hd]|[Hn (d & -> & Hd)]]]; [by vm_compute| |].
  - apply (decimal_length z); [done|lia|done].
  - rewrite length_app_string. apply (decimal_length _ _ 19) in Hd; [|lia..]. cbn [String.length]. lia.
Qed.

(** ** Decoding what was printed *)

Lemma DecodeStruct_print {S} (d : Struct S) limit v t :
  numeric v -> nesting v <= max_depth -> ends t = true -> (String.length (print v +:+ t) <= limit)%nat ->
  DecodeStruct d limit (print v +:+ t) = d (valid_json v).
Proof.
  intros Hn Hd Ht Hl. unfold DecodeStruct, Decode. rewrite str_take_all by done. rewrite parse_prefix_print by done.
  by rewrite (proj2 (Nat.leb_le _ _) Hl), orb_true_r.
Qed.

(** ** A heartbeat *)

(** A float whose text is short and reads back, as [f']. *)
Definition sent_as (f f' : float64) : Prop :=
  exists t, FormatFloat f = Some t /\ float_lit t = Some f' /\ (String.length t <= 32)%nat.

Definition int64 (z : Z) : Prop := - 2 ^ 63 <= z < 2 ^ 63.

Lemma heartbeat_arrives m f' :
  int64 (ActivePeers m) -> int64 (m_Rx m) -> int64 (m_Tx m) -> sent_as (m_CPU m) f' ->
  exists v, Metrics_json m = Some v /\
    DecodeStruct decode_metrics kB16 (print v) = (mkGatewayMetrics (ActivePeers m) f' (m_Rx m) (m_Tx m), true).
Proof.
  intros Ha Hr Ht (t & Et & Ef & Hl). unfold Metrics_json, float_member. rewrite Et. cbn [fmap option_fmap option_map option_bind mbind].
  eexists. split; [done|]. set (v := JObj _).
  assert (Hv : shallow 2 v).
  { apply (shallow_obj 1); [done|]. repeat apply members_app; try (by apply members_int).
    apply members_cons; [|constructor]. split; [by apply FormatFloat_number in Et|done]. }
  destruct Hv as [Hn Hd].
  assert (Hlen : (String.length (print v) <= kB16)%nat).
  { pose proof (Itoa_length (ActivePeers m)) as H1. pose proof (Itoa_length (m_Rx m)) as H2.
    pose proof (Itoa_length (m_Tx m)) as H3. unfold int64 in *.
    assert (El : print v = "{" +:+ ((quote "active_peers" +:+ ":" +:+ Itoa (ActivePeers m)) +:+ "," +:+
      (quote "cpu_pct" +:+ ":" +:+ t) +:+ "," +:+ (quote "rx_bps" +:+ ":" +:+ Itoa (m_Rx m)) +:+ "," +:+
      (quote "tx_bps" +:+ ":" +:+ Itoa (m_Tx m))) +:+ "}") by reflexivity.
    rewrite El. rewrite !length_app_string.
    change (String.length (quote "active_peers")) with 14%nat. change (String.length (quote "cpu_pct")) with 9%nat.
    change (String.length (quote "rx_bps")) with 8%nat. change (String.length (quote "tx_bps")) with 8%nat.
    cbn [String.length]. unfold kB16. lia. }
  rewrite <- (string_app_nil_r (print v)).
  rewrite DecodeStruct_print by (done || (unfold max_depth; lia) || (by rewrite string_app_nil_r)).
  change (valid_json v) with (JObj [("active_peers", JNum (Itoa (ActivePeers m))); ("cpu_pct", JNum t);
    ("rx_bps", JNum (Itoa (m_Rx m))); ("tx_bps", JNum (Itoa (m_Tx m)))]).
  unfold decode_metrics, with_field, new, int, flt. cbn [fst snd].
  rewrite (at_key_found "active_peers" _ _ "active_peers" (JNum (Itoa (ActivePeers m)))),
    (at_key_found "cpu_pct" _ _ "cpu_pct" (JNum t)), (at_key_found "rx_bps" _ _ "rx_bps" (JNum (Itoa (m_Rx m)))),
    (at_key_found "tx_bps" _ _ "tx_bps" (JNum (Itoa (m_Tx m)))) by reflexivity.
  unfold d_int, d_float. by rewrite !int_lit_Itoa, Ef.
Qed.

(** ** The peers of a gateway *)

(** The agent's peer for a peer of the control plane's reply. *)
Definition agent_peer (p : Model.Peer) : Reconcile.Peer :=
  Reconcile.mkPeer (to_valid (peer_PublicKey p)) (to_valid <$> peer_AllowedIPs p).

Lemma decode_strings l old : decode_elems d_string EmptyString (JStr <$> l) old = (l, true).
Proof. revert old. induction l as [|s l IH]; intros old; [done|]. cbn [fmap list_fmap decode_elems d_string]. by rewrite IH. Qed.

Lemma map_valid_strings l : List.map valid_json (JStr <$> l) = JStr <$> (to_valid <$> l).
Proof. induction l as [|s l IH]; [done|]. cbn [fmap list_fmap List.map valid_json]. by rewrite IH. Qed.

Lemma decode_peer p old :
  d_peer (valid_json (peer_json p)) old = (agent_peer p, true).
Proof.
  assert (E : valid_json (peer_json p) =
    JObj [("public_key", JStr (to_valid (peer_PublicKey p))); ("allowed_ips", JArr (JStr <$> (to_valid <$> peer_AllowedIPs p)))]).
  { unfold peer_json, strings_json. cbn [valid_json List.map fst snd].
    change (to_valid "public_key") with "public_key". change (to_valid "allowed_ips") with "allowed_ips".
    by rewrite map_valid_strings. }
  rewrite E. unfold d_peer, with_field, new.
  rewrite (at_key_found "public_key" _ _ "public_key" (JStr (to_valid (peer_PublicKey p)))) by reflexivity.
  erewrite (at_key_found "allowed_ips" _ _ "allowed_ips") by reflexivity.
  cbn [d_string d_slice]. by rewrite decode_strings.
Qed.

Lemma decode_peer_list ps old :
  decode_elems d_peer (Reconcile.mkPeer EmptyString []) (List.map valid_json (peer_json <$> ps)) old = (agent_peer <$> ps, true).
Proof.
  revert old. induction ps as [|p ps IH]; intros old; [done|].
  cbn [fmap list_fmap List.map decode_elems]. rewrite decode_peer, IH. done.
Qed.

Definition peers_json (ps : list Model.Peer) : json := JObj [("peers", JArr (peer_json <$> ps))].

Lemma peers_arrive ps :
  decode_into decode_peers (body_text (Http.Json (peers_json ps))) = Ok (agent_peer <$> ps).
Proof.
  unfold decode_into. cbn [body_text].
  assert (Hr : shallow 5 (peers_json ps)).
  { apply (shallow_obj 4); [done|]. apply members_cons; [|constructor]. apply (shallow_arr 3); [done|].
    apply Forall_fmap, Forall_true. intros p. apply (shallow_obj 2); [done|].
    apply members_cons; [by apply shallow_str|]. apply members_cons; [|constructor]. by apply (shallow_strings 1). }
  destruct Hr as [Hn Hd]. rewrite DecodeStruct_print by (done || (unfold max_depth; lia)).
  unfold decode_peers, with_field, new, peers_json. cbn [valid_json List.map fst snd].
  rewrite (at_key_found "peers" _ _ "peers" (JArr (List.map valid_json (peer_json <$> ps)))) by reflexivity.
  cbn [d_slice]. by rewrite decode_peer_list.
Qed.
