(* ===== verification/AgentFlows.v ===== *)
(** An agent, its WireGuard interface and the control plane as one system. *)
From S2P Require Import Prelude Floats Model GoStrings NetAddr Crypto Json JsonFacts GoTime Jwt Password Ratelimit Alloc Db Session StoreGateways StoreIdentity StoreConnections Schema Facts Registry Http Reconcile Wireguard Sysload Agent Api ApiRules ApiReplies ApiFlows AgentCodec.

(** ** The network between the two *)

(** What becomes of the next request: it is served at a reading of the server's clocks and
    answered, it is lost, or its answer is. *)
Inductive link := answered (c : Clock) | lost | unanswered (c : Clock).

Record plant `{Rate} := mkPlant { pl_session : session; pl_limiter : Limiter; pl_links : list link }.
Arguments mkPlant {_} _ _ _.

Section system.
Context `{PostgresOrder} `{Argon2} `{Rate} (acfg : ServerConfig) (metrics_page : Request -> Reply).
(** The URL the control plane answers at, the agent's address as it sees it, and the
    status line's text. *)
Context (origin remote : string) (status_text : Z -> string).

#[local] Existing Instance pg_store.

(** The path of a request of the agent, as segments. *)
Definition segments (path : string) : list string := tail (Split "/" path).

Definition served (q : ClientRequest) (path : string) (c : Clock) (p : plant) : ClientReply * plant :=
  let '(resp, l', s') := ServeHTTP acfg metrics_page
    (mkRequest (cq_Method q) (segments path) remote (cq_Authorization q) EmptyString (cq_Body q)) c
    (pl_limiter p) (pl_session p) in
  (mkClientReply (status resp.1) (status_text (status resp.1)) (body_text (content resp.1)),
   mkPlant s' l' (tail (pl_links p))).

Definition send (q : ClientRequest) (p : plant) : option ClientReply * plant :=
  match cut_prefix origin (cq_URL q), pl_links p with
  | Some path, answered c :: _ => let '(r, p') := served q path c p in (Some r, p')
  | Some path, unanswered c :: _ => let '(_, p') := served q path c p in (None, p')
  | _, _ => (None, mkPlant (pl_session p) (pl_limiter p) (tail (pl_links p)))
  end.

Context (client : Client).
Hypothesis client_origin : base client = origin.

Lemma cut_prefix_app a b : cut_prefix a (a +:+ b) = Some b.
Proof. induction a as [|c a IH]; [done|]. rewrite string_app_cons. cbn [cut_prefix]. by rewrite char_eqb_refl. Qed.

(** A request whose answer comes back. *)
Lemma do_answered method path bearer body c ls s l :
  body <> Some None ->
  do send client method path bearer body (mkPlant s l (answered c :: ls)) =
  let text := match body with Some (Some v) => print v | _ => EmptyString end in
  let auth := if bool_decide (bearer = EmptyString) then EmptyString else "Bearer " +:+ bearer in
  let '(resp, l', s') := ServeHTTP acfg metrics_page
    (mkRequest method (segments path) remote auth EmptyString text) c l s in
  (if (status resp.1 <? 200) || (300 <=? status resp.1)
   then Err (refused (method +:+ " " +:+ path +:+ ": " +:+ status_text (status resp.1) +:+ ": " +:+
               TrimSpace (str_take (Z.to_nat 4096) (body_text (content resp.1)))))
   else Ok (body_text (content resp.1)), mkPlant s' l' ls).
Proof.
  intros Hb. unfold do, send, served. cbn [cq_URL pl_links pl_limiter pl_session cq_Method cq_Authorization cq_Body].
  rewrite client_origin, cut_prefix_app. destruct body as [[v|]|]; [|done|]; cbv zeta;
    destruct (ServeHTTP _ _ _ _ _ _) as [[resp l'] s']; cbn [cr_StatusCode cr_Status cr_Body]; by destruct (_ || _).
Qed.

(** A node token a header can carry. *)
Lemma bearer_of_token method path token body :
  token <> EmptyString -> all_graph token = true ->
  bearerToken (mkRequest method path remote ("Bearer " +:+ token) EmptyString body) = token.
Proof.
  intros Hne Hg. unfold bearerToken. cbn [rq_Authorization]. rewrite length_app_string.
  destruct token as [|c token]; [done|].
  change (String.length prefix_Bearer) with 7%nat. change (String.length "Bearer ") with 7%nat. cbn [String.length].
  rewrite (proj2 (Nat.ltb_lt _ _)) by lia.
  change (str_take 7 ("Bearer " +:+ String c token)) with "Bearer ".
  change (str_drop 7 ("Bearer " +:+ String c token)) with (String c token).
  change (EqualFold "Bearer " prefix_Bearer) with true. by apply TrimSpace_all_graph.
Qed.

Lemma bearer_not_empty token : token <> EmptyString -> bool_decide (token = EmptyString) = false.
Proof. intros. by apply bool_decide_eq_false_2. Qed.

Lemma route_heartbeat r : is_request "POST" ["v1"; "gateways"; "heartbeat"] r ->
  route acfg metrics_page r =
  inr (mkPattern "POST" [Lit "v1"; Lit "gateways"; Lit "heartbeat"] false (any handleGatewayHeartbeat), EmptyString).
Proof. intros Hr. rewrite (route_to _ _ _ _ r Hr). reflexivity. Qed.

Context (token : string).
Hypothesis token_not_empty : token <> EmptyString.
Hypothesis token_graph : all_graph token = true.

(** A heartbeat of a live token, when the statement goes through. *)
Lemma heartbeat_answered m f' c ls db us rs l gid g :
  int64 (ActivePeers m) -> int4 (ActivePeers m) = true -> int64 (m_Rx m) -> int64 (m_Tx m) -> sent_as (m_CPU m) f' ->
  head (pg_rows (select_rows (live_token (HashToken token)) (gateways db))) = Some (gid, g) ->
  Agent.Heartbeat send client token m (mkPlant (mkSession db [] us rs) l (answered c :: ls)) =
  (Ok (), mkPlant (mkSession (put Gateways (update_where (live_token (HashToken token))
      (beat (now c) (mkGatewayMetrics (ActivePeers m) f' (m_Rx m) (m_Tx m))) (gateways db)) db) [] us rs) l ls).
Proof.
  intros Ha Hi Hr Ht Hf Hg. destruct (heartbeat_arrives m f' Ha Hr Ht Hf) as (v & Ev & Ed).
  unfold Agent.Heartbeat. rewrite Ev, do_answered by done. cbv zeta iota. rewrite bearer_not_empty by done.
  set (r := mkRequest _ _ _ _ _ _).
  assert (Htok : bearerToken r = token) by (by apply bearer_of_token).
  rewrite (serve_handler _ _ _ _ _ _ _ _ (route_heartbeat r ltac:(done)) eq_refl).
  cbn [pt_handle any]. unfold any, handleGatewayHeartbeat, with_node, empty. cbv zeta. rewrite Htok, bearer_not_empty by done.
  change (rq_Body r) with (print v). rewrite Ed.
  set (m' := mkGatewayMetrics _ _ _ _). set (db' := put Gateways _ _).
  assert (Ep : StoreGateways.Heartbeat (HashToken token) m' c (mkSession db [] us rs) =
    (Ok (named_gateway gid (g_name g) GatewayHealthy), mkSession db' [] us rs)).
  { rewrite Heartbeat_fine by done. by rewrite Hg. }
  erewrite recoverer_Ok; [|rewrite (on_result_Ok _ _ _ _ _ _ _ Ep); reflexivity]. reflexivity.
Qed.

(** The peers of the gateway of a live token. *)
Lemma peers_answered c ls db us rs l gid :
  head (pg_rows (gateway_of_token (HashToken token) db)) = Some gid ->
  Agent.Peers send client token (mkPlant (mkSession db [] us rs) l (answered c :: ls)) =
  (Ok (agent_peer <$> ((fun kl => peer_of kl.2) <$> pg_rows (select_rows (serving (now c) gid) (leases db)))),
   mkPlant (mkSession db [] us rs) l ls).
Proof.
  intros Hg. unfold Agent.Peers. rewrite do_answered by done. cbv zeta iota. rewrite bearer_not_empty by done.
  set (r := mkRequest _ _ _ _ _ _).
  assert (Htok : bearerToken r = token) by (by apply bearer_of_token).
  rewrite (peers_fine acfg metrics_page r c l db us rs gid) by (done || by rewrite Htok).
  set (ps := (fun kl => peer_of kl.2) <$> _). cbv zeta iota. cbn [fst]. unfold writeJSON at 1 2. cbn [status].
  change ((StatusOK <? 200) || (300 <=? StatusOK)) with false. cbv iota. f_equal. exact (peers_arrive ps).
Qed.

(** ** One tick *)

(** The routes of a lease, as its gateway is told. *)
Definition routes (l : lease_row) : list string := peer_AllowedIPs (peer_of l).

(** The active leases of a gateway can be told apart by the tool: their keys and routes are
    UTF-8 text, no route has a comma, and no two leases share one. *)
Record routable (db : DB) (gid : string) : Prop := {
  rt_key : forall k l, leases db !! k = Some l -> on_gateway gid l = true ->
    to_valid (le_client_public_key l) = le_client_public_key l;
  rt_text : forall k l r, leases db !! k = Some l -> on_gateway gid l = true -> r ∈ routes l -> plain_ip r /\ to_valid r = r;
  rt_disjoint : forall k1 k2 l1 l2 r, leases db !! k1 = Some l1 -> leases db !! k2 = Some l2 ->
    on_gateway gid l1 = true -> on_gateway gid l2 = true -> r ∈ routes l1 -> r ∈ routes l2 -> k1 = k2
}.

Section desired.
Context (db : DB) (gid : string) (t : Time).
Hypothesis db_wf : wf db.
Hypothesis db_routable : routable db gid.

Definition desired : list Reconcile.Peer :=
  agent_peer <$> ((fun kl => peer_of kl.2) <$> pg_rows (select_rows (serving t gid) (leases db))).

Lemma agent_peer_of k l : leases db !! k = Some l -> on_gateway gid l = true ->
  agent_peer (peer_of l) = Reconcile.mkPeer (le_client_public_key l) (routes l).
Proof.
  intros Hl Hg. unfold agent_peer. change (peer_PublicKey (peer_of l)) with (le_client_public_key l).
  rewrite (rt_key _ _ db_routable _ _ Hl Hg). f_equal. change (peer_AllowedIPs (peer_of l)) with (routes l).
  assert (Hr : Forall (fun r => to_valid r = r) (routes l)) by (apply Forall_forall; intros r Hr; by eapply rt_text).
  induction Hr as [|r rs Hr Hrs IH]; [done|]. cbn [fmap list_fmap]. by rewrite Hr, IH.
Qed.

Lemma elem_of_desired p :
  p ∈ desired <-> exists k l, leases db !! k = Some l /\ serving t gid l = true /\
    p = Reconcile.mkPeer (le_client_public_key l) (routes l).
Proof.
  unfold desired. rewrite <- list_fmap_compose, list_elem_of_fmap. split.
  - intros ([k l] & -> & Hin). rewrite pg_rows_Permutation in Hin. apply elem_of_select_rows in Hin as [Hl Hs].
    exists k, l. splits; try done. pose proof Hs as Hg. unfold serving in Hg. to_prop. by eapply agent_peer_of.
  - intros (k & l & Hl & Hs & ->). exists (k, l). pose proof Hs as Hg. unfold serving in Hg. to_prop. split.
    + cbn. symmetry. by eapply agent_peer_of.
    + rewrite pg_rows_Permutation. by apply elem_of_select_rows.
Qed.

Lemma serving_active l : serving t gid l = true -> on_gateway gid l = true /\ is_active l = true.
Proof. unfold serving, on_gateway. intros Hs. to_prop. rewrite bool_decide_true by done. done. Qed.

Lemma NoDup_desired : NoDup (Reconcile.PublicKey <$> desired).
Proof.
  unfold desired. rewrite <- !list_fmap_compose. apply (NoDup_fmap_key fst).
  { rewrite pg_rows_Permutation. apply NoDup_select_rows. }
  intros [k1 l1] [k2 l2]. rewrite pg_rows_Permutation, !elem_of_select_rows. intros [Hk1 Hs1] [Hk2 Hs2].
  apply serving_active in Hs1 as [Hg1 Ha1], Hs2 as [Hg2 Ha2].
  change (to_valid (le_client_public_key l1) = to_valid (le_client_public_key l2) -> k1 = k2).
  rewrite (rt_key _ _ db_routable _ _ Hk1 Hg1), (rt_key _ _ db_routable _ _ Hk2 Hg2). by apply (wf_lease_key db).
Qed.

Lemma lookup_desired pk ips :
  index desired !! pk = Some ips <-> exists k l, leases db !! k = Some l /\ serving t gid l = true /\
    pk = le_client_public_key l /\ ips = routes l.
Proof.
  rewrite lookup_index by apply NoDup_desired. rewrite elem_of_desired. split.
  - intros (k & l & Hl & Hs & E). injection E as -> ->. by exists k, l.
  - intros (k & l & Hl & Hs & -> & ->). by exists k, l.
Qed.

Lemma plain_desired : plain_table (index desired).
Proof.
  intros pk ips (k & l & Hl & Hs & -> & ->)%lookup_desired. apply serving_active in Hs as [Hg _].
  apply Forall_forall. intros r Hr. by eapply rt_text.
Qed.

Lemma disjoint_desired : disjoint_ips (index desired).
Proof.
  intros k1 k2 i1 i2 ip (r1 & l1 & E1 & Hs1 & -> & ->)%lookup_desired (r2 & l2 & E2 & Hs2 & -> & ->)%lookup_desired Hi1 Hi2.
  apply serving_active in Hs1 as [Hg1 _], Hs2 as [Hg2 _].
  assert (r1 = r2) as -> by (by eapply (rt_disjoint _ _ db_routable)). congruence.
Qed.

End desired.

Section tick.
Context {dev : Type} (run_wg : list string -> dev -> option string * dev) (beyond : float64 -> Z) (cfg : config).
Context `{!WgDevice run_wg (iface cfg)} `{!WgShow run_wg (iface cfg)}.

(** The reconciliation of a tick, once the desired peers are known. *)
Lemma reconcile_peers cur des (d : dev) :
  commands_succeed run_wg (iface cfg) -> disjoint_ips (index des) -> plain_table (index des) ->
  peers d = sets_of (index cur) ->
  exists d', (if Empty (Diff cur des) then (true, d) else Apply run_wg (iface cfg) (Diff cur des) d) = (true, d') /\
    peers d' = sets_of (index des).
Proof.
  intros Hc Hdis Hpl Hd.
  assert (HA : exists d', Apply run_wg (iface cfg) (Diff cur des) d = (true, d') /\ (Empty (Diff cur des) = true -> d' = d)).
  { destruct (Apply_succeeds run_wg (iface cfg) (Diff cur des) d Hc) as [d' E]. exists d'. split; [done|].
    unfold Empty. intros [Ea Er]%andb_true_iff. to_prop. unfold Apply in E.
    rewrite (nil_length_inv (Add _)), (nil_length_inv (Remove _)) in E by lia. by injection E. }
  destruct HA as (d' & EA & Hsame). exists d'. split; [|by eapply Apply_peers].
  destruct (Empty _); [by rewrite Hsame|done].
Qed.

Lemma tick_brings (w : world dev plant) db us rs l c1 c2 ls gid g t stat nb cur d1 load m1 f' :
  wf db -> routable db gid ->
  gateways db !! gid = Some g -> live_token (HashToken token) g = true ->
  (forall k g', gateways db !! k = Some g' -> g_agent_token_hash g' = Some (HashToken token) -> k = gid) ->
  w_net w = mkPlant (mkSession db [] us rs) l (answered c1 :: answered c2 :: ls) ->
  ListPeers run_wg (iface cfg) (w_dev w) = (Some cur, d1) -> commands_succeed run_wg (iface cfg) ->
  Z.of_nat (length cur) < 2 ^ 31 ->
  sample beyond t stat nb (w_meter w) = (load, m1) -> sent_as (CPUPct load) f' -> int64 (RxBps load) -> int64 (TxBps load) ->
  exists w', syncOnce run_wg send beyond cfg client t stat nb token w = (Ok (), w') /\
    gateways (s_db (pl_session (w_net w'))) !! gid =
      Some (beat (now c1) (mkGatewayMetrics (Z.of_nat (length cur)) f' (RxBps load) (TxBps load)) g) /\
    leases (s_db (pl_session (w_net w'))) = leases db /\
    forall pk ips, peers (w_dev w') !! pk = Some ips <->
      exists k lr, leases db !! k = Some lr /\ serving (now c2) gid lr = true /\
        pk = le_client_public_key lr /\ ips = list_to_set (routes lr).
Proof.
  intros Hwf Hrt Hg Hlive Honly Hnet Hls Hcmd Hlen Hload Hf Hrx Htx.
  set (m := mkMetrics (Z.of_nat (length cur)) (CPUPct load) (RxBps load) (TxBps load)).
  set (gm := mkGatewayMetrics (Z.of_nat (length cur)) f' (RxBps load) (TxBps load)).
  set (db' := put Gateways (update_where (live_token (HashToken token)) (beat (now c1) gm) (gateways db)) db).
  assert (EH : Agent.Heartbeat send client token m (w_net w) = (Ok (), mkPlant (mkSession db' [] us rs) l (answered c2 :: ls))).
  { rewrite Hnet. apply (heartbeat_answered m f' c1 (answered c2 :: ls) db us rs l gid g); try done.
    - unfold int64. cbn. lia.
    - unfold int4. cbn. lia.
    - by apply only_row. }
  assert (Hg' : gateways db' !! gid = Some (beat (now c1) gm g)).
  { cbn. rewrite lookup_update_where, Hg. cbn. by rewrite Hlive. }
  assert (Hlive' : live_token (HashToken token) (beat (now c1) gm g) = true).
  { unfold live_token in *. to_prop. cbn. by rewrite bool_decide_true. }
  assert (Honly' : forall k g', gateways db' !! k = Some g' -> g_agent_token_hash g' = Some (HashToken token) -> k = gid).
  { cbn. intros k g' Hk. rewrite lookup_update_where in Hk. destruct (gateways db !! k) as [g0|] eqn:E0; [|done].
    cbn in Hk. intros Hh. apply (Honly k g0 E0). destruct (live_token _ g0); by simplify_eq. }
  assert (EP : Agent.Peers send client token (mkPlant (mkSession db' [] us rs) l (answered c2 :: ls)) =
    (Ok (desired db gid (now c2)), mkPlant (mkSession db' [] us rs) l ls)).
  { by apply (peers_answered c2 ls db' us rs l gid), (only_gateway db' _ gid (beat (now c1) gm g)). }
  pose proof (ListPeers_same run_wg (iface cfg) _ _ _ Hls) as Hd1.
  pose proof (ListPeers_peers run_wg (iface cfg) _ _ _ Hls) as Hcur.
  destruct (reconcile_peers cur (desired db gid (now c2)) d1 Hcmd) as (d2 & ER & Hp2);
    [by apply disjoint_desired|by apply plain_desired|by rewrite Hd1|].
  exists (mkWorld d2 (mkPlant (mkSession db' [] us rs) l ls) m1 (w_files w)). splits; [|done|done|].
  - unfold syncOnce. rewrite Hls, Hload. fold m. rewrite EH, EP.
    destruct (Empty (Diff cur (desired db gid (now c2)))); [by injection ER as ->|by rewrite ER].
  - cbn. intros pk ips. rewrite Hp2. unfold sets_of. rewrite lookup_fmap. split.
    + intros (r & Er & ->)%fmap_Some. apply (lookup_desired db gid (now c2) Hwf Hrt) in Er as (k & lr & ? & ? & -> & ->).
      by exists k, lr.
    + intros (k & lr & Hk & Hs & -> & ->).
      assert (Er : index (desired db gid (now c2)) !! le_client_public_key lr = Some (routes lr)).
      { apply (lookup_desired db gid (now c2) Hwf Hrt). by exists k, lr. }
      by rewrite Er.
Qed.

(** C4: a tick of the agent brings its gateway to what the control plane has granted. Suppose
    the two requests are answered, the statements go through and the tool works, on
    well-formed tables where only this gateway has the agent's live token; the load can be
    sent as JSON numbers and the peers are fewer than 2^31; and the gateway is [routable]: the
    keys and routes of its active leases are UTF-8 text without commas, and no two of them
    share a route. (A gateway that was given another IPv4 network is not, when an IPv6 address
    is given out again: [Tunnel.renumbering_shares_v6]. A wg table cannot hold a route
    twice.) Then the tick ends without error; the gateway counts as healthy with a
    heartbeat of now; and the interface lets in exactly the keys of the active, unexpired
    leases on the gateway, each with its routes, whatever peers the interface had. *)
Theorem tick_converges (w : world dev plant) db us rs l c1 c2 ls gid g t stat nb cur d1 load m1 f' :
  wf db -> routable db gid ->
  gateways db !! gid = Some g -> live_token (HashToken token) g = true ->
  (forall k g', gateways db !! k = Some g' -> g_agent_token_hash g' = Some (HashToken token) -> k = gid) ->
  w_net w = mkPlant (mkSession db [] us rs) l (answered c1 :: answered c2 :: ls) ->
  ListPeers run_wg (iface cfg) (w_dev w) = (Some cur, d1) -> commands_succeed run_wg (iface cfg) ->
  Z.of_nat (length cur) < 2 ^ 31 ->
  sample beyond t stat nb (w_meter w) = (load, m1) -> sent_as (CPUPct load) f' -> int64 (RxBps load) -> int64 (TxBps load) ->
  exists w', syncOnce run_wg send beyond cfg client t stat nb token w = (Ok (), w') /\
    gateways (s_db (pl_session (w_net w'))) !! gid =
      Some (beat (now c1) (mkGatewayMetrics (Z.of_nat (length cur)) f' (RxBps load) (TxBps load)) g) /\
    leases (s_db (pl_session (w_net w'))) = leases db /\
    forall pk ips, peers (w_dev w') !! pk = Some ips <->
      exists k lr, leases db !! k = Some lr /\ serving (now c2) gid lr = true /\
        pk = le_client_public_key lr /\ ips = list_to_set (routes lr).
Proof. apply tick_brings. Qed.

End tick.

End system.
