(* ===== verification/AgentRegister.v ===== *)
(** The first start of an agent: no saved token, so it registers its gateway, and what
    each side has afterwards. *)
From S2P Require Import Prelude Floats Model GoStrings NetAddr Crypto Json JsonFacts Base64 GoTime Jwt Password Ratelimit Alloc Db Session StoreGateways StoreIdentity StoreConnections Schema Facts Registry Http Reconcile Wireguard Sysload Agent Api ApiRules ApiReplies ApiFlows AgentCodec AgentFlows.

(** ** Messages with optional members *)

(** The members of a message, in order; an omitted one is [None]. *)
Definition present (fs : list (string * option json)) : list (string * json) :=
  omap (fun f => pair f.1 <$> f.2) fs.

(** Whatever else is omitted, the one member with the name is what is assigned. *)
Lemma at_key_present {A} k (d : Decoder A) fs k' o x :
  List.filter (fun f => bool_decide (fold_name f.1 = fold_name k)) fs = [(k', o)] ->
  at_key k d (JObj (present fs)) x = match o with Some v => d v x | None => (x, true) end.
Proof.
  intros E. assert (Ef : List.filter (named k) (present fs) =
    present (List.filter (fun f => bool_decide (fold_name f.1 = fold_name k)) fs)).
  { clear E. induction fs as [|[k1 [v|]] fs IH]; [done|..]; unfold present in *; cbn [omap list_omap fst snd fmap option_fmap option_map List.filter].
    - unfold named at 1. cbn [fst]. case_bool_decide; cbn [omap list_omap fst snd fmap option_fmap option_map]; by rewrite IH.
    - rewrite IH. case_bool_decide; done. }
  rewrite E in Ef. destruct o as [v|].
  - by apply (at_key_found k d _ k').
  - by apply at_key_absent.
Qed.

(** A string and a number that are omitted when they are zero. *)
Definition str_opt (s : string) : option json := if bool_decide (s = EmptyString) then None else Some (JStr (to_valid s)).
Definition int_opt (n : Z) : option json := if n =? 0 then None else Some (JNum (Itoa n)).

Lemma str_opt_read s : match str_opt s with Some v => d_string v EmptyString | None => (EmptyString, true) end = (to_valid s, true).
Proof. unfold str_opt. case_bool_decide as E; [by rewrite E|done]. Qed.

Lemma int_opt_read n : int64 n -> match int_opt n with Some v => d_int v 0 | None => (0, true) end = (n, true).
Proof.
  intros Hn. unfold int_opt. destruct (n =? 0) eqn:E; [by apply Z.eqb_eq in E as ->|]. cbn [d_int]. by rewrite int_lit_Itoa.
Qed.

(** ** A registration *)

(** What the control plane reads of an agent's registration; the agent sends no position. *)
Definition registration_of (r : Registration) : GatewayRegistration :=
  mkGatewayRegistration (to_valid (r_Name r)) (to_valid (r_CountryCode r)) (to_valid (r_CountryName r)) (to_valid (r_City r))
    (to_valid (r_Region r)) (to_valid (r_EndpointHost r)) (r_EndpointPort r) (to_valid (r_PublicKey r))
    (to_valid (r_WGSubnetV4 r)) (to_valid (r_WGSubnetV6 r)) (r_Capacity r) (r_BandwidthMbps r) None None.

Definition registration_members (r : Registration) : list (string * option json) := [
  ("name", Some (JStr (to_valid (r_Name r)))); ("country_code", Some (JStr (to_valid (r_CountryCode r))));
  ("country_name", Some (JStr (to_valid (r_CountryName r)))); ("city", str_opt (r_City r)); ("region", str_opt (r_Region r));
  ("endpoint_host", Some (JStr (to_valid (r_EndpointHost r)))); ("endpoint_port", int_opt (r_EndpointPort r));
  ("public_key", Some (JStr (to_valid (r_PublicKey r)))); ("wg_subnet_v4", Some (JStr (to_valid (r_WGSubnetV4 r))));
  ("wg_subnet_v6", str_opt (r_WGSubnetV6 r)); ("capacity", Some (JNum (Itoa (r_Capacity r))));
  ("bandwidth_mbps", int_opt (r_BandwidthMbps r)); ("latitude", None); ("longitude", None)].

Lemma registration_sent r :
  r_Latitude r = None -> r_Longitude r = None ->
  exists v, Registration_json r = Some v /\ shallow 1 v /\ valid_json v = JObj (present (registration_members r)).
Proof.
  intros El Eg. unfold Registration_json. rewrite El, Eg. eexists. split; [reflexivity|]. split.
  - apply shallow_obj0. repeat apply members_app; auto with replies.
  - unfold registration_members, str_field_opt, int_field_opt, str_opt, int_opt.
    destruct (bool_decide (r_City r = _)), (bool_decide (r_Region r = _)), (r_EndpointPort r =? 0),
      (bool_decide (r_WGSubnetV6 r = _)), (r_BandwidthMbps r =? 0); reflexivity.
Qed.

Lemma registration_arrives r v :
  r_Latitude r = None -> r_Longitude r = None -> int64 (r_EndpointPort r) -> int64 (r_Capacity r) -> int64 (r_BandwidthMbps r) ->
  Registration_json r = Some v -> (String.length (print v) <= kB64)%nat ->
  DecodeStruct decode_registration kB64 (print v) = (registration_of r, true).
Proof.
  intros El Eg Hp Hc Hb Ev Hl. destruct (registration_sent r El Eg) as (v' & Ev' & [Hn Hd] & Evalid).
  rewrite Ev in Ev'. injection Ev' as <-. rewrite <- (string_app_nil_r (print v)).
  rewrite DecodeStruct_print by (done || (unfold max_depth; lia) || (by rewrite string_app_nil_r)). rewrite Evalid.
  unfold decode_registration, with_field, new, str, int, flt_ptr. cbn [fst snd].
  repeat (erewrite at_key_present by reflexivity). rewrite !str_opt_read, !int_opt_read by done.
  cbn [d_string d_int]. by rewrite int_lit_Itoa.
Qed.

(** ** The reply *)

Lemma all_graph_ascii s : all_graph s = true -> ascii_text s = true.
Proof.
  induction s as [|c s IH]; [done|]. cbn [all_graph]. intros [Hc Hs]%andb_true_iff.
  change ((code c <? 128) && ascii_text s = true). rewrite IH by done. unfold graph, code in *. to_prop. lia.
Qed.

Lemma all_graph_string_of b : Forall (fun v => 33 <= v <= 126) b -> all_graph (string_of b) = true.
Proof.
  induction 1 as [|v b Hv Hb IH]; [done|].
  change (string_of (v :: b)) with (String (ascii_of_nat (Z.to_nat v)) (string_of b)). cbn [all_graph]. rewrite IH.
  unfold graph. rewrite nat_ascii_embedding by lia. rewrite Z2Nat.id by lia. lia.
Qed.

Lemma b64url_graph b : Forall is_byte b -> all_graph (b64url b) = true.
Proof.
  intros Hb. apply all_graph_string_of, Forall_fmap. eapply Forall_impl; [apply (b64_groups_sextets b Hb)|].
  intros v Hv. cbn. assert (E : (33 <=? b64_char v) && (b64_char v <=? 126) = true) by (revert v Hv; by apply sextet_forall).
  lia.
Qed.

Lemma b64url_not_empty b : b <> [] -> b64url b <> EmptyString.
Proof. by destruct b as [|x [|y [|z b]]]. Qed.

Definition registered_json (id name token status : string) : json :=
  JObj (str_field "id" id ++ str_field "name" name ++ str_field "node_token" token ++ str_field "status" status).

Lemma token_arrives id name token status :
  all_graph token = true -> decode_into decode_node_token (body_text (Http.Json (registered_json id name token status))) = Ok token.
Proof.
  intros Ht. unfold decode_into. cbn [body_text].
  assert (Hs : shallow 1 (registered_json id name token status)) by (apply shallow_obj0; repeat apply members_app; auto with replies).
  destruct Hs as [Hn Hd]. rewrite DecodeStruct_print by (done || (unfold max_depth; lia)).
  unfold decode_node_token, with_field, new, registered_json. cbn [valid_json str_field app List.map fst snd].
  rewrite (at_key_found "node_token" _ _ "node_token" (JStr (to_valid token))) by reflexivity.
  cbn [d_string]. by rewrite to_valid_ascii by (by apply all_graph_ascii).
Qed.

(** ** The registration at the control plane *)

Section registering.
Context `{PostgresOrder}.

Lemma upsert_location_fresh u code country db :
  locations db !! u = None -> exists id db', upsert_location u code country db = Ok (id, db').
Proof. intros Hu. unfold upsert_location. destruct (find_row _ _) as [[k l]|]; [eauto|]. rewrite Hu. eauto. Qed.

Lemma upsert_gateway_fresh u lid r h db net :
  registration_values r = Some net -> is_Some (locations db !! lid) -> gateways db !! u = None ->
  exists id db', upsert_gateway u lid r h db = Ok (id, db').
Proof.
  intros Hv [l Hl] Hu. unfold upsert_gateway. rewrite Hv, Hl. destruct net as [net4 net6].
  destruct (find_row _ _) as [[k g]|]; [eauto|]. rewrite Hu. eauto.
Qed.

(** The row [r] registers as, in tables that had [db]. *)
Definition filed (r : GatewayRegistration) (token : string) (net : string * option string) (db db' : DB) (gid : string) : Prop :=
  (exists lid, gateways db' = <[gid := registered_row r lid (HashToken token) net.1 net.2 (gateways db !! gid)]> (gateways db)) /\
  match gateways db !! gid with
  | Some old => g_name old = reg_Name r
  | None => forall k g, gateways db !! k = Some g -> g_name g <> reg_Name r
  end /\ leases db' = leases db /\ devices db' = devices db.

Lemma RegisterGateway_fine r c db u1 u2 us b bs net :
  registration_values r = Some net -> locations db !! u1 = None -> gateways db !! u2 = None ->
  exists g db', RegisterGateway r c (mkSession db [] (u1 :: u2 :: us) (b :: bs)) = (Ok (g, b64url b), mkSession db' [] us bs) /\
    Name g = reg_Name r /\ Status g = GatewayPending /\ filed r (b64url b) net db db' (ID g).
Proof.
  intros Hv H1 H2. destruct (upsert_location_fresh u1 (reg_CountryCode r) (reg_CountryName r) db H1) as (lid & db1 & E1).
  pose proof (upsert_location_Ok _ _ _ _ _ _ E1) as [Edb1 _].
  destruct (upsert_gateway_fresh u2 lid r (HashToken (b64url b)) db1 net) as (gid & db2 & E2);
    [done|rewrite Edb1; cbn; rewrite lookup_insert_eq; by eexists|by rewrite Edb1|].
  pose proof (upsert_gateway_Ok _ _ _ _ _ _ _ E2) as (net4 & net6 & Ev & Edb2 & Hname).
  rewrite Hv in Ev. injection Ev as ->. eexists _, db2. split; [|split; [|split]].
  - unfold RegisterGateway, RegisterGateway_tx. eapply bind_run; [reflexivity|]. cbv beta zeta.
    assert (Hbody : forall body : M (Gateway * string), calm body -> forall x s',
      body c (mkSession db [] (u1 :: u2 :: us) bs) = (Ok x, s') -> transaction body c (mkSession db [] (u1 :: u2 :: us) bs) = (Ok x, s')).
    { intros body Hcalm x s' E. rewrite transaction_fine; [by rewrite E|]. intros r' s'' E'. by apply (Hcalm c (mkSession db [] (u1 :: u2 :: us) bs) r' s''). }
    apply Hbody; clear Hbody.
    { repeat (apply calm_bind; [first [apply calm_gen_random_uuid|apply calm_stmt]|intros ?]). apply calm_ret. }
    eapply bind_run; [reflexivity|]. eapply bind_run; [rewrite stmt_fine; cbn [s_db s_rand]; rewrite E1; reflexivity|].
    eapply bind_run; [reflexivity|]. eapply bind_run; [rewrite stmt_fine; cbn [s_db s_rand]; rewrite E2; reflexivity|]. reflexivity.
  - done.
  - done.
  - cbn [ID]. rewrite Edb1 in Edb2, Hname. split; [|split; [exact Hname|by rewrite Edb2]]. exists lid. by rewrite Edb2.
Qed.

End registering.

(** ** The first start *)

Section first_start.
Context `{PostgresOrder} `{Argon2} `{Rate} (acfg : ServerConfig) (metrics_page : Request -> Reply).
Context (origin remote : string) (status_text : Z -> string) (client : Client).
Hypothesis client_origin : base client = origin.
Context {dev : Type} (run_wg : list string -> dev -> option string * dev) (writable : string -> bool) (cfg : config).

#[local] Existing Instance pg_store.

Abbreviation to_control := (send acfg metrics_page origin remote status_text).
Abbreviation starts := (ensureRegistered run_wg to_control writable cfg client).

Lemma route_register r : is_request "POST" ["v1"; "gateways"; "register"] r ->
  route acfg metrics_page r =
  inr (mkPattern "POST" [Lit "v1"; Lit "gateways"; Lit "register"] false (any (handleGatewayRegister acfg)), EmptyString).
Proof. intros Hr. rewrite (route_to _ _ _ _ r Hr). reflexivity. Qed.

(** The registration as the store is given it. *)
Definition given (r : Registration) : GatewayRegistration :=
  let g := registration_of r in if reg_EndpointPort g =? 0 then set_port 51820 g else g.

Lemma given_numbers r net :
  registration_values (given r) = Some net -> int64 (r_EndpointPort r) /\ int64 (r_Capacity r) /\ int64 (r_BandwidthMbps r).
Proof.
  unfold registration_values. destruct (_ && _) eqn:E; [|done]. intros _. repeat (apply andb_true_iff in E as [E ?]). revert E.
  unfold given, int64, int4, int4_opt, nilIfZero in *. cbn [reg_EndpointPort registration_of] in *.
  destruct (r_EndpointPort r =? 0) eqn:E0; cbn in *; destruct (r_BandwidthMbps r =? 0) eqn:Eb; intros E; unfold int4 in *; to_prop; lia.
Qed.

(** A registration an agent can send and the control plane takes. *)
Record registrable (r : Registration) (net : string * option string) : Prop := {
  rg_position : r_Latitude r = None /\ r_Longitude r = None;
  rg_size : forall v, Registration_json r = Some v -> (String.length (print v) <= kB64)%nat;
  rg_complete : validateRegistration (registration_of r) = None;
  rg_columns : registration_values (given r) = Some net
}.

(** The secret both sides are configured with. *)
Hypothesis secret_shared : EnrollmentSecret acfg = enrollmentSecret cfg.
Hypothesis secret_not_empty : enrollmentSecret cfg <> EmptyString.
Hypothesis secret_graph : all_graph (enrollmentSecret cfg) = true.

Lemma register_answered r net c ls db u1 u2 us b bs l :
  registrable r net -> locations db !! u1 = None -> gateways db !! u2 = None -> Forall is_byte b -> b <> [] ->
  exists gid db', filed (given r) (b64url b) net db db' gid /\
    Register to_control client (enrollmentSecret cfg) r (mkPlant (mkSession db [] (u1 :: u2 :: us) (b :: bs)) l (answered c :: ls)) =
    (Ok (b64url b), mkPlant (mkSession db' [] us bs) l ls).
Proof.
  intros [[Elat Elon] Hsize Hcomplete Hcols] Hu1 Hu2 Hb Hne.
  destruct (RegisterGateway_fine (given r) c db u1 u2 us b bs net Hcols Hu1 Hu2) as (g & db' & Ep & En & Es & Hf).
  exists (ID g), db'. split; [exact Hf|]. destruct (registration_sent r Elat Elon) as (v & Ev & _ & _).
  destruct (given_numbers r net Hcols) as (Hport & Hcap & Hbw).
  pose proof (registration_arrives r v Elat Elon Hport Hcap Hbw Ev (Hsize v Ev)) as Ed.
  unfold Register. rewrite Ev, do_answered by done. cbv zeta iota. rewrite bearer_not_empty by done.
  set (q := mkRequest _ _ _ _ _ _).
  assert (Htok : bearerToken q = enrollmentSecret cfg) by (by apply bearer_of_token).
  rewrite (serve_handler _ _ _ _ _ _ _ _ (route_register q ltac:(done)) eq_refl).
  cbn [pt_handle any]. unfold any, handleGatewayRegister, empty, constEq. rewrite Htok, secret_shared, bool_decide_false by done.
  rewrite bool_decide_true by done. cbn [negb]. change (rq_Body q) with (print v). rewrite Ed, Hcomplete. cbv zeta.
  change (if _ : bool then set_port 51820 _ else registration_of r) with (given r).
  erewrite recoverer_Ok; [|rewrite (on_result_Ok _ _ _ _ _ _ _ Ep); reflexivity]. cbn [fst]. unfold writeJSON. cbn [status content].
  change ((StatusCreated <? 200) || (300 <=? StatusCreated)) with false. cbv iota.
  pose proof (token_arrives (ID g) (Name g) (b64url b) (status_string (Status g)) (b64url_graph b Hb)) as Ea.
  unfold registered_json in Ea. rewrite Ea.
  rewrite bool_decide_false by (by apply b64url_not_empty). done.
Qed.

(** C5: an agent that starts for the first time ends up registered. It has no saved token, the
    interface has a key, the agent has the enrollment secret of the control plane, what it
    says of its gateway is valid, and the request is answered: then its gateway is in the tables with
    the registration it sent, pending, under the hash of the token it was given; that token
    is live; leases and devices are as they were. The agent saves the token if it can, and
    from then on starts with it, without a request. *)
Theorem first_start_registers (w : world dev plant) pub d1 net c ls db u1 u2 us b bs l :
  from_option TrimSpace EmptyString (w_files w !! tokenFile cfg) = EmptyString ->
  read_PublicKey run_wg (iface cfg) (w_dev w) = (Some pub, d1) ->
  registrable (with_key pub (reg cfg)) net ->
  w_net w = mkPlant (mkSession db [] (u1 :: u2 :: us) (b :: bs)) l (answered c :: ls) ->
  locations db !! u1 = None -> gateways db !! u2 = None -> Forall is_byte b -> b <> [] ->
  exists gid g db' files,
    starts w = (Ok (b64url b), mkWorld d1 (mkPlant (mkSession db' [] us bs) l ls) (w_meter w) files) /\
    filed (given (with_key pub (reg cfg))) (b64url b) net db db' gid /\
    gateways db' !! gid = Some g /\ live_token (HashToken (b64url b)) g = true /\
    g_status g = GatewayPending /\ g_public_key g = to_valid pub /\
    (writable (tokenFile cfg) = true -> forall w2, w_files w2 = files -> starts w2 = (Ok (b64url b), w2)).
Proof.
  intros Hfile Hpub Hreg Hnet Hu1 Hu2 Hb Hne.
  destruct (register_answered (with_key pub (reg cfg)) net c ls db u1 u2 us b bs l Hreg Hu1 Hu2 Hb Hne) as (gid & db' & Hf & Er).
  pose proof Hf as [[lid Eg] _].
  exists gid, (registered_row (given (with_key pub (reg cfg))) lid (HashToken (b64url b)) net.1 net.2 (gateways db !! gid)), db'.
  exists (if writable (tokenFile cfg) then <[tokenFile cfg := b64url b]> (w_files w) else w_files w).
  splits; [|exact Hf|by rewrite Eg, lookup_insert_eq| |done| |].
  - unfold ensureRegistered. rewrite Hpub, Hnet, Er.
    destruct (w_files w !! tokenFile cfg) as [t|]; [|done]. cbn in *. by rewrite Hfile.
  - unfold live_token, registered_row. cbn. by rewrite bool_decide_true.
  - unfold given. by destruct (_ =? 0).
  - intros Hw w2 Efiles. unfold ensureRegistered. rewrite Efiles, Hw, lookup_insert_eq. cbn.
    rewrite TrimSpace_all_graph by (by apply b64url_graph). pose proof (b64url_not_empty b Hne). by destruct (b64url b).
Qed.

End first_start.
