(* ===== verification/AgentRestart.v ===== *)
(** What a clean shutdown does to a gateway: the agent deregisters, keeps its token, and
    is refused when it comes back. *)
From S2P Require Import Prelude Floats Model GoStrings NetAddr Crypto Json JsonFacts GoTime Jwt Password Ratelimit Alloc Db Session StoreGateways StoreIdentity StoreConnections Schema Facts Registry Http Reconcile Wireguard Sysload Agent Api ApiRules ApiReplies ApiFlows AgentCodec AgentFlows.

Section dead_token.
Context `{PostgresOrder} `{Argon2} `{Rate} (acfg : ServerConfig) (metrics_page : Request -> Reply).

#[local] Existing Instance pg_store.

Lemma update_dead h m c db :
  token_dead h db -> put Gateways (update_where (live_token h) (beat c m) (gateways db)) db = db.
Proof. intros Hdead. rewrite update_where_none by done. by destruct db. Qed.

(** However its statement ends, a heartbeat with a dead token fails and changes nothing. *)
Lemma Heartbeat_dead h m c s r s' :
  token_dead h (s_db s) -> StoreGateways.Heartbeat h m c s = (r, s') -> s_db s' = s_db s /\ exists e, r = Err e.
Proof.
  intros Hdead. destruct s as [db fs us rs]. cbn [s_db] in *.
  assert (Hnil : head (pg_rows (select_rows (live_token h) (gateways db))) = None).
  { apply head_pg_rows_None. by apply select_rows_nil. }
  assert (Hup : forall t, heartbeat_update t h m db = if int4 (m_ActivePeers m) then Ok (None, db) else Err ErrDB).
  { intros t. unfold heartbeat_update. by rewrite Hnil, update_dead. }
  unfold StoreGateways.Heartbeat, stmt, next_fault, get_clock, bind. cbn [s_faults s_db].
  destruct fs as [|[] fs]; cbn [s_db]; rewrite ?Hup; destruct (int4 (m_ActivePeers m)); intros E; injection E as <- <-; eauto.
Qed.

Definition POST_heartbeat := is_request "POST" ["v1"; "gateways"; "heartbeat"].

(** So the request is answered with an error, and changes nothing. *)
Lemma heartbeat_refused r c l s resp l' s' :
  POST_heartbeat r -> token_dead (HashToken (bearerToken r)) (s_db s) ->
  ServeHTTP acfg metrics_page r c l s = (resp, l', s') -> 400 <= status resp.1 /\ s_db s' = s_db s.
Proof.
  intros Hr Hdead. rewrite (serve_handler _ _ _ _ _ _ _ _ (route_heartbeat acfg metrics_page r Hr) eq_refl).
  cbn [pt_handle any]. unfold any, handleGatewayHeartbeat, with_node, recoverer. cbv zeta.
  destruct (empty (bearerToken r)); [intros E; injection E as <- _ <-; done|].
  destruct (DecodeStruct _ _ _) as [m []]; [|intros E; injection E as <- _ <-; done].
  unfold on_result, bind, try. change (st_Heartbeat ?h ?m) with (StoreGateways.Heartbeat h m).
  destruct (StoreGateways.Heartbeat _ _ _ _) as [res s1] eqn:EH.
  apply Heartbeat_dead in EH as [Hdb [e ->]]; [|done].
  unfold node_error. destruct e; intros E; injection E as <- _ <-; done.
Qed.

Definition POST_deregister := is_request "POST" ["v1"; "gateways"; "deregister"].

Lemma route_deregister r : POST_deregister r ->
  route acfg metrics_page r =
  inr (mkPattern "POST" [Lit "v1"; Lit "gateways"; Lit "deregister"] false (any handleGatewayDeregister), EmptyString).
Proof. intros Hr. rewrite (route_to _ _ _ _ r Hr). reflexivity. Qed.

(** Deregistering twice is deregistering once. *)
Lemma deregister_dead h db :
  token_dead h db ->
  put Gateways (update_where (fun g => bool_decide (g_agent_token_hash g = Some h)) (with_status GatewayDisabled) (gateways db)) db = db.
Proof.
  intros Hdead. assert (E : update_where (fun g => bool_decide (g_agent_token_hash g = Some h)) (with_status GatewayDisabled) (gateways db) = gateways db).
  { apply map_eq. intros k. rewrite lookup_update_where. destruct (gateways db !! k) as [g|] eqn:Ek; [|done]. cbn.
    case_bool_decide as Hh; [|done]. specialize (Hdead k g Ek). unfold live_token in Hdead.
    rewrite bool_decide_true in Hdead by done. cbn in Hdead. to_prop. f_equal. destruct g. cbn in *. by subst. }
  rewrite E. by destruct db.
Qed.

(** The hash is no live gateway's once it is deregistered. *)
Lemma deregistered_dead h db :
  token_dead h (put Gateways (update_where (fun g => bool_decide (g_agent_token_hash g = Some h)) (with_status GatewayDisabled) (gateways db)) db).
Proof.
  intros k g. cbn. rewrite lookup_update_where. destruct (gateways db !! k) as [g0|]; [|done]. cbn. intros E.
  case_bool_decide as Hh; injection E as <-; unfold live_token.
  - cbn. rewrite (bool_decide_true (GatewayDisabled = GatewayDisabled)) by done. apply andb_false_r.
  - by rewrite (bool_decide_false _ Hh).
Qed.

(** However the statement ends, deregistering again changes nothing. *)
Lemma Deregister_dead h c s r s' :
  token_dead h (s_db s) -> DeregisterGateway h c s = (r, s') -> s_db s' = s_db s.
Proof.
  intros Hdead. destruct s as [db fs us rs]. cbn [s_db] in *.
  unfold DeregisterGateway, update, stmt, next_fault, bind. cbn [s_faults s_db get].
  destruct fs as [|[] fs]; cbn [s_db with_db]; rewrite ?deregister_dead by done; try destruct (_ =? 0);
    intros E; by injection E as <- <-.
Qed.

Lemma deregister_refused r c l s resp l' s' :
  POST_deregister r -> token_dead (HashToken (bearerToken r)) (s_db s) ->
  ServeHTTP acfg metrics_page r c l s = (resp, l', s') -> s_db s' = s_db s.
Proof.
  intros Hr Hdead. rewrite (serve_handler _ _ _ _ _ _ _ _ (route_deregister r Hr) eq_refl).
  cbn [pt_handle any]. unfold any, handleGatewayDeregister, with_node, recoverer. cbv zeta.
  destruct (empty (bearerToken r)); [intros E; by injection E as _ _ <-|].
  unfold on_result, bind, try. change (st_DeregisterGateway ?h) with (DeregisterGateway h).
  destruct (DeregisterGateway _ _ _) as [res s1] eqn:EH. apply Deregister_dead in EH; [|done].
  unfold node_error. destruct res as [a|e|]; [|destruct e|]; intros E; injection E as <- _ <-; done.
Qed.

(** The first deregistration, when the statement goes through. *)
Lemma deregister_fine r c l db us rs resp l' s' :
  POST_deregister r -> bearerToken r <> EmptyString ->
  ServeHTTP acfg metrics_page r c l (mkSession db [] us rs) = (resp, l', s') ->
  s_db s' = put Gateways (update_where (fun g => bool_decide (g_agent_token_hash g = Some (HashToken (bearerToken r))))
              (with_status GatewayDisabled) (gateways db)) db.
Proof.
  intros Hr Hne. rewrite (serve_handler _ _ _ _ _ _ _ _ (route_deregister r Hr) eq_refl).
  cbn [pt_handle any]. unfold any, handleGatewayDeregister, with_node, recoverer, empty. cbv zeta.
  rewrite bool_decide_false by done. unfold on_result, bind, try.
  change (st_DeregisterGateway ?h) with (DeregisterGateway h). unfold DeregisterGateway, bind. rewrite update_fine.
  destruct (_ =? 0); intros E; by injection E as _ _ <-.
Qed.

End dead_token.

(** ** The agent after its shutdown *)

Section restart.
Context `{PostgresOrder} `{Argon2} `{Rate} (acfg : ServerConfig) (metrics_page : Request -> Reply).
Context (origin remote : string) (status_text : Z -> string) (client : Client) (token : string).
Hypothesis client_origin : base client = origin.
Hypothesis token_not_empty : token <> EmptyString.
Hypothesis token_graph : all_graph token = true.
Context {dev : Type} (run_wg : list string -> dev -> option string * dev) (beyond : float64 -> Z) (writable : string -> bool) (cfg : config).
Context `{!WgDevice run_wg (iface cfg)} `{!WgShow run_wg (iface cfg)}.

#[local] Existing Instance pg_store.

Abbreviation to_control := (send acfg metrics_page origin remote status_text).

(** The tables behind a plant. *)
Definition tables (p : plant) : DB := s_db (pl_session p).

(** What the requests of an agent see of the plant, whatever the network does. *)
Lemma do_cases method path bearer body p r p' :
  do to_control client method path bearer body p = (r, p') ->
  (tables p' = tables p /\ exists e, r = Err e) \/
  exists text c resp l' s',
    ServeHTTP acfg metrics_page (mkRequest method (segments path) remote
      (if bool_decide (bearer = EmptyString) then EmptyString else "Bearer " +:+ bearer) EmptyString text) c
      (pl_limiter p) (pl_session p) = (resp, l', s') /\
    tables p' = s_db s' /\ (300 <= status resp.1 -> exists e, r = Err e).
Proof.
  unfold do. destruct body as [[v|]|]; [|intros E; injection E as <- <-; left; eauto|].
  all: cbv zeta; unfold send, served; cbn [cq_URL cq_Method cq_Authorization cq_Body];
    rewrite client_origin, cut_prefix_app.
  all: destruct (pl_links p) as [|[c| |c] ls]; try (intros E; injection E as <- <-; left; eauto; fail).
  all: destruct (ServeHTTP _ _ _ _ _ _) as [[resp l'] s'] eqn:Es; cbn [cr_StatusCode cr_Status cr_Body].
  all: intros E; right; eexists _, c, resp, l', s'; split; [exact Es|].
  all: try (injection E as <- <-; split; [done|eauto]; fail).
  all: destruct (_ || _) eqn:Eb; injection E as <- <-; (split; [done|]); intros Hst;
    first [by eauto|exfalso; to_prop; lia].
Qed.

(** Ticks with a dead token fail and change neither the tables nor the interface. *)
Lemma tick_dead t stat nb w r w' :
  token_dead (HashToken token) (tables (w_net w)) ->
  syncOnce run_wg to_control beyond cfg client t stat nb token w = (r, w') ->
  (exists e, r = Err e) /\ tables (w_net w') = tables (w_net w) /\ peers (w_dev w') = peers (w_dev w).
Proof.
  intros Hdead. unfold syncOnce. destruct (ListPeers _ _ _) as [cur d1] eqn:El.
  apply (ListPeers_same run_wg (iface cfg)) in El. destruct cur as [cur|]; [|intros E; injection E as <- <-; eauto].
  destruct (sample _ _ _ _ _) as [load m1]. unfold Agent.Heartbeat.
  destruct (do _ _ _ _ _ _ _) as [res n1] eqn:Ed.
  assert (Hres : tables n1 = tables (w_net w) /\ exists e, res = Err e).
  { apply do_cases in Ed as [Ed|(text & c & resp & l' & s' & Es & Ht & Hst)]; [done|].
    rewrite bearer_not_empty in Es by done. apply heartbeat_refused in Es as [H400 Hdb]; [|done|].
    - unfold tables in *. split; [congruence|]. apply Hst. lia.
    - by rewrite bearer_of_token. }
  destruct Hres as [Hdb [e ->]]. cbn [done_]. intros E. injection E as <- <-. eauto.
Qed.

Lemma serve_dead os : forall w,
  token_dead (HashToken token) (tables (w_net w)) ->
  let w' := serve run_wg to_control beyond cfg client token os w in
  tables (w_net w') = tables (w_net w) /\ peers (w_dev w') = peers (w_dev w).
Proof.
  induction os as [|[t stat nb|] os IH]; intros w Hdead; [done| |]; cbn [serve].
  - destruct (syncOnce _ _ _ _ _ _ _ _ _ _) as [r w1] eqn:E. apply tick_dead in E as (_ & Ht & Hp); [|done].
    destruct (IH w1) as [IHt IHp]; [by rewrite Ht|]. cbn [snd]. cbv zeta. by rewrite IHt, IHp.
  - destruct (Deregister _ _ _ _) as [r n1] eqn:E. unfold Deregister in E.
    destruct (do _ _ _ _ _ _ _) as [res n2] eqn:Ed. injection E as _ <-. cbn. split; [|done].
    apply do_cases in Ed as [[Ed _]|(text & c & resp & l' & s' & Es & Ht & _)]; [done|].
    rewrite bearer_not_empty in Es by done. apply deregister_refused in Es; [|done|by rewrite bearer_of_token].
    unfold tables in *. congruence.
Qed.


End restart.
