(* ===== verification/AgentDemo.v ===== *)
(** An agent in front of the demonstration's gateway: the concrete world the witnesses of
    the agent's properties are evaluated on. *)
From S2P Require Import Prelude Floats Model GoStrings NetAddr Crypto Json JsonFacts GoTime Jwt Password Ratelimit Alloc Db Session StoreGateways StoreIdentity StoreConnections Schema Facts System Demo Http Reconcile Wireguard Sysload Agent Api ApiDemo ApiFlows AgentCodec AgentFlows AgentRegister AgentRestart.

#[local] Existing Instance demo_pg.
#[local] Existing Instance toy_rate.
#[local] Existing Instance toy_argon2.

Definition demo_client : Client := NewClient "https://cp.example.org/".
Definition demo_agent : config :=
  mkConfig "https://cp.example.org/" "wg0" "eth0" "/etc/aevora/node.token" "" (3 * Second) 51821
    (mkRegistration "de-1" "de" "Germany" "" "" "192.0.2.1" 51820 "" "10.7.50.0/24" "" 250 1000 None None).

Definition demo_send : ClientRequest -> plant -> option ClientReply * plant :=
  send demo_cfg plain_page "https://cp.example.org" "192.0.2.1:4000" (fun _ => "").

(** The interface still has a peer the control plane does not know. *)
Definition stale_dev : gmap string (gset string) := {[ "oldkey" := {[ "10.7.50.9/32" ]} ]}.
Definition demo_links : list link := [answered (at_time 6000); answered (at_time 6001)].
Definition demo_world : world (gmap string (gset string)) plant :=
  mkWorld stale_dev (mkPlant (mkSession demo_db [] [] []) (NewServer demo_cfg) demo_links) (Sysload.New "eth0")
    {[ "/etc/aevora/node.token" := token_a ]}.

Lemma demo_routable : routable demo_db "gw1".
Proof.
  split; rewrite demo_leases.
  - intros k l [<- <-]%lookup_singleton_Some _. reflexivity.
  - intros k l r [<- <-]%lookup_singleton_Some _ Hr. change (routes demo_lease_row) with ["10.7.50.2/32"] in Hr.
    apply list_elem_of_singleton in Hr as ->. by vm_compute.
  - intros k1 k2 l1 l2 r [<- _]%lookup_singleton_Some [<- _]%lookup_singleton_Some. done.
Qed.

Lemma demo_token_live : live_token (HashToken token_a) demo_gateway = true.
Proof. rewrite hash_a_eq. by vm_compute. Qed.

Lemma demo_token_only k g :
  gateways demo_db !! k = Some g -> g_agent_token_hash g = Some (HashToken token_a) -> k = "gw1".
Proof. rewrite demo_gateways. by intros [<- _]%lookup_singleton_Some. Qed.

Lemma tick_converges_witness :
  exists w', syncOnce show_run demo_send (fun _ => 0) demo_agent demo_client (6 * Second) None None token_a demo_world = (Ok (), w') /\
    option_map g_status (gateways (s_db (pl_session (w_net w'))) !! "gw1") = Some GatewayHealthy /\
    w_dev w' !! "phonekey" = Some (list_to_set ["10.7.50.2/32"]).
Proof.
  destruct (tick_converges demo_cfg plain_page "https://cp.example.org" "192.0.2.1:4000" (fun _ => "") demo_client
    eq_refl token_a ltac:(discriminate) ltac:(vm_compute; reflexivity) show_run (fun _ => 0) demo_agent demo_world demo_db [] [] (NewServer demo_cfg)
    (at_time 6000) (at_time 6001) [] "gw1" demo_gateway (6 * Second) None None
    (fst <$> shown stale_dev) stale_dev (mkSample Fzero 0 0) (Sysload.New "eth0") Fzero)
    as (w' & Es & Hg & _ & Hp).
  - exact demo_wf.
  - exact demo_routable.
  - by rewrite demo_gateways.
  - exact demo_token_live.
  - exact demo_token_only.
  - reflexivity.
  - vm_compute. reflexivity.
  - apply show_commands.
  - by vm_compute.
  - reflexivity.
  - exists "0". splits; [reflexivity|reflexivity|cbn; lia].
  - by vm_compute.
  - by vm_compute.
  - exists w'. split; [exact Es|]. split; [by rewrite Hg|]. apply (Hp "phonekey").
    exists "lease1", demo_lease_row. rewrite demo_leases.
    splits; [apply lookup_singleton_eq|reflexivity|reflexivity|by change (routes demo_lease_row) with ["10.7.50.2/32"]].
Defined.


(** A machine that has never been registered, in front of a control plane with empty tables. *)
Definition new_agent : config :=
  mkConfig "https://cp.example.org/" "wg0" "eth0" "/etc/aevora/node.token" (EnrollmentSecret demo_cfg) (3 * Second) 51821 (reg demo_agent).
Definition new_world : world (gmap string (gset string)) plant :=
  mkWorld stale_dev (mkPlant (mkSession empty_db [] ["loc1"; "gw1"] [random_a]) (NewServer demo_cfg) [answered (at_time 1000)])
    (Sysload.New "eth0") ∅.

Lemma new_registrable : registrable (with_key "PUBKEY=" (reg new_agent)) ("10.7.50.0/24", None).
Proof.
  split; [done| |by vm_compute|by vm_compute]. intros v Ev. apply Nat.leb_le.
  assert (E : option_map (fun v => (String.length (print v) <=? kB64)%nat) (Registration_json (with_key "PUBKEY=" (reg new_agent))) = Some true)
    by (vm_compute; reflexivity).
  rewrite Ev in E. by injection E.
Qed.

Lemma first_start_registers_witness :
  exists w' gid g, ensureRegistered show_run demo_send (fun _ => true) new_agent demo_client new_world = (Ok token_a, w') /\
    gateways (tables (w_net w')) !! gid = Some g /\ live_token (HashToken token_a) g = true /\ g_public_key g = "PUBKEY=" /\
    ensureRegistered show_run demo_send (fun _ => true) new_agent demo_client w' = (Ok token_a, w').
Proof.
  destruct (first_start_registers demo_cfg plain_page "https://cp.example.org" "192.0.2.1:4000" (fun _ => "") demo_client eq_refl
    show_run (fun _ => true) new_agent eq_refl ltac:(by vm_compute) ltac:(vm_compute; reflexivity) new_world "PUBKEY=" stale_dev
    ("10.7.50.0/24", None) (at_time 1000) [] empty_db "loc1" "gw1" [] random_a [] (NewServer demo_cfg))
    as (gid & g & db' & files & Es & _ & Hg & Hl & _ & Hk & Hagain).
  - reflexivity.
  - vm_compute. reflexivity.
  - exact new_registrable.
  - reflexivity.
  - reflexivity.
  - reflexivity.
  - repeat constructor; lia.
  - discriminate.
  - do 3 eexists. split; [exact Es|]. split; [exact Hg|]. split; [exact Hl|]. split; [exact Hk|]. by apply Hagain.
Defined.
