(* ===== verification/Revocation.v ===== *)
(** Revoking a device, from the request of its owner to the interface of the gateway: the
    API, the store and the agent together. *)
From S2P Require Import Prelude Floats Model GoStrings NetAddr Crypto Json GoTime Jwt Password Ratelimit Alloc Db Session StoreGateways StoreIdentity StoreConnections Schema Facts Steps System Demo Executions Connections Identity Lifecycle Interleave Overlap Others Http Reconcile Wireguard Sysload Agent Api ApiDemo ApiRules ApiSafety ApiFlows AgentCodec AgentFlows AgentDemo.

(** ** A device that is cut off *)

Section cut_off.
Context `{PostgresOrder}.

(** It is revoked and has no active lease. *)
Definition cut_off (did : string) (db : DB) : Prop :=
  device_revoked did db /\ forall k l, leases db !! k = Some l -> le_device_id l = did -> is_active l = false.

Lemma narrows_cut_off did db m :
  narrows lease_rel (leases db) m -> (forall k l, leases db !! k = Some l -> le_device_id l = did -> is_active l = false) ->
  forall k l, m !! k = Some l -> le_device_id l = did -> is_active l = false.
Proof.
  intros Hn Hc k l Hk Hd. destruct (Hn _ _ Hk) as (l0 & Hk0 & Hrel). destruct (is_active l) eqn:Ea; [|done].
  pose proof (lease_rel_active _ _ Hrel Ea) as Ha. destruct Hrel as (_ & Edev & _). rewrite (Hc k l0 Hk0) in Ha; [done|congruence].
Qed.

(** Whatever the store is asked next, it stays so: only [CreateConnection] adds a lease, and
    only for a device that is not revoked. *)
Lemma cut_off_step did db e db' : wf db -> System.step db e db' -> cut_off did db -> cut_off did db'.
Proof.
  intros Hwf Hs [(d & Hd & Hr) Hc]. destruct (step_good _ _ _ Hwf Hs) as [_ Hev].
  destruct (ev_devices _ _ Hev _ _ Hd) as (d' & Hd' & _ & _ & _ & Hkeep).
  split; [exists d'; auto|]. clear Hev Hd' Hkeep. destruct Hs as [q c s r s' E]. destruct (sparing q) eqn:Hq.
  { intros k l. rewrite (serve_spares q Hq (leases (s_db s)) c s r s' eq_refl E). apply Hc. }
  destruct (overlapping q) eqn:Ho.
  - destruct q; try done. cbn [System.serve] in E. unfold discard, bind in E. destruct (CreateConnection userID deviceID country leaseTTL heartbeatTTL c s) as [x s1] eqn:E1.
    assert (s' = s1) as -> by (by destruct x; injection E). clear E.
    apply transaction_outcome in E1 as [[-> _]|(conn & Hy & _)]; [done|].
    apply CreateConnection_yields in Hy as (x1 & uid & d1 & gid & g & lo & v4 & v6 & ip4 & ip6 & _ & _ & Hd1 & Hown & _ & _ & _ & _ & _ & _
      & _ & _ & _ & _ & _ & ->).
    intros k l. cbn [put leases Leases]. destruct (decide (k = conn_ID conn)) as [->|Hne].
    + rewrite lookup_insert_eq. intros [= <-] Hdev. cbn in Hdev. subst x1. rewrite Hd in Hd1. injection Hd1 as <-.
      by rewrite owned_live_revoked in Hown.
    + rewrite lookup_insert_ne by done. apply (narrows_cut_off did (s_db s)); [|done].
      apply narrows_update_where; [apply lease_rel_refl|]. intros l' _. by apply lease_rel_set_state.
  - apply (narrows_cut_off _ (s_db s)); [|done]. apply (serve_outside _ _ _ _ _ Ho E).
Qed.

Lemma cut_off_run did db tr db' : wf db -> run db tr db' -> cut_off did db -> cut_off did db'.
Proof.
  intros Hwf Hr. induction Hr as [db|db e db1 tr db2 Hs Hr IH]; [done|]. intros Hc.
  apply IH; [by apply (step_good _ _ _ Hwf Hs)|by apply (cut_off_step _ _ _ _ Hwf Hs)].
Qed.

(** No gateway is told its key. *)
Lemma cut_off_key did d db k l :
  wf db -> cut_off did db -> devices db !! did = Some d -> leases db !! k = Some l -> is_active l = true ->
  le_client_public_key l <> d_public_key d.
Proof.
  intros Hwf [_ Hc] Hd Hk Ha Hkey. destruct (wf_lease_owner _ Hwf k l _ Hk eq_refl) as [d1 Hd1].
  rewrite (wf_snapshot _ Hwf _ _ _ Hk Hd1) in Hkey.
  assert (E : le_device_id l = did) by (apply (wf_keys _ Hwf _ _ d1 d (d_public_key d1)); [done..|by rewrite Hkey]).
  by rewrite (Hc k l Hk E) in Ha.
Qed.

End cut_off.

(** ** The request, and the gateway's next sync *)

Section revocation.
Context `{PostgresOrder} `{Argon2} `{Rate} (acfg : ServerConfig) (metrics_page : Request -> Reply).
Context (origin remote : string) (status_text : Z -> string) (client : Client) (client_origin : base client = origin).
Context (token : string) (token_not_empty : token <> EmptyString) (token_graph : all_graph token = true).
Context {dev : Type} (run_wg : list string -> dev -> option string * dev) (beyond : float64 -> Z) (cfg : config).
Context `{!WgDevice run_wg (iface cfg)} `{!WgShow run_wg (iface cfg)}.

#[local] Existing Instance pg_store.

Definition DELETE_device (id : string) := is_request "DELETE" ["v1"; "devices"; id].

Lemma route_revoke id r : id <> EmptyString -> DELETE_device id r ->
  route acfg metrics_page r =
  inr (mkPattern "DELETE" [Lit "v1"; Lit "devices"; Id] false (handleDeviceRevoke acfg), id).
Proof. intros Hid Hr. rewrite (route_to _ _ _ _ r Hr). destruct id; [done|]. reflexivity. Qed.

(** What a 204 comes from. *)
Lemma device_revoked_204 id r c l s resp l' s' :
  id <> EmptyString -> DELETE_device id r ->
  ServeHTTP acfg metrics_page r c l s = (resp, l', s') -> status resp.1 = StatusNoContent ->
  exists u, speaks_for acfg r c u /\ RevokeDevice u id c s = (Ok (), s').
Proof.
  intros Hid Hr E Hs. rewrite (serve_handler _ _ _ _ _ _ _ _ (route_revoke id r Hid Hr) eq_refl) in E.
  destruct (recoverer _ _ _) as [x s1] eqn:Er. injection E as -> _ ->.
  apply recoverer_inv in Er; [|by rewrite Hs]. cbn [pt_handle] in Er. unfold handleDeviceRevoke in Er.
  apply with_user_inv in Er as (u & Hu & Er); [|by rewrite Hs..]. exists u. split; [done|].
  apply on_result_inv in Er as (res & s1 & Ec & Er). destruct res as [[]|e|]; [by injection Er as _ <-|exfalso|done].
  destruct e; injection Er as <- _; done.
Qed.

(** C6: a device whose revocation is answered 204 is out, as far as requests that begin after
    it are concerned. The request carried a token of the device's owner. From then on,
    whatever is asked of the control plane in requests one after the other and whatever its
    background work does in between, with whatever outcomes, no refresh token speaks for the
    device and no lease of it is active. (A request for a connection that was under way when
    the revocation was served can still be granted: [Races.overlaps_break].) And the next sync
    of an agent that goes through, under the conditions of [AgentFlows.tick_converges], among
    them that the active leases of its gateway share no route, leaves the device's key off the
    gateway's interface, whichever gateway it is. *)
Theorem revoked_device_is_cut_off id r c l s resp l' s' db :
  wf (s_db s) -> id <> EmptyString -> DELETE_device id r ->
  ServeHTTP acfg metrics_page r c l s = (resp, l', s') -> status resp.1 = StatusNoContent ->
  serves_requests acfg metrics_page (s_db s') db ->
  exists u did d, speaks_for acfg r c u /\ pg_uuid id = Some did /\ devices (s_db s) !! did = Some d /\
    pg_uuid u = Some (d_user_id d) /\ cut_off did db /\
    (forall t plain uid, ~ session_of t plain uid did db) /\
    forall (w : world dev plant) us rs lim c1 c2 ls gid g t stat nb cur d1 load m1 f',
      routable db gid -> gateways db !! gid = Some g -> live_token (HashToken token) g = true ->
      (forall k g', gateways db !! k = Some g' -> g_agent_token_hash g' = Some (HashToken token) -> k = gid) ->
      w_net w = mkPlant (mkSession db [] us rs) lim (answered c1 :: answered c2 :: ls) ->
      ListPeers run_wg (iface cfg) (w_dev w) = (Some cur, d1) -> commands_succeed run_wg (iface cfg) ->
      Z.of_nat (length cur) < 2 ^ 31 ->
      sample beyond t stat nb (w_meter w) = (load, m1) -> sent_as (CPUPct load) f' -> int64 (RxBps load) -> int64 (TxBps load) ->
      exists w', syncOnce run_wg (send acfg metrics_page origin remote status_text) beyond cfg client t stat nb token w = (Ok (), w') /\
        peers (w_dev w') !! d_public_key d = None.
Proof.
  intros Hwf Hid Hr E Hs Hreqs. destruct (device_revoked_204 id r c l s resp l' s' Hid Hr E Hs) as (u & Hu & Erev).
  destruct (ServeHTTP_good _ _ _ _ _ _ _ _ _ Hwf E) as [Hwf1 _].
  apply serves_requests_run in Hreqs as [tr Htr]. destruct (run_good _ _ _ Hwf1 Htr) as [Hwf2 Hev].
  apply RevokeDevice_ok in Erev as (did & uid & d & Eid & Eu & Hd & Ho & Hd' & _ & Hl' & _).
  assert (Hd1 : devices (s_db s') !! did = Some (revoke_device (now c) d)) by (by rewrite Hd', lookup_insert_eq).
  assert (Hc : cut_off did db).
  { apply (cut_off_run _ _ _ _ Hwf1 Htr). split; [by eexists|exact Hl']. }
  destruct (ev_devices _ _ Hev _ _ Hd1) as (d2 & Hd2 & _ & Ekey & _).
  exists u, did, d. splits; try done.
  - unfold owned_live in Ho. to_prop. congruence.
  - intros t plain uid' (k & tk & d3 & _ & _ & _ & _ & _ & Hd3 & _ & Hlive).
    destruct Hc as [(d4 & Hd4 & Hne) _]. rewrite Hd4 in Hd3. injection Hd3 as <-. unfold not_revoked in Hlive. to_prop. done.
  - intros w us rs lim c1 c2 ls gid g t stat nb cur d1 load m1 f' Hrt Hg Hlive Honly Hnet Hls Hcmd Hlen Hload Hf Hrx Htx.
    destruct (tick_brings acfg metrics_page origin remote status_text client client_origin token token_not_empty token_graph
      run_wg beyond cfg w db us rs lim c1 c2 ls gid g t stat nb cur d1 load m1 f') as (w' & Es & _ & _ & Hp); try done.
    exists w'. split; [done|]. destruct (peers (w_dev w') !! d_public_key d) as [ips|] eqn:Ep; [|done]. exfalso.
    apply Hp in Ep as (k & lr & Hk & Hsv & Hkey & _). apply serving_active in Hsv as [_ Ha].
    apply (cut_off_key did d2 db k lr Hwf2 Hc Hd2 Hk Ha). by rewrite Ekey, <- Hkey.
Qed.

End revocation.

(** ** Witness *)

#[local] Existing Instances demo_pg pg_store toy_argon2 toy_rate.

(** Ana revokes her phone, which then asks for a connection; the gateway still lets it in. *)
Definition revoke_request : Request :=
  mkRequest "DELETE" ["v1"; "devices"; "dev1"] "198.51.100.7:40000" ("Bearer " +:+ access_token) "" "".
Definition revoke_served : Response * Limiter * session :=
  ServeHTTP demo_cfg plain_page revoke_request (at_time 6000) (NewServer demo_cfg) demo_session.
Definition tried_served : Response * Limiter * session :=
  ServeHTTP demo_cfg plain_page connect_request (at_time 6001) (NewServer demo_cfg) revoke_served.2.
Definition cut_off_db : DB := Eval vm_compute in s_db tried_served.2.
Definition phone_dev : gmap string (gset string) := {[ "phonekey" := {[ "10.7.50.2/32" ]} ]}.
Definition phone_world : world (gmap string (gset string)) plant :=
  mkWorld phone_dev (mkPlant (mkSession cut_off_db [] [] []) (NewServer demo_cfg) [answered (at_time 7000); answered (at_time 7001)])
    (Sysload.New "eth0") {[ "/etc/aevora/node.token" := token_a ]}.

Lemma cut_off_leases : leases cut_off_db = {[ "lease1" := set_lease_state Expired None demo_lease_row ]}.
Proof. vm_compute. reflexivity. Qed.

Lemma cut_off_gateways : gateways cut_off_db = gateways demo_db.
Proof. vm_compute. reflexivity. Qed.

Lemma cut_off_routable : routable cut_off_db "gw1".
Proof.
  split; rewrite cut_off_leases; [intros k l|intros k l r|intros k1 k2 l1 l2 r]; by intros [<- <-]%lookup_singleton_Some.
Qed.

Lemma revoke_served_def :
  revoke_served = ServeHTTP demo_cfg plain_page revoke_request (at_time 6000) (NewServer demo_cfg) demo_session.
Proof. done. Qed.

Lemma revoke_served_eq :
  ServeHTTP demo_cfg plain_page revoke_request (at_time 6000) (NewServer demo_cfg) demo_session =
  (revoke_served.1.1, revoke_served.1.2, revoke_served.2).
Proof. rewrite <- revoke_served_def. apply triple_eq. Qed.

Lemma tried_served_def :
  tried_served = ServeHTTP demo_cfg plain_page connect_request (at_time 6001) (NewServer demo_cfg) revoke_served.2.
Proof. done. Qed.

Lemma tried_served_eq :
  ServeHTTP demo_cfg plain_page connect_request (at_time 6001) (NewServer demo_cfg) revoke_served.2 =
  (tried_served.1.1, tried_served.1.2, tried_served.2).
Proof. rewrite <- tried_served_def. apply triple_eq. Qed.

Lemma cut_off_db_eq : s_db tried_served.2 = cut_off_db.
Proof. vm_compute. reflexivity. Qed.

Lemma tried_after : serves_requests demo_cfg plain_page (s_db revoke_served.2) cut_off_db.
Proof. rewrite <- cut_off_db_eq. exact (one_request _ _ _ _ _ _ _ _ _ _ tried_served_eq (no_more _ _ _)). Qed.

Lemma revoked_device_is_cut_off_witness :
  status tried_served.1.1.1 = StatusNotFound /\ cut_off "dev1" cut_off_db /\
  exists w', syncOnce show_run demo_send (fun _ => 0) demo_agent demo_client (6 * Second) None None token_a phone_world = (Ok (), w') /\
    w_dev w' !! "phonekey" = None.
Proof.
  split; [vm_compute; reflexivity|].
  destruct (revoked_device_is_cut_off demo_cfg plain_page "https://cp.example.org" "192.0.2.1:4000" (fun _ => "") demo_client
    eq_refl token_a ltac:(discriminate) ltac:(vm_compute; reflexivity) show_run (fun _ => 0) demo_agent
    "dev1" revoke_request (at_time 6000) (NewServer demo_cfg) demo_session _ _ _ cut_off_db demo_wf ltac:(discriminate)
    ltac:(done) revoke_served_eq ltac:(vm_compute; reflexivity) tried_after)
    as (u & did & d & _ & Eid & Hd & _ & Hc & _ & Htick).
  injection Eid as <-. split; [exact Hc|].
  assert (Ek : d_public_key <$> devices demo_db !! "dev1" = Some "phonekey") by (vm_compute; reflexivity).
  change (devices demo_db !! "dev1" = Some d) in Hd. rewrite Hd in Ek. injection Ek as Ek. rewrite <- Ek.
  destruct (Htick phone_world [] [] (NewServer demo_cfg) (at_time 7000) (at_time 7001) [] "gw1" demo_gateway (6 * Second) None None
    (fst <$> shown phone_dev) phone_dev (mkSample Fzero 0 0) (Sysload.New "eth0") Fzero) as (w' & Es & Hp).
  - exact cut_off_routable.
  - by rewrite cut_off_gateways, demo_gateways.
  - exact demo_token_live.
  - rewrite cut_off_gateways. exact demo_token_only.
  - reflexivity.
  - vm_compute. reflexivity.
  - apply show_commands.
  - by vm_compute.
  - reflexivity.
  - exists "0". splits; [reflexivity|reflexivity|cbn; lia].
  - by vm_compute.
  - by vm_compute.
  - exists w'. split; [exact Es|exact Hp].
Defined.
