(* ===== verification/Probe.v ===== *)
(** The latency probe of the agent ([agent/internal/probe/probe.go]): the responder as a
    transition system over what its listener, its timer, its context and its clients do. *)
From S2P Require Import Prelude GoStrings NetAddr Json Agent.

(** The address [run] starts the responder on; [None]: the probe is disabled. *)
Definition probe_address (cfg : config) : option string :=
  match InsideIP (r_WGSubnetV4 (reg cfg)) with
  | Ok inside => Some (JoinHostPort inside (Itoa (probePort cfg)))
  | _ => None
  end.

(** Where [Serve] is: about to bind, waiting to retry, in [Accept], about to close the
    connection of a client, with a listener that is open or closed, or back. *)
Inductive place := binding | retrying | accepting (is_open : bool) | closing (client : nat) (is_open : bool) | returned.

#[export] Instance place_eq_dec : EqDecision place.
Proof. solve_decision. Defined.

Record responder := mkResponder {
  rp_place : place;
  rp_cancelled : bool;                  (* [ctx.Done()] is closed *)
  rp_connections : list (nat * bool)    (* the clients accepted so far, latest first, and whether their connection is open *)
}.

(** [listen ok]: [net.Listen] returns; [timer], [done_case]: the cases of the [select];
    [client n]: [ln.Accept] returns a connection; [accept_fails]: it returns an error while
    the listener is open; [accept_closed]: it returns because the listener is closed;
    [close_conn]: [conn.Close()]; [close_listener]: the goroutine that waits for the context
    closes the listener; [cancel]: the agent is stopped. *)
Inductive probe_event :=
| listen (ok : bool) | timer | done_case
| client (n : nat) | accept_fails | accept_closed
| close_conn | close_listener | cancel.

(** After an error of [Accept]. *)
Definition accept_error (s : responder) (p : place) : place := if rp_cancelled s then returned else p.

(** [Serve], one event at a time; [None] when the event cannot happen. [Accept] blocks on an
    open listener until a client comes or the system call fails. When both cases of the
    [select] are ready either may be taken. Returning closes the listener. *)
Definition Serve_step (e : probe_event) (s : responder) : option responder :=
  let go p := Some (mkResponder p (rp_cancelled s) (rp_connections s)) in
  match e, rp_place s with
  | cancel, p => Some (mkResponder p true (rp_connections s))
  | listen true, binding => go (accepting true)
  | listen false, binding => go retrying
  | timer, retrying => go binding
  | done_case, retrying => if rp_cancelled s then go returned else None
  | client n, accepting true => Some (mkResponder (closing n true) (rp_cancelled s) ((n, true) :: rp_connections s))
  | accept_fails, accepting true => go (accept_error s (accepting true))
  | accept_closed, accepting false => go (accept_error s (accepting false))
  | close_conn, closing n o =>
      Some (mkResponder (accepting o) (rp_cancelled s)
              (match rp_connections s with (k, _) :: cs => (k, false) :: cs | [] => [] end))
  | close_listener, accepting true => if rp_cancelled s then go (accepting false) else None
  | close_listener, closing n true => if rp_cancelled s then go (closing n false) else None
  | _, _ => None
  end.

Definition Serve_steps (es : list probe_event) (s : responder) : option responder :=
  foldl (fun o e => o ≫= Serve_step e) (Some s) es.

Definition Serve_start : responder := mkResponder binding false [].

Definition serves (s s' : responder) : Prop := exists e, Serve_step e s = Some s'.

(** The address clients reach the responder at. *)
Definition listens_at (addr : string) (s : responder) : option string :=
  match rp_place s with accepting true | closing _ true => Some addr | _ => None end.

(** No connection is open but the one that is about to be closed. *)
Definition closes_what_it_accepts (s : responder) : Prop :=
  match rp_place s with
  | closing n _ => exists cs, rp_connections s = (n, true) :: cs /\ Forall (fun c => c.2 = false) cs
  | _ => Forall (fun c => c.2 = false) (rp_connections s)
  end.

(** The listener is closed, and [Serve] back, only when the agent is stopped. *)
Definition up_until_cancelled (s : responder) : Prop :=
  match rp_place s with accepting false | closing _ false | returned => rp_cancelled s = true | _ => True end.

Definition sound_responder (s : responder) : Prop := closes_what_it_accepts s /\ up_until_cancelled s.

Ltac responder_cases e s :=
  destruct s as [p ca cs]; destruct e as [[]| | |n| | | | |], p as [| |[]|n' []|]; cbn in *; try done;
  try destruct ca; cbn in *; try done.

Lemma sound_step e s s' : sound_responder s -> Serve_step e s = Some s' -> sound_responder s'.
Proof.
  unfold sound_responder, closes_what_it_accepts, up_until_cancelled. intros [Hc Hr] E.
  responder_cases e s; injection E as <-; cbn; (split; [|done]); eauto;
    destruct Hc as (cs' & -> & Hc); by repeat constructor.
Qed.

Lemma sound_reachable s : rtc serves Serve_start s -> sound_responder s.
Proof.
  assert (Hq : sound_responder Serve_start) by (split; [constructor|done]). intros Hr.
  induction Hr as [|s1 s2 s3 [e He] Hr IH]; [done|]. apply IH. by eapply sound_step.
Qed.

(** ** Stopping *)

(** How many steps of its own [Serve] is from its return at most, once cancelled. *)
Definition to_return (p : place) : nat :=
  match p with
  | binding | closing _ true => 3
  | accepting true | closing _ false => 2
  | retrying | accepting false => 1
  | returned => 0
  end.

(** What the process does by itself: not what clients, the timer, failing system calls and
    whoever stops the agent do. *)
Definition own (e : probe_event) : bool :=
  match e with client _ | accept_fails | timer | cancel => false | _ => true end.

(** A cancelled responder that has not returned can go on by itself. *)
Lemma cancelled_goes_on s :
  rp_cancelled s = true -> rp_place s <> returned -> exists e s', own e = true /\ Serve_step e s = Some s'.
Proof.
  destruct s as [p ca cs]. cbn [rp_cancelled rp_place]. intros -> Hp.
  destruct p as [| |[]|n []|];
    [exists (listen false)|exists done_case|exists close_listener|exists accept_closed|exists close_conn|exists close_conn|done];
    by eexists.
Qed.

Lemma own_step_nearer e s s' :
  rp_cancelled s = true -> own e = true -> Serve_step e s = Some s' ->
  rp_cancelled s' = true /\ (to_return (rp_place s') < to_return (rp_place s))%nat.
Proof. intros Hc Ho E. responder_cases e s; injection E as <-; cbn; (split; [done|lia]). Qed.

Lemma Serve_steps_cons e es s : Serve_steps (e :: es) s = Serve_step e s ≫= Serve_steps es.
Proof. unfold Serve_steps. cbn. destruct (Serve_step e s) as [s'|]; [done|]. cbn. by induction es. Qed.

(** However it goes on by itself, it does so until it has returned, and that is soon. *)
Lemma cancelled_returns es s s' :
  rp_cancelled s = true -> Forall (fun e => own e = true) es -> Serve_steps es s = Some s' ->
  (length es <= 3)%nat /\ (rp_place s' = returned \/ exists e s'', own e = true /\ Serve_step e s' = Some s'').
Proof.
  intros Hc Ho E. enough ((length es + to_return (rp_place s') <= to_return (rp_place s))%nat /\ rp_cancelled s' = true) as [Hl Hc'].
  { split; [destruct s as [[| |[]|n []|] ca cs]; cbn in *; lia|].
    destruct (decide (rp_place s' = returned)) as [?|Hn]; [by left|right; by apply cancelled_goes_on]. }
  revert s Hc E. induction Ho as [|e es Hoe Hos IH]; intros s Hc E.
  - injection E as <-. split; [cbn; lia|done].
  - rewrite Serve_steps_cons in E. destruct (Serve_step e s) as [s1|] eqn:E1; [|done].
    destruct (own_step_nearer e s s1 Hc Hoe E1) as [Hc1 Hlt]. destruct (IH s1 Hc1 E) as [Hl Hc']. split; [cbn; lia|done].
Qed.

(** A responder that was not cancelled keeps trying until it listens. *)
Lemma uncancelled_place addr s :
  up_until_cancelled s -> rp_cancelled s = false -> rp_place s = binding \/ rp_place s = retrying \/ listens_at addr s = Some addr.
Proof.
  unfold up_until_cancelled, listens_at. intros Hr Hc. rewrite Hc in Hr.
  destruct (rp_place s) as [| |[]|n []|]; auto; done.
Qed.
