(* ===== verification/Tunnel.v ===== *)
(** Addresses inside the tunnel: where the agent's latency probe listens and where clients
    look for it, and the IPv6 addresses of a gateway that changed its network. *)
From S2P Require Import Prelude Floats Model GoStrings NetAddr Alloc Json Http Db Session StoreGateways StoreIdentity StoreConnections Schema System Demo Agent Api Probe.

(** ** The latency probe *)

Lemma Cut_slash v s : has_char "/" v = false -> Cut "/" (v +:+ "/" +:+ s) = Some (v, s).
Proof. apply Cut_app. Qed.

(** The bytes of the address of a host in a network of at most 256 addresses. *)
Lemma host_bytes a b c d v k h :
  is_byte a -> is_byte b -> is_byte c -> is_byte d -> Uint32 [a; b; c; d] = Some v -> 0 <= k <= 8 -> v mod 2 ^ k = 0 ->
  0 <= h < 2 ^ k -> PutUint32 (v + h) = [a; b; c; (v + h) mod 256].
Proof.
  unfold is_byte. intros Ha Hb Hc Hd Hv Hk Hm Hh. cbn in Hv. injection Hv as <-.
  change (Z.pow_pos 2 24) with 16777216 in *. change (Z.pow_pos 2 16) with 65536 in *. change (Z.pow_pos 2 8) with 256 in *.
  set (v := a * 16777216 + b * 65536 + c * 256 + d) in *.
  assert (Hd8 : d + h < 256).
  { apply Z.mod_divide in Hm as [q Hq]; [|lia].
    assert (Hp : 256 = 2 ^ (8 - k) * 2 ^ k) by (rewrite <- Z.pow_add_r by lia; replace (8 - k + k) with 8 by lia; done).
    set (p := 2 ^ k) in *. set (r := 2 ^ (8 - k)) in *. assert (0 < p /\ 0 < r) by lia.
    assert (Hdq : d = (q - (a * 65536 + b * 256 + c) * r) * p) by (unfold v in Hq; nia).
    set (x := q - (a * 65536 + b * 256 + c) * r) in *. clearbody x p r. clear Hq v.
    assert (x < r) by nia. nia. }
  unfold PutUint32. change (2 ^ 24) with 16777216. change (2 ^ 16) with 65536. change (2 ^ 8) with 256. unfold v.
  repeat f_equal; lia.
Qed.

(** Both addresses are the first of the block of 256 the network lies in. *)
Lemma probe_host_agrees cidr c6 used v4 v6 n ip port :
  ParseCIDR cidr = Some n -> To4 (net_IP n) = Some ip -> mask_bits n - mask_ones n <= 8 ->
  allocateHost cidr c6 used = Ok (v4, v6) ->
  exists host, InsideIP cidr = Ok host /\ gatewayProbeAddr (v4 +:+ "/32") port = JoinHostPort host (Itoa port).
Proof.
  intros Hn H4 Hk Ha. destruct (network_bytes _ _ _ Hn H4) as [Hl Hb].
  destruct (network_aligned _ _ _ Hn H4) as (v & Hv & Hk0 & Hv32 & Hm).
  destruct (four_bytes ip Hl Hb) as (a & b & c & d & -> & Ba & Bb & Bc & Bd).
  exists (ipv4_string [a; b; c; 1]). split.
  { unfold InsideIP. rewrite Hn, H4. unfold IP_String. by rewrite To4_mapped. }
  assert (Hnet : network cidr v n) by (split; [done|]; by rewrite H4).
  pose proof (allocateHost_cases cidr c6 used v n Hnet) as Hc. rewrite Ha in Hc. destruct Hc as (h & Hh & -> & _).
  destruct Hh as (Hh & _). unfold is_host, host_limit in Hh.
  rewrite (host_bytes a b c d v _ h Ba Bb Bc Bd Hv (conj (proj1 Hk0) Hk) Hm) by lia.
  set (x := (v + h) mod 256). assert (Bx : is_byte x) by (unfold x, is_byte; lia).
  unfold gatewayProbeAddr. change "/32" with ("/" +:+ "32").
  rewrite Cut_slash by (apply ipv4_string_chars; [by forall_list|auto]).
  rewrite ParseIP_ipv4_string by done. cbn [mbind option_bind]. by rewrite To4_mapped.
Qed.

(** C40: in a network of at most 256 addresses the agent's responder is where the client is
    told to probe, the .1 of the last byte. Until the agent is stopped the responder tries to
    bind to that address or listens there; no client's connection is open but the one just
    accepted, which is closed before the next is; and once the agent is stopped, the steps the
    process takes by itself (not counting clients that still arrive, failing system calls and
    a timer that is due) do not end before [Serve] has returned, are three at most, and leave
    nobody listening. *)
Theorem probe_address_agrees (cfg : config) c6 used v4 v6 n ip :
  ParseCIDR (r_WGSubnetV4 (reg cfg)) = Some n -> To4 (net_IP n) = Some ip -> mask_bits n - mask_ones n <= 8 ->
  allocateHost (r_WGSubnetV4 (reg cfg)) c6 used = Ok (v4, v6) ->
  let addr := gatewayProbeAddr (v4 +:+ "/32") (probePort cfg) in
  probe_address cfg = Some addr /\
  forall s, rtc serves Serve_start s ->
    closes_what_it_accepts s /\
    (rp_cancelled s = false -> rp_place s = binding \/ rp_place s = retrying \/ listens_at addr s = Some addr) /\
    (rp_place s = returned -> rp_cancelled s = true /\ listens_at addr s = None) /\
    (rp_cancelled s = true -> forall es s', Forall (fun e => own e = true) es -> Serve_steps es s = Some s' ->
       (length es <= 3)%nat /\ (rp_place s' = returned \/ exists e s'', own e = true /\ Serve_step e s' = Some s'')).
Proof.
  intros Hn H4 Hk Ha addr. destruct (probe_host_agrees _ c6 used v4 v6 n ip (probePort cfg) Hn H4 Hk Ha) as (host & Ei & Eg).
  split; [unfold probe_address; rewrite Ei; by unfold addr; rewrite Eg|]. intros s Hs. apply sound_reachable in Hs as [Hc Hu].
  splits; [done|by apply uncancelled_place| |by intros; eapply cancelled_returns].
  intros Hp. unfold up_until_cancelled in Hu. unfold listens_at. by rewrite Hp in Hu |- *.
Qed.

Definition probed_agent : config :=
  mkConfig "" "wg0" "eth0" "" "" 1 51821 (mkRegistration "" "" "" "" "" "" 0 "" "10.7.1.64/26" "" 0 0 None None).

(** One client has been answered, one is about to be, and the agent is told to stop. *)
Definition two_clients : list probe_event := [listen false; timer; listen true; client 7; close_conn; client 8; cancel].
Definition stopping : responder := mkResponder (closing 8 true) true [(8%nat, true); (7%nat, false)].

Lemma Serve_steps_serves es s s' : Serve_steps es s = Some s' -> rtc serves s s'.
Proof.
  revert s. induction es as [|e es IH]; intros s E; [by injection E as <-|]. rewrite Serve_steps_cons in E.
  destruct (Serve_step e s) as [s1|] eqn:E1; [|done]. apply (rtc_l _ _ s1); [by exists e|by apply IH].
Qed.

Lemma probe_address_agrees_witness :
  let addr := gatewayProbeAddr "10.7.1.66/32" 51821 in
  probe_address probed_agent = Some addr /\ listens_at addr stopping = Some "10.7.1.1:51821" /\
  closes_what_it_accepts stopping /\
  exists s', Serve_steps [close_listener; close_conn; accept_closed] stopping = Some s' /\ rp_place s' = returned /\
    (length [close_listener; close_conn; accept_closed] <= 3)%nat.
Proof.
  destruct (probe_address_agrees probed_agent None ∅ "10.7.1.66" None (mkIPNet [10; 7; 1; 64] 26 32) [10; 7; 1; 64]) as [Ha Hr].
  - vm_compute. reflexivity.
  - reflexivity.
  - by vm_compute.
  - vm_compute. reflexivity.
  - destruct (Hr stopping) as (Hc & _ & _ & Hstop); [by apply (Serve_steps_serves two_clients)|].
    split; [exact Ha|]. split; [vm_compute; reflexivity|]. split; [exact Hc|]. eexists. split; [reflexivity|]. split; [reflexivity|].
    apply (Hstop eq_refl [close_listener; close_conn; accept_closed] _ ltac:(by repeat constructor) eq_refl).
Defined.

(** In a wider network they differ: past the first 253 clients, the probe is looked for
    where no agent listens. *)
Example probe_address_differs :
  InsideIP "10.7.0.0/16" = Ok "10.7.0.1" /\
  gatewayProbeAddr "10.7.1.0/32" 51821 = "10.7.1.1:51821" /\
  InsideIP "10.7.1.128/25" = Ok "10.7.1.1".
Proof. vm_compute. repeat split. Qed.

(** ** A gateway that changes its network *)

#[local] Existing Instance demo_pg.

Definition dual_registration (net : string) : GatewayRegistration :=
  mkGatewayRegistration "de-1" "de" "Germany" "" "" "192.0.2.1" 51820 "gwkey" net "fd07::/64" 250 1000 None None.

(** A gateway registers, a client connects, the gateway registers again with another IPv4
    network, and a second client connects. *)
Definition renumbering : list call := [
  fine (RegisterGateway_ (dual_registration "10.7.50.0/24")) 1000 ["loc1"; "gw1"] [random_a];
  fine (Heartbeat_ hash_a (mkGatewayMetrics 0 Fzero 0 0)) 2000 [] [];
  fine (CreateInvite_ "INVITE" "for Ana" None) 3000 [] [];
  fine (Enroll_ demo_enroll Hour) 4000 ["user1"; "dev1"; "tok1"] [random_b];
  fine (CreateDevice_ "user1" (mkDeviceRegistration "laptop" "linux" "laptopkey") Hour) 4500 ["dev2"; "tok2"] [random_c];
  fine (CreateConnection_ "user1" "dev1" "de" Hour TTL) 5000 ["lease1"] [];
  fine (RegisterGateway_ (dual_registration "10.8.0.0/24")) 6000 ["x"; "y"] [random_a];
  fine (Heartbeat_ hash_a (mkGatewayMetrics 1 Fzero 0 0)) 7000 [] [];
  fine (CreateConnection_ "user1" "dev2" "de" Hour TTL) 8000 ["lease2"] []
].

(** The IPv6 address is counted from the IPv4 host alone: both leases, active at the same
    time on the same gateway, carry the same one. *)
Example renumbering_shares_v6 :
  let db := (exec renumbering empty_db).2 in
  (fun l => (le_gateway_id l, le_state l, le_assigned_ip_v4 l, le_assigned_ip_v6 l)) <$> [leases db !! "lease1"; leases db !! "lease2"] ≫= option_list =
  [("gw1", Active, "10.7.50.2", Some "fd07::2"); ("gw1", Active, "10.8.0.2", Some "fd07::2")].
Proof. vm_compute. reflexivity. Qed.
