(* ===== verification/Control.v ===== *)
(** The control plane's process: [control-plane/cmd/aevora-controld/main.go] and the gauges of
    [internal/metrics/metrics.go]. After its start the process serves requests while the
    reaper and the sweep of the rate limiter run beside them; each is one step. *)
From S2P Require Import Prelude Floats Model GoStrings GoTime Strconv Config Jwt Password Ratelimit Alloc Db Session StoreGateways StoreIdentity StoreConnections Schema Steps System Demo Seed Executions Http Api ApiDemo ApiSafety.

(** The configuration given to [api.NewServer]. *)
Definition server_config (cfg : Config.Config) : ServerConfig := {|
  EnrollmentSecret := Config.EnrollmentSecret cfg;
  AdminToken := Config.AdminToken cfg;
  HeartbeatTTL := Config.HeartbeatTTL cfg;
  JWTSecret := Config.JWTSecret cfg;
  AccessTTL := Config.AccessTTL cfg;
  RefreshTTL := Config.RefreshTTL cfg;
  LeaseTTL := Config.LeaseTTL cfg;
  ClientDNS := Config.ClientDNS cfg;
  ProbePort := Config.ProbePort cfg;
  AuthRatePerMin := Config.AuthRatePerMin cfg;
  AuthBurst := Config.AuthBurst cfg;
  TrustProxy := Config.TrustProxy cfg
|}.

(** The gauges of the fleet, by status, and of the sessions. *)
Record gauges := mkGauges { gatewaysByStatus : gmap string float64; activeSessions : float64 }.

(** [UpdateFleet]: the old gauges are reset. *)
Definition UpdateFleet (counts : gmap string Z) (active : Z) : gauges := mkGauges (Fof_Z <$> counts) (Fof_Z active).

Section control.
Context `{PostgresOrder} `{Argon2} `{Rate} (metrics_page : Request -> Reply).

#[local] Existing Instance pg_store.

Record process := mkProcess {
  pr_session : session;
  pr_limiter : Limiter;
  pr_gauges : gauges;
  pr_metrics : list metric      (* the increments of the counters, latest first *)
}.

(** What happens to the process, with the outcomes of the statements and the random values
    it meets. *)
Inductive step_of :=
| a_request (r : Request) (c : Clock)
| a_reaper_tick (c1 c2 c3 c4 : Clock)
| a_limiter_sweep (t : Time).
Record happening := mkHappening {
  hp_step : step_of;
  hp_faults : list fault;
  hp_uuids : list string;
  hp_rand : list (list Z)
}.

Definition happen (cfg : Config.Config) (h : happening) (p : process) : process :=
  let s := mkSession (s_db (pr_session p)) (hp_faults h) (hp_uuids h) (hp_rand h) in
  match hp_step h with
  | a_request r c =>
      let '(resp, l', s') := ServeHTTP (server_config cfg) metrics_page r c (pr_limiter p) s in
      mkProcess s' l' (pr_gauges p) (rev resp.2 ++ pr_metrics p)
  | a_reaper_tick c1 c2 c3 c4 =>
      let '(m, s') := reaper_tick (Config.HeartbeatTTL cfg) c1 c2 c3 c4 s in
      mkProcess s' (pr_limiter p)
        (match m with Some (counts, active) => UpdateFleet counts active | None => pr_gauges p end) (pr_metrics p)
  | a_limiter_sweep t => mkProcess s (Cleanup t (pr_limiter p)) (pr_gauges p) (pr_metrics p)
  end.

(** How it ends: [ListenAndServe] gives up, or a signal comes. Then the background work is
    cancelled (of a pass of the reaper under way the remaining statements are lost), no
    connection is accepted any more, and [srv.Shutdown] waits for the requests under way;
    [drained] if they end within [ShutdownGrace]. *)
Record arrival := mkArrival {
  ar_request : Request;
  ar_clock : Clock;
  ar_faults : list fault;
  ar_uuids : list string;
  ar_rand : list (list Z)
}.
Inductive ending :=
| serve_failed
| signalled (under_way : list arrival) (drained : bool).

Definition finish (cfg : Config.Config) (a : arrival) : process -> process :=
  happen cfg (mkHappening (a_request (ar_request a) (ar_clock a)) (ar_faults a) (ar_uuids a) (ar_rand a)).

(** The select of [run]: what it returns, and the process it leaves. *)
Definition wind_down (cfg : Config.Config) (fin : ending) (p : process) : result () () * process :=
  match fin with
  | serve_failed => (Err (), p)
  | signalled under_way drained => (if drained then Ok () else Err (), foldl (fun p a => finish cfg a p) p under_way)
  end.

(** [run], from the session [store.New] and [Migrate] leave ([None] is an error of one of
    them), with the development data when it is asked for. [time.NewTicker] panics on an
    interval that is not positive, in a goroutine of its own: the process dies of it. *)
Definition run_control (env : Environ) (opened : option session) (c : Clock) (hs : list happening) (fin : ending)
    : result () (result () () * process) :=
  let cfg := Config.FromEnv env in
  match opened with
  | None => Err ()
  | Some s =>
      match if Config.DevSeed cfg then SeedDev c s else (Ok (), s) with
      | (Ok _, s1) =>
          if Config.ReaperInterval cfg <=? 0 then Panic
          else Ok (wind_down cfg fin
                     (foldl (fun p h => happen cfg h p) (mkProcess s1 (NewServer (server_config cfg)) (mkGauges ∅ Fzero) []) hs))
      | (Err _, _) => Err ()
      | (Panic, _) => Panic
      end
  end.

(** The exit status of [main]: an error of [run] is logged as fatal. *)
Definition exit_status (x : result () (result () () * process)) : Z :=
  match x with Ok (Ok _, _) => 0 | Ok _ | Err _ => 1 | Panic => 2 end.

Lemma reaper_tick_good ttl c1 c2 c3 c4 s m s' :
  wf (s_db s) -> reaper_tick ttl c1 c2 c3 c4 s = (m, s') -> good (s_db s) (s_db s').
Proof.
  intros Hwf. unfold reaper_tick.
  destruct (MarkStaleUnhealthy ttl c1 s) as [r1 s1] eqn:E1. destruct (ExpireStaleLeases c2 s1) as [r2 s2] eqn:E2.
  destruct (ExpireLeasesOnUnhealthyGateways c3 s2) as [r3 s3] eqn:E3. destruct (FleetSnapshot c4 s3) as [r4 s4] eqn:E4.
  intros E. injection E as _ <-. assert (H0' : sound (s_db s) (s_db s)) by (by split).
  assert (Hserve : forall q c t rr t', sound (s_db s) (s_db t) -> serve q c t = (rr, t') -> sound (s_db s) (s_db t')).
  { intros q c t rr t' Hs Et. exact (serve_sound (s_db s) q c t rr t' Hs Et). }
  assert (Hdiscard : forall A (op : M A) c t rr t', op c t = (rr, t') -> exists rr', discard op c t = (rr', t')).
  { intros A op c t rr t' Et. unfold discard, bind. rewrite Et. destruct rr; eauto. }
  apply Hdiscard in E1 as [? E1], E2 as [? E2], E3 as [? E3], E4 as [? E4].
  apply (Hserve (MarkStaleUnhealthy_ ttl)) in E1; [|done]. apply (Hserve ExpireStaleLeases_) in E2; [|done].
  apply (Hserve ExpireLeasesOnUnhealthyGateways_) in E3; [|done]. by apply (Hserve FleetSnapshot_) in E4.
Qed.

Lemma happen_good cfg h p : wf (s_db (pr_session p)) -> good (s_db (pr_session p)) (s_db (pr_session (happen cfg h p))).
Proof.
  intros Hwf. unfold happen. set (s := mkSession _ _ _ _). destruct (hp_step h) as [r c|c1 c2 c3 c4|t].
  - destruct (ServeHTTP _ _ _ _ _ _) as [[resp l'] s'] eqn:E. by apply (ServeHTTP_good _ _ _ _ _ s) in E.
  - destruct (reaper_tick _ _ _ _ _ _) as [m s'] eqn:E. by apply reaper_tick_good in E.
  - by split.
Qed.

(** Along steps that keep the tables. *)
Lemma foldl_good {B} (f : process -> B -> process) db l p :
  (forall b p, wf (s_db (pr_session p)) -> good (s_db (pr_session p)) (s_db (pr_session (f p b)))) ->
  good db (s_db (pr_session p)) -> good db (s_db (pr_session (foldl f p l))).
Proof.
  intros Hf. revert p. induction l as [|b l IH]; intros p Hg; [done|]. cbn [foldl]. apply IH. destruct Hg as [Hwf1 Hev].
  destruct (Hf b p Hwf1) as [Hwf2 Hev2]. split; [done|]. by transitivity (s_db (pr_session p)).
Qed.

(** C2: the control plane, whatever its environment says and whatever happens to it: with
    the tables migrated it starts unless the reaper's interval is not positive or the
    development data it was asked for cannot be added; from its start to its end, as long as
    its requests and the passes of its reaper come one after the other, the tables stay well
    formed and no row goes back in its life cycle; and it exits with status 0 exactly when a
    signal stopped it and the requests under way ended in time. Requests that overlap, which
    net/http allows, are not covered: they can leave a device with two active leases
    ([Races.overlaps_break]); what they keep is in [Contention]. *)
Theorem control_plane_keeps_tables env s c hs fin :
  wf (s_db s) ->
  match run_control env (Some s) c hs fin with
  | Ok (_, p) => 0 < Config.ReaperInterval (Config.FromEnv env) /\ good (s_db s) (s_db (pr_session p))
  | Panic => Config.ReaperInterval (Config.FromEnv env) <= 0
  | Err _ => Config.DevSeed (Config.FromEnv env) = true /\ exists e, (SeedDev c s).1 = Err e
  end /\
  (exit_status (run_control env (Some s) c hs fin) = 0 <->
   is_ok (run_control env (Some s) c hs fin) = true /\ exists under_way, fin = signalled under_way true).
Proof.
  intros Hwf. unfold run_control. set (cfg := Config.FromEnv env).
  destruct (if Config.DevSeed cfg then SeedDev c s else (Ok (), s)) as [r s1] eqn:Es.
  assert (Hs1 : sound (s_db s) (s_db s1)).
  { destruct (Config.DevSeed cfg); [|injection Es as _ <-; by split]. by apply (keeps_SeedDev (s_db s) c s r s1). }
  destruct r as [[]|e|].
  2: { split; [|split; [done|by intros [? _]]].
       destruct (Config.DevSeed cfg); [|done]. split; [done|]. exists e. by rewrite Es. }
  2: { exfalso. destruct (Config.DevSeed cfg); [|done]. by apply (SeedDev_panics_not c s s1). }
  destruct (_ <=? 0) eqn:Ei; to_prop; [split; [done|split; [done|by intros [? _]]]|].
  set (p := mkProcess _ _ _ _). set (p1 := foldl _ p hs).
  assert (Hg : good (s_db s) (s_db (pr_session p1))) by (apply foldl_good; [intros h q; apply happen_good|exact Hs1]).
  destruct fin as [|under_way drained]; cbn [wind_down exit_status is_ok].
  - split; [by split|]. split; [done|]. by intros (_ & ? & ?).
  - split; [split; [done|]; apply foldl_good; [intros a q; apply happen_good|done]|].
    destruct drained; cbn [exit_status]; split; try done.
    + intros _. split; [done|]. by exists under_way.
    + by intros (_ & ? & [= _ ?]).
Qed.

End control.

(** ** Witness *)

#[local] Existing Instances demo_pg toy_argon2 toy_rate.

(** Development data, a request whose commit is lost, a tick of the reaper and a sweep, and a
    request that is under way when the signal comes. *)
Lemma control_plane_keeps_tables_witness :
  let env := {[ "AEVORA_DEV_SEED" := "1" ]} in
  let s := mkSession demo_db [] ["l1"; "l2"; "l3"; "g1"; "g2"; "g3"] [] in
  let hs := [mkHappening (a_request connect_request (at_time 6000)) [Fine; Late] ["lease2"] [random_c];
             mkHappening (a_reaper_tick (at_time 7000) (at_time 7001) (at_time 7002) (at_time 7003)) [] [] [];
             mkHappening (a_limiter_sweep 8000) [] [] []] in
  let fin := signalled [mkArrival connect_request (at_time 8001) [] ["lease3"] []] true in
  exists p, run_control plain_page env (Some s) (at_time 5500) hs fin = Ok (Ok (), p) /\ good demo_db (s_db (pr_session p)) /\
    option_map g_name (gateways (s_db (pr_session p)) !! "g3") = Some "sg-sin-1" /\
    exit_status (run_control plain_page env (Some s) (at_time 5500) hs fin) = 0.
Proof.
  intros env s hs fin. destruct (control_plane_keeps_tables plain_page env s (at_time 5500) hs fin demo_wf) as [Hr He].
  assert (Eg : match run_control plain_page env (Some s) (at_time 5500) hs fin with
               | Ok (Ok _, p) => option_map g_name (gateways (s_db (pr_session p)) !! "g3") | _ => None end = Some "sg-sin-1")
    by (vm_compute; reflexivity).
  destruct (run_control plain_page env (Some s) (at_time 5500) hs fin) as [[[[]|e|] p]|e|] eqn:E;
    [|discriminate Eg|discriminate Eg|discriminate Eg|discriminate Eg].
  exists p. split; [done|]. split; [exact (proj2 Hr)|]. split; [exact Eg|]. apply He. split; [done|].
  by exists [mkArrival connect_request (at_time 8001) [] ["lease3"] []].
Defined.
